(** * hipFFT on the rocFFT backend: plan translation and execution dispatch

    A shallow embedding of [library/src/amd_detail/hipfft.cpp] and of the
    callback declarations of [library/include/hipfftXt.h].

    The backend (rocFFT and the HIP runtime) is external: every call that
    the translation layer issues to it is recorded, with the answer, in a
    trace, and the answers are drawn from an arbitrary function of the
    history of calls.  A theorem that quantifies over this function holds
    for every behaviour of the backend. *)

From Stdlib Require Import ZArith Lia List Bool PrimFloat RelationClasses.
From Stdlib Require Import Ascii.
From stdpp Require Import list.
Import ListNotations.
Local Open Scope Z_scope.

(** ** Enumerations *)

(** [hipfftResult] (declared in hipfft.h): the enumerators that hipfft.cpp
    returns. *)
Inductive hipfftResult : Type :=
| HIPFFT_SUCCESS
| HIPFFT_INVALID_PLAN
| HIPFFT_ALLOC_FAILED
| HIPFFT_INVALID_TYPE
| HIPFFT_INVALID_VALUE
| HIPFFT_INTERNAL_ERROR
| HIPFFT_EXEC_FAILED
| HIPFFT_INVALID_SIZE
| HIPFFT_PARSE_ERROR
| HIPFFT_NOT_IMPLEMENTED.

(** [hipfftType] (hipfft.h).  [HIPFFT_TYPE_OTHER] stands for any value that
    is none of the six enumerators: the [default] arm of
    [hipfftIOType::init(hipfftType)]. *)
Inductive hipfftType : Type :=
| HIPFFT_R2C | HIPFFT_C2R | HIPFFT_C2C
| HIPFFT_D2Z | HIPFFT_Z2D | HIPFFT_Z2Z
| HIPFFT_TYPE_OTHER.

(** [hipDataType] (HIP runtime).  hipfft.cpp names six of its enumerators;
    [HIP_DATATYPE_OTHER] stands for every other one (the integer and
    bfloat16 formats such as HIP_R_8I or HIP_R_16BF): the [default] arm of
    [hipfftIOType::init(hipDataType, hipDataType, hipDataType)]. *)
Inductive hipDataType : Type :=
| HIP_R_16F | HIP_C_16F
| HIP_R_32F | HIP_C_32F
| HIP_R_64F | HIP_C_64F
| HIP_DATATYPE_OTHER.

Inductive rocfft_precision : Type :=
| rocfft_precision_single
| rocfft_precision_double
| rocfft_precision_half.

Inductive rocfft_transform_type : Type :=
| rocfft_transform_type_complex_forward
| rocfft_transform_type_complex_inverse
| rocfft_transform_type_real_forward
| rocfft_transform_type_real_inverse.

Inductive rocfft_result_placement : Type :=
| rocfft_placement_inplace
| rocfft_placement_notinplace.

Inductive rocfft_array_type : Type :=
| rocfft_array_type_complex_interleaved
| rocfft_array_type_real
| rocfft_array_type_hermitian_interleaved.

(** hipfftXt.h, lines 40-52. *)
Inductive hipfftXtCallbackType : Type :=
| HIPFFT_CB_LD_COMPLEX
| HIPFFT_CB_LD_COMPLEX_DOUBLE
| HIPFFT_CB_LD_REAL
| HIPFFT_CB_LD_REAL_DOUBLE
| HIPFFT_CB_ST_COMPLEX
| HIPFFT_CB_ST_COMPLEX_DOUBLE
| HIPFFT_CB_ST_REAL
| HIPFFT_CB_ST_REAL_DOUBLE
| HIPFFT_CB_UNDEFINED.

Definition hipfftResult_eqb (a b : hipfftResult) : bool :=
  match a, b with
  | HIPFFT_SUCCESS, HIPFFT_SUCCESS
  | HIPFFT_INVALID_PLAN, HIPFFT_INVALID_PLAN
  | HIPFFT_ALLOC_FAILED, HIPFFT_ALLOC_FAILED
  | HIPFFT_INVALID_TYPE, HIPFFT_INVALID_TYPE
  | HIPFFT_INVALID_VALUE, HIPFFT_INVALID_VALUE
  | HIPFFT_INTERNAL_ERROR, HIPFFT_INTERNAL_ERROR
  | HIPFFT_EXEC_FAILED, HIPFFT_EXEC_FAILED
  | HIPFFT_INVALID_SIZE, HIPFFT_INVALID_SIZE
  | HIPFFT_PARSE_ERROR, HIPFFT_PARSE_ERROR
  | HIPFFT_NOT_IMPLEMENTED, HIPFFT_NOT_IMPLEMENTED => true
  | _, _ => false
  end.

Definition hipDataType_eqb (a b : hipDataType) : bool :=
  match a, b with
  | HIP_R_16F, HIP_R_16F | HIP_C_16F, HIP_C_16F
  | HIP_R_32F, HIP_R_32F | HIP_C_32F, HIP_C_32F
  | HIP_R_64F, HIP_R_64F | HIP_C_64F, HIP_C_64F
  | HIP_DATATYPE_OTHER, HIP_DATATYPE_OTHER => true
  | _, _ => false
  end.

Definition rocfft_precision_eqb (a b : rocfft_precision) : bool :=
  match a, b with
  | rocfft_precision_single, rocfft_precision_single
  | rocfft_precision_double, rocfft_precision_double
  | rocfft_precision_half, rocfft_precision_half => true
  | _, _ => false
  end.

Definition rocfft_array_type_eqb (a b : rocfft_array_type) : bool :=
  match a, b with
  | rocfft_array_type_complex_interleaved, rocfft_array_type_complex_interleaved
  | rocfft_array_type_real, rocfft_array_type_real
  | rocfft_array_type_hermitian_interleaved,
    rocfft_array_type_hermitian_interleaved => true
  | _, _ => false
  end.

(** ** Machine integers and pointers *)

(** [size_t] is the 64-bit unsigned type of the platforms the backend runs
    on; its arithmetic wraps modulo [2^64]. *)
Definition size_t_modulus : Z := 2 ^ 64.
Definition to_size_t (z : Z) : Z := z mod size_t_modulus.
Definition size_mul (a b : Z) : Z := to_size_t (a * b).
Definition size_add (a b : Z) : Z := to_size_t (a + b).

(** Pointers and opaque backend handles are addresses; [nullptr] is 0. *)
Definition pointer : Type := Z.
Definition nullptr : pointer := 0.
Definition is_null (p : pointer) : bool := p =? nullptr.

(** Modelled from the spec: the macros [HIPFFT_FORWARD] and
    [HIPFFT_BACKWARD] are defined in hipfft.h, which is not among the
    sources; the spec names them as the forward and backward direction
    constants.  They are two distinct [int] values (both label a [case] of
    one [switch] at lines 1129-1135); the values are those of the cuFFT
    interface that hipfft.h mirrors. *)
Definition HIPFFT_FORWARD : Z := -1.
Definition HIPFFT_BACKWARD : Z := 1.

(** ** [struct hipfftIOType] (hipfft.cpp, lines 73-236) *)

Module hipfftIOType.

Record t : Type := Build {
  inputType : hipDataType;
  outputType : hipDataType
}.

(** Default member initialisers, lines 75-76. *)
Definition default : t :=
  {| inputType := HIP_C_32F; outputType := HIP_C_32F |}.

(** [init(hipfftType)], lines 81-113: the result and the object after the
    call. *)
Definition init_type (self : t) (type : hipfftType) : hipfftResult * t :=
  match type with
  | HIPFFT_R2C => (HIPFFT_SUCCESS, Build HIP_R_32F HIP_C_32F)
  | HIPFFT_C2R => (HIPFFT_SUCCESS, Build HIP_C_32F HIP_R_32F)
  | HIPFFT_C2C => (HIPFFT_SUCCESS, Build HIP_C_32F HIP_C_32F)
  | HIPFFT_D2Z => (HIPFFT_SUCCESS, Build HIP_R_64F HIP_C_64F)
  | HIPFFT_Z2D => (HIPFFT_SUCCESS, Build HIP_C_64F HIP_R_64F)
  | HIPFFT_Z2Z => (HIPFFT_SUCCESS, Build HIP_C_64F HIP_C_64F)
  | HIPFFT_TYPE_OTHER => (HIPFFT_NOT_IMPLEMENTED, self)
  end.

Definition neq (a b : hipDataType) : bool := negb (hipDataType_eqb a b).

(** [init(input, output, exec)], lines 116-155. *)
Definition init (self : t) (input output exec : hipDataType)
  : hipfftResult * t :=
  let accept := (HIPFFT_SUCCESS, Build input output) in
  let reject := (HIPFFT_INVALID_VALUE, self) in
  match input with
  | HIP_R_16F =>
      if neq output HIP_C_16F || neq exec HIP_C_16F then reject else accept
  | HIP_R_32F =>
      if neq output HIP_C_32F || neq exec HIP_C_32F then reject else accept
  | HIP_R_64F =>
      if neq output HIP_C_64F || neq exec HIP_C_64F then reject else accept
  | HIP_C_16F =>
      if (neq output HIP_C_16F && neq output HIP_R_16F)
         || neq exec HIP_C_16F then reject else accept
  | HIP_C_32F =>
      if (neq output HIP_C_32F && neq output HIP_R_32F)
         || neq exec HIP_C_32F then reject else accept
  | HIP_C_64F =>
      if (neq output HIP_C_64F && neq output HIP_R_64F)
         || neq exec HIP_C_64F then reject else accept
  | HIP_DATATYPE_OTHER => (HIPFFT_NOT_IMPLEMENTED, self)
  end.

(** The three switches below have no [default] in the source: on a tag
    outside the six, control leaves a value-returning function without a
    [return], which C++ leaves undefined.  Both [init] functions store
    only the six tags (lemmas [init_stores_fft_types] and
    [init_type_stores_fft_types]), so the last arm is never reached from
    a plan that was built through them. *)

(** [precision()], lines 157-171. *)
Definition precision (self : t) : rocfft_precision :=
  match inputType self with
  | HIP_R_16F | HIP_C_16F => rocfft_precision_half
  | HIP_C_32F | HIP_R_32F => rocfft_precision_single
  | HIP_R_64F | HIP_C_64F => rocfft_precision_double
  | HIP_DATATYPE_OTHER => rocfft_precision_single
  end.

(** [is_real_to_complex()], lines 173-186. *)
Definition is_real_to_complex (self : t) : bool :=
  match inputType self with
  | HIP_R_16F | HIP_R_32F | HIP_R_64F => true
  | HIP_C_16F | HIP_C_32F | HIP_C_64F => false
  | HIP_DATATYPE_OTHER => false
  end.

(** [is_complex_to_real()], lines 188-201. *)
Definition is_complex_to_real (self : t) : bool :=
  match outputType self with
  | HIP_R_16F | HIP_R_32F | HIP_R_64F => true
  | HIP_C_16F | HIP_C_32F | HIP_C_64F => false
  | HIP_DATATYPE_OTHER => false
  end.


(** [is_forward(type)], lines 208-219. *)
Definition is_forward (type : rocfft_transform_type) : bool :=
  match type with
  | rocfft_transform_type_complex_forward
  | rocfft_transform_type_real_forward => true
  | rocfft_transform_type_complex_inverse
  | rocfft_transform_type_real_inverse => false
  end.

(** [transform_types()], lines 221-235. *)
Definition transform_types (self : t) : list rocfft_transform_type :=
  if is_real_to_complex self then [rocfft_transform_type_real_forward]
  else if is_complex_to_real self then [rocfft_transform_type_real_inverse]
  else [rocfft_transform_type_complex_forward;
        rocfft_transform_type_complex_inverse].

End hipfftIOType.

(** ** [struct hipfftHandle_t] (lines 238-262) *)

Record hipfftHandle_t : Type := Build_plan {
  type : hipfftIOType.t;
  ip_forward : pointer;
  op_forward : pointer;
  ip_inverse : pointer;
  op_inverse : pointer;
  info : pointer;
  workBuffer : pointer;
  workBufferSize : Z;
  autoAllocate : bool;
  workBufferNeedsFree : bool;
  load_callback_ptrs : pointer;
  load_callback_data : pointer;
  load_callback_lds_bytes : Z;
  store_callback_ptrs : pointer;
  store_callback_data : pointer;
  store_callback_lds_bytes : Z;
  scale_factor : float
}.

(** The object that [new hipfftHandle_t] builds. *)
Definition new_hipfftHandle_t : hipfftHandle_t :=
  {| type := hipfftIOType.default;
     ip_forward := nullptr; op_forward := nullptr;
     ip_inverse := nullptr; op_inverse := nullptr;
     info := nullptr;
     workBuffer := nullptr; workBufferSize := 0;
     autoAllocate := true; workBufferNeedsFree := false;
     load_callback_ptrs := nullptr; load_callback_data := nullptr;
     load_callback_lds_bytes := 0;
     store_callback_ptrs := nullptr; store_callback_data := nullptr;
     store_callback_lds_bytes := 0;
     scale_factor := 1%float |}.

(** Field assignments [plan->f = v]. *)
Definition set_type v p := Build_plan v (ip_forward p) (op_forward p) (ip_inverse p) (op_inverse p) (info p) (workBuffer p) (workBufferSize p) (autoAllocate p) (workBufferNeedsFree p) (load_callback_ptrs p) (load_callback_data p) (load_callback_lds_bytes p) (store_callback_ptrs p) (store_callback_data p) (store_callback_lds_bytes p) (scale_factor p).
Definition set_ip_forward v p := Build_plan (type p) v (op_forward p) (ip_inverse p) (op_inverse p) (info p) (workBuffer p) (workBufferSize p) (autoAllocate p) (workBufferNeedsFree p) (load_callback_ptrs p) (load_callback_data p) (load_callback_lds_bytes p) (store_callback_ptrs p) (store_callback_data p) (store_callback_lds_bytes p) (scale_factor p).
Definition set_op_forward v p := Build_plan (type p) (ip_forward p) v (ip_inverse p) (op_inverse p) (info p) (workBuffer p) (workBufferSize p) (autoAllocate p) (workBufferNeedsFree p) (load_callback_ptrs p) (load_callback_data p) (load_callback_lds_bytes p) (store_callback_ptrs p) (store_callback_data p) (store_callback_lds_bytes p) (scale_factor p).
Definition set_ip_inverse v p := Build_plan (type p) (ip_forward p) (op_forward p) v (op_inverse p) (info p) (workBuffer p) (workBufferSize p) (autoAllocate p) (workBufferNeedsFree p) (load_callback_ptrs p) (load_callback_data p) (load_callback_lds_bytes p) (store_callback_ptrs p) (store_callback_data p) (store_callback_lds_bytes p) (scale_factor p).
Definition set_op_inverse v p := Build_plan (type p) (ip_forward p) (op_forward p) (ip_inverse p) v (info p) (workBuffer p) (workBufferSize p) (autoAllocate p) (workBufferNeedsFree p) (load_callback_ptrs p) (load_callback_data p) (load_callback_lds_bytes p) (store_callback_ptrs p) (store_callback_data p) (store_callback_lds_bytes p) (scale_factor p).
Definition set_info v p := Build_plan (type p) (ip_forward p) (op_forward p) (ip_inverse p) (op_inverse p) v (workBuffer p) (workBufferSize p) (autoAllocate p) (workBufferNeedsFree p) (load_callback_ptrs p) (load_callback_data p) (load_callback_lds_bytes p) (store_callback_ptrs p) (store_callback_data p) (store_callback_lds_bytes p) (scale_factor p).
Definition set_workBuffer v p := Build_plan (type p) (ip_forward p) (op_forward p) (ip_inverse p) (op_inverse p) (info p) v (workBufferSize p) (autoAllocate p) (workBufferNeedsFree p) (load_callback_ptrs p) (load_callback_data p) (load_callback_lds_bytes p) (store_callback_ptrs p) (store_callback_data p) (store_callback_lds_bytes p) (scale_factor p).
Definition set_workBufferSize v p := Build_plan (type p) (ip_forward p) (op_forward p) (ip_inverse p) (op_inverse p) (info p) (workBuffer p) v (autoAllocate p) (workBufferNeedsFree p) (load_callback_ptrs p) (load_callback_data p) (load_callback_lds_bytes p) (store_callback_ptrs p) (store_callback_data p) (store_callback_lds_bytes p) (scale_factor p).
Definition set_autoAllocate v p := Build_plan (type p) (ip_forward p) (op_forward p) (ip_inverse p) (op_inverse p) (info p) (workBuffer p) (workBufferSize p) v (workBufferNeedsFree p) (load_callback_ptrs p) (load_callback_data p) (load_callback_lds_bytes p) (store_callback_ptrs p) (store_callback_data p) (store_callback_lds_bytes p) (scale_factor p).
Definition set_workBufferNeedsFree v p := Build_plan (type p) (ip_forward p) (op_forward p) (ip_inverse p) (op_inverse p) (info p) (workBuffer p) (workBufferSize p) (autoAllocate p) v (load_callback_ptrs p) (load_callback_data p) (load_callback_lds_bytes p) (store_callback_ptrs p) (store_callback_data p) (store_callback_lds_bytes p) (scale_factor p).
Definition set_load_callback_ptrs v p := Build_plan (type p) (ip_forward p) (op_forward p) (ip_inverse p) (op_inverse p) (info p) (workBuffer p) (workBufferSize p) (autoAllocate p) (workBufferNeedsFree p) v (load_callback_data p) (load_callback_lds_bytes p) (store_callback_ptrs p) (store_callback_data p) (store_callback_lds_bytes p) (scale_factor p).
Definition set_load_callback_data v p := Build_plan (type p) (ip_forward p) (op_forward p) (ip_inverse p) (op_inverse p) (info p) (workBuffer p) (workBufferSize p) (autoAllocate p) (workBufferNeedsFree p) (load_callback_ptrs p) v (load_callback_lds_bytes p) (store_callback_ptrs p) (store_callback_data p) (store_callback_lds_bytes p) (scale_factor p).
Definition set_load_callback_lds_bytes v p := Build_plan (type p) (ip_forward p) (op_forward p) (ip_inverse p) (op_inverse p) (info p) (workBuffer p) (workBufferSize p) (autoAllocate p) (workBufferNeedsFree p) (load_callback_ptrs p) (load_callback_data p) v (store_callback_ptrs p) (store_callback_data p) (store_callback_lds_bytes p) (scale_factor p).
Definition set_store_callback_ptrs v p := Build_plan (type p) (ip_forward p) (op_forward p) (ip_inverse p) (op_inverse p) (info p) (workBuffer p) (workBufferSize p) (autoAllocate p) (workBufferNeedsFree p) (load_callback_ptrs p) (load_callback_data p) (load_callback_lds_bytes p) v (store_callback_data p) (store_callback_lds_bytes p) (scale_factor p).
Definition set_store_callback_data v p := Build_plan (type p) (ip_forward p) (op_forward p) (ip_inverse p) (op_inverse p) (info p) (workBuffer p) (workBufferSize p) (autoAllocate p) (workBufferNeedsFree p) (load_callback_ptrs p) (load_callback_data p) (load_callback_lds_bytes p) (store_callback_ptrs p) v (store_callback_lds_bytes p) (scale_factor p).
Definition set_store_callback_lds_bytes v p := Build_plan (type p) (ip_forward p) (op_forward p) (ip_inverse p) (op_inverse p) (info p) (workBuffer p) (workBufferSize p) (autoAllocate p) (workBufferNeedsFree p) (load_callback_ptrs p) (load_callback_data p) (load_callback_lds_bytes p) (store_callback_ptrs p) (store_callback_data p) v (scale_factor p).
Definition set_scale_factor v p := Build_plan (type p) (ip_forward p) (op_forward p) (ip_inverse p) (op_inverse p) (info p) (workBuffer p) (workBufferSize p) (autoAllocate p) (workBufferNeedsFree p) (load_callback_ptrs p) (load_callback_data p) (load_callback_lds_bytes p) (store_callback_ptrs p) (store_callback_data p) (store_callback_lds_bytes p) v.

(** The four [rocfft_plan] members of the handle, as the targets of the
    references [ip_plan_ptr] and [op_plan_ptr] (lines 634, 646) and of the
    conditional expressions of lines 1132-1134 and 1485-1489. *)
Inductive slot : Type :=
| slot_ip_forward | slot_op_forward | slot_ip_inverse | slot_op_inverse.

Definition get_slot (sl : slot) (p : hipfftHandle_t) : pointer :=
  match sl with
  | slot_ip_forward => ip_forward p
  | slot_op_forward => op_forward p
  | slot_ip_inverse => ip_inverse p
  | slot_op_inverse => op_inverse p
  end.

Definition set_slot (sl : slot) (v : pointer) (p : hipfftHandle_t)
  : hipfftHandle_t :=
  match sl with
  | slot_ip_forward => set_ip_forward v p
  | slot_op_forward => set_op_forward v p
  | slot_ip_inverse => set_ip_inverse v p
  | slot_op_inverse => set_op_inverse v p
  end.

(** [struct hipfft_plan_description_t] (lines 264-282); the arrays hold
    three [size_t]. *)
Record hipfft_plan_description_t : Type := Build_description {
  inArrayType : rocfft_array_type;
  outArrayType : rocfft_array_type;
  inStrides : list Z;
  outStrides : list Z;
  inDist : Z;
  outDist : Z
}.

Definition new_hipfft_plan_description_t : hipfft_plan_description_t :=
  {| inArrayType := rocfft_array_type_complex_interleaved;
     outArrayType := rocfft_array_type_complex_interleaved;
     inStrides := [0; 0; 0]; outStrides := [0; 0; 0];
     inDist := 0; outDist := 0 |}.

(** ** The backend *)

(** The calls that hipfft.cpp issues to rocFFT and to the HIP runtime, with
    the arguments it passes.  An array argument is recorded by the elements
    the callee is told to read. *)
Inductive call : Type :=
| rocfft_setup
| rocfft_plan_description_create
| rocfft_plan_description_set_data_layout
    (description : pointer)
    (in_array_type out_array_type : rocfft_array_type)
    (in_strides_size : Z) (in_strides : list Z) (in_distance : Z)
    (out_strides_size : Z) (out_strides : list Z) (out_distance : Z)
| rocfft_plan_description_set_scale_factor
    (description : pointer) (scale : float)
| rocfft_plan_description_destroy (description : pointer)
| rocfft_plan_create
    (placement : rocfft_result_placement)
    (transform_type : rocfft_transform_type)
    (precision : rocfft_precision)
    (dimensions : Z) (lengths : list Z) (number_of_transforms : Z)
    (description : pointer)
| rocfft_plan_destroy (plan : pointer)
| rocfft_plan_get_work_buffer_size (plan : pointer)
| rocfft_execution_info_create
| rocfft_execution_info_destroy (info : pointer)
| rocfft_execution_info_set_work_buffer
    (info : pointer) (work_buffer : pointer) (size_in_bytes : Z)
| rocfft_execution_info_set_stream (info : pointer) (stream : pointer)
| rocfft_execution_info_set_load_callback
    (info : pointer) (cb_functions cb_data : pointer) (shared_mem_bytes : Z)
| rocfft_execution_info_set_store_callback
    (info : pointer) (cb_functions cb_data : pointer) (shared_mem_bytes : Z)
| rocfft_execute
    (plan : pointer) (in_buffer out_buffer : pointer) (info : pointer)
| hipMalloc (size : Z)
| hipFree (ptr : pointer).

(** The answer to a call: whether the status is the success status
    ([rocfft_status_success], [hipSuccess]) and the value the callee stored
    through its output parameter (a handle, an address or a size). *)
Record response : Type := Build_response {
  ok : bool;
  out : Z
}.

Definition event : Type := call * response.

(** A backend answers a call from the history of the calls before it. *)
Definition backend : Type := list event -> call -> response.

(** ** Program state *)

(** The embedding follows one plan object.  [plan] is that object,
    [rocfft_initialized] tells whether the function-local static
    [rocfft_initializer] of [hipfftMakePlan_internal] has been constructed,
    [workSize_out] is the caller's [size_t] that a non-null [workSize]
    argument points to, and [trace] lists the backend calls so far, oldest
    first. *)
Record state : Type := Build_state {
  plan : hipfftHandle_t;
  rocfft_initialized : bool;
  workSize_out : Z;
  trace : list event
}.

(** A [hipfftHandle] is a pointer to a [hipfftHandle_t]: null, or the
    address of the plan object of the state. *)
Inductive hipfftHandle : Type :=
| handle_null
| handle_plan.

(** ** Function bodies with early [return] *)

(** A computation either falls through with a value ([inr]) or leaves the
    enclosing function with [return r] ([inl]). *)
Definition M (A : Type) : Type := state -> (hipfftResult + A) * state.

Definition ret {A} (a : A) : M A := fun s => (inr a, s).

Definition return_ {A} (r : hipfftResult) : M A := fun s => (inl r, s).

Definition bind {A B} (m : M A) (k : A -> M B) : M B :=
  fun s =>
    match m s with
    | (inl r, s') => (inl r, s')
    | (inr a, s') => k a s'
    end.

Notation "x <- m ;; k" := (bind m (fun x => k))
  (at level 100, m at next level, right associativity).
Notation "m ;; k" := (bind m (fun _ => k))
  (at level 100, right associativity).

(** A whole function body: the value of the final [return]. *)
Definition body (m : M hipfftResult) (s : state) : hipfftResult * state :=
  match m s with
  | (inl r, s') => (r, s')
  | (inr r, s') => (r, s')
  end.

(** A call of a function of this file from another body. *)
Definition invoke (f : state -> hipfftResult * state) : M hipfftResult :=
  fun s => let '(r, s') := f s in (inr r, s').

Definition get_plan : M hipfftHandle_t := fun s => (inr (plan s), s).

Definition modify_plan (f : hipfftHandle_t -> hipfftHandle_t) : M unit :=
  fun s =>
    (inr tt, Build_state (f (plan s)) (rocfft_initialized s)
                         (workSize_out s) (trace s)).

Definition when (b : bool) (m : M unit) : M unit :=
  if b then m else ret tt.

(** [HIP_FFT_CHECK_AND_RETURN], lines 47-54. *)
Definition HIP_FFT_CHECK_AND_RETURN (r : hipfftResult) : M unit :=
  if hipfftResult_eqb r HIPFFT_SUCCESS then ret tt else return_ r.

Section Backend.

Variable rocfft : backend.

(** Issue a backend call: ask the backend, record call and answer. *)
Definition backend_call (c : call) : M response :=
  fun s =>
    let r := rocfft (trace s) c in
    (inr r, Build_state (plan s) (rocfft_initialized s) (workSize_out s)
                        (trace s ++ [(c, r)])).

(** [ROC_FFT_CHECK_INVALID_VALUE], lines 38-45. *)
Definition ROC_FFT_CHECK_INVALID_VALUE (c : call) : M response :=
  r <- backend_call c ;;
  if ok r then ret r else return_ HIPFFT_INVALID_VALUE.

(** [ROC_FFT_CHECK_PLAN_CREATE], lines 59-71.  [plan] is a reference to
    one of the four slots; [rocfft_plan_create] stores through it, and
    on failure the slot is destroyed and reset.  The result is the new
    value of [plans_created]. *)
Definition ROC_FFT_CHECK_PLAN_CREATE (sl : slot) (plans_created : Z)
    (placement : rocfft_result_placement)
    (transform_type : rocfft_transform_type)
    (precision : rocfft_precision)
    (dim : Z) (lengths : list Z) (number_of_transforms : Z)
    (description : pointer) : M Z :=
  r <- backend_call
         (rocfft_plan_create placement transform_type precision dim
                             lengths number_of_transforms description) ;;
  modify_plan (set_slot sl (out r)) ;;
  if ok r then ret (plans_created + 1)
  else
    backend_call (rocfft_plan_destroy (out r)) ;;
    modify_plan (set_slot sl nullptr) ;;
    ret plans_created.

(** *** [hipfftMakePlan_internal] (lines 351-727) *)

(** Lines 360-372: the function-local static [rocfft_initializer], whose
    constructor runs the first time control passes its declaration. *)
Definition rocfft_initializer : M unit :=
  fun s =>
    if rocfft_initialized s then (inr tt, s)
    else
      let r := rocfft (trace s) rocfft_setup in
      (inr tt, Build_state (plan s) true (workSize_out s)
                           (trace s ++ [(rocfft_setup, r)])).

(** [rocfft_plan_description_create(&d)]; the status is not looked at. *)
Definition description_create : M pointer :=
  r <- backend_call rocfft_plan_description_create ;; ret (out r).

(** The loop
    [for(size_t i = 1; i < dim; i++)
       { i_strides[i] = idist; idist *= lengths[i];
         o_strides[i] = odist; odist *= lengths[i]; }]
    of lines 395-401, 421-427, 449-455 and 475-481.  A store past the
    three elements of an array is left out. *)
Definition stride_loop (dim : Z) (lengths : list Z)
    (idist odist : Z) (i_strides o_strides : list Z)
  : Z * Z * list Z * list Z :=
  fold_left
    (fun '(idist, odist, i_strides, o_strides) i =>
       (size_mul idist (lengths !!! i), size_mul odist (lengths !!! i),
        <[i := idist]> i_strides, <[i := odist]> o_strides))
    (seq 1 (Z.to_nat dim - 1))
    (idist, odist, i_strides, o_strides).

(** The loop [for(size_t i = 1; i < dim; i++) dist *= lengths[i];] of
    lines 503-506. *)
Definition dist_loop (dim : Z) (lengths : list Z) (dist : Z) : Z :=
  fold_left (fun dist i => size_mul dist (lengths !!! i))
            (seq 1 (Z.to_nat dim - 1)) dist.

(** [ROC_FFT_CHECK_INVALID_VALUE(rocfft_plan_description_set_data_layout(
    d, desc->inArrayType, desc->outArrayType, 0, 0, dim, i_strides,
    desc->inDist, dim, o_strides, desc->outDist))]. *)
Definition set_data_layout (d : pointer) (desc : hipfft_plan_description_t)
    (dim : Z) (i_strides o_strides : list Z) : M unit :=
  ROC_FFT_CHECK_INVALID_VALUE
    (rocfft_plan_description_set_data_layout
       d (inArrayType desc) (outArrayType desc)
       dim (firstn (Z.to_nat dim) i_strides) (inDist desc)
       dim (firstn (Z.to_nat dim) o_strides) (outDist desc)) ;;
  ret tt.

Definition with_dists (desc : hipfft_plan_description_t) (idist odist : Z)
  : hipfft_plan_description_t :=
  Build_description (inArrayType desc) (outArrayType desc)
                    (inStrides desc) (outStrides desc) idist odist.

(** The four local [rocfft_plan_description] variables, in the order
    [ip_forward_desc], [op_forward_desc], [ip_inverse_desc],
    [op_inverse_desc]. *)
Definition descriptions : Type := pointer * pointer * pointer * pointer.

Definition description_of (sl : slot) (ds : descriptions) : pointer :=
  let '(ipf, opf, ipi, opi) := ds in
  match sl with
  | slot_ip_forward => ipf
  | slot_op_forward => opf
  | slot_ip_inverse => ipi
  | slot_op_inverse => opi
  end.

(** Lines 386-560, the branch [if(re_calc_strides_in_desc)]: strides and
    distances are recomputed from the lengths for each placement. *)
Definition set_recalculated_layouts (dim : Z) (lengths : list Z)
    (desc : hipfft_plan_description_t) (ds : descriptions) : M unit :=
  let '(ip_forward_desc, op_forward_desc,
        ip_inverse_desc, op_inverse_desc) := ds in
  let i_strides := firstn 3 (inStrides desc) in
  let o_strides := firstn 3 (outStrides desc) in
  let l0 := lengths !!! 0%nat in
  if rocfft_array_type_eqb (inArrayType desc) rocfft_array_type_real
  then (* real-to-complex *)
    let '(idist, odist, i_strides, o_strides) :=
      stride_loop dim lengths
        (size_mul 2 (size_add 1 (l0 / 2))) (size_add 1 (l0 / 2))
        i_strides o_strides in
    let desc := with_dists desc idist odist in
    set_data_layout ip_forward_desc desc dim i_strides o_strides ;;
    let '(idist, odist, i_strides, o_strides) :=
      stride_loop dim lengths l0 (size_add 1 (l0 / 2))
                  i_strides o_strides in
    let desc := with_dists desc idist odist in
    set_data_layout op_forward_desc desc dim i_strides o_strides
  else if rocfft_array_type_eqb (outArrayType desc) rocfft_array_type_real
  then (* complex-to-real *)
    let '(idist, odist, i_strides, o_strides) :=
      stride_loop dim lengths
        (size_add 1 (l0 / 2)) (size_mul 2 (size_add 1 (l0 / 2)))
        i_strides o_strides in
    let desc := with_dists desc idist odist in
    set_data_layout ip_inverse_desc desc dim i_strides o_strides ;;
    let '(idist, odist, i_strides, o_strides) :=
      stride_loop dim lengths (size_add 1 (l0 / 2)) l0
                  i_strides o_strides in
    let desc := with_dists desc idist odist in
    set_data_layout op_inverse_desc desc dim i_strides o_strides
  else
    let dist := dist_loop dim lengths l0 in
    let desc := with_dists desc dist dist in
    set_data_layout ip_forward_desc desc dim i_strides o_strides ;;
    set_data_layout op_forward_desc desc dim i_strides o_strides ;;
    set_data_layout ip_inverse_desc desc dim i_strides o_strides ;;
    set_data_layout op_inverse_desc desc dim i_strides o_strides.

(** Lines 561-607, the [else] branch: the caller's strides and distances
    go to all four descriptions. *)
Definition set_given_layouts (dim : Z)
    (desc : hipfft_plan_description_t) (ds : descriptions) : M unit :=
  let '(ip_forward_desc, op_forward_desc,
        ip_inverse_desc, op_inverse_desc) := ds in
  let i_strides := firstn 3 (inStrides desc) in
  let o_strides := firstn 3 (outStrides desc) in
  set_data_layout ip_forward_desc desc dim i_strides o_strides ;;
  set_data_layout op_forward_desc desc dim i_strides o_strides ;;
  set_data_layout ip_inverse_desc desc dim i_strides o_strides ;;
  set_data_layout op_inverse_desc desc dim i_strides o_strides.

(** Lines 374-608. *)
Definition make_descriptions (dim : Z) (lengths : list Z)
    (desc : option hipfft_plan_description_t)
    (re_calc_strides_in_desc : bool) : M descriptions :=
  match desc with
  | None => ret (nullptr, nullptr, nullptr, nullptr)
  | Some desc =>
      ip_forward_desc <- description_create ;;
      op_forward_desc <- description_create ;;
      ip_inverse_desc <- description_create ;;
      op_inverse_desc <- description_create ;;
      let ds := (ip_forward_desc, op_forward_desc,
                 ip_inverse_desc, op_inverse_desc) in
      (if re_calc_strides_in_desc
       then set_recalculated_layouts dim lengths desc ds
       else set_given_layouts dim desc ds) ;;
      ret ds
  end.

(** [if(!d) rocfft_plan_description_create(&d);], lines 614-621. *)
Definition ensure_description (d : pointer) : M pointer :=
  if is_null d then description_create else ret d.

(** Lines 610-624. *)
Definition apply_scale_factor (ds : descriptions) : M descriptions :=
  p <- get_plan ;;
  if negb (PrimFloat.eqb (scale_factor p) 1%float) then
    let '(ipf, opf, ipi, opi) := ds in
    ipf <- ensure_description ipf ;;
    opf <- ensure_description opf ;;
    ipi <- ensure_description ipi ;;
    opi <- ensure_description opi ;;
    backend_call
      (rocfft_plan_description_set_scale_factor ipf (scale_factor p)) ;;
    backend_call
      (rocfft_plan_description_set_scale_factor opf (scale_factor p)) ;;
    backend_call
      (rocfft_plan_description_set_scale_factor ipi (scale_factor p)) ;;
    backend_call
      (rocfft_plan_description_set_scale_factor opi (scale_factor p)) ;;
    ret (ipf, opf, ipi, opi)
  else ret ds.

(** One iteration of the loop of lines 631-657. *)
Definition create_plans_of_type (iotype : hipfftIOType.t)
    (dim : Z) (lengths : list Z) (number_of_transforms : Z)
    (ds : descriptions)
    (t : rocfft_transform_type) (plans_created : Z) : M Z :=
  (* in-place *)
  let ip_plan_ptr :=
    if hipfftIOType.is_forward t then slot_ip_forward
    else slot_ip_inverse in
  plans_created <-
    ROC_FFT_CHECK_PLAN_CREATE ip_plan_ptr plans_created
      rocfft_placement_inplace t (hipfftIOType.precision iotype)
      dim (firstn (Z.to_nat dim) lengths) number_of_transforms
      (description_of ip_plan_ptr ds) ;;
  (* out-of-place *)
  let op_plan_ptr :=
    if hipfftIOType.is_forward t then slot_op_forward
    else slot_op_inverse in
  ROC_FFT_CHECK_PLAN_CREATE op_plan_ptr plans_created
    rocfft_placement_notinplace t (hipfftIOType.precision iotype)
    dim (firstn (Z.to_nat dim) lengths) number_of_transforms
    (description_of op_plan_ptr ds).

(** [for(auto t : l)] with a loop-carried variable. *)
Fixpoint for_each {A S : Type} (l : list A) (f : A -> S -> M S) (acc : S)
  : M S :=
  match l with
  | [] => ret acc
  | a :: l' => acc' <- f a acc ;; for_each l' f acc'
  end.

(** Lines 630-657. *)
Definition create_plans (iotype : hipfftIOType.t)
    (dim : Z) (lengths : list Z) (number_of_transforms : Z)
    (ds : descriptions) : M Z :=
  for_each (hipfftIOType.transform_types iotype)
           (create_plans_of_type iotype dim lengths number_of_transforms ds)
           0.

(** [if(plan->X) { ROC_FFT_CHECK_INVALID_VALUE(
      rocfft_plan_get_work_buffer_size(plan->X, &tmpBufferSize));
      workBufferSize = std::max(workBufferSize, tmpBufferSize); }],
    lines 670-681 and 687-698. *)
Definition max_work_buffer_size (sl : slot) (workBufferSize : Z) : M Z :=
  p <- get_plan ;;
  if is_null (get_slot sl p) then ret workBufferSize
  else
    r <- ROC_FFT_CHECK_INVALID_VALUE
           (rocfft_plan_get_work_buffer_size (get_slot sl p)) ;;
    ret (Z.max workBufferSize (to_size_t (out r))).

(** Lines 664-699. *)
Definition compute_work_buffer_size (iotype : hipfftIOType.t) : M Z :=
  let workBufferSize := 0 in
  let has_forward := negb (hipfftIOType.is_complex_to_real iotype) in
  workBufferSize <-
    (if has_forward then
       w <- max_work_buffer_size slot_ip_forward workBufferSize ;;
       max_work_buffer_size slot_op_forward w
     else ret workBufferSize) ;;
  let has_inverse := negb (hipfftIOType.is_real_to_complex iotype) in
  if has_inverse then
    w <- max_work_buffer_size slot_ip_inverse workBufferSize ;;
    max_work_buffer_size slot_op_inverse w
  else ret workBufferSize.

(** Lines 701-714. *)
Definition allocate_work_buffer (workBufferSize : Z) : M unit :=
  p <- get_plan ;;
  when ((0 <? workBufferSize) && autoAllocate p)
    (when (negb (is_null (workBuffer p)) && workBufferNeedsFree p)
       (r <- backend_call (hipFree (workBuffer p)) ;;
        if ok r then ret tt else return_ HIPFFT_ALLOC_FAILED) ;;
     r <- backend_call (hipMalloc workBufferSize) ;;
     (if ok r then modify_plan (set_workBuffer (out r))
      else return_ HIPFFT_ALLOC_FAILED) ;;
     modify_plan (set_workBufferNeedsFree true) ;;
     p <- get_plan ;;
     ROC_FFT_CHECK_INVALID_VALUE
       (rocfft_execution_info_set_work_buffer
          (info p) (workBuffer p) workBufferSize) ;;
     ret tt).

(** [*workSize = v;]. *)
Definition write_workSize (v : Z) : M unit :=
  fun s => (inr tt, Build_state (plan s) (rocfft_initialized s) v (trace s)).

(** [if(workSize != nullptr) *workSize = v;]. *)
Definition store_workSize (workSize : pointer) (v : Z) : M unit :=
  when (negb (is_null workSize)) (write_workSize v).

Definition hipfftMakePlan_internal
    (dim : Z) (lengths : list Z) (iotype : hipfftIOType.t)
    (number_of_transforms : Z)
    (desc : option hipfft_plan_description_t)
    (workSize : pointer) (re_calc_strides_in_desc : bool)
  : state -> hipfftResult * state :=
  body (
    rocfft_initializer ;;
    ds <- make_descriptions dim lengths desc re_calc_strides_in_desc ;;
    ds <- apply_scale_factor ds ;;
    (* count the number of plans that got created *)
    plans_created <-
      create_plans iotype dim lengths number_of_transforms ds ;;
    (* if no plans got created, fail *)
    (if plans_created =? 0 then return_ HIPFFT_PARSE_ERROR else ret tt) ;;
    modify_plan (set_type iotype) ;;
    workBufferSize <- compute_work_buffer_size iotype ;;
    allocate_work_buffer workBufferSize ;;
    store_workSize workSize workBufferSize ;;
    modify_plan (set_workBufferSize workBufferSize) ;;
    backend_call
      (rocfft_plan_description_destroy (description_of slot_ip_forward ds)) ;;
    backend_call
      (rocfft_plan_description_destroy (description_of slot_op_forward ds)) ;;
    backend_call
      (rocfft_plan_description_destroy (description_of slot_ip_inverse ds)) ;;
    backend_call
      (rocfft_plan_description_destroy (description_of slot_op_inverse ds)) ;;
    ret HIPFFT_SUCCESS).

(** *** Plan construction entry points *)

(** [hipfftCreate], lines 729-746.  On success the caller's handle points
    to the new object, which becomes the plan of the state. *)
Definition hipfftCreate : state -> hipfftResult * state :=
  body (
    r <- ROC_FFT_CHECK_INVALID_VALUE rocfft_execution_info_create ;;
    modify_plan (fun _ => set_info (out r) new_hipfftHandle_t) ;;
    ret HIPFFT_SUCCESS).

(** [hipfftExtPlanScaleFactor], lines 748-754. *)
Definition hipfftExtPlanScaleFactor (scalefactor : float)
  : state -> hipfftResult * state :=
  body (
    (if negb (PrimFloat.is_finite scalefactor)
     then return_ HIPFFT_INVALID_VALUE else ret tt) ;;
    modify_plan (set_scale_factor scalefactor) ;;
    ret HIPFFT_SUCCESS).

(** The first half of [init; HIP_FFT_CHECK_AND_RETURN(iotype.init(type))]
    on a fresh local [hipfftIOType iotype]. *)
Definition init_iotype (type : hipfftType) : M hipfftIOType.t :=
  let '(r, iotype) := hipfftIOType.init_type hipfftIOType.default type in
  HIP_FFT_CHECK_AND_RETURN r ;; ret iotype.

(** [hipfftMakePlan1d], lines 756-775. *)
Definition hipfftMakePlan1d (nx : Z) (type : hipfftType) (batch : Z)
    (workSize : pointer) : state -> hipfftResult * state :=
  body (
    (if (nx <? 0) || (batch <? 0)
     then return_ HIPFFT_INVALID_SIZE else ret tt) ;;
    let lengths := [to_size_t nx] in
    let number_of_transforms := to_size_t batch in
    iotype <- init_iotype type ;;
    invoke (hipfftMakePlan_internal 1 lengths iotype number_of_transforms
                                    None workSize false)).

(** [hipfftMakePlan2d], lines 777-796. *)
Definition hipfftMakePlan2d (nx ny : Z) (type : hipfftType)
    (workSize : pointer) : state -> hipfftResult * state :=
  body (
    (if (nx <? 0) || (ny <? 0)
     then return_ HIPFFT_INVALID_SIZE else ret tt) ;;
    let lengths := [to_size_t ny; to_size_t nx] in
    let number_of_transforms := 1 in
    iotype <- init_iotype type ;;
    invoke (hipfftMakePlan_internal 2 lengths iotype number_of_transforms
                                    None workSize false)).

(** [hipfftMakePlan3d], lines 798-819. *)
Definition hipfftMakePlan3d (nx ny nz : Z) (type : hipfftType)
    (workSize : pointer) : state -> hipfftResult * state :=
  body (
    (if (nx <? 0) || (ny <? 0) || (nz <? 0)
     then return_ HIPFFT_INVALID_SIZE else ret tt) ;;
    let lengths := [to_size_t nz; to_size_t ny; to_size_t nx] in
    let number_of_transforms := 1 in
    iotype <- init_iotype type ;;
    invoke (hipfftMakePlan_internal 3 lengths iotype number_of_transforms
                                    None workSize false)).

(** [std::any_of(a, a + rank, [](T val) { return val < 0; })]. *)
Definition any_negative (rank : Z) (a : list Z) : bool :=
  existsb (fun val => val <? 0) (firstn (Z.to_nat rank) a).

(** [size_t dst[3]; for(int i = 0; i < rank; i++) dst[i] = a[rank-1-i];]
    (lines 851-853, 891-893, 903-905).  The elements that the loop does
    not store are indeterminate in the source; they stand as 0 here and
    are not read for a rank from 1 to 3. *)
Definition reversed (rank : Z) (a : list Z) : list Z :=
  fold_left
    (fun dst i =>
       <[i := to_size_t (a !!! (Z.to_nat rank - 1 - i)%nat)]> dst)
    (seq 0 (Z.to_nat rank)) [0; 0; 0].

(** [for(int i = 1; i < rank; i++)
       strides[i] = lens[i - 1] * strides[i - 1];]
    (lines 881-885, 895-896, 907-908). *)
Definition strides_from (rank : Z) (lens strides : list Z) : list Z :=
  fold_left
    (fun strides i =>
       <[i := size_mul (lens !!! (i - 1)%nat) (strides !!! (i - 1)%nat)]>
         strides)
    (seq 1 (Z.to_nat rank - 1)) strides.

(** [for(int i = 0; i < rank; i++) dst[i] = src[i];]
    (lines 914-915, 918-919). *)
Definition copy_first (rank : Z) (src dst : list Z) : list Z :=
  fold_left (fun dst i => <[i := src !!! i]> dst)
            (seq 0 (Z.to_nat rank)) dst.

Definition is_some {A} (o : option A) : bool :=
  match o with Some _ => true | None => false end.

(** [hipfftMakePlanMany_internal<T>], lines 821-926, for both
    instantiations ([int] and [long long int]): the arguments are values
    of [T].  [inembed] and [onembed] are [None] for a null pointer. *)
Definition hipfftMakePlanMany_internal
    (rank : Z) (n : list Z)
    (inembed : option (list Z)) (istride idist : Z)
    (onembed : option (list Z)) (ostride odist : Z)
    (type : hipfftIOType.t) (batch : Z) (workSize : pointer)
  : state -> hipfftResult * state :=
  body (
    (if (is_some inembed && negb (is_some onembed))
        || (negb (is_some inembed) && is_some onembed)
        || (rank <? 0) || (istride <? 0) || (idist <? 0)
        || (ostride <? 0) || (odist <? 0)
        || any_negative rank n
     then return_ HIPFFT_INVALID_VALUE else ret tt) ;;
    (match inembed with
     | Some ptr =>
         if any_negative rank ptr
         then return_ HIPFFT_INVALID_SIZE else ret tt
     | None => ret tt
     end) ;;
    (match onembed with
     | Some ptr =>
         if any_negative rank ptr
         then return_ HIPFFT_INVALID_SIZE else ret tt
     | None => ret tt
     end) ;;
    (if batch <? 0 then return_ HIPFFT_INVALID_SIZE else ret tt) ;;
    let lengths := reversed rank n in
    let number_of_transforms := to_size_t batch in
    (* Decide the inArrayType and outArrayType based on the transform
       type *)
    let '(in_array_type, out_array_type) :=
      if hipfftIOType.is_real_to_complex type then
        (rocfft_array_type_real, rocfft_array_type_hermitian_interleaved)
      else if hipfftIOType.is_complex_to_real type then
        (rocfft_array_type_hermitian_interleaved, rocfft_array_type_real)
      else
        (rocfft_array_type_complex_interleaved,
         rocfft_array_type_complex_interleaved) in
    let re_calc_strides_in_desc :=
      negb (is_some inembed) || negb (is_some onembed) in
    let i_strides := strides_from rank lengths [1; 1; 1] in
    let o_strides := strides_from rank lengths [1; 1; 1] in
    let i_strides :=
      match inembed with
      | Some inembed =>
          strides_from rank (reversed rank inembed)
                       (<[0%nat := to_size_t istride]> i_strides)
      | None => i_strides
      end in
    let o_strides :=
      match onembed with
      | Some onembed =>
          strides_from rank (reversed rank onembed)
                       (<[0%nat := to_size_t ostride]> o_strides)
      | None => o_strides
      end in
    let desc :=
      {| inArrayType := in_array_type;
         outArrayType := out_array_type;
         inStrides := copy_first rank i_strides [0; 0; 0];
         outStrides := copy_first rank o_strides [0; 0; 0];
         inDist := to_size_t idist;
         outDist := to_size_t odist |} in
    invoke (hipfftMakePlan_internal rank lengths type number_of_transforms
                                    (Some desc) workSize
                                    re_calc_strides_in_desc)).

(** [hipfftMakePlanMany], lines 928-946. *)
Definition hipfftMakePlanMany
    (rank : Z) (n : list Z)
    (inembed : option (list Z)) (istride idist : Z)
    (onembed : option (list Z)) (ostride odist : Z)
    (type : hipfftType) (batch : Z) (workSize : pointer)
  : state -> hipfftResult * state :=
  body (
    iotype <- init_iotype type ;;
    invoke (hipfftMakePlanMany_internal rank n inembed istride idist
              onembed ostride odist iotype batch workSize)).

(** [hipfftMakePlanMany64], lines 948-966. *)
Definition hipfftMakePlanMany64
    (rank : Z) (n : list Z)
    (inembed : option (list Z)) (istride idist : Z)
    (onembed : option (list Z)) (ostride odist : Z)
    (type : hipfftType) (batch : Z) (workSize : pointer)
  : state -> hipfftResult * state :=
  body (
    iotype <- init_iotype type ;;
    invoke (hipfftMakePlanMany_internal rank n inembed istride idist
              onembed ostride odist iotype batch workSize)).

(** [hipfftXtMakePlanMany], lines 1431-1450. *)
Definition hipfftXtMakePlanMany
    (rank : Z) (n : list Z)
    (inembed : option (list Z)) (istride idist : Z)
    (inputtype : hipDataType)
    (onembed : option (list Z)) (ostride odist : Z)
    (outputtype : hipDataType)
    (batch : Z) (workSize : pointer) (executiontype : hipDataType)
  : state -> hipfftResult * state :=
  body (
    let '(r, iotype) :=
      hipfftIOType.init hipfftIOType.default
                        inputtype outputtype executiontype in
    HIP_FFT_CHECK_AND_RETURN r ;;
    invoke (hipfftMakePlanMany_internal rank n inembed istride idist
              onembed ostride odist iotype batch workSize)).

(** *** Work area *)

(** [hipfftGetSize], lines 1100-1104. *)
Definition hipfftGetSize : state -> hipfftResult * state :=
  body (
    p <- get_plan ;;
    write_workSize (workBufferSize p) ;;
    ret HIPFFT_SUCCESS).

(** [hipfftSetAutoAllocation], lines 1106-1111. *)
Definition hipfftSetAutoAllocation (h : hipfftHandle) (autoAllocate : Z)
  : state -> hipfftResult * state :=
  body (
    (match h with
     | handle_plan => modify_plan (set_autoAllocate (negb (autoAllocate =? 0)))
     | handle_null => ret tt
     end) ;;
    ret HIPFFT_SUCCESS).

(** [hipfftSetWorkArea], lines 1113-1124. *)
Definition hipfftSetWorkArea (workArea : pointer)
  : state -> hipfftResult * state :=
  body (
    p <- get_plan ;;
    when (negb (is_null (workBuffer p)) && workBufferNeedsFree p)
      (backend_call (hipFree (workBuffer p)) ;; ret tt) ;;
    modify_plan (set_workBufferNeedsFree false) ;;
    when (negb (is_null workArea))
      (p <- get_plan ;;
       ROC_FFT_CHECK_INVALID_VALUE
         (rocfft_execution_info_set_work_buffer
            (info p) workArea (workBufferSize p)) ;;
       ret tt) ;;
    ret HIPFFT_SUCCESS).

(** *** Execution *)

(** [get_exec_plan], lines 1127-1137. *)
Definition get_exec_plan (p : hipfftHandle_t) (inplace : bool)
    (direction : Z) : pointer :=
  if direction =? HIPFFT_FORWARD then
    if inplace then ip_forward p else op_forward p
  else if direction =? HIPFFT_BACKWARD then
    if inplace then ip_inverse p else op_inverse p
  else nullptr.

(** [hipfftExec], lines 1139-1152. *)
Definition hipfftExec (rplan rinfo : pointer) (idata odata : pointer)
  : state -> hipfftResult * state :=
  body (
    (if is_null rplan then return_ HIPFFT_EXEC_FAILED else ret tt) ;;
    (if is_null idata || is_null odata
     then return_ HIPFFT_EXEC_FAILED else ret tt) ;;
    r <- backend_call (rocfft_execute rplan idata odata rinfo) ;;
    ret (if ok r then HIPFFT_SUCCESS else HIPFFT_EXEC_FAILED)).

(** [hipfftExecForward], lines 1154-1159. *)
Definition hipfftExecForward (idata odata : pointer)
  : state -> hipfftResult * state :=
  body (
    p <- get_plan ;;
    let inplace := idata =? odata in
    let rplan := get_exec_plan p inplace HIPFFT_FORWARD in
    invoke (hipfftExec rplan (info p) idata odata)).

(** [hipfftExecBackward], lines 1161-1166. *)
Definition hipfftExecBackward (idata odata : pointer)
  : state -> hipfftResult * state :=
  body (
    p <- get_plan ;;
    let inplace := idata =? odata in
    let rplan := get_exec_plan p inplace HIPFFT_BACKWARD in
    invoke (hipfftExec rplan (info p) idata odata)).

(** [hipfftExecC2C], lines 1168-1179. *)
Definition hipfftExecC2C (idata odata : pointer) (direction : Z)
  : state -> hipfftResult * state :=
  body (
    if direction =? HIPFFT_FORWARD then
      invoke (hipfftExecForward idata odata)
    else if direction =? HIPFFT_BACKWARD then
      invoke (hipfftExecBackward idata odata)
    else ret HIPFFT_EXEC_FAILED).

(** [hipfftExecR2C], lines 1181-1184. *)
Definition hipfftExecR2C (idata odata : pointer)
  : state -> hipfftResult * state :=
  hipfftExecForward idata odata.

(** [hipfftExecC2R], lines 1186-1189. *)
Definition hipfftExecC2R (idata odata : pointer)
  : state -> hipfftResult * state :=
  hipfftExecBackward idata odata.

(** [hipfftExecZ2Z], lines 1191-1204. *)
Definition hipfftExecZ2Z (idata odata : pointer) (direction : Z)
  : state -> hipfftResult * state :=
  body (
    if direction =? HIPFFT_FORWARD then
      invoke (hipfftExecForward idata odata)
    else if direction =? HIPFFT_BACKWARD then
      invoke (hipfftExecBackward idata odata)
    else ret HIPFFT_EXEC_FAILED).

(** [hipfftExecD2Z], lines 1206-1209. *)
Definition hipfftExecD2Z (idata odata : pointer)
  : state -> hipfftResult * state :=
  hipfftExecForward idata odata.

(** [hipfftExecZ2D], lines 1211-1214. *)
Definition hipfftExecZ2D (idata odata : pointer)
  : state -> hipfftResult * state :=
  hipfftExecBackward idata odata.

(** The value of the local [plan_ptr] of [hipfftXtExec] at line 1491
    (lines 1481-1490). *)
Definition hipfftXtExec_plan_ptr (p : hipfftHandle_t) (inplace : bool)
    (direction : Z) : pointer :=
  if hipfftIOType.is_real_to_complex (type p)
     || (direction =? HIPFFT_FORWARD)
  then
    if inplace then ip_forward p else op_forward p
  else if hipfftIOType.is_complex_to_real (type p)
          || (direction =? HIPFFT_BACKWARD)
  then
    if inplace then ip_inverse p else op_inverse p
  else nullptr.

(** [hipfftXtExec], lines 1479-1495. *)
Definition hipfftXtExec (input output : pointer) (direction : Z)
  : state -> hipfftResult * state :=
  body (
    p <- get_plan ;;
    let inplace := input =? output in
    let plan_ptr := hipfftXtExec_plan_ptr p inplace direction in
    (if is_null plan_ptr
     then return_ HIPFFT_INTERNAL_ERROR else ret tt) ;;
    invoke (hipfftExec plan_ptr (info p) input output)).

(** *** Stream and teardown *)

(** [hipfftSetStream], lines 1216-1220. *)
Definition hipfftSetStream (stream : pointer)
  : state -> hipfftResult * state :=
  body (
    p <- get_plan ;;
    ROC_FFT_CHECK_INVALID_VALUE
      (rocfft_execution_info_set_stream (info p) stream) ;;
    ret HIPFFT_SUCCESS).

(** [if(plan->X != nullptr)
       ROC_FFT_CHECK_INVALID_VALUE(rocfft_plan_destroy(plan->X));]. *)
Definition destroy_slot (sl : slot) : M unit :=
  p <- get_plan ;;
  when (negb (is_null (get_slot sl p)))
    (ROC_FFT_CHECK_INVALID_VALUE (rocfft_plan_destroy (get_slot sl p)) ;;
     ret tt).

(** [hipfftDestroy], lines 1222-1244.  [delete plan] ends the lifetime of
    the plan object; the state keeps its last value. *)
Definition hipfftDestroy (h : hipfftHandle)
  : state -> hipfftResult * state :=
  body (
    (match h with
     | handle_plan =>
         destroy_slot slot_ip_forward ;;
         destroy_slot slot_op_forward ;;
         destroy_slot slot_ip_inverse ;;
         destroy_slot slot_op_inverse ;;
         p <- get_plan ;;
         when (workBufferNeedsFree p)
           (backend_call (hipFree (workBuffer p)) ;; ret tt) ;;
         ROC_FFT_CHECK_INVALID_VALUE
           (rocfft_execution_info_destroy (info p)) ;;
         ret tt
     | handle_null => ret tt
     end) ;;
    ret HIPFFT_SUCCESS).

(** *** Callbacks *)

(** Lines 1313-1315 and their three copies. *)
Definition store_load_callback (callbacks callbackData : pointer) : M unit :=
  modify_plan (set_load_callback_ptrs callbacks) ;;
  modify_plan (set_load_callback_data callbackData) ;;
  modify_plan (set_load_callback_lds_bytes 0).

(** Lines 1341-1343 and their three copies. *)
Definition store_store_callback (callbacks callbackData : pointer) : M unit :=
  modify_plan (set_store_callback_ptrs callbacks) ;;
  modify_plan (set_store_callback_data callbackData) ;;
  modify_plan (set_store_callback_lds_bytes 0).

(** Lines 1370-1383 and 1415-1428: both bindings are handed to the
    execution info again. *)
Definition register_callbacks : M hipfftResult :=
  p <- get_plan ;;
  res <- backend_call
           (rocfft_execution_info_set_load_callback
              (info p) (load_callback_ptrs p) (load_callback_data p)
              (load_callback_lds_bytes p)) ;;
  (if negb (ok res) then return_ HIPFFT_INVALID_VALUE else ret tt) ;;
  res <- backend_call
           (rocfft_execution_info_set_store_callback
              (info p) (store_callback_ptrs p) (store_callback_data p)
              (store_callback_lds_bytes p)) ;;
  (if negb (ok res) then return_ HIPFFT_INVALID_VALUE else ret tt) ;;
  ret HIPFFT_SUCCESS.

Definition precision_neq (a b : rocfft_precision) : bool :=
  negb (rocfft_precision_eqb a b).

(** [hipfftXtSetCallback], lines 1295-1384. *)
Definition hipfftXtSetCallback (h : hipfftHandle) (callbacks : pointer)
    (cbtype : hipfftXtCallbackType) (callbackData : pointer)
  : state -> hipfftResult * state :=
  body (
    (match h with
     | handle_null => return_ HIPFFT_INVALID_PLAN
     | handle_plan => ret tt
     end) ;;
    p <- get_plan ;;
    let precision := hipfftIOType.precision (type p) in
    let is_real_to_complex := hipfftIOType.is_real_to_complex (type p) in
    let is_complex_to_real := hipfftIOType.is_complex_to_real (type p) in
    (match cbtype with
     | HIPFFT_CB_LD_COMPLEX =>
         if precision_neq precision rocfft_precision_single
            || is_real_to_complex
         then return_ HIPFFT_INVALID_VALUE
         else store_load_callback callbacks callbackData
     | HIPFFT_CB_LD_COMPLEX_DOUBLE =>
         if precision_neq precision rocfft_precision_double
            || is_real_to_complex
         then return_ HIPFFT_INVALID_VALUE
         else store_load_callback callbacks callbackData
     | HIPFFT_CB_LD_REAL =>
         if precision_neq precision rocfft_precision_single
            || negb is_real_to_complex
         then return_ HIPFFT_INVALID_VALUE
         else store_load_callback callbacks callbackData
     | HIPFFT_CB_LD_REAL_DOUBLE =>
         if precision_neq precision rocfft_precision_double
            || negb is_real_to_complex
         then return_ HIPFFT_INVALID_VALUE
         else store_load_callback callbacks callbackData
     | HIPFFT_CB_ST_COMPLEX =>
         if precision_neq precision rocfft_precision_single
            || is_complex_to_real
         then return_ HIPFFT_INVALID_VALUE
         else store_store_callback callbacks callbackData
     | HIPFFT_CB_ST_COMPLEX_DOUBLE =>
         if precision_neq precision rocfft_precision_double
            || is_complex_to_real
         then return_ HIPFFT_INVALID_VALUE
         else store_store_callback callbacks callbackData
     | HIPFFT_CB_ST_REAL =>
         if precision_neq precision rocfft_precision_single
            || negb is_complex_to_real
         then return_ HIPFFT_INVALID_VALUE
         else store_store_callback callbacks callbackData
     | HIPFFT_CB_ST_REAL_DOUBLE =>
         if precision_neq precision rocfft_precision_double
            || negb is_complex_to_real
         then return_ HIPFFT_INVALID_VALUE
         else store_store_callback callbacks callbackData
     | HIPFFT_CB_UNDEFINED => return_ HIPFFT_INVALID_VALUE
     end) ;;
    register_callbacks).

(** [hipfftXtClearCallback], lines 1386-1389. *)
Definition hipfftXtClearCallback (h : hipfftHandle)
    (cbtype : hipfftXtCallbackType) : state -> hipfftResult * state :=
  hipfftXtSetCallback h nullptr cbtype nullptr.

(** [hipfftXtSetCallbackSharedSize], lines 1391-1429. *)
Definition hipfftXtSetCallbackSharedSize (h : hipfftHandle)
    (cbtype : hipfftXtCallbackType) (sharedSize : Z)
  : state -> hipfftResult * state :=
  body (
    (match h with
     | handle_null => return_ HIPFFT_INVALID_PLAN
     | handle_plan => ret tt
     end) ;;
    (match cbtype with
     | HIPFFT_CB_LD_COMPLEX
     | HIPFFT_CB_LD_COMPLEX_DOUBLE
     | HIPFFT_CB_LD_REAL
     | HIPFFT_CB_LD_REAL_DOUBLE =>
         modify_plan (set_load_callback_lds_bytes sharedSize)
     | HIPFFT_CB_ST_COMPLEX
     | HIPFFT_CB_ST_COMPLEX_DOUBLE
     | HIPFFT_CB_ST_REAL
     | HIPFFT_CB_ST_REAL_DOUBLE =>
         modify_plan (set_store_callback_lds_bytes sharedSize)
     | HIPFFT_CB_UNDEFINED => return_ HIPFFT_INVALID_VALUE
     end) ;;
    register_callbacks).

End Backend.

(** ** Sample backends and states *)

Definition fresh_state : state :=
  {| plan := new_hipfftHandle_t; rocfft_initialized := false;
     workSize_out := 0; trace := [] |}.

(** Accepts every call; hands out a new address at each call and reports
    a work buffer of 4096 bytes for every plan. *)
Definition accepting : backend :=
  fun history c =>
    match c with
    | rocfft_plan_get_work_buffer_size _ => {| ok := true; out := 4096 |}
    | _ => {| ok := true; out := 1000 + Z.of_nat (length history) |}
    end.

(** As [accepting], but cannot build in-place plans. *)
Definition no_inplace : backend :=
  fun history c =>
    match c with
    | rocfft_plan_create rocfft_placement_inplace _ _ _ _ _ _ =>
        {| ok := false; out := 0 |}
    | _ => accepting history c
    end.

(** As [accepting], but device allocation fails. *)
Definition out_of_memory : backend :=
  fun history c =>
    match c with
    | hipMalloc _ => {| ok := false; out := 0 |}
    | _ => accepting history c
    end.

(** As [accepting], but refuses load callbacks. *)
Definition no_load_callback : backend :=
  fun history c =>
    match c with
    | rocfft_execution_info_set_load_callback _ _ _ _ =>
        {| ok := false; out := 0 |}
    | _ => accepting history c
    end.

(** Run a sequence of API calls, dropping the results. *)
Definition after (calls : list (state -> hipfftResult * state)) (s : state)
  : state :=
  fold_left (fun s f => snd (f s)) calls s.

(** ** Observations on traces *)

Definition calls_of (tr : list event) : list call := map fst tr.

Definition is_execute (c : call) : bool :=
  match c with rocfft_execute _ _ _ _ => true | _ => false end.

(** The work buffer bound to the execution info [i]: that of the last
    [rocfft_execution_info_set_work_buffer] on [i] that the backend
    accepted, if there was one. *)
Definition bound_work_buffer (i : pointer) (tr : list event)
  : option (pointer * Z) :=
  fold_left
    (fun bound e =>
       match e with
       | (rocfft_execution_info_set_work_buffer i' buffer size, r) =>
           if (i' =? i) && ok r then Some (buffer, size) else bound
       | _ => bound
       end)
    tr None.

(** ** Reasoning about function bodies *)

(** The state with another plan object, and the state with more backend
    calls on its trace. *)
Definition with_plan (p : hipfftHandle_t) (s : state) : state :=
  Build_state p (rocfft_initialized s) (workSize_out s) (trace s).

Definition record (evs : list event) (s : state) : state :=
  Build_state (plan s) (rocfft_initialized s) (workSize_out s)
              (trace s ++ evs).

(** Unfold the plumbing of a function body once more. *)
Ltac run :=
  repeat (progress
            (unfold body, bind, ret, return_, when, get_plan, modify_plan,
               backend_call, ROC_FFT_CHECK_INVALID_VALUE, invoke,
               HIP_FFT_CHECK_AND_RETURN, record, with_plan;
             cbn [plan trace rocfft_initialized workSize_out fst snd])).

Lemma bind_ret {A B} (a : A) (k : A -> M B) s : bind (ret a) k s = k a s.
Proof. reflexivity. Qed.

Lemma bind_return {A B} r (k : A -> M B) s :
  bind (return_ r) k s = (inl r, s).
Proof. reflexivity. Qed.

Lemma bind_bind {A B C} (m : M A) (k : A -> M B) (h : B -> M C) s :
  bind (bind m k) h s = bind m (fun a => bind (k a) h) s.
Proof. unfold bind. destruct (m s) as [[r | a] s1]; reflexivity. Qed.

Lemma state_eta (s : state) :
  Build_state (plan s) (rocfft_initialized s) (workSize_out s) (trace s) = s.
Proof. destruct s; reflexivity. Qed.

Lemma plan_eta (p : hipfftHandle_t) :
  Build_plan (type p) (ip_forward p) (op_forward p) (ip_inverse p)
             (op_inverse p) (info p) (workBuffer p) (workBufferSize p)
             (autoAllocate p) (workBufferNeedsFree p)
             (load_callback_ptrs p) (load_callback_data p)
             (load_callback_lds_bytes p) (store_callback_ptrs p)
             (store_callback_data p) (store_callback_lds_bytes p)
             (scale_factor p) = p.
Proof. destruct p; reflexivity. Qed.

Lemma HIPFFT_FORWARD_neq_BACKWARD : HIPFFT_FORWARD <> HIPFFT_BACKWARD.
Proof. discriminate. Qed.

(** ** Execution dispatch *)

(** C9: [hipfftExecC2C] and [hipfftExecZ2Z], called with a direction that
    is neither [HIPFFT_FORWARD] nor [HIPFFT_BACKWARD], return
    [HIPFFT_EXEC_FAILED] and leave the whole state as it was, for every
    plan, every pair of data pointers and every backend: no slot is read,
    no backend call is issued (the trace is unchanged) and the plan object
    is not modified. *)
Theorem exec_c2c_z2z_unknown_direction :
  forall (rocfft : backend) (s : state) (idata odata : pointer)
         (direction : Z),
    direction <> HIPFFT_FORWARD ->
    direction <> HIPFFT_BACKWARD ->
    hipfftExecC2C rocfft idata odata direction s = (HIPFFT_EXEC_FAILED, s)
    /\ hipfftExecZ2Z rocfft idata odata direction s
       = (HIPFFT_EXEC_FAILED, s).
Proof.
  intros rocfft s idata odata direction Hf Hb.
  unfold hipfftExecC2C, hipfftExecZ2Z, body.
  apply Z.eqb_neq in Hf. apply Z.eqb_neq in Hb.
  rewrite Hf, Hb. split; reflexivity.
Qed.

Lemma exec_c2c_z2z_unknown_direction_witness :
  0 <> HIPFFT_FORWARD /\ 0 <> HIPFFT_BACKWARD
  /\ hipfftExecC2C accepting 4096 8192 0 fresh_state
     = (HIPFFT_EXEC_FAILED, fresh_state)
  /\ hipfftExecZ2Z accepting 4096 8192 0 fresh_state
     = (HIPFFT_EXEC_FAILED, fresh_state).
Proof.
  split; [discriminate |]. split; [discriminate |].
  apply (exec_c2c_z2z_unknown_direction accepting fresh_state 4096 8192 0);
    discriminate.
Defined.

(** ** Callback registry *)

Inductive callback_side : Type := load_side | store_side.

Inductive data_role : Type := real_data | complex_data.

Definition data_role_eqb (a b : data_role) : bool :=
  match a, b with
  | real_data, real_data | complex_data, complex_data => true
  | _, _ => false
  end.

(** What each callback type of hipfftXt.h names: load or store, real or
    complex elements, single or double precision.  [HIPFFT_CB_UNDEFINED]
    names nothing. *)
Definition callback_kind (cbtype : hipfftXtCallbackType)
  : option (callback_side * data_role * rocfft_precision) :=
  match cbtype with
  | HIPFFT_CB_LD_COMPLEX =>
      Some (load_side, complex_data, rocfft_precision_single)
  | HIPFFT_CB_LD_COMPLEX_DOUBLE =>
      Some (load_side, complex_data, rocfft_precision_double)
  | HIPFFT_CB_LD_REAL =>
      Some (load_side, real_data, rocfft_precision_single)
  | HIPFFT_CB_LD_REAL_DOUBLE =>
      Some (load_side, real_data, rocfft_precision_double)
  | HIPFFT_CB_ST_COMPLEX =>
      Some (store_side, complex_data, rocfft_precision_single)
  | HIPFFT_CB_ST_COMPLEX_DOUBLE =>
      Some (store_side, complex_data, rocfft_precision_double)
  | HIPFFT_CB_ST_REAL =>
      Some (store_side, real_data, rocfft_precision_single)
  | HIPFFT_CB_ST_REAL_DOUBLE =>
      Some (store_side, real_data, rocfft_precision_double)
  | HIPFFT_CB_UNDEFINED => None
  end.

(** The role of the data on one side of a plan: a load callback reads the
    input of the transform, a store callback writes its output. *)
Definition plan_role (t : hipfftIOType.t) (sd : callback_side) : data_role :=
  match sd with
  | load_side =>
      if hipfftIOType.is_real_to_complex t then real_data else complex_data
  | store_side =>
      if hipfftIOType.is_complex_to_real t then real_data else complex_data
  end.

(** A callback type matches a plan when its precision is the plan's and
    its real/complex role is that of the plan's data on its side. *)
Definition callback_matches (t : hipfftIOType.t)
    (cbtype : hipfftXtCallbackType) : bool :=
  match callback_kind cbtype with
  | Some (sd, role, prec) =>
      data_role_eqb role (plan_role t sd)
      && rocfft_precision_eqb prec (hipfftIOType.precision t)
  | None => false
  end.

(** The callback members of one side: pointers, data, shared-memory
    bytes. *)
Definition side_callback (sd : callback_side) (p : hipfftHandle_t)
  : pointer * pointer * Z :=
  match sd with
  | load_side =>
      (load_callback_ptrs p, load_callback_data p, load_callback_lds_bytes p)
  | store_side =>
      (store_callback_ptrs p, store_callback_data p,
       store_callback_lds_bytes p)
  end.

Definition other_side (sd : callback_side) : callback_side :=
  match sd with load_side => store_side | store_side => load_side end.

(** The plan with the three callback members of one side replaced and
    every other member kept. *)
Definition with_side_callback (sd : callback_side)
    (callbacks callbackData : pointer) (bytes : Z) (p : hipfftHandle_t)
  : hipfftHandle_t :=
  match sd with
  | load_side =>
      Build_plan (type p) (ip_forward p) (op_forward p) (ip_inverse p)
        (op_inverse p) (info p) (workBuffer p) (workBufferSize p)
        (autoAllocate p) (workBufferNeedsFree p)
        callbacks callbackData bytes
        (store_callback_ptrs p) (store_callback_data p)
        (store_callback_lds_bytes p) (scale_factor p)
  | store_side =>
      Build_plan (type p) (ip_forward p) (op_forward p) (ip_inverse p)
        (op_inverse p) (info p) (workBuffer p) (workBufferSize p)
        (autoAllocate p) (workBufferNeedsFree p)
        (load_callback_ptrs p) (load_callback_data p)
        (load_callback_lds_bytes p)
        callbacks callbackData bytes (scale_factor p)
  end.

Definition load_registration (p : hipfftHandle_t) : call :=
  rocfft_execution_info_set_load_callback
    (info p) (load_callback_ptrs p) (load_callback_data p)
    (load_callback_lds_bytes p).

Definition store_registration (p : hipfftHandle_t) : call :=
  rocfft_execution_info_set_store_callback
    (info p) (store_callback_ptrs p) (store_callback_data p)
    (store_callback_lds_bytes p).

(** What re-registering the two bindings of the plan of [s] comes to: the
    load binding is handed over; the store binding follows unless the
    backend refused the load binding; the result is success when both were
    taken. *)
Definition registration_outcome (rocfft : backend) (s : state)
  : hipfftResult * state :=
  let c1 := load_registration (plan s) in
  let r1 := rocfft (trace s) c1 in
  let c2 := store_registration (plan s) in
  let r2 := rocfft (trace s ++ [(c1, r1)]) c2 in
  if ok r1 then
    (if ok r2 then HIPFFT_SUCCESS else HIPFFT_INVALID_VALUE,
     record [(c1, r1); (c2, r2)] s)
  else (HIPFFT_INVALID_VALUE, record [(c1, r1)] s).

Lemma register_callbacks_outcome (rocfft : backend) (s : state) :
  body (register_callbacks rocfft) s = registration_outcome rocfft s.
Proof.
  unfold registration_outcome, register_callbacks, body, bind, get_plan,
    backend_call, load_registration, store_registration, record; simpl.
  destruct (ok (rocfft (trace s) _)) eqn:E1; simpl; [| reflexivity].
  rewrite <- app_assoc; simpl.
  destruct (ok (rocfft (trace s ++ _) _)); reflexivity.
Qed.

Lemma body_bind_unit (m : M unit) (k : M hipfftResult) (s s1 : state) :
  m s = (inr tt, s1) -> body (m ;; k) s = body k s1.
Proof. intros H. unfold body, bind. rewrite H. reflexivity. Qed.

Lemma body_bind_return (m : M unit) (k : M hipfftResult) r (s s1 : state) :
  m s = (inl r, s1) -> body (m ;; k) s = (r, s1).
Proof. intros H. unfold body, bind. rewrite H. reflexivity. Qed.

(** The whole of [hipfftXtSetCallback] on a matching callback type. *)
Lemma set_callback_matching (rocfft : backend) (s : state)
    (callbacks callbackData : pointer) (cbtype : hipfftXtCallbackType)
    (sd : callback_side) (role : data_role) (prec : rocfft_precision) :
  callback_kind cbtype = Some (sd, role, prec) ->
  callback_matches (type (plan s)) cbtype = true ->
  hipfftXtSetCallback rocfft handle_plan callbacks cbtype callbackData s
  = registration_outcome rocfft
      (with_plan (with_side_callback sd callbacks callbackData 0 (plan s)) s).
Proof.
  intros Hk Hm. rewrite <- register_callbacks_outcome.
  destruct s as [p ini ws tr].
  destruct p as [[it ot] ? ? ? ? ? ? ? ? ? ? ? ? ? ? ? ?].
  unfold callback_matches in Hm. rewrite Hk in Hm.
  destruct cbtype; simpl in Hk; inversion Hk; subst; clear Hk;
    destruct it; simpl in Hm; try discriminate Hm;
    destruct ot; simpl in Hm; try discriminate Hm; reflexivity.
Qed.

(** C6: on a callback type whose precision or real/complex role does not
    match the plan's resolved type ([HIPFFT_CB_UNDEFINED] included),
    [hipfftXtSetCallback] returns [HIPFFT_INVALID_VALUE] and leaves the
    whole state as it was: the load and store callback pointers, the
    callback-data pointers and the shared-memory sizes keep their values,
    and the trace is unchanged, so nothing is registered with the
    backend. *)
Theorem set_callback_mismatch_rejected :
  forall (rocfft : backend) (s : state) (callbacks callbackData : pointer)
         (cbtype : hipfftXtCallbackType),
    callback_matches (type (plan s)) cbtype = false ->
    hipfftXtSetCallback rocfft handle_plan callbacks cbtype callbackData s
    = (HIPFFT_INVALID_VALUE, s).
Proof.
  intros rocfft s callbacks callbackData cbtype Hm.
  destruct s as [p ini ws tr].
  destruct p as [[it ot] ? ? ? ? ? ? ? ? ? ? ? ? ? ? ? ?].
  destruct cbtype; destruct it; simpl in Hm; try discriminate Hm;
    destruct ot; simpl in Hm; try discriminate Hm; reflexivity.
Qed.

Lemma set_callback_mismatch_rejected_witness :
  callback_matches (type (plan fresh_state)) HIPFFT_CB_LD_COMPLEX_DOUBLE
  = false
  /\ hipfftXtSetCallback accepting handle_plan 4096
       HIPFFT_CB_LD_COMPLEX_DOUBLE 8192 fresh_state
     = (HIPFFT_INVALID_VALUE, fresh_state).
Proof.
  split; [reflexivity |].
  apply (set_callback_mismatch_rejected accepting fresh_state 4096 8192
           HIPFFT_CB_LD_COMPLEX_DOUBLE).
  reflexivity.
Defined.

Lemma set_callback_success_gives (rocfft : backend) (s s' : state) :
  registration_outcome rocfft s = (HIPFFT_SUCCESS, s') ->
  plan s' = plan s
  /\ exists r1 r2,
       ok r1 = true /\ ok r2 = true
       /\ trace s' = trace s ++ [(load_registration (plan s), r1);
                                 (store_registration (plan s), r2)].
Proof.
  unfold registration_outcome.
  destruct (ok (rocfft (trace s) _)) eqn:E1; [| discriminate].
  destruct (ok (rocfft (trace s ++ _) _)) eqn:E2; [| discriminate].
  intros H. inversion H; subst; clear H. split; [reflexivity |].
  eexists; eexists. split; [exact E1 |]. split; [exact E2 | reflexivity].
Qed.

(** C7: on a callback type that matches the plan, [hipfftXtSetCallback]
    stores the given callback and callback-data pointers on the side the
    type selects and resets the shared-memory size of that side to 0,
    leaving the other side and all other members as they were; it then
    hands the load binding and, if that is accepted, the store binding of
    the updated plan to the plan's execution info.  It returns
    [HIPFFT_SUCCESS] exactly when the backend accepts both bindings, and
    then exactly these two calls were added to the trace; the pointers
    are stored and the size is reset whatever the backend answers, and a
    refused load binding is the only call of the run. *)
Theorem set_callback_success :
  forall (rocfft : backend) (s : state)
         (callbacks callbackData : pointer) (cbtype : hipfftXtCallbackType)
         (sd : callback_side) (role : data_role) (prec : rocfft_precision),
    callback_kind cbtype = Some (sd, role, prec) ->
    callback_matches (type (plan s)) cbtype = true ->
    let run := hipfftXtSetCallback rocfft handle_plan callbacks cbtype
                 callbackData s in
    let p' := with_side_callback sd callbacks callbackData 0 (plan s) in
    let r1 := rocfft (trace s) (load_registration p') in
    let r2 := rocfft (trace s ++ [(load_registration p', r1)])
                     (store_registration p') in
    (run.1 = HIPFFT_SUCCESS <-> ok r1 = true /\ ok r2 = true)
    /\ plan run.2 = p'
    /\ side_callback sd (plan run.2) = (callbacks, callbackData, 0)
    /\ side_callback (other_side sd) (plan run.2)
       = side_callback (other_side sd) (plan s)
    /\ (run.1 = HIPFFT_SUCCESS ->
        trace run.2
        = trace s ++ [(load_registration (plan run.2), r1);
                      (store_registration (plan run.2), r2)])
    /\ trace run.2
       = trace s ++ (load_registration p', r1)
                    :: (if ok r1 then [(store_registration p', r2)] else []).
Proof.
  intros rocfft s callbacks callbackData cbtype sd role prec Hk Hm
         run p' r1 r2.
  subst run. rewrite (set_callback_matching _ _ _ _ _ _ _ _ Hk Hm).
  unfold registration_outcome. cbn [with_plan plan trace].
  fold p'. fold r1. fold r2.
  destruct (ok r1) eqn:E1; [destruct (ok r2) eqn:E2 |];
    cbn [fst snd record with_plan plan trace].
  - split; [split; auto |]. split; [reflexivity |].
    split; [subst p'; destruct sd; reflexivity |].
    split; [subst p'; destruct sd; reflexivity |].
    split; reflexivity.
  - split; [split; [discriminate | intros [_ H]; discriminate H] |].
    split; [reflexivity |].
    split; [subst p'; destruct sd; reflexivity |].
    split; [subst p'; destruct sd; reflexivity |].
    split; [discriminate | reflexivity].
  - split; [split; [discriminate | intros [H _]; discriminate H] |].
    split; [reflexivity |].
    split; [subst p'; destruct sd; reflexivity |].
    split; [subst p'; destruct sd; reflexivity |].
    split; [discriminate | reflexivity].
Qed.

(** On a matching type the call succeeds as soon as the backend takes both
    bindings. *)
Lemma set_callback_succeeds (rocfft : backend) (s : state)
    (callbacks callbackData : pointer) (cbtype : hipfftXtCallbackType) :
  callback_matches (type (plan s)) cbtype = true ->
  (forall history c, ok (rocfft history c) = true) ->
  fst (hipfftXtSetCallback rocfft handle_plan callbacks cbtype
         callbackData s) = HIPFFT_SUCCESS.
Proof.
  intros Hm Hok.
  destruct (callback_kind cbtype) as [[[sd role] prec] |] eqn:Hk.
  - rewrite (set_callback_matching _ _ _ _ _ _ _ _ Hk Hm).
    unfold registration_outcome. rewrite !Hok. reflexivity.
  - unfold callback_matches in Hm. rewrite Hk in Hm. discriminate.
Qed.

Definition callback_set_state : state :=
  snd (hipfftXtSetCallback accepting handle_plan 4096
         HIPFFT_CB_LD_COMPLEX 8192 fresh_state).

(** A plan whose store side has a shared-memory size of 64 bytes. *)
Definition store_hint_state : state :=
  snd (hipfftXtSetCallbackSharedSize accepting handle_plan
         HIPFFT_CB_ST_COMPLEX 64 fresh_state).

Lemma set_callback_success_witness :
  side_callback store_side (plan store_hint_state) = (nullptr, nullptr, 64)
  /\ fst (hipfftXtSetCallback accepting handle_plan 4096
            HIPFFT_CB_ST_COMPLEX 8192 store_hint_state) = HIPFFT_SUCCESS
  /\ side_callback store_side
       (plan (snd (hipfftXtSetCallback accepting handle_plan 4096
                     HIPFFT_CB_ST_COMPLEX 8192 store_hint_state)))
     = (4096, 8192, 0).
Proof.
  split; [reflexivity |].
  destruct (set_callback_success accepting store_hint_state 4096 8192
              HIPFFT_CB_ST_COMPLEX store_side complex_data
              rocfft_precision_single eq_refl eq_refl)
    as (Hs & _ & Hc & _).
  split; [apply Hs; split; reflexivity | exact Hc].
Defined.

(** The plan with the shared-memory size of one side replaced. *)
Definition with_side_bytes (sd : callback_side) (bytes : Z)
    (p : hipfftHandle_t) : hipfftHandle_t :=
  let '(callbacks, callbackData, _) := side_callback sd p in
  with_side_callback sd callbacks callbackData bytes p.

(** The whole of [hipfftXtSetCallbackSharedSize] on a defined callback
    type. *)
Lemma set_callback_shared_size_defined (rocfft : backend) (s : state)
    (cbtype : hipfftXtCallbackType) (sharedSize : Z)
    (sd : callback_side) (role : data_role) (prec : rocfft_precision) :
  callback_kind cbtype = Some (sd, role, prec) ->
  hipfftXtSetCallbackSharedSize rocfft handle_plan cbtype sharedSize s
  = registration_outcome rocfft
      (with_plan (with_side_bytes sd sharedSize (plan s)) s).
Proof.
  intros Hk. rewrite <- register_callbacks_outcome.
  destruct s as [p ini ws tr]. destruct p.
  destruct cbtype; simpl in Hk; inversion Hk; subst; reflexivity.
Qed.

(** C10 as the code has it: [hipfftXtSetCallbackSharedSize] looks at the
    callback type only to choose a side, whatever the types of the plan.
    On [HIPFFT_CB_UNDEFINED] it returns [HIPFFT_INVALID_VALUE] and changes
    nothing.  On each of the eight defined types it stores the byte count
    as the shared-memory size of the side of that type, keeps every other
    member, and hands the load binding of the updated plan to the backend;
    the store binding follows only if the backend took the load binding;
    the result is [HIPFFT_SUCCESS] when both were taken and
    [HIPFFT_INVALID_VALUE] otherwise. *)
Theorem set_callback_shared_size_unvalidated :
  forall (rocfft : backend) (s : state) (cbtype : hipfftXtCallbackType)
         (sharedSize : Z),
    match callback_kind cbtype with
    | None =>
        hipfftXtSetCallbackSharedSize rocfft handle_plan cbtype sharedSize s
        = (HIPFFT_INVALID_VALUE, s)
    | Some (sd, _, _) =>
        let p' := with_side_bytes sd sharedSize (plan s) in
        let e1 :=
          (load_registration p', rocfft (trace s) (load_registration p')) in
        let e2 :=
          (store_registration p',
           rocfft (trace s ++ [e1]) (store_registration p')) in
        hipfftXtSetCallbackSharedSize rocfft handle_plan cbtype sharedSize s
        = (if ok (snd e1) && ok (snd e2)
           then HIPFFT_SUCCESS else HIPFFT_INVALID_VALUE,
           record (e1 :: if ok (snd e1) then [e2] else []) (with_plan p' s))
    end.
Proof.
  intros rocfft s cbtype sharedSize.
  destruct (callback_kind cbtype) as [[[sd role] prec] |] eqn:Hk.
  - rewrite (set_callback_shared_size_defined _ _ _ _ _ _ _ Hk).
    unfold registration_outcome. cbv zeta. simpl.
    destruct (ok (rocfft (trace s) _)); simpl; [| reflexivity].
    destruct (ok (rocfft (trace s ++ _) _)); reflexivity.
  - destruct cbtype; try discriminate Hk. destruct s; reflexivity.
Qed.

(** C10, counterexample to the claim as stated.  On a backend that refuses
    load callbacks, a call with the defined type [HIPFFT_CB_ST_COMPLEX]
    stores the size on the store side, returns [HIPFFT_INVALID_VALUE], and
    re-registers the load binding only: no
    [rocfft_execution_info_set_store_callback] is issued. *)
Lemma set_callback_shared_size_load_refused :
  let s0 := after [hipfftCreate no_load_callback] fresh_state in
  let run :=
    hipfftXtSetCallbackSharedSize no_load_callback handle_plan
      HIPFFT_CB_ST_COMPLEX 64 s0 in
  callback_kind HIPFFT_CB_ST_COMPLEX
  = Some (store_side, complex_data, rocfft_precision_single)
  /\ fst run = HIPFFT_INVALID_VALUE
  /\ store_callback_lds_bytes (plan (snd run)) = 64
  /\ calls_of (trace (snd run))
     = [rocfft_execution_info_create;
        rocfft_execution_info_set_load_callback 1000 0 0 0].
Proof. repeat split. Qed.

(** ** Work area *)

Lemma bound_work_buffer_app (i : pointer) (tr evs : list event) :
  bound_work_buffer i (tr ++ evs)
  = fold_left
      (fun bound e =>
         match e with
         | (rocfft_execution_info_set_work_buffer i' buffer size, r) =>
             if (i' =? i) && ok r then Some (buffer, size) else bound
         | _ => bound
         end)
      evs (bound_work_buffer i tr).
Proof. unfold bound_work_buffer. apply fold_left_app. Qed.

(** The whole of [hipfftSetWorkArea]. *)
Lemma set_work_area_outcome (rocfft : backend) (s : state)
    (workArea : pointer) :
  let p := plan s in
  let freed :=
    if negb (is_null (workBuffer p)) && workBufferNeedsFree p
    then [(hipFree (workBuffer p), rocfft (trace s) (hipFree (workBuffer p)))]
    else [] in
  let c :=
    rocfft_execution_info_set_work_buffer
      (info p) workArea (workBufferSize p) in
  let r := rocfft (trace s ++ freed) c in
  hipfftSetWorkArea rocfft workArea s
  = if is_null workArea then
      (HIPFFT_SUCCESS,
       record freed (with_plan (set_workBufferNeedsFree false p) s))
    else
      (if ok r then HIPFFT_SUCCESS else HIPFFT_INVALID_VALUE,
       record (freed ++ [(c, r)])
              (with_plan (set_workBufferNeedsFree false p) s)).
Proof.
  destruct s as [p ini ws tr]. cbv zeta. unfold hipfftSetWorkArea. run.
  destruct (negb (is_null (workBuffer p)) && workBufferNeedsFree p); run;
    destruct (is_null workArea); run; simpl;
    rewrite ?app_nil_r, <- ?app_assoc; simpl; try reflexivity;
    match goal with
    | |- context [ok (rocfft ?h ?c)] => destruct (ok (rocfft h c))
    end; reflexivity.
Qed.

(** C8 as the code has it: [hipfftSetWorkArea] clears the owns-workspace
    flag and changes no other member of the plan; it frees the plan's
    buffer first when that buffer is non-null and owned; with a non-null
    work area it then binds the work area to the plan's execution info with
    the stored work-buffer size, and after a successful call that binding
    is in force; with a null work area it issues no binding call at all,
    returns [HIPFFT_SUCCESS], and every execution info keeps the work
    buffer that was bound to it before the call. *)
Theorem set_work_area_effect :
  forall (rocfft : backend) (s : state) (workArea : pointer),
    let p := plan s in
    let owned := negb (is_null (workBuffer p)) && workBufferNeedsFree p in
    let run := hipfftSetWorkArea rocfft workArea s in
    plan (snd run) = set_workBufferNeedsFree false p
    /\ workBufferNeedsFree (plan (snd run)) = false
    /\ (exists evs : list event,
          trace (snd run) = trace s ++ evs
          /\ calls_of evs
             = (if owned then [hipFree (workBuffer p)] else [])
               ++ (if is_null workArea then []
                   else [rocfft_execution_info_set_work_buffer
                           (info p) workArea (workBufferSize p)]))
    /\ (is_null workArea = false ->
        fst run = HIPFFT_SUCCESS ->
        bound_work_buffer (info p) (trace (snd run))
        = Some (workArea, workBufferSize p))
    /\ (is_null workArea = true ->
        fst run = HIPFFT_SUCCESS
        /\ forall i : pointer,
             bound_work_buffer i (trace (snd run))
             = bound_work_buffer i (trace s)).
Proof.
  intros rocfft s workArea p owned run.
  pose proof (set_work_area_outcome rocfft s workArea) as H.
  cbv zeta in H. fold p in H. fold owned in H. fold run in H.
  destruct (is_null workArea) eqn:Hnull; rewrite H; clear H; simpl.
  - split; [reflexivity |]. split; [reflexivity |].
    split.
    { eexists. split; [reflexivity |].
      rewrite app_nil_r. destruct owned; reflexivity. }
    split; [discriminate |].
    intros _. split; [reflexivity |].
    intros i. rewrite bound_work_buffer_app. destruct owned; reflexivity.
  - split; [reflexivity |]. split; [reflexivity |].
    split.
    { eexists. split; [reflexivity |].
      unfold calls_of. rewrite map_app. destruct owned; reflexivity. }
    split; [| discriminate].
    intros _ Hok. rewrite bound_work_buffer_app.
    rewrite fold_left_app. simpl. rewrite Z.eqb_refl. simpl.
    match goal with
    | |- context [ok ?r] => destruct (ok r); [reflexivity | discriminate Hok]
    end.
Qed.

Lemma set_work_area_effect_witness :
  is_null 4096 = false
  /\ fst (hipfftSetWorkArea accepting 4096 fresh_state) = HIPFFT_SUCCESS
  /\ bound_work_buffer (info (plan fresh_state))
       (trace (snd (hipfftSetWorkArea accepting 4096 fresh_state)))
     = Some (4096, workBufferSize (plan fresh_state)).
Proof.
  split; [reflexivity |]. split; [reflexivity |].
  apply (set_work_area_effect accepting fresh_state 4096); reflexivity.
Defined.

(** A plan built by [hipfftMakePlan1d] on the accepting backend: the
    library allocated its work buffer (address 1010, 4096 bytes) and bound
    it to the execution info 1000. *)
Definition auto_allocated : state :=
  after [hipfftCreate accepting;
         hipfftMakePlan1d accepting 1024 HIPFFT_C2C 8 nullptr]
        fresh_state.

(** C8, counterexample to the claim as stated.  [hipfftSetWorkArea] with a
    null work area on that plan succeeds, frees the owned buffer 1010, and
    makes no other backend call: the freed buffer is still the one bound to
    the execution info. *)
Lemma set_work_area_null_keeps_binding :
  bound_work_buffer 1000 (trace auto_allocated) = Some (1010, 4096)
  /\ fst (hipfftSetWorkArea accepting nullptr auto_allocated)
     = HIPFFT_SUCCESS
  /\ trace (snd (hipfftSetWorkArea accepting nullptr auto_allocated))
     = trace auto_allocated ++ [(hipFree 1010, {| ok := true; out := 1016 |})]
  /\ bound_work_buffer 1000
       (trace (snd (hipfftSetWorkArea accepting nullptr auto_allocated)))
     = Some (1010, 4096).
Proof. vm_compute. repeat split. Qed.

(** ** Slot selection of [hipfftXtExec] *)

Definition forward_slot (inplace : bool) : slot :=
  if inplace then slot_ip_forward else slot_op_forward.

Definition inverse_slot (inplace : bool) : slot :=
  if inplace then slot_ip_inverse else slot_op_inverse.

(** C1, the code against the claim.  The pointer that [hipfftXtExec] selects
    is, whatever the four slots hold:
    - on a real-to-complex plan, the forward slot of the placement, for
      every direction argument (as the claim says);
    - on a complex-to-real plan, the inverse slot of the placement for every
      direction argument other than [HIPFFT_FORWARD] (as the claim says);
    - on a complex-to-real plan with the direction argument
      [HIPFFT_FORWARD], the forward slot of the placement: the explicit
      direction wins over the direction that the types imply, against the
      claim and against the documentation of [hipfftXtExec] in hipfftXt.h
      (lines 230-232: the direction parameter is ignored for
      real-to-complex and complex-to-real transforms). *)
Theorem xt_exec_slot_selection :
  forall (p : hipfftHandle_t) (inplace : bool) (direction : Z),
    (hipfftIOType.is_real_to_complex (type p) = true ->
     hipfftXtExec_plan_ptr p inplace direction
     = get_slot (forward_slot inplace) p)
    /\ (hipfftIOType.is_real_to_complex (type p) = false ->
        hipfftIOType.is_complex_to_real (type p) = true ->
        direction <> HIPFFT_FORWARD ->
        hipfftXtExec_plan_ptr p inplace direction
        = get_slot (inverse_slot inplace) p)
    /\ (hipfftIOType.is_real_to_complex (type p) = false ->
        hipfftIOType.is_complex_to_real (type p) = true ->
        hipfftXtExec_plan_ptr p inplace HIPFFT_FORWARD
        = get_slot (forward_slot inplace) p).
Proof.
  intros p inplace direction. unfold hipfftXtExec_plan_ptr.
  repeat split.
  - intros ->. destruct inplace; reflexivity.
  - intros -> -> Hd. apply Z.eqb_neq in Hd. rewrite Hd.
    destruct inplace; reflexivity.
  - intros -> _. destruct inplace; reflexivity.
Qed.

(** A complex-to-real plan built on the accepting backend: both inverse
    slots are populated (1002 and 1003), both forward slots are empty. *)
Definition c2r_plan : state :=
  after [hipfftCreate accepting;
         hipfftMakePlan1d accepting 1024 HIPFFT_C2R 1 nullptr]
        fresh_state.

Lemma xt_exec_slot_selection_witness :
  hipfftIOType.is_real_to_complex (type (plan c2r_plan)) = false
  /\ hipfftIOType.is_complex_to_real (type (plan c2r_plan)) = true
  /\ hipfftXtExec_plan_ptr (plan c2r_plan) false HIPFFT_FORWARD
     = get_slot (forward_slot false) (plan c2r_plan).
Proof.
  split; [reflexivity |]. split; [reflexivity |].
  apply (xt_exec_slot_selection (plan c2r_plan) false 0); reflexivity.
Defined.

(** The failing input of C1 evaluated: out of place on the complex-to-real
    plan, [hipfftXtExec] with [HIPFFT_FORWARD] reads the empty forward slot
    and returns [HIPFFT_INTERNAL_ERROR] without any backend call, while
    with [HIPFFT_BACKWARD] it executes the inverse plan 1003. *)
Lemma xt_exec_c2r_forward_evaluated :
  get_slot slot_op_inverse (plan c2r_plan) = 1003
  /\ get_slot slot_op_forward (plan c2r_plan) = nullptr
  /\ hipfftXtExec accepting 4096 8192 HIPFFT_FORWARD c2r_plan
     = (HIPFFT_INTERNAL_ERROR, c2r_plan)
  /\ fst (hipfftXtExec accepting 4096 8192 HIPFFT_BACKWARD c2r_plan)
     = HIPFFT_SUCCESS
  /\ last (calls_of
             (trace (snd (hipfftXtExec accepting 4096 8192 HIPFFT_BACKWARD
                            c2r_plan))))
     = Some (rocfft_execute 1003 4096 8192 1000).
Proof. vm_compute. repeat split. Qed.

(** ** Results of the execute entry points on an empty slot *)

Lemma exec_null_plan (rocfft : backend) (rinfo idata odata : pointer)
    (s : state) :
  hipfftExec rocfft nullptr rinfo idata odata s = (HIPFFT_EXEC_FAILED, s).
Proof. reflexivity. Qed.

Lemma exec_not_internal_error (rocfft : backend)
    (rplan rinfo idata odata : pointer) (s : state) :
  fst (hipfftExec rocfft rplan rinfo idata odata s) <> HIPFFT_INTERNAL_ERROR.
Proof.
  unfold hipfftExec. run.
  destruct (is_null rplan); run; [discriminate |].
  destruct (is_null idata || is_null odata); run; [discriminate |].
  destruct (ok _); discriminate.
Qed.

Lemma exec_forward_is_exec (rocfft : backend) (idata odata : pointer)
    (s : state) :
  hipfftExecForward rocfft idata odata s
  = hipfftExec rocfft
      (get_exec_plan (plan s) (idata =? odata) HIPFFT_FORWARD)
      (info (plan s)) idata odata s.
Proof.
  unfold hipfftExecForward. run.
  destruct (hipfftExec _ _ _ _ _ s); reflexivity.
Qed.

Lemma exec_backward_is_exec (rocfft : backend) (idata odata : pointer)
    (s : state) :
  hipfftExecBackward rocfft idata odata s
  = hipfftExec rocfft
      (get_exec_plan (plan s) (idata =? odata) HIPFFT_BACKWARD)
      (info (plan s)) idata odata s.
Proof.
  unfold hipfftExecBackward. run.
  destruct (hipfftExec _ _ _ _ _ s); reflexivity.
Qed.

Lemma exec_c2c_cases (rocfft : backend) (idata odata : pointer)
    (direction : Z) (s : state) :
  hipfftExecC2C rocfft idata odata direction s
  = if direction =? HIPFFT_FORWARD then hipfftExecForward rocfft idata odata s
    else if direction =? HIPFFT_BACKWARD
         then hipfftExecBackward rocfft idata odata s
         else (HIPFFT_EXEC_FAILED, s).
Proof.
  unfold hipfftExecC2C.
  destruct (direction =? HIPFFT_FORWARD);
    [| destruct (direction =? HIPFFT_BACKWARD)]; run;
    try reflexivity;
    match goal with |- context [?f rocfft idata odata s] =>
      destruct (f rocfft idata odata s) end; reflexivity.
Qed.

Lemma exec_z2z_is_c2c (rocfft : backend) (idata odata : pointer)
    (direction : Z) (s : state) :
  hipfftExecZ2Z rocfft idata odata direction s
  = hipfftExecC2C rocfft idata odata direction s.
Proof. reflexivity. Qed.

(** C2 as the code has it.  Through [hipfftExecForward] and
    [hipfftExecBackward] (hence [hipfftExecR2C], [hipfftExecD2Z],
    [hipfftExecC2R], [hipfftExecZ2D]) and through [hipfftExecC2C] and
    [hipfftExecZ2Z], a call whose selected slot is empty returns
    [HIPFFT_EXEC_FAILED] and changes nothing, and no call ever returns
    [HIPFFT_INTERNAL_ERROR].  Through [hipfftXtExec], a call returns
    [HIPFFT_INTERNAL_ERROR] exactly when the pointer it selected is null,
    be it that no slot was selected or that the selected slot is empty; it
    then changes nothing. *)
Theorem exec_empty_slot_results :
  forall (rocfft : backend) (s : state) (idata odata : pointer)
         (direction : Z),
    let inplace := idata =? odata in
    (get_exec_plan (plan s) inplace HIPFFT_FORWARD = nullptr ->
     hipfftExecForward rocfft idata odata s = (HIPFFT_EXEC_FAILED, s))
    /\ (get_exec_plan (plan s) inplace HIPFFT_BACKWARD = nullptr ->
        hipfftExecBackward rocfft idata odata s = (HIPFFT_EXEC_FAILED, s))
    /\ (get_exec_plan (plan s) inplace direction = nullptr ->
        hipfftExecC2C rocfft idata odata direction s
        = (HIPFFT_EXEC_FAILED, s)
        /\ hipfftExecZ2Z rocfft idata odata direction s
           = (HIPFFT_EXEC_FAILED, s))
    /\ fst (hipfftExecForward rocfft idata odata s) <> HIPFFT_INTERNAL_ERROR
    /\ fst (hipfftExecBackward rocfft idata odata s) <> HIPFFT_INTERNAL_ERROR
    /\ fst (hipfftExecC2C rocfft idata odata direction s)
       <> HIPFFT_INTERNAL_ERROR
    /\ fst (hipfftExecZ2Z rocfft idata odata direction s)
       <> HIPFFT_INTERNAL_ERROR
    /\ (hipfftXtExec_plan_ptr (plan s) inplace direction = nullptr ->
        hipfftXtExec rocfft idata odata direction s
        = (HIPFFT_INTERNAL_ERROR, s))
    /\ (fst (hipfftXtExec rocfft idata odata direction s)
        = HIPFFT_INTERNAL_ERROR ->
        hipfftXtExec_plan_ptr (plan s) inplace direction = nullptr).
Proof.
  intros rocfft s idata odata direction inplace.
  assert (Hc2c : fst (hipfftExecC2C rocfft idata odata direction s)
                 <> HIPFFT_INTERNAL_ERROR).
  { rewrite exec_c2c_cases.
    destruct (direction =? HIPFFT_FORWARD);
      [rewrite exec_forward_is_exec; apply exec_not_internal_error |].
    destruct (direction =? HIPFFT_BACKWARD);
      [rewrite exec_backward_is_exec; apply exec_not_internal_error |].
    discriminate. }
  assert (Hc2c0 : get_exec_plan (plan s) inplace direction = nullptr ->
                  hipfftExecC2C rocfft idata odata direction s
                  = (HIPFFT_EXEC_FAILED, s)).
  { intros H. rewrite exec_c2c_cases. unfold get_exec_plan in H.
    destruct (direction =? HIPFFT_FORWARD) eqn:Ef.
    - apply Z.eqb_eq in Ef. subst direction.
      rewrite exec_forward_is_exec. fold inplace.
      unfold get_exec_plan. rewrite Z.eqb_refl, H. apply exec_null_plan.
    - destruct (direction =? HIPFFT_BACKWARD) eqn:Eb; [| reflexivity].
      apply Z.eqb_eq in Eb. subst direction.
      rewrite exec_backward_is_exec. fold inplace.
      unfold get_exec_plan. rewrite Ef, Z.eqb_refl, H. apply exec_null_plan. }
  repeat split.
  - intros H. rewrite exec_forward_is_exec. fold inplace. rewrite H.
    apply exec_null_plan.
  - intros H. rewrite exec_backward_is_exec. fold inplace. rewrite H.
    apply exec_null_plan.
  - auto.
  - rewrite exec_z2z_is_c2c. auto.
  - rewrite exec_forward_is_exec. apply exec_not_internal_error.
  - rewrite exec_backward_is_exec. apply exec_not_internal_error.
  - exact Hc2c.
  - rewrite exec_z2z_is_c2c. exact Hc2c.
  - intros H. unfold hipfftXtExec. run. fold inplace. rewrite H.
    reflexivity.
  - unfold hipfftXtExec. run. fold inplace.
    destruct (is_null (hipfftXtExec_plan_ptr (plan s) inplace direction))
      eqn:En.
    + intros _. apply Z.eqb_eq in En. exact En.
    + run. intros H. exfalso.
      apply (exec_not_internal_error rocfft
               (hipfftXtExec_plan_ptr (plan s) inplace direction)
               (info (plan s)) idata odata s).
      destruct (hipfftExec _ _ _ _ _ s); exact H.
Qed.

(** A real-to-complex plan built on a backend that cannot make in-place
    plans: the out-of-place forward slot is populated (1004), the in-place
    forward slot is empty. *)
Definition r2c_out_of_place_only : state :=
  after [hipfftCreate no_inplace;
         hipfftMakePlan1d no_inplace 1024 HIPFFT_R2C 1 nullptr]
        fresh_state.

Lemma exec_empty_slot_results_witness :
  get_exec_plan (plan r2c_out_of_place_only) (4096 =? 4096) HIPFFT_FORWARD
  = nullptr
  /\ hipfftExecForward no_inplace 4096 4096 r2c_out_of_place_only
     = (HIPFFT_EXEC_FAILED, r2c_out_of_place_only).
Proof.
  split; [reflexivity |].
  apply (exec_empty_slot_results no_inplace r2c_out_of_place_only
           4096 4096 HIPFFT_FORWARD).
  reflexivity.
Defined.

(** C2, counterexample to the claim as stated.  The plan is
    real-to-complex, so its direction is determined; executed in place,
    the selected slot (in-place forward) is empty.  [hipfftExecR2C] returns
    [HIPFFT_EXEC_FAILED], but [hipfftXtExec] returns
    [HIPFFT_INTERNAL_ERROR]. *)
Lemma xt_exec_empty_slot_internal_error :
  hipfftIOType.is_real_to_complex (type (plan r2c_out_of_place_only)) = true
  /\ get_slot slot_op_forward (plan r2c_out_of_place_only) = 1004
  /\ get_slot slot_ip_forward (plan r2c_out_of_place_only) = nullptr
  /\ hipfftExecR2C no_inplace 4096 4096 r2c_out_of_place_only
     = (HIPFFT_EXEC_FAILED, r2c_out_of_place_only)
  /\ hipfftXtExec no_inplace 4096 4096 HIPFFT_FORWARD r2c_out_of_place_only
     = (HIPFFT_INTERNAL_ERROR, r2c_out_of_place_only).
Proof. vm_compute. repeat split. Qed.

(** ** Resolving the explicit types *)

(** Role and precision of the six floating-point data types; any other
    data type has none. *)
Definition data_type_kind (t : hipDataType)
  : option (data_role * rocfft_precision) :=
  match t with
  | HIP_R_16F => Some (real_data, rocfft_precision_half)
  | HIP_C_16F => Some (complex_data, rocfft_precision_half)
  | HIP_R_32F => Some (real_data, rocfft_precision_single)
  | HIP_C_32F => Some (complex_data, rocfft_precision_single)
  | HIP_R_64F => Some (real_data, rocfft_precision_double)
  | HIP_C_64F => Some (complex_data, rocfft_precision_double)
  | HIP_DATATYPE_OTHER => None
  end.

(** The rule of the claim: a real input with a complex output and a complex
    execution type of the same precision, or a complex input with a
    complex or real output of the same precision and a complex execution
    type of the same precision. *)
Definition valid_type_triple (input output exec : hipDataType) : bool :=
  match data_type_kind input, data_type_kind output, data_type_kind exec with
  | Some (real_data, pi), Some (complex_data, po), Some (complex_data, pe) =>
      rocfft_precision_eqb pi po && rocfft_precision_eqb pi pe
  | Some (complex_data, pi), Some (_, po), Some (complex_data, pe) =>
      rocfft_precision_eqb pi po && rocfft_precision_eqb pi pe
  | _, _, _ => false
  end.

(** The result of a rejected triple. *)
Definition rejection (input : hipDataType) : hipfftResult :=
  match data_type_kind input with
  | Some _ => HIPFFT_INVALID_VALUE
  | None => HIPFFT_NOT_IMPLEMENTED
  end.

(** Both [init] functions store only the six floating-point types. *)
Lemma init_stores_fft_types (self : hipfftIOType.t)
    (input output exec : hipDataType) (t : hipfftIOType.t) :
  hipfftIOType.init self input output exec = (HIPFFT_SUCCESS, t) ->
  data_type_kind (hipfftIOType.inputType t) <> None
  /\ data_type_kind (hipfftIOType.outputType t) <> None.
Proof.
  destruct input, output, exec; simpl; intros H; inversion H; subst;
    simpl; split; discriminate.
Qed.

Lemma init_type_stores_fft_types (self : hipfftIOType.t)
    (type : hipfftType) (t : hipfftIOType.t) :
  hipfftIOType.init_type self type = (HIPFFT_SUCCESS, t) ->
  data_type_kind (hipfftIOType.inputType t) <> None
  /\ data_type_kind (hipfftIOType.outputType t) <> None.
Proof.
  destruct type; simpl; intros H; inversion H; subst; simpl; split;
    discriminate.
Qed.

(** C5 as the code has it.  [hipfftIOType::init] on explicit types
    succeeds exactly on the triples that satisfy the rule, and then stores
    the input and output types.  A triple that violates the rule is
    rejected with the stored types unchanged, and [hipfftXtMakePlanMany]
    returns the same result with the whole state unchanged (so without any
    backend call): the result is [HIPFFT_INVALID_VALUE] when the input type
    is one of the six floating-point types and [HIPFFT_NOT_IMPLEMENTED]
    when it is any other data type. *)
Theorem resolve_from_types :
  forall (rocfft : backend) (s : state) (self : hipfftIOType.t)
         (input output exec : hipDataType)
         (rank : Z) (n : list Z)
         (inembed : option (list Z)) (istride idist : Z)
         (onembed : option (list Z)) (ostride odist : Z)
         (batch : Z) (workSize : pointer),
    (fst (hipfftIOType.init self input output exec) = HIPFFT_SUCCESS
     <-> valid_type_triple input output exec = true)
    /\ (valid_type_triple input output exec = true ->
        hipfftIOType.init self input output exec
        = (HIPFFT_SUCCESS, hipfftIOType.Build input output))
    /\ (valid_type_triple input output exec = false ->
        hipfftIOType.init self input output exec = (rejection input, self)
        /\ hipfftXtMakePlanMany rocfft rank n inembed istride idist input
             onembed ostride odist output batch workSize exec s
           = (rejection input, s)).
Proof.
  intros. split; [split |]; [| | split].
  - destruct input, output, exec; simpl; intros H;
      solve [reflexivity | discriminate H].
  - destruct input, output, exec; simpl; intros H;
      solve [reflexivity | discriminate H].
  - destruct input, output, exec; simpl; intros H;
      solve [reflexivity | discriminate H].
  - destruct input, output, exec; intros H;
      solve [split; reflexivity | discriminate H].
Qed.

Lemma resolve_from_types_witness :
  valid_type_triple HIP_R_32F HIP_C_64F HIP_C_32F = false
  /\ hipfftIOType.init hipfftIOType.default HIP_R_32F HIP_C_64F HIP_C_32F
     = (rejection HIP_R_32F, hipfftIOType.default)
  /\ hipfftXtMakePlanMany accepting 1 [1024] None 1 0 HIP_R_32F
       None 1 0 HIP_C_64F 1 nullptr HIP_C_32F fresh_state
     = (rejection HIP_R_32F, fresh_state).
Proof.
  split; [reflexivity |].
  apply (resolve_from_types accepting fresh_state hipfftIOType.default
           HIP_R_32F HIP_C_64F HIP_C_32F 1 [1024] None 1 0 None 1 0 1
           nullptr).
  reflexivity.
Defined.

(** C5, counterexample to the claim as stated.  An input type outside the
    six (an integer or bfloat16 format) with a complex single-precision
    output and execution type violates the rule, and is rejected with
    [HIPFFT_NOT_IMPLEMENTED], not with [HIPFFT_INVALID_VALUE]. *)
Lemma resolve_from_types_not_implemented :
  valid_type_triple HIP_DATATYPE_OTHER HIP_C_32F HIP_C_32F = false
  /\ hipfftIOType.init hipfftIOType.default
       HIP_DATATYPE_OTHER HIP_C_32F HIP_C_32F
     = (HIPFFT_NOT_IMPLEMENTED, hipfftIOType.default)
  /\ hipfftXtMakePlanMany accepting 1 [1024] None 1 0 HIP_DATATYPE_OTHER
       None 1 0 HIP_C_32F 1 nullptr HIP_C_32F fresh_state
     = (HIPFFT_NOT_IMPLEMENTED, fresh_state)
  /\ HIPFFT_NOT_IMPLEMENTED <> HIPFFT_INVALID_VALUE.
Proof. repeat split. discriminate. Qed.

(** ** Frames for function bodies

    [within Rp P B prev m]: from every state, the computation [m] takes the
    plan object to one related to it by [Rp], issues only backend calls in
    the class [P], and leaves the enclosing function early with a result
    [r] only when [B r] holds of the calls issued so far ([prev] and its
    own). *)

(** A condition on the calls issued so far that more calls do not undo. *)
Class Lasting (B : hipfftResult -> list event -> Prop) : Prop :=
  lasting : forall r evs evs',
    (forall e, In e evs -> In e evs') -> B r evs -> B r evs'.

(** Some refused call [c] accounts for the result [r]. *)
Definition blamed (E : hipfftResult -> call -> Prop)
    (r : hipfftResult) (evs : list event) : Prop :=
  exists c a, In (c, a) evs /\ ok a = false /\ E r c.

#[export] Instance blamed_lasting (E : hipfftResult -> call -> Prop) :
  Lasting (blamed E).
Proof.
  intros r evs evs' Hsub (c & a & Hin & Hok & HE). exists c, a. auto.
Qed.

Definition any_reason (r : hipfftResult) (evs : list event) : Prop := True.

#[export] Instance any_reason_lasting : Lasting any_reason.
Proof. intros r evs evs' _ _. exact I. Qed.

Section Frames.

Variable rocfft : backend.
Variable Rp : hipfftHandle_t -> hipfftHandle_t -> Prop.
Context {Rp_preorder : PreOrder Rp}.
Variable P : call -> Prop.
Variable B : hipfftResult -> list event -> Prop.
Context {B_lasting : Lasting B}.

Definition within (prev : list event) {A : Type} (m : M A) : Prop :=
  forall s : state,
    Rp (plan s) (plan (snd (m s)))
    /\ exists evs : list event,
         trace (snd (m s)) = trace s ++ evs
         /\ Forall (fun e => P (fst e)) evs
         /\ match fst (m s) with
            | inl r => B r (prev ++ evs)
            | inr _ => True
            end.

Lemma within_ret (prev : list event) {A : Type} (a : A) :
  within prev (ret a).
Proof.
  intros s. split; [reflexivity |]. exists []. simpl.
  rewrite app_nil_r. auto.
Qed.

Lemma within_return (prev : list event) {A : Type} (r : hipfftResult) :
  B r prev -> within prev (@return_ A r).
Proof.
  intros Hb s. split; [reflexivity |]. exists []. simpl.
  rewrite !app_nil_r. auto.
Qed.

Lemma within_get_plan (prev : list event) : within prev get_plan.
Proof.
  intros s. split; [reflexivity |]. exists []. simpl.
  rewrite app_nil_r. auto.
Qed.

Lemma within_modify_plan (prev : list event)
    (f : hipfftHandle_t -> hipfftHandle_t) :
  (forall p, Rp p (f p)) -> within prev (modify_plan f).
Proof.
  intros Hf s. split; [apply Hf |]. exists []. simpl.
  rewrite app_nil_r. auto.
Qed.

Lemma within_write_workSize (prev : list event) (v : Z) :
  within prev (write_workSize v).
Proof.
  intros s. split; [reflexivity |]. exists []. simpl.
  rewrite app_nil_r. auto.
Qed.

Lemma within_bind (prev : list event) {A C : Type} (m : M A)
    (k : A -> M C) :
  within prev m -> (forall a, within prev (k a)) -> within prev (bind m k).
Proof.
  intros Hm Hk s. unfold bind.
  destruct (Hm s) as [HR (evs1 & Ht1 & HP1 & Hb1)].
  destruct (m s) as [[r | a] s1]; simpl in *.
  - split; [exact HR |]. exists evs1. auto.
  - destruct (Hk a s1) as [HR2 (evs2 & Ht2 & HP2 & Hb2)].
    split; [etransitivity; eassumption |].
    exists (evs1 ++ evs2). rewrite Ht2, Ht1, app_assoc.
    split; [reflexivity |]. split; [apply Forall_app; auto |].
    destruct (fst (k a s1)); [| exact I].
    eapply lasting; [| exact Hb2].
    intros e. rewrite !in_app_iff. tauto.
Qed.

Lemma within_call_bind (prev : list event) {C : Type} (c : call)
    (k : response -> M C) :
  P c ->
  (forall a, within ((c, a) :: prev) (k a)) ->
  within prev (bind (backend_call rocfft c) k).
Proof.
  intros Hc Hk s. unfold bind, backend_call.
  set (a := rocfft (trace s) c).
  set (s1 := Build_state _ _ _ _).
  destruct (Hk a s1) as [HR (evs & Ht & HP & Hb)].
  split; [exact HR |].
  exists ((c, a) :: evs). rewrite Ht. subst s1. simpl.
  rewrite <- app_assoc. split; [reflexivity |].
  split; [constructor; auto |].
  destruct (fst (k a _)); [| exact I].
  eapply lasting; [| exact Hb].
  intros e. simpl. rewrite !in_app_iff. simpl. tauto.
Qed.

Lemma within_call (prev : list event) (c : call) :
  P c -> within prev (backend_call rocfft c).
Proof.
  intros Hc s. split; [reflexivity |].
  exists [(c, rocfft (trace s) c)]. simpl. auto.
Qed.

Lemma within_for_each (prev : list event) {A S : Type} (l : list A)
    (f : A -> S -> M S) :
  (forall a acc, within prev (f a acc)) ->
  forall acc, within prev (for_each l f acc).
Proof.
  intros Hf. induction l as [| a l IH]; intros acc; simpl.
  - apply within_ret.
  - apply within_bind; [apply Hf | exact IH].
Qed.

(** What a frame says of a whole body. *)
Lemma within_body (m : M hipfftResult) (s : state) :
  within [] m ->
  Rp (plan s) (plan (snd (body m s)))
  /\ exists evs : list event,
       trace (snd (body m s)) = trace s ++ evs
       /\ Forall (fun e => P (fst e)) evs
       /\ (fst (m s) = inl (fst (body m s)) -> B (fst (body m s)) evs)
       /\ (fst (m s) = inl (fst (body m s))
           \/ fst (m s) = inr (fst (body m s))).
Proof.
  intros Hm. destruct (Hm s) as [HR (evs & Ht & HP & Hb)].
  unfold body. destruct (m s) as [[r | r] s1]; simpl in *.
  - split; [exact HR |]. exists evs. repeat split; auto.
  - split; [exact HR |]. exists evs. repeat split; auto. discriminate.
Qed.

End Frames.

Arguments within Rp P B prev {A} m.

(** One step of a frame proof; side conditions are left to the caller. *)
Ltac frame_step :=
  lazymatch goal with
  | |- PreOrder _ => typeclasses eauto
  | |- Lasting _ => typeclasses eauto
  | |- forall _, within _ _ _ _ _ => intros ?
  | |- within _ _ _ _ (bind (backend_call _ _) _) => apply within_call_bind
  | |- within _ _ _ _ (bind _ _) => apply within_bind
  | |- within _ _ _ _ (ret _) => apply within_ret
  | |- within _ _ _ _ get_plan => apply within_get_plan
  | |- within _ _ _ _ (modify_plan _) => apply within_modify_plan
  | |- within _ _ _ _ (write_workSize _) => apply within_write_workSize
  | |- within _ _ _ _ (backend_call _ _) => apply within_call
  | |- within _ _ _ _ (return_ _) => apply within_return
  | |- within _ _ _ _ (if ?b then _ else _) => destruct b eqn:?
  | |- within _ _ _ _ (let '(_, _) := ?x in _) => destruct x
  end.

(** The refused call at the head of the calls so far accounts for the
    result. *)
Ltac blame_last :=
  lazymatch goal with
  | H : ok ?a = false |- blamed _ _ ((?c, ?a) :: _) =>
      exists c, a; split; [left; reflexivity | split; [exact H |]]
  end.

(** ** Checked calls

    [checked P m]: the computation [m] looks at the status of every
    backend call of the class [P] that it issues.  It falls through only
    when all of them were accepted, and it leaves the enclosing function
    early only right after one that was refused, all the earlier ones
    having been accepted. *)

Definition accepted (P : call -> bool) (evs : list event) : Prop :=
  Forall (fun e => P e.1 = true -> ok e.2 = true) evs.

Definition stopped (P : call -> bool) (evs : list event) : Prop :=
  exists (evs' : list event) (c : call) (a : response),
    evs = evs' ++ [(c, a)] /\ P c = true /\ ok a = false /\ accepted P evs'.

Definition checked (P : call -> bool) {A : Type} (m : M A) : Prop :=
  forall s : state,
    exists evs : list event,
      trace (m s).2 = trace s ++ evs
      /\ match (m s).1 with
         | inr _ => accepted P evs
         | inl _ => stopped P evs
         end.

Lemma accepted_app (P : call -> bool) (evs evs' : list event) :
  accepted P evs -> accepted P evs' -> accepted P (evs ++ evs').
Proof. intros H H'. apply Forall_app. auto. Qed.

Lemma stopped_app (P : call -> bool) (evs evs' : list event) :
  accepted P evs -> stopped P evs' -> stopped P (evs ++ evs').
Proof.
  intros H (evs'' & c & a & -> & Hc & Hok & Ha).
  exists (evs ++ evs''), c, a. rewrite app_assoc.
  split; [reflexivity |]. split; [exact Hc |]. split; [exact Hok |].
  apply accepted_app; assumption.
Qed.

(** A refused call of the class is the last call of a run that stopped,
    and there is none in a run that did not. *)
Lemma stopped_not_accepted (P : call -> bool) (evs : list event) :
  stopped P evs -> ~ accepted P evs.
Proof.
  intros (evs' & c & a & -> & Hc & Hok & _) H.
  apply Forall_app in H. destruct H as [_ H].
  inversion H as [| ? ? H1 _]; subst. simpl in H1.
  rewrite (H1 Hc) in Hok. discriminate Hok.
Qed.

Lemma stopped_last (P : call -> bool) (evs : list event) :
  stopped P evs ->
  forall (evs1 evs2 : list event) (c : call) (a : response),
    evs = evs1 ++ (c, a) :: evs2 -> P c = true -> ok a = false ->
    evs2 = [].
Proof.
  intros (evs' & c' & a' & -> & _ & _ & Ha) evs1 evs2 c a E Hc Hok.
  destruct evs2 as [| e evs2] using rev_ind; [reflexivity |].
  exfalso. clear IHevs2.
  change (evs1 ++ (c, a) :: evs2 ++ [e])
    with (evs1 ++ ((c, a) :: evs2) ++ [e]) in E.
  rewrite app_assoc in E. apply app_inj_tail in E. destruct E as [E _].
  rewrite E in Ha. apply Forall_app in Ha. destruct Ha as [_ Ha].
  inversion Ha as [| ? ? H1 _]; subst. simpl in H1.
  rewrite (H1 Hc) in Hok. discriminate Hok.
Qed.

Lemma accepted_no_refusal (P : call -> bool) (evs : list event) :
  accepted P evs ->
  forall (c : call) (a : response),
    In (c, a) evs -> P c = true -> ok a = true.
Proof.
  intros H c a Hin Hc. unfold accepted in H.
  rewrite List.Forall_forall in H. exact (H (c, a) Hin Hc).
Qed.

Lemma accepted_none (P : call -> bool) (evs : list event) :
  Forall (fun e => P e.1 = false) evs -> accepted P evs.
Proof.
  intros H. eapply Forall_impl; [exact H |].
  intros e He Hp. rewrite He in Hp. discriminate Hp.
Qed.

Section Checked.

Variable rocfft : backend.
Variable P : call -> bool.

Lemma checked_ret {A : Type} (a : A) : checked P (ret a).
Proof. intros s. exists []. simpl. rewrite app_nil_r. split; constructor. Qed.

Lemma checked_get_plan : checked P get_plan.
Proof. intros s. exists []. simpl. rewrite app_nil_r. split; constructor. Qed.

Lemma checked_modify_plan (f : hipfftHandle_t -> hipfftHandle_t) :
  checked P (modify_plan f).
Proof. intros s. exists []. simpl. rewrite app_nil_r. split; constructor. Qed.

Lemma checked_write_workSize (v : Z) : checked P (write_workSize v).
Proof. intros s. exists []. simpl. rewrite app_nil_r. split; constructor. Qed.

(** A call outside the class. *)
Lemma checked_call (c : call) :
  P c = false -> checked P (backend_call rocfft c).
Proof.
  intros Hc s. exists [(c, rocfft (trace s) c)]. simpl.
  split; [reflexivity |]. constructor; [| constructor].
  simpl. rewrite Hc. discriminate.
Qed.

Lemma checked_bind {A C : Type} (m : M A) (k : A -> M C) :
  checked P m -> (forall a, checked P (k a)) -> checked P (bind m k).
Proof.
  intros Hm Hk s. unfold bind.
  destruct (Hm s) as (evs1 & Ht1 & H1).
  destruct (m s) as [[r | a] s1]; cbn [fst snd] in *.
  - exists evs1. auto.
  - destruct (Hk a s1) as (evs2 & Ht2 & H2).
    exists (evs1 ++ evs2). rewrite Ht2, Ht1, app_assoc.
    split; [reflexivity |].
    destruct (k a s1).1;
      [apply stopped_app | apply accepted_app]; assumption.
Qed.

(** A call of the class whose status is tested at once: the computation
    goes on when it is accepted and returns when it is refused. *)
Lemma checked_test {C : Type} (c : call) (k : response -> M C) :
  P c = true ->
  (forall a, ok a = true -> checked P (k a)) ->
  (forall a s, ok a = false -> exists r, k a s = (inl r, s)) ->
  checked P (bind (backend_call rocfft c) k).
Proof.
  intros Hc Hk Hstop s. unfold bind, backend_call.
  set (a := rocfft (trace s) c).
  set (s1 := Build_state _ _ _ _).
  destruct (ok a) eqn:Hok.
  - destruct (Hk a Hok s1) as (evs & Ht & H).
    exists ([(c, a)] ++ evs). rewrite Ht. subst s1. cbn [trace].
    rewrite <- app_assoc. split; [reflexivity |].
    assert (H0 : accepted P [(c, a)]).
    { constructor; [intros _; exact Hok | constructor]. }
    destruct (k a _).1;
      [apply stopped_app | apply accepted_app]; assumption.
  - destruct (Hstop a s1 Hok) as (r & ->). cbn [fst snd].
    exists [(c, a)]. split; [reflexivity |].
    exists [], c, a. repeat split; auto. constructor.
Qed.

Lemma checked_body (m : M hipfftResult) (s : state) :
  checked P m ->
  exists evs : list event,
    trace (body m s).2 = trace s ++ evs
    /\ ((accepted P evs /\ (m s).1 = inr (body m s).1)
        \/ (stopped P evs /\ (m s).1 = inl (body m s).1)).
Proof.
  intros Hm. destruct (Hm s) as (evs & Ht & H). unfold body.
  destruct (m s) as [[r | r] s1]; cbn [fst snd] in *;
    exists evs; (split; [exact Ht |]); [right | left]; auto.
Qed.

End Checked.

(** One step of a proof of [checked]. *)
Ltac checked_step :=
  lazymatch goal with
  | |- forall _, checked _ _ => intros ?
  | |- checked _ (bind (backend_call _ _) _) =>
      first
        [ apply checked_test;
          [ reflexivity
          | let a := fresh "a" in
            let H := fresh "Hok" in
            intros a H; rewrite ?H
          | let a := fresh "a" in
            let s := fresh "s" in
            let H := fresh "Hok" in
            intros a s H; rewrite ?H; eexists; reflexivity ]
        | apply checked_bind; [apply checked_call; reflexivity |] ]
  | |- checked _ (bind _ _) => apply checked_bind
  | |- checked _ (ret _) => apply checked_ret
  | |- checked _ get_plan => apply checked_get_plan
  | |- checked _ (modify_plan _) => apply checked_modify_plan
  | |- checked _ (write_workSize _) => apply checked_write_workSize
  | |- checked _ (backend_call _ _) => apply checked_call; reflexivity
  | |- checked _ (if ?b then _ else _) => destruct b eqn:?
  | |- checked _ (let '(_, _) := ?x in _) => destruct x
  | |- checked _ (match ?x with Some _ => _ | None => _ end) => destruct x
  end.

Ltac checked_through :=
  repeat first [progress unfold when, ROC_FFT_CHECK_INVALID_VALUE,
                  store_workSize, description_create
               | checked_step].

(** ** Classes of backend calls *)

Definition is_plan_create (c : call) : bool :=
  match c with rocfft_plan_create _ _ _ _ _ _ _ => true | _ => false end.

Definition is_data_layout (c : call) : bool :=
  match c with
  | rocfft_plan_description_set_data_layout _ _ _ _ _ _ _ _ _ => true
  | _ => false
  end.

Definition is_description_create (c : call) : bool :=
  match c with rocfft_plan_description_create => true | _ => false end.

(** The calls that size, allocate and bind the work buffer. *)
Definition is_workspace_call (c : call) : bool :=
  match c with
  | rocfft_plan_get_work_buffer_size _
  | hipFree _
  | hipMalloc _
  | rocfft_execution_info_set_work_buffer _ _ _ => true
  | _ => false
  end.

(** The plan keeps its transform type and its four slots. *)
Definition keeps_slots (p p' : hipfftHandle_t) : Prop :=
  type p' = type p /\ forall sl, get_slot sl p' = get_slot sl p.

#[export] Instance keeps_slots_preorder : PreOrder keeps_slots.
Proof.
  split.
  - intros p. split; reflexivity.
  - intros p q r [Ht1 Hs1] [Ht2 Hs2]. split.
    + rewrite Ht2. exact Ht1.
    + intros sl. rewrite Hs2. apply Hs1.
Qed.

Definition any_plan (p p' : hipfftHandle_t) : Prop := True.

#[export] Instance any_plan_preorder : PreOrder any_plan.
Proof. split; intros ?; intros; exact I. Qed.

Lemma within_weaken
    (Rp Rp' : hipfftHandle_t -> hipfftHandle_t -> Prop)
    (P P' : call -> Prop)
    (B B' : hipfftResult -> list event -> Prop)
    (prev : list event) {A : Type} (m : M A) :
  (forall p q, Rp p q -> Rp' p q) ->
  (forall c, P c -> P' c) ->
  (forall r evs, B r evs -> B' r evs) ->
  within Rp P B prev m -> within Rp' P' B' prev m.
Proof.
  intros HR HP HB Hm s. destruct (Hm s) as [H1 (evs & Ht & Hf & Hb)].
  split; [auto |]. exists evs. split; [exact Ht |].
  split; [eapply Forall_impl; [exact Hf |]; simpl; auto |].
  destruct (fst (m s)); auto.
Qed.

Definition never (r : hipfftResult) (evs : list event) : Prop := False.

#[export] Instance never_lasting : Lasting never.
Proof. intros r evs evs' _ H. exact H. Qed.

(** Calls other than plan creations and layout settings. *)
Definition auxiliary_call (c : call) : Prop :=
  is_plan_create c = false /\ is_data_layout c = false.

(** A refused workspace call, with the result it leads to. *)
Definition workspace_failure (r : hipfftResult) (c : call) : Prop :=
  is_workspace_call c = true
  /\ (r = HIPFFT_INVALID_VALUE \/ r = HIPFFT_ALLOC_FAILED).

(** A refused layout setting, with the result it leads to. *)
Definition layout_failure (r : hipfftResult) (c : call) : Prop :=
  is_data_layout c = true /\ r = HIPFFT_INVALID_VALUE.

Ltac frame_side :=
  lazymatch goal with
  | |- auxiliary_call _ => split; reflexivity
  | |- _ = _ => reflexivity
  | |- forall p, keeps_slots p _ =>
      intros ?p; split; [reflexivity | intros [] ; reflexivity]
  | |- forall p, any_plan p _ => intros ?p; exact I
  | |- any_reason _ _ => exact I
  | |- blamed _ _ _ => blame_last; split; [reflexivity | auto]
  end.

Ltac frame :=
  repeat first [progress unfold when, ROC_FFT_CHECK_INVALID_VALUE
               | frame_step
               | frame_side].

(** Lines 360-372 issue at most [rocfft_setup] and keep the plan. *)
Lemma initializer_frame (rocfft : backend) :
  within eq (fun c => c = rocfft_setup) never [] (rocfft_initializer rocfft).
Proof.
  intros s. unfold rocfft_initializer.
  destruct (rocfft_initialized s); simpl.
  - split; [reflexivity |]. exists []. rewrite app_nil_r. auto.
  - split; [reflexivity |]. eexists. split; [reflexivity |].
    split; [| exact I]. constructor; [reflexivity | constructor].
Qed.

(** Lines 664-727: sizing, allocating and binding the work buffer keeps
    the transform type and the four slots, creates no plan, sets no
    layout, and fails only on a refused workspace call. *)
Definition finish_plan (rocfft : backend) (iotype : hipfftIOType.t)
    (workSize : pointer) (ds : descriptions) : M hipfftResult :=
  workBufferSize <- compute_work_buffer_size rocfft iotype ;;
  allocate_work_buffer rocfft workBufferSize ;;
  store_workSize workSize workBufferSize ;;
  modify_plan (set_workBufferSize workBufferSize) ;;
  backend_call rocfft
    (rocfft_plan_description_destroy (description_of slot_ip_forward ds)) ;;
  backend_call rocfft
    (rocfft_plan_description_destroy (description_of slot_op_forward ds)) ;;
  backend_call rocfft
    (rocfft_plan_description_destroy (description_of slot_ip_inverse ds)) ;;
  backend_call rocfft
    (rocfft_plan_description_destroy (description_of slot_op_inverse ds)) ;;
  ret HIPFFT_SUCCESS.

Lemma max_work_buffer_size_frame (rocfft : backend) (prev : list event)
    (sl : slot) (w : Z) :
  within keeps_slots auxiliary_call (blamed workspace_failure) prev
         (max_work_buffer_size rocfft sl w).
Proof. unfold max_work_buffer_size. frame. Qed.

Lemma finish_plan_frame (rocfft : backend) (iotype : hipfftIOType.t)
    (workSize : pointer) (ds : descriptions) :
  within keeps_slots auxiliary_call (blamed workspace_failure) []
         (finish_plan rocfft iotype workSize ds).
Proof.
  unfold finish_plan, compute_work_buffer_size, allocate_work_buffer,
    store_workSize.
  frame; apply max_work_buffer_size_frame.
Qed.

Lemma finish_plan_checked (rocfft : backend) (iotype : hipfftIOType.t)
    (workSize : pointer) (ds : descriptions) :
  checked is_workspace_call (finish_plan rocfft iotype workSize ds).
Proof.
  unfold finish_plan, compute_work_buffer_size, max_work_buffer_size,
    allocate_work_buffer.
  checked_through.
Qed.

(** Lines 610-624: applying the scale factor keeps the plan and never
    returns. *)
Lemma apply_scale_factor_frame (rocfft : backend) (ds : descriptions) :
  within eq auxiliary_call never [] (apply_scale_factor rocfft ds).
Proof.
  unfold apply_scale_factor, ensure_description, description_create.
  destruct ds as [[[ipf opf] ipi] opi]. frame.
Qed.

(** Lines 374-608: preparing the descriptions keeps the plan, creates no
    plan, and fails only on a refused layout setting, with
    [HIPFFT_INVALID_VALUE]. *)
Lemma make_descriptions_frame (rocfft : backend) (dim : Z)
    (lengths : list Z) (desc : option hipfft_plan_description_t)
    (re_calc : bool) :
  within eq (fun c => is_plan_create c = false) (blamed layout_failure) []
         (make_descriptions rocfft dim lengths desc re_calc).
Proof.
  unfold make_descriptions, set_recalculated_layouts, set_given_layouts,
    description_create, set_data_layout.
  destruct desc as [desc |]; [| frame].
  destruct re_calc; [| frame].
  destruct (rocfft_array_type_eqb _ _);
    [| destruct (rocfft_array_type_eqb _ _)];
    repeat match goal with
           | |- context [stride_loop ?a ?b ?c ?d ?e ?f] =>
               destruct (stride_loop a b c d e f) as [[[? ?] ?] ?]
           end;
    frame.
Qed.

Lemma make_descriptions_checked (rocfft : backend) (dim : Z)
    (lengths : list Z) (desc : option hipfft_plan_description_t)
    (re_calc : bool) :
  checked is_data_layout (make_descriptions rocfft dim lengths desc re_calc).
Proof.
  unfold make_descriptions, set_recalculated_layouts, set_given_layouts,
    set_data_layout.
  repeat match goal with
         | |- context [stride_loop ?a ?b ?c ?d ?e ?f] =>
             let x := fresh "loop" in
             set (x := stride_loop a b c d e f)
         end.
  checked_through.
Qed.

(** ** The plan-creation loop (lines 630-657) *)

(** The slot that the loop body binds for a placement and a transform
    type. *)
Definition slot_of (placement : rocfft_result_placement)
    (t : rocfft_transform_type) : slot :=
  match placement with
  | rocfft_placement_inplace =>
      if hipfftIOType.is_forward t then slot_ip_forward else slot_ip_inverse
  | rocfft_placement_notinplace =>
      if hipfftIOType.is_forward t then slot_op_forward else slot_op_inverse
  end.

(** The (placement, transform type) pairs of the direction set of a
    transform, in the order of the loop. *)
Definition wanted (iotype : hipfftIOType.t)
  : list (rocfft_result_placement * rocfft_transform_type) :=
  flat_map (fun t => [(rocfft_placement_inplace, t);
                      (rocfft_placement_notinplace, t)])
           (hipfftIOType.transform_types iotype).

(** The plan creations among some backend calls: placement, transform type
    and answer of each [rocfft_plan_create], in order. *)
Definition creation (e : event)
  : option (rocfft_result_placement * rocfft_transform_type * response) :=
  match e with
  | (rocfft_plan_create placement t _ _ _ _ _, a) => Some (placement, t, a)
  | _ => None
  end.

Definition creations (evs : list event)
  : list (rocfft_result_placement * rocfft_transform_type * response) :=
  omap creation evs.

(** What a creation leaves in its slot. *)
Definition slot_value (a : response) : pointer :=
  if ok a then out a else nullptr.

Definition install
    (l : list (rocfft_result_placement * rocfft_transform_type * response))
    (p : hipfftHandle_t) : hipfftHandle_t :=
  fold_left (fun p x => set_slot (slot_of x.1.1 x.1.2) (slot_value x.2) p)
            l p.

Definition created_count
    (l : list (rocfft_result_placement * rocfft_transform_type * response))
  : Z :=
  Z.of_nat (length (filter (fun x => ok x.2 = true) l)).

(** One [ROC_FFT_CHECK_PLAN_CREATE]: the count and the state after it. *)
Definition attempt (rocfft : backend) (sl : slot) (c : call)
    (acc : Z * state) : Z * state :=
  let s := acc.2 in
  let a := rocfft (trace s) c in
  let d := rocfft_plan_destroy (out a) in
  (if ok a then acc.1 + 1 else acc.1,
   record ((c, a) :: if ok a then []
                     else [(d, rocfft (trace s ++ [(c, a)]) d)])
          (with_plan (set_slot sl (slot_value a) (plan s)) s)).

Lemma check_plan_create_attempt (rocfft : backend) (sl : slot)
    (plans_created : Z) (placement : rocfft_result_placement)
    (t : rocfft_transform_type) (prec : rocfft_precision)
    (dim : Z) (lengths : list Z) (nt : Z) (d : pointer) (s : state) :
  ROC_FFT_CHECK_PLAN_CREATE rocfft sl plans_created placement t prec dim
                            lengths nt d s
  = (inr (attempt rocfft sl
            (rocfft_plan_create placement t prec dim lengths nt d)
            (plans_created, s)).1,
     (attempt rocfft sl
        (rocfft_plan_create placement t prec dim lengths nt d)
        (plans_created, s)).2).
Proof.
  unfold ROC_FFT_CHECK_PLAN_CREATE, attempt, slot_value. run.
  destruct s as [p ini ws tr]; simpl.
  destruct (ok (rocfft tr _)); run; simpl.
  - reflexivity.
  - rewrite <- app_assoc. destruct sl; reflexivity.
Qed.

Definition creation_call (iotype : hipfftIOType.t) (dim : Z)
    (lengths : list Z) (nt : Z) (ds : descriptions)
    (w : rocfft_result_placement * rocfft_transform_type) : call :=
  rocfft_plan_create w.1 w.2 (hipfftIOType.precision iotype) dim
    (firstn (Z.to_nat dim) lengths) nt (description_of (slot_of w.1 w.2) ds).

(** The loop as a fold over the wanted pairs. *)
Definition attempts (rocfft : backend) (iotype : hipfftIOType.t) (dim : Z)
    (lengths : list Z) (nt : Z) (ds : descriptions)
    (ws : list (rocfft_result_placement * rocfft_transform_type))
    (acc : Z * state) : Z * state :=
  fold_left
    (fun acc w =>
       attempt rocfft (slot_of w.1 w.2)
               (creation_call iotype dim lengths nt ds w) acc)
    ws acc.

Lemma create_plans_attempts (rocfft : backend) (iotype : hipfftIOType.t)
    (dim : Z) (lengths : list Z) (nt : Z) (ds : descriptions) (s : state) :
  create_plans rocfft iotype dim lengths nt ds s
  = (inr (attempts rocfft iotype dim lengths nt ds (wanted iotype) (0, s)).1,
     (attempts rocfft iotype dim lengths nt ds (wanted iotype) (0, s)).2).
Proof.
  unfold create_plans, wanted. generalize 0 as cnt. revert s.
  induction (hipfftIOType.transform_types iotype) as [| t l IH];
    intros s cnt.
  - reflexivity.
  - simpl for_each. unfold bind at 1. unfold create_plans_of_type at 1.
    unfold bind at 1. rewrite check_plan_create_attempt.
    rewrite check_plan_create_attempt. rewrite IH. reflexivity.
Qed.

Lemma creations_app (evs evs' : list event) :
  creations (evs ++ evs') = creations evs ++ creations evs'.
Proof. apply omap_app. Qed.

(** The loop issues one creation for each wanted pair, in order, whatever
    the answers; it sets each slot to what its creation leaves; it counts
    the accepted creations; it sets no layout. *)
Lemma attempts_spec (rocfft : backend) (iotype : hipfftIOType.t) (dim : Z)
    (lengths : list Z) (nt : Z) (ds : descriptions)
    (ws : list (rocfft_result_placement * rocfft_transform_type)) :
  forall (cnt : Z) (s : state),
    let R := attempts rocfft iotype dim lengths nt ds ws (cnt, s) in
    exists evs : list event,
      trace R.2 = trace s ++ evs
      /\ Forall (fun e => is_data_layout e.1 = false) evs
      /\ map fst (creations evs) = ws
      /\ plan R.2 = install (creations evs) (plan s)
      /\ R.1 = cnt + created_count (creations evs).
Proof.
  induction ws as [| w ws IH]; intros cnt s R.
  - exists []. subst R. simpl. rewrite app_nil_r.
    unfold created_count. simpl. repeat split; auto. lia.
  - subst R. unfold attempts. simpl fold_left.
    fold (attempts rocfft iotype dim lengths nt ds ws).
    set (c := creation_call iotype dim lengths nt ds w).
    set (a := rocfft (trace s) c).
    set (d := rocfft_plan_destroy (out a)).
    set (b := rocfft (trace s ++ [(c, a)]) d).
    set (acc := attempt rocfft (slot_of w.1 w.2) c (cnt, s)).
    assert (Hacc : acc = (acc.1, acc.2)) by (destruct acc; reflexivity).
    rewrite Hacc.
    destruct (IH acc.1 acc.2) as (evs & Ht & Hl & Hc & Hp & Hn).
    unfold attempts in Ht, Hp, Hn.
    exists (((c, a) :: if ok a then [] else [(d, b)]) ++ evs).
    assert (Hcr : creations (((c, a) :: if ok a then [] else [(d, b)]) ++ evs)
                  = (w.1, w.2, a) :: creations evs).
    { rewrite creations_app. destruct (ok a); reflexivity. }
    rewrite Hcr, Ht, Hp, Hn. clear Ht Hp Hn Hcr Hacc IH. subst acc.
    unfold attempt; cbn [fst snd record with_plan plan trace].
    fold c; fold a; fold d; fold b.
    split; [rewrite <- app_assoc; reflexivity |].
    split.
    { apply Forall_app. split; [| exact Hl].
      destruct (ok a); repeat constructor. }
    split; [simpl; rewrite Hc; destruct w; reflexivity |].
    split; [reflexivity |].
    unfold created_count. destruct (ok a) eqn:Hok.
    + rewrite filter_cons_True by exact Hok. simpl length. lia.
    + rewrite filter_cons_False by (simpl; rewrite Hok; discriminate).
      reflexivity.
Qed.

Lemma get_set_slot_same (sl : slot) (v : pointer) (p : hipfftHandle_t) :
  get_slot sl (set_slot sl v p) = v.
Proof. destruct sl; reflexivity. Qed.

Lemma get_set_slot_other (sl sl' : slot) (v : pointer) (p : hipfftHandle_t) :
  sl <> sl' -> get_slot sl (set_slot sl' v p) = get_slot sl p.
Proof. destruct sl, sl'; intros H; try reflexivity; contradiction H; reflexivity. Qed.

(** Every member of the plan other than the four slots is the same. *)
Definition same_but_slots (p p' : hipfftHandle_t) : Prop :=
  set_ip_forward 0 (set_op_forward 0 (set_ip_inverse 0 (set_op_inverse 0 p')))
  = set_ip_forward 0 (set_op_forward 0 (set_ip_inverse 0 (set_op_inverse 0 p))).

Lemma same_but_slots_set_slot (sl : slot) (v : pointer)
    (p p' : hipfftHandle_t) :
  same_but_slots p p' -> same_but_slots p (set_slot sl v p').
Proof. unfold same_but_slots. destruct sl; simpl; intros H; exact H. Qed.

Lemma install_same_but_slots
    (l : list (rocfft_result_placement * rocfft_transform_type * response))
    (p : hipfftHandle_t) :
  same_but_slots p (install l p).
Proof.
  unfold install.
  assert (H : same_but_slots p p) by reflexivity.
  revert H. generalize p at 2 4 as q. induction l as [| x l IH]; intros q H.
  - exact H.
  - simpl. apply IH. apply same_but_slots_set_slot. exact H.
Qed.

Lemma same_but_slots_type (p p' : hipfftHandle_t) :
  same_but_slots p p' -> type p' = type p.
Proof. unfold same_but_slots. intros H. apply (f_equal type) in H. exact H. Qed.

Lemma install_other
    (l : list (rocfft_result_placement * rocfft_transform_type * response))
    (sl : slot) (p : hipfftHandle_t) :
  (forall x, In x l -> slot_of x.1.1 x.1.2 <> sl) ->
  get_slot sl (install l p) = get_slot sl p.
Proof.
  unfold install. revert p. induction l as [| x l IH]; intros p H.
  - reflexivity.
  - simpl. rewrite IH by (intros y Hy; apply H; right; exact Hy).
    apply get_set_slot_other. intros E. apply (H x); [left; reflexivity |].
    symmetry. exact E.
Qed.

(** Distinct wanted pairs have distinct slots, so each slot holds what its
    own creation left. *)
Lemma install_lookup
    (l : list (rocfft_result_placement * rocfft_transform_type * response))
    (p : hipfftHandle_t) :
  List.NoDup (map (fun x => slot_of x.1.1 x.1.2) l) ->
  forall x, In x l ->
    get_slot (slot_of x.1.1 x.1.2) (install l p) = slot_value x.2.
Proof.
  revert p. induction l as [| y l IH]; intros p Hnd x Hin.
  - destruct Hin.
  - simpl in Hnd. inversion Hnd as [| ? ? Hnotin Hnd']; subst.
    unfold install. simpl. fold (install l (set_slot (slot_of y.1.1 y.1.2)
                                               (slot_value y.2) p)).
    destruct Hin as [-> | Hin].
    + rewrite install_other; [apply get_set_slot_same |].
      intros z Hz E. apply Hnotin. rewrite <- E.
      apply (in_map (fun x => slot_of x.1.1 x.1.2)). exact Hz.
    + apply IH; assumption.
Qed.

Lemma wanted_slots_nodup (iotype : hipfftIOType.t) :
  List.NoDup (map (fun w => slot_of w.1 w.2) (wanted iotype)).
Proof.
  unfold wanted, hipfftIOType.transform_types.
  destruct (hipfftIOType.is_real_to_complex iotype);
    [| destruct (hipfftIOType.is_complex_to_real iotype)]; simpl;
    repeat (constructor; [simpl; intuition discriminate |]);
    constructor.
Qed.

Lemma wanted_not_empty (iotype : hipfftIOType.t) : wanted iotype <> [].
Proof.
  unfold wanted, hipfftIOType.transform_types.
  destruct (hipfftIOType.is_real_to_complex iotype);
    [| destruct (hipfftIOType.is_complex_to_real iotype)]; discriminate.
Qed.

Lemma created_count_zero
    (l : list (rocfft_result_placement * rocfft_transform_type * response)) :
  created_count l = 0 <-> Forall (fun x => ok x.2 = false) l.
Proof.
  unfold created_count. induction l as [| x l IH].
  - simpl. split; [constructor | reflexivity].
  - destruct (ok x.2) eqn:Hok.
    + rewrite filter_cons_True by exact Hok. simpl length. split.
      * intros H. lia.
      * intros H. inversion H; subst. congruence.
    + rewrite filter_cons_False by (rewrite Hok; discriminate).
      rewrite IH. split.
      * intros H. constructor; assumption.
      * intros H. inversion H; assumption.
Qed.

(** ** [hipfftMakePlan_internal] in three phases *)

(** Lines 360-624: everything before the creation loop. *)
Definition prepare (rocfft : backend) (dim : Z) (lengths : list Z)
    (desc : option hipfft_plan_description_t) (re_calc : bool)
  : M descriptions :=
  rocfft_initializer rocfft ;;
  ds <- make_descriptions rocfft dim lengths desc re_calc ;;
  apply_scale_factor rocfft ds.

Lemma prepare_frame (rocfft : backend) (dim : Z) (lengths : list Z)
    (desc : option hipfft_plan_description_t) (re_calc : bool) :
  within eq (fun c => is_plan_create c = false) (blamed layout_failure) []
         (prepare rocfft dim lengths desc re_calc).
Proof.
  unfold prepare. apply within_bind; try typeclasses eauto.
  - eapply within_weaken; [| | | apply initializer_frame]; simpl.
    + auto.
    + intros c ->. reflexivity.
    + intros r evs [].
  - intros _. apply within_bind; try typeclasses eauto;
      [apply make_descriptions_frame |].
    intros ds. eapply within_weaken; [| | | apply apply_scale_factor_frame].
    + auto.
    + intros c [H _]. exact H.
    + intros r evs [].
Qed.

Lemma make_plan_internal_phases (rocfft : backend) (dim : Z)
    (lengths : list Z) (iotype : hipfftIOType.t) (nt : Z)
    (desc : option hipfft_plan_description_t) (workSize : pointer)
    (re_calc : bool) (s : state) :
  hipfftMakePlan_internal rocfft dim lengths iotype nt desc workSize re_calc s
  = match prepare rocfft dim lengths desc re_calc s with
    | (inl r, s1) => (r, s1)
    | (inr ds, s1) =>
        let R := attempts rocfft iotype dim lengths nt ds (wanted iotype)
                          (0, s1) in
        if R.1 =? 0 then (HIPFFT_PARSE_ERROR, R.2)
        else body (finish_plan rocfft iotype workSize ds)
                  (with_plan (set_type iotype (plan R.2)) R.2)
    end.
Proof.
  unfold hipfftMakePlan_internal, prepare, finish_plan, body, bind.
  destruct (rocfft_initializer rocfft s) as [[r | []] s0]; [reflexivity |].
  destruct (make_descriptions rocfft dim lengths desc re_calc s0)
    as [[r | ds0] s1]; [reflexivity |].
  destruct (apply_scale_factor rocfft ds0 s1) as [[r | ds] s2];
    [reflexivity |].
  rewrite create_plans_attempts. cbv zeta.
  destruct (_ =? 0); reflexivity.
Qed.

Lemma creations_none (evs : list event) :
  Forall (fun e => is_plan_create e.1 = false) evs -> creations evs = [].
Proof.
  induction 1 as [| [c a] evs Hc _ IH]; [reflexivity |].
  destruct c; simpl in Hc; try discriminate Hc; exact IH.
Qed.

Lemma bind_value {A C : Type} (m : M A) (k : A -> M C) (s : state) (c : C) :
  (bind m k s).1 = inr c ->
  exists a, (m s).1 = inr a /\ (k a (m s).2).1 = inr c.
Proof.
  unfold bind. destruct (m s) as [[r | a] s1]; simpl; [discriminate |].
  intros H. exists a. auto.
Qed.

(** The tail of the function falls through only to [return
    HIPFFT_SUCCESS]. *)
Lemma finish_plan_value (rocfft : backend) (iotype : hipfftIOType.t)
    (workSize : pointer) (ds : descriptions) (s : state) (r : hipfftResult) :
  (finish_plan rocfft iotype workSize ds s).1 = inr r -> r = HIPFFT_SUCCESS.
Proof.
  unfold finish_plan. intros H.
  repeat (apply bind_value in H; destruct H as (? & _ & H)).
  simpl in H. congruence.
Qed.

Lemma slot_eq_dec (a b : slot) : {a = b} + {a <> b}.
Proof. decide equality. Qed.

Lemma blamed_app_r (E : hipfftResult -> call -> Prop) (r : hipfftResult)
    (evs evs' : list event) :
  blamed E r evs' -> blamed E r (evs ++ evs').
Proof.
  apply lasting. intros e. rewrite in_app_iff. auto.
Qed.

Lemma blamed_app_l (E : hipfftResult -> call -> Prop) (r : hipfftResult)
    (evs evs' : list event) :
  blamed E r evs -> blamed E r (evs ++ evs').
Proof.
  apply lasting. intros e. rewrite in_app_iff. auto.
Qed.

(** Before the work buffer is sized no call is made on it. *)
Lemma prepare_no_workspace (rocfft : backend) (dim : Z) (lengths : list Z)
    (desc : option hipfft_plan_description_t) (re_calc : bool) :
  within eq (fun c => is_workspace_call c = false) any_reason []
         (prepare rocfft dim lengths desc re_calc).
Proof.
  unfold prepare. apply within_bind; try typeclasses eauto.
  - eapply within_weaken; [| | | apply initializer_frame]; simpl.
    + auto.
    + intros c ->. reflexivity.
    + intros r evs [].
  - intros _. apply within_bind; try typeclasses eauto.
    + unfold make_descriptions, set_recalculated_layouts, set_given_layouts,
        description_create, set_data_layout.
      destruct desc as [desc |]; [| frame].
      destruct re_calc; [| frame].
      destruct (rocfft_array_type_eqb _ _);
        [| destruct (rocfft_array_type_eqb _ _)];
        repeat match goal with
               | |- context [stride_loop ?a ?b ?c ?d ?e ?f] =>
                   destruct (stride_loop a b c d e f) as [[[? ?] ?] ?]
               end;
        frame.
    + intros ds.
      unfold apply_scale_factor, ensure_description, description_create.
      destruct ds as [[[ipf opf] ipi] opi]. frame.
Qed.

Lemma attempts_no_workspace (rocfft : backend) (iotype : hipfftIOType.t)
    (dim : Z) (lengths : list Z) (nt : Z) (ds : descriptions) (s : state) :
  exists evs : list event,
    trace (attempts rocfft iotype dim lengths nt ds (wanted iotype) (0, s)).2
    = trace s ++ evs
    /\ Forall (fun e => is_workspace_call e.1 = false) evs.
Proof.
  assert (H : within any_plan (fun c => is_workspace_call c = false)
                     any_reason []
                     (create_plans rocfft iotype dim lengths nt ds)).
  { unfold create_plans. apply within_for_each; try typeclasses eauto.
    intros t acc. unfold create_plans_of_type, ROC_FFT_CHECK_PLAN_CREATE.
    frame. }
  destruct (H s) as [_ (evs & Ht & Hf & _)].
  rewrite create_plans_attempts in Ht. cbn [snd] in Ht.
  exists evs. auto.
Qed.

(** C4 as the code has it.  A call of [hipfftMakePlan_internal], the one
    path of every make-plan entry point, either stops before the creation
    loop because the backend refused a layout setting (result
    [HIPFFT_INVALID_VALUE], no creation attempted, plan object unchanged),
    or goes through the whole loop:
    - one [rocfft_plan_create] is issued for every (placement, direction)
      pair of the direction set of the transform, in order, whatever the
      answers to the earlier ones;
    - at the end of the call each of these slots holds the handle of its
      creation when the backend accepted it, and null when it refused it,
      whatever the call returns, and every other slot holds what it held
      before the call;
    - the result is [HIPFFT_PARSE_ERROR] exactly when every creation was
      refused; every slot of the direction set is then null, and the plan
      object differs from the one before the call in these slots only;
    - otherwise the plan takes the transform type, and the call returns
      [HIPFFT_SUCCESS] exactly when every call that sizes, frees,
      allocates or binds the work buffer was accepted; when one of them
      is refused it is the last backend call, and the result is
      [HIPFFT_INVALID_VALUE] or [HIPFFT_ALLOC_FAILED]. *)
Theorem make_plan_creation_outcome :
  forall (rocfft : backend) (s : state) (dim : Z) (lengths : list Z)
         (iotype : hipfftIOType.t) (nt : Z)
         (desc : option hipfft_plan_description_t) (workSize : pointer)
         (re_calc : bool),
    let run :=
      hipfftMakePlan_internal rocfft dim lengths iotype nt desc workSize
                              re_calc s in
    exists evs : list event,
      trace run.2 = trace s ++ evs
      /\ ((blamed layout_failure run.1 evs
           /\ creations evs = []
           /\ plan run.2 = plan s)
          \/ (map fst (creations evs) = wanted iotype
              /\ (forall placement t a,
                    In (placement, t, a) (creations evs) ->
                    get_slot (slot_of placement t) (plan run.2)
                    = if ok a then out a else nullptr)
              /\ (forall sl,
                    (forall w, In w (wanted iotype) ->
                               slot_of w.1 w.2 <> sl) ->
                    get_slot sl (plan run.2) = get_slot sl (plan s))
              /\ (run.1 = HIPFFT_PARSE_ERROR
                  <-> Forall (fun x => ok x.2 = false) (creations evs))
              /\ (run.1 = HIPFFT_PARSE_ERROR ->
                  same_but_slots (plan s) (plan run.2)
                  /\ (forall w, In w (wanted iotype) ->
                                get_slot (slot_of w.1 w.2) (plan run.2)
                                = nullptr)
                  /\ forall sl,
                       get_slot sl (plan run.2) = nullptr
                       \/ get_slot sl (plan run.2) = get_slot sl (plan s))
              /\ (run.1 <> HIPFFT_PARSE_ERROR ->
                  type (plan run.2) = iotype
                  /\ (run.1 = HIPFFT_SUCCESS
                      \/ blamed workspace_failure run.1 evs)
                  /\ (run.1 = HIPFFT_SUCCESS
                      <-> accepted is_workspace_call evs)
                  /\ (run.1 <> HIPFFT_SUCCESS ->
                      (run.1 = HIPFFT_INVALID_VALUE
                       \/ run.1 = HIPFFT_ALLOC_FAILED)
                      /\ stopped is_workspace_call evs)))).
Proof.
  intros rocfft s dim lengths iotype nt desc workSize re_calc run.
  subst run. rewrite make_plan_internal_phases.
  destruct (prepare_frame rocfft dim lengths desc re_calc s)
    as [Hplan (evs0 & Ht0 & Hf0 & Hb0)].
  destruct (prepare_no_workspace rocfft dim lengths desc re_calc s)
    as [_ (evs0' & Ht0' & Hq0 & _)].
  rewrite Ht0 in Ht0'. apply app_inv_head in Ht0'. subst evs0'.
  destruct (prepare rocfft dim lengths desc re_calc s) as [[r | ds] s1];
    simpl in Hplan, Ht0, Hb0.
  { exists evs0. split; [exact Ht0 |]. left.
    split; [exact Hb0 |]. split; [apply creations_none; exact Hf0 |].
    symmetry. exact Hplan. }
  pose proof (attempts_spec rocfft iotype dim lengths nt ds
                (wanted iotype) 0 s1) as H.
  cbv zeta in H. destruct H as (evs1 & Ht1 & _ & Hw & Hp1 & Hn1).
  destruct (attempts_no_workspace rocfft iotype dim lengths nt ds s1)
    as (evs1' & Ht1' & Hq1).
  rewrite Ht1 in Ht1'. apply app_inv_head in Ht1'. subst evs1'.
  cbv zeta.
  set (R := attempts rocfft iotype dim lengths nt ds (wanted iotype) (0, s1))
    in *.
  set (L := creations evs1) in *.
  assert (Hnd : List.NoDup (map (fun x => slot_of x.1.1 x.1.2) L)).
  { pose proof (wanted_slots_nodup iotype) as Hn. rewrite <- Hw in Hn.
    rewrite map_map in Hn. exact Hn. }
  assert (Hlook : forall placement t a,
             In (placement, t, a) L ->
             get_slot (slot_of placement t) (plan R.2)
             = if ok a then out a else nullptr).
  { intros placement t a Hin. rewrite Hp1.
    apply (install_lookup L (plan s1) Hnd (placement, t, a) Hin). }
  assert (Hother : forall sl,
             (forall w, In w (wanted iotype) -> slot_of w.1 w.2 <> sl) ->
             get_slot sl (plan R.2) = get_slot sl (plan s)).
  { intros sl Hsl. rewrite Hp1, Hplan. apply install_other.
    intros x HxL. apply (Hsl x.1). rewrite <- Hw.
    apply (in_map fst). exact HxL. }
  assert (Hcr0 : forall evs2,
             Forall (fun e => is_plan_create e.1 = false) evs2 ->
             creations (evs0 ++ evs1 ++ evs2) = L).
  { intros evs2 H2. rewrite !creations_app.
    rewrite (creations_none evs0 Hf0), (creations_none evs2 H2).
    rewrite app_nil_r. reflexivity. }
  destruct (R.1 =? 0) eqn:Hz.
  - apply Z.eqb_eq in Hz. rewrite Hn1 in Hz. simpl in Hz.
    apply created_count_zero in Hz. fold L in Hz.
    pose proof (Hcr0 [] (List.Forall_nil _)) as Hcr.
    rewrite app_nil_r in Hcr.
    exists (evs0 ++ evs1). simpl fst. simpl snd.
    split; [rewrite Ht1, Ht0, app_assoc; reflexivity |].
    right. rewrite Hcr.
    split; [exact Hw |]. split; [exact Hlook |]. split; [exact Hother |].
    split; [split; auto |]. split; [| intros H; contradiction H; reflexivity].
    intros _. split; [| split].
    + rewrite Hp1, Hplan. apply install_same_but_slots.
    + intros w Hin. rewrite <- Hw in Hin.
      apply List.in_map_iff in Hin. destruct Hin as (x & Hx & HxL).
      subst w. destruct x as [[placement t] a]. cbn [fst snd].
      rewrite (Hlook placement t a HxL).
      rewrite List.Forall_forall in Hz. specialize (Hz _ HxL).
      simpl in Hz. rewrite Hz. reflexivity.
    + intros sl.
      destruct (in_dec slot_eq_dec sl (map (fun x => slot_of x.1.1 x.1.2) L))
        as [Hin | Hnin].
      * left. apply List.in_map_iff in Hin. destruct Hin as (x & Hx & HxL).
        rewrite <- Hx, Hp1, (install_lookup L (plan s1) Hnd x HxL).
        rewrite List.Forall_forall in Hz. unfold slot_value.
        rewrite (Hz x HxL). reflexivity.
      * right. rewrite Hp1, Hplan. apply install_other.
        intros x HxL E. apply Hnin. rewrite <- E.
        apply (in_map (fun x => slot_of x.1.1 x.1.2)). exact HxL.
  - apply Z.eqb_neq in Hz.
    set (s2 := with_plan (set_type iotype (plan R.2)) R.2).
    destruct (within_body keeps_slots auxiliary_call
                (blamed workspace_failure)
                (finish_plan rocfft iotype workSize ds) s2
                (finish_plan_frame rocfft iotype workSize ds))
      as [[Hty Hsl] (evs2 & Ht2 & Hf2 & Hb2 & Hcase)].
    destruct (checked_body is_workspace_call
                (finish_plan rocfft iotype workSize ds) s2
                (finish_plan_checked rocfft iotype workSize ds))
      as (evs2' & Ht2' & Hchk).
    rewrite Ht2 in Ht2'. apply app_inv_head in Ht2'. subst evs2'.
    set (run := body (finish_plan rocfft iotype workSize ds) s2) in *.
    assert (Hres : run.1 = HIPFFT_SUCCESS \/ blamed workspace_failure run.1 evs2).
    { destruct Hcase as [Hc | Hc]; [right; auto |].
      left. apply finish_plan_value in Hc. exact Hc. }
    assert (Hnp : run.1 <> HIPFFT_PARSE_ERROR).
    { destruct Hres as [-> | (c & a & _ & _ & _ & [-> | ->])]; discriminate. }
    assert (Hf2' : Forall (fun e => is_plan_create e.1 = false) evs2).
    { eapply Forall_impl; [exact Hf2 |]. intros e [He _]. exact He. }
    assert (Hq01 : accepted is_workspace_call (evs0 ++ evs1)).
    { apply accepted_app; apply accepted_none; assumption. }
    assert (Hacc : run.1 = HIPFFT_SUCCESS
                   <-> accepted is_workspace_call (evs0 ++ evs1 ++ evs2)).
    { rewrite app_assoc. destruct Hchk as [[Ha Hv] | [Hs Hv]].
      - split; [intros _; apply accepted_app; assumption |].
        intros _. apply finish_plan_value in Hv. exact Hv.
      - split.
        + intros E. destruct Hcase as [Hc | Hc];
            [| rewrite Hc in Hv; discriminate Hv].
          destruct (Hb2 Hc) as (c & a & _ & _ & _ & [E' | E']);
            rewrite E' in E; discriminate E.
        + intros Ha. exfalso.
          apply (stopped_not_accepted is_workspace_call
                   ((evs0 ++ evs1) ++ evs2));
            [apply stopped_app; assumption | exact Ha]. }
    exists (evs0 ++ evs1 ++ evs2).
    split.
    { rewrite Ht2. subst s2. simpl trace. rewrite Ht1, Ht0, !app_assoc.
      reflexivity. }
    right. rewrite (Hcr0 evs2 Hf2').
    split; [exact Hw |].
    split.
    { intros placement t a Hin. rewrite Hsl. subst s2. simpl plan.
      rewrite <- (Hlook placement t a Hin).
      destruct (slot_of placement t); reflexivity. }
    split.
    { intros sl Hs. rewrite Hsl. subst s2. simpl plan.
      rewrite <- (Hother sl Hs). destruct sl; reflexivity. }
    split.
    { split; [intros H; contradiction |].
      intros H. apply created_count_zero in H. fold L in Hn1.
      rewrite H in Hn1. simpl in Hn1. contradiction. }
    split; [intros H; contradiction |].
    intros _. split; [rewrite Hty; reflexivity |].
    split.
    { destruct Hres as [H | H]; [left; exact H | right].
      rewrite app_assoc. apply blamed_app_r. exact H. }
    split; [exact Hacc |].
    intros Hne. split.
    { destruct Hres as [H | (c & a & _ & _ & _ & H)];
        [contradiction | exact H]. }
    destruct Hchk as [[Ha Hv] | [Hs Hv]].
    + apply finish_plan_value in Hv. contradiction.
    + rewrite app_assoc. apply stopped_app; assumption.
Qed.

Lemma make_plan_creation_outcome_witness :
  exists evs : list event,
    trace (hipfftMakePlan_internal no_inplace 1 [1024]
             (hipfftIOType.Build HIP_R_32F HIP_C_32F) 1 None nullptr false
             fresh_state).2
    = trace fresh_state ++ evs.
Proof.
  destruct (make_plan_creation_outcome no_inplace fresh_state 1 [1024]
              (hipfftIOType.Build HIP_R_32F HIP_C_32F) 1 None nullptr false)
    as (evs & Ht & _).
  exists evs. exact Ht.
Defined.

(** C4, counterexample to the claim as stated.  On a backend whose device
    allocation fails, [hipfftMakePlan1d] for a complex-to-complex transform
    gets all four plans created and still fails, with
    [HIPFFT_ALLOC_FAILED]. *)
Lemma make_plan_created_but_failed :
  (hipfftMakePlan1d out_of_memory 1024 HIPFFT_C2C 8 nullptr
     (after [hipfftCreate out_of_memory] fresh_state)).1
  = HIPFFT_ALLOC_FAILED
  /\ map (fun x => (x.1, ok x.2))
         (creations
            (trace (hipfftMakePlan1d out_of_memory 1024 HIPFFT_C2C 8 nullptr
                      (after [hipfftCreate out_of_memory] fresh_state)).2))
     = [(rocfft_placement_inplace, rocfft_transform_type_complex_forward,
         true);
        (rocfft_placement_notinplace, rocfft_transform_type_complex_forward,
         true);
        (rocfft_placement_inplace, rocfft_transform_type_complex_inverse,
         true);
        (rocfft_placement_notinplace, rocfft_transform_type_complex_inverse,
         true)].
Proof. vm_compute. split; reflexivity. Qed.

(** ** Natural layout *)

Lemma to_size_t_small (z : Z) : 0 <= z < size_t_modulus -> to_size_t z = z.
Proof. apply Z.mod_small. Qed.

Lemma to_size_t_idem (z : Z) : to_size_t (to_size_t z) = to_size_t z.
Proof. unfold to_size_t. apply Z.mod_mod. discriminate. Qed.

Lemma size_mul_wrap_l (a b : Z) : size_mul (to_size_t a) b = to_size_t (a * b).
Proof. unfold size_mul, to_size_t. apply Z.mul_mod_idemp_l. discriminate. Qed.

Lemma size_mul_wrap_r (a b : Z) : size_mul a (to_size_t b) = to_size_t (a * b).
Proof. unfold size_mul, to_size_t. apply Z.mul_mod_idemp_r. discriminate. Qed.

Lemma size_mul_wrap (a b : Z) : size_mul a b = to_size_t (a * b).
Proof. reflexivity. Qed.

Lemma size_add_wrap (a b : Z) : size_add a b = to_size_t (a + b).
Proof. reflexivity. Qed.

Lemma to_size_t_mul_l (a b : Z) : to_size_t (to_size_t a * b) = to_size_t (a * b).
Proof. apply size_mul_wrap_l. Qed.

Lemma to_size_t_mul_r (a b : Z) : to_size_t (a * to_size_t b) = to_size_t (a * b).
Proof. apply size_mul_wrap_r. Qed.

(** The layout settings among some backend calls: description, input
    distance and output distance of each
    [rocfft_plan_description_set_data_layout], in order. *)
Definition layout (e : event) : option (pointer * Z * Z) :=
  match e with
  | (rocfft_plan_description_set_data_layout d _ _ _ _ idist _ _ odist, _) =>
      Some (d, idist, odist)
  | _ => None
  end.

Definition layouts (evs : list event) : list (pointer * Z * Z) :=
  omap layout evs.

(** The descriptions created among some backend calls, in order. *)
Definition created_description (e : event) : option pointer :=
  match e with
  | (rocfft_plan_description_create, a) => Some (out a)
  | _ => None
  end.

Definition created_descriptions (evs : list event) : list pointer :=
  omap created_description evs.

Inductive transform_kind : Type :=
| real_to_complex | complex_to_real | complex_to_complex.

Definition kind_of (t : hipfftIOType.t) : transform_kind :=
  if hipfftIOType.is_real_to_complex t then real_to_complex
  else if hipfftIOType.is_complex_to_real t then complex_to_real
  else complex_to_complex.

Definition product (l : list Z) : Z := fold_right Z.mul 1 l.

(** The distances of the claim, as integers: [n] lists the lengths as the
    caller gives them, slowest dimension first, so the fastest dimension
    [n0] is the last one. *)
Definition natural_distances (k : transform_kind)
    (placement : rocfft_result_placement) (n : list Z) : Z * Z :=
  let n0 := List.last n 0 in
  let remaining := product (removelast n) in
  let padded := 2 * (1 + n0 / 2) * remaining in
  let half := (1 + n0 / 2) * remaining in
  let plain := product n in
  match k, placement with
  | real_to_complex, rocfft_placement_inplace => (padded, half)
  | real_to_complex, rocfft_placement_notinplace => (plain, half)
  | complex_to_real, rocfft_placement_inplace => (half, padded)
  | complex_to_real, rocfft_placement_notinplace => (half, plain)
  | complex_to_complex, _ => (plain, plain)
  end.

(** The layout settings of a natural-layout plan: which description gets
    which distances.  [ds] lists the descriptions in the order of their
    creation: [ip_forward_desc], [op_forward_desc], [ip_inverse_desc],
    [op_inverse_desc]. *)
Definition natural_layouts (distance : Z -> Z) (k : transform_kind)
    (n : list Z) (ds : list pointer) : list (pointer * Z * Z) :=
  let entry (i : nat) (placement : rocfft_result_placement) :=
    (nth i ds nullptr,
     distance (natural_distances k placement n).1,
     distance (natural_distances k placement n).2) in
  match k with
  | real_to_complex =>
      [entry 0%nat rocfft_placement_inplace;
       entry 1%nat rocfft_placement_notinplace]
  | complex_to_real =>
      [entry 2%nat rocfft_placement_inplace;
       entry 3%nat rocfft_placement_notinplace]
  | complex_to_complex =>
      [entry 0%nat rocfft_placement_inplace;
       entry 1%nat rocfft_placement_notinplace;
       entry 2%nat rocfft_placement_inplace;
       entry 3%nat rocfft_placement_notinplace]
  end.

(** The description that [hipfftMakePlanMany_internal] builds when no
    embedding is given (lines 857-920). *)
Definition natural_description (type : hipfftIOType.t) (rank : Z)
    (lengths : list Z) (idist odist : Z) : hipfft_plan_description_t :=
  {| inArrayType :=
       if hipfftIOType.is_real_to_complex type then rocfft_array_type_real
       else if hipfftIOType.is_complex_to_real type
            then rocfft_array_type_hermitian_interleaved
            else rocfft_array_type_complex_interleaved;
     outArrayType :=
       if hipfftIOType.is_real_to_complex type
       then rocfft_array_type_hermitian_interleaved
       else if hipfftIOType.is_complex_to_real type
            then rocfft_array_type_real
            else rocfft_array_type_complex_interleaved;
     inStrides :=
       copy_first rank (strides_from rank lengths [1; 1; 1]) [0; 0; 0];
     outStrides :=
       copy_first rank (strides_from rank lengths [1; 1; 1]) [0; 0; 0];
     inDist := to_size_t idist;
     outDist := to_size_t odist |}.

Lemma any_negative_false (rank : Z) (a : list Z) :
  Forall (fun v => 0 <= v) a -> any_negative rank a = false.
Proof.
  intros H. unfold any_negative.
  generalize (Z.to_nat rank) as k. induction H as [| v a Hv _ IH]; intros k.
  - destruct k; reflexivity.
  - destruct k as [| k]; [reflexivity |]. simpl.
    rewrite IH. apply Z.ltb_ge in Hv. rewrite Hv. reflexivity.
Qed.

(** With valid arguments and no embedding, [hipfftMakePlanMany_internal]
    comes to [hipfftMakePlan_internal] on the natural description, with the
    distances to be recomputed. *)
Lemma make_plan_many_natural (rocfft : backend) (s : state) (rank : Z)
    (n : list Z) (istride idist ostride odist : Z)
    (type : hipfftIOType.t) (batch : Z) (workSize : pointer) :
  0 <= rank -> Forall (fun v => 0 <= v) n ->
  0 <= istride -> 0 <= idist -> 0 <= ostride -> 0 <= odist -> 0 <= batch ->
  hipfftMakePlanMany_internal rocfft rank n None istride idist
    None ostride odist type batch workSize s
  = hipfftMakePlan_internal rocfft rank (reversed rank n) type
      (to_size_t batch)
      (Some (natural_description type rank (reversed rank n) idist odist))
      workSize true s.
Proof.
  intros Hr Hn H1 H2 H3 H4 Hb.
  unfold hipfftMakePlanMany_internal.
  apply Z.ltb_ge in Hr, H1, H2, H3, H4, Hb.
  rewrite Hr, H1, H2, H3, H4, Hb, (any_negative_false rank n Hn).
  cbn [is_some negb andb orb]. unfold natural_description.
  destruct (hipfftIOType.is_real_to_complex type);
    [| destruct (hipfftIOType.is_complex_to_real type)];
    unfold body, bind, ret, invoke;
    destruct (hipfftMakePlan_internal _ _ _ _ _ _ _ _ s); reflexivity.
Qed.

(** A run of layout settings, each under [ROC_FFT_CHECK_INVALID_VALUE]:
    description, layout descriptor and strides of each. *)
Fixpoint set_layouts (rocfft : backend) (dim : Z)
    (l : list (pointer * hipfft_plan_description_t * list Z * list Z))
  : M unit :=
  match l with
  | [] => ret tt
  | [x] => set_data_layout rocfft x.1.1.1 x.1.1.2 dim x.1.2 x.2
  | x :: l' =>
      set_data_layout rocfft x.1.1.1 x.1.1.2 dim x.1.2 x.2 ;;
      set_layouts rocfft dim l'
  end.

Definition setting_distances
    (x : pointer * hipfft_plan_description_t * list Z * list Z)
  : pointer * Z * Z :=
  (x.1.1.1, inDist x.1.1.2, outDist x.1.1.2).

Lemma set_data_layout_run (rocfft : backend) (d : pointer)
    (desc : hipfft_plan_description_t) (dim : Z) (i_strides o_strides : list Z)
    (s : state) :
  exists e : event,
    layout e = Some (d, inDist desc, outDist desc)
    /\ created_description e = None
    /\ set_data_layout rocfft d desc dim i_strides o_strides s
       = (if ok e.2 then inr tt else inl HIPFFT_INVALID_VALUE, record [e] s).
Proof.
  exists (rocfft_plan_description_set_data_layout
            d (inArrayType desc) (outArrayType desc)
            dim (firstn (Z.to_nat dim) i_strides) (inDist desc)
            dim (firstn (Z.to_nat dim) o_strides) (outDist desc),
          rocfft (trace s)
            (rocfft_plan_description_set_data_layout
               d (inArrayType desc) (outArrayType desc)
               dim (firstn (Z.to_nat dim) i_strides) (inDist desc)
               dim (firstn (Z.to_nat dim) o_strides) (outDist desc))).
  split; [reflexivity |]. split; [reflexivity |].
  unfold set_data_layout. run. simpl.
  destruct (ok _); reflexivity.
Qed.

(** The settings made are the first ones of the list, at least one of
    them, and all of them unless the backend refused one. *)
Lemma set_layouts_spec (rocfft : backend) (dim : Z)
    (l : list (pointer * hipfft_plan_description_t * list Z * list Z)) :
  forall s : state,
    let run := set_layouts rocfft dim l s in
    exists evs : list event,
      trace run.2 = trace s ++ evs
      /\ created_descriptions evs = []
      /\ layouts evs `prefix_of` map setting_distances l
      /\ (l <> [] -> layouts evs <> [])
      /\ (run.1 = inr tt -> layouts evs = map setting_distances l).
Proof.
  induction l as [| x l IH]; intros s run.
  - exists []. subst run. simpl. rewrite app_nil_r.
    repeat split; auto. 
  - destruct (set_data_layout_run rocfft x.1.1.1 x.1.1.2 dim x.1.2 x.2 s)
      as (e & Hl & Hc & Hrun).
    assert (Hone : layouts [e] = [setting_distances x]).
    { unfold layouts. simpl. rewrite Hl. reflexivity. }
    assert (Hcre : created_descriptions [e] = []).
    { unfold created_descriptions. simpl. rewrite Hc. reflexivity. }
    destruct l as [| y l].
    + exists [e]. subst run. simpl set_layouts. rewrite Hrun.
      cbn [fst snd record trace map]. rewrite Hone.
      split; [reflexivity |]. split; [exact Hcre |].
      split; [reflexivity |]. split; [discriminate |]. reflexivity.
    + subst run.
      change (set_layouts rocfft dim (x :: y :: l))
        with (set_data_layout rocfft x.1.1.1 x.1.1.2 dim x.1.2 x.2 ;;
              set_layouts rocfft dim (y :: l)).
      unfold bind. rewrite Hrun.
      destruct (ok e.2).
      * destruct (IH (record [e] s)) as (evs & Ht & Hcr & Hp & Hne & Hfull).
        exists ([e] ++ evs). rewrite Ht. cbn [record trace].
        rewrite <- app_assoc.
        split; [reflexivity |].
        unfold layouts, created_descriptions in *. rewrite !omap_app.
        rewrite Hone, Hcre, Hcr.
        split; [reflexivity |]. cbn [app map].
        split; [apply prefix_cons; exact Hp |].
        split; [discriminate |].
        intros H. f_equal. apply Hfull. exact H.
      * exists [e]. cbn [fst snd record trace map]. rewrite Hone.
        split; [reflexivity |]. split; [exact Hcre |].
        split; [apply prefix_cons, prefix_nil |].
        split; [discriminate | discriminate].
Qed.

Lemma description_create_run (rocfft : backend) (s : state) :
  exists e : event,
    layout e = None
    /\ created_description e = Some (out e.2)
    /\ description_create rocfft s = (inr (out e.2), record [e] s).
Proof.
  exists (rocfft_plan_description_create,
          rocfft (trace s) rocfft_plan_description_create).
  split; [reflexivity |]. split; reflexivity.
Qed.

Local Arguments to_size_t : simpl never.
Local Arguments size_mul : simpl never.
Local Arguments size_add : simpl never.
Local Arguments Z.mul : simpl never.
Local Arguments Z.add : simpl never.
Local Arguments Z.div : simpl never.

Lemma small_length (v : Z) : 0 <= v < 2 ^ 63 -> to_size_t v = v.
Proof.
  intros H. apply to_size_t_small. unfold size_t_modulus.
  assert (2 ^ 63 < 2 ^ 64) by reflexivity. lia.
Qed.

(** Bring a distance that the code computed to the form [to_size_t e]. *)
Ltac wrap_distance :=
  rewrite ?size_add_wrap;
  repeat (rewrite size_mul_wrap_r || rewrite size_mul_wrap_l);
  rewrite ?size_mul_wrap, ?to_size_t_mul_l, ?to_size_t_mul_r;
  first [ f_equal; ring
        | symmetry; rewrite Z.mul_1_r; apply small_length; assumption ].

Ltac split_layouts :=
  repeat lazymatch goal with
         | |- _ :: _ = _ :: _ => apply (f_equal2 cons)
         | |- (_, _) = (_, _) => apply (f_equal2 pair)
         | |- ?x = ?x => reflexivity
         end.

Ltac collect_settings :=
  lazymatch goal with
  | |- exists L,
         bind (set_data_layout ?r ?d1 ?x1 ?dim ?i1 ?o1)
           (fun _ => bind (set_data_layout _ ?d2 ?x2 _ ?i2 ?o2)
              (fun _ => bind (set_data_layout _ ?d3 ?x3 _ ?i3 ?o3)
                 (fun _ => set_data_layout _ ?d4 ?x4 _ ?i4 ?o4)))
         = _ /\ _ =>
      exists [(d1, x1, i1, o1); (d2, x2, i2, o2);
              (d3, x3, i3, o3); (d4, x4, i4, o4)]
  | |- exists L,
         bind (set_data_layout ?r ?d1 ?x1 ?dim ?i1 ?o1)
           (fun _ => set_data_layout _ ?d2 ?x2 _ ?i2 ?o2)
         = _ /\ _ =>
      exists [(d1, x1, i1, o1); (d2, x2, i2, o2)]
  end.

Lemma recalculated_settings (rocfft : backend) (type : hipfftIOType.t)
    (rank : Z) (n : list Z) (idist odist : Z) (d0 d1 d2 d3 : pointer) :
  1 <= rank <= 3 -> length n = Z.to_nat rank ->
  Forall (fun v => 0 <= v < 2 ^ 63) n ->
  exists L,
    set_recalculated_layouts rocfft rank (reversed rank n)
      (natural_description type rank (reversed rank n) idist odist)
      (d0, d1, d2, d3)
    = set_layouts rocfft rank L
    /\ map setting_distances L
       = natural_layouts to_size_t (kind_of type) n [d0; d1; d2; d3].
Proof.
  intros Hrank Hlen Hn.
  assert (Hcases : rank = 1 \/ rank = 2 \/ rank = 3) by lia.
  unfold set_recalculated_layouts, natural_description, kind_of,
    dist_loop, stride_loop.
  destruct Hcases as [-> | [-> | ->]];
    [ destruct n as [| a [| ? ?]]; try discriminate Hlen
    | destruct n as [| a [| b [| ? ?]]]; try discriminate Hlen
    | destruct n as [| a [| b [| c [| ? ?]]]]; try discriminate Hlen ];
    repeat match goal with
           | H : Forall _ (_ :: _) |- _ =>
               let Hv := fresh "Hv" in
               inversion H as [| ? ? Hv ?]; subst; clear H
           end;
    (destruct (hipfftIOType.is_real_to_complex type);
       [| destruct (hipfftIOType.is_complex_to_real type)]);
    simpl;
    repeat match goal with
           | H : 0 <= ?v < 2 ^ 63 |- _ =>
               rewrite ?(small_length v H); revert H
           end;
    intros;
    collect_settings;
    (split; [reflexivity |]);
    unfold setting_distances, natural_layouts, natural_distances; simpl;
    split_layouts; wrap_distance.
Qed.

Lemma natural_layouts_not_empty (distance : Z -> Z) (k : transform_kind)
    (n : list Z) (ds : list pointer) :
  natural_layouts distance k n ds <> [].
Proof. destruct k; discriminate. Qed.

Lemma layouts_single_none (e : event) : layout e = None -> layouts [e] = [].
Proof. intros H. unfold layouts. simpl. rewrite H. reflexivity. Qed.

Lemma created_single (e : event) (d : pointer) :
  created_description e = Some d -> created_descriptions [e] = [d].
Proof.
  intros H. unfold created_descriptions. simpl. rewrite H. reflexivity.
Qed.

Lemma layouts_app (evs evs' : list event) :
  layouts (evs ++ evs') = layouts evs ++ layouts evs'.
Proof. apply omap_app. Qed.

Lemma created_descriptions_app (evs evs' : list event) :
  created_descriptions (evs ++ evs')
  = created_descriptions evs ++ created_descriptions evs'.
Proof. apply omap_app. Qed.

(** Lines 379-560 on a natural description: four descriptions are created,
    then layouts are set with the distances of the claim reduced modulo
    [2^64]: at least the first one, and all of them unless the backend
    refused one. *)
Lemma make_descriptions_natural (rocfft : backend) (s0 : state)
    (type : hipfftIOType.t) (rank : Z) (n : list Z) (idist odist : Z) :
  1 <= rank <= 3 -> length n = Z.to_nat rank ->
  Forall (fun v => 0 <= v < 2 ^ 63) n ->
  let run :=
    make_descriptions rocfft rank (reversed rank n)
      (Some (natural_description type rank (reversed rank n) idist odist))
      true s0 in
  exists (evs : list event) (d0 d1 d2 d3 : pointer),
    trace run.2 = trace s0 ++ evs
    /\ created_descriptions evs = [d0; d1; d2; d3]
    /\ layouts evs <> []
    /\ layouts evs
       `prefix_of` natural_layouts to_size_t (kind_of type) n [d0; d1; d2; d3]
    /\ ((exists x, run.1 = inr x) ->
        layouts evs
        = natural_layouts to_size_t (kind_of type) n [d0; d1; d2; d3])
    /\ (forall ds, run.1 = inr ds -> ds = (d0, d1, d2, d3)).
Proof.
  intros Hrank Hlen Hn run.
  assert (Hrun : run
                 = make_descriptions rocfft rank (reversed rank n)
                     (Some (natural_description type rank (reversed rank n)
                              idist odist)) true s0) by reflexivity.
  clearbody run. unfold make_descriptions in Hrun.
  destruct (description_create_run rocfft s0) as (e0 & Hl0 & Hc0 & E0).
  unfold bind at 1 in Hrun. rewrite E0 in Hrun. set (s1 := record [e0] s0) in *.
  destruct (description_create_run rocfft s1) as (e1 & Hl1 & Hc1 & E1).
  unfold bind at 1 in Hrun. rewrite E1 in Hrun. set (s2 := record [e1] s1) in *.
  destruct (description_create_run rocfft s2) as (e2 & Hl2 & Hc2 & E2).
  unfold bind at 1 in Hrun. rewrite E2 in Hrun. set (s3 := record [e2] s2) in *.
  destruct (description_create_run rocfft s3) as (e3 & Hl3 & Hc3 & E3).
  unfold bind at 1 in Hrun. rewrite E3 in Hrun. set (s4 := record [e3] s3) in *.
  cbv zeta in Hrun.
  destruct (recalculated_settings rocfft type rank n idist odist
              (out e0.2) (out e1.2) (out e2.2) (out e3.2) Hrank Hlen Hn)
    as (L & HL & Hmap).
  rewrite HL in Hrun.
  destruct (set_layouts_spec rocfft rank L s4)
    as (evs & Ht & Hcr & Hp & Hne & Hfull).
  rewrite Hmap in Hp, Hfull.
  assert (HLne : L <> []).
  { intros ->. simpl in Hmap. symmetry in Hmap.
    exact (natural_layouts_not_empty _ _ _ _ Hmap). }
  exists ([e0] ++ [e1] ++ [e2] ++ [e3] ++ evs),
         (out e0.2), (out e1.2), (out e2.2), (out e3.2).
  rewrite !layouts_app, !created_descriptions_app.
  rewrite (layouts_single_none e0 Hl0), (layouts_single_none e1 Hl1),
    (layouts_single_none e2 Hl2), (layouts_single_none e3 Hl3).
  rewrite (created_single e0 _ Hc0), (created_single e1 _ Hc1),
    (created_single e2 _ Hc2), (created_single e3 _ Hc3), Hcr.
  cbn [app].
  unfold bind in Hrun.
  destruct (set_layouts rocfft rank L s4) as [[r | []] s5];
    cbn [fst snd] in *; subst run; cbn [fst snd ret].
  - split; [rewrite Ht; unfold s4, s3, s2, s1, record; cbn [trace];
            rewrite <- !app_assoc; reflexivity |].
    split; [reflexivity |]. split; [auto |]. split; [exact Hp |].
    split; [intros [x Hx]; discriminate Hx |].
    intros ds Hds. discriminate Hds.
  - split; [rewrite Ht; unfold s4, s3, s2, s1, record; cbn [trace];
            rewrite <- !app_assoc; reflexivity |].
    split; [reflexivity |]. split; [auto |]. split; [exact Hp |].
    split; [intros _; apply Hfull; reflexivity |].
    intros ds Hds. injection Hds as <-. reflexivity.
Qed.

Lemma layouts_none (evs : list event) :
  Forall (fun e => is_data_layout e.1 = false) evs -> layouts evs = [].
Proof.
  induction 1 as [| [c a] evs Hc _ IH]; [reflexivity |].
  destruct c; simpl in Hc; try discriminate Hc; exact IH.
Qed.

(** Lines 610-727: everything after the layouts. *)
Definition after_descriptions (rocfft : backend) (iotype : hipfftIOType.t)
    (dim : Z) (lengths : list Z) (nt : Z) (workSize : pointer)
    (ds : descriptions) : M hipfftResult :=
  ds <- apply_scale_factor rocfft ds ;;
  plans_created <- create_plans rocfft iotype dim lengths nt ds ;;
  (if plans_created =? 0 then return_ HIPFFT_PARSE_ERROR else ret tt) ;;
  modify_plan (set_type iotype) ;;
  finish_plan rocfft iotype workSize ds.

Lemma make_plan_internal_after (rocfft : backend) (dim : Z)
    (lengths : list Z) (iotype : hipfftIOType.t) (nt : Z)
    (desc : option hipfft_plan_description_t) (workSize : pointer)
    (re_calc : bool) (s : state) :
  hipfftMakePlan_internal rocfft dim lengths iotype nt desc workSize re_calc s
  = body (rocfft_initializer rocfft ;;
          ds <- make_descriptions rocfft dim lengths desc re_calc ;;
          after_descriptions rocfft iotype dim lengths nt workSize ds) s.
Proof. reflexivity. Qed.

Lemma setup_events (evs : list event) :
  Forall (fun e => e.1 = rocfft_setup) evs ->
  layouts evs = [] /\ created_descriptions evs = [].
Proof.
  induction 1 as [| [c a] evs Hc _ [IHl IHc]]; [split; reflexivity |].
  simpl in Hc. subst c. split; [exact IHl | exact IHc].
Qed.

(** Only the first four descriptions created matter to the layouts. *)
Lemma natural_layouts_created (distance : Z -> Z) (k : transform_kind)
    (n : list Z) (evs_i evs_m evs_a : list event) (d0 d1 d2 d3 : pointer) :
  Forall (fun e => e.1 = rocfft_setup) evs_i ->
  created_descriptions evs_m = [d0; d1; d2; d3] ->
  Forall (fun e => is_data_layout e.1 = false) evs_a ->
  layouts (evs_i ++ evs_m ++ evs_a) = layouts evs_m
  /\ natural_layouts distance k n
       (created_descriptions (evs_i ++ evs_m ++ evs_a))
     = natural_layouts distance k n [d0; d1; d2; d3].
Proof.
  intros Hi Hm Ha. destruct (setup_events evs_i Hi) as [Hil Hic].
  rewrite !layouts_app, !created_descriptions_app, Hil, Hic, Hm,
    (layouts_none evs_a Ha), app_nil_r.
  split; [reflexivity |]. destruct k; reflexivity.
Qed.

Lemma product_nonneg (l : list Z) :
  Forall (fun v => 0 <= v) l -> 0 <= product l.
Proof.
  induction 1 as [| v l Hv _ IH]; simpl; [lia | nia].
Qed.

Lemma product_last (l : list Z) :
  l <> [] -> product l = List.last l 0 * product (removelast l).
Proof.
  induction l as [| v l IH]; [congruence |]. intros _.
  destruct l as [| w l]; [simpl; lia |].
  change (product (v :: w :: l)) with (v * product (w :: l)).
  change (List.last (v :: w :: l) 0) with (List.last (w :: l) 0).
  change (removelast (v :: w :: l)) with (v :: removelast (w :: l)).
  change (product (v :: removelast (w :: l)))
    with (v * product (removelast (w :: l))).
  rewrite IH by discriminate. ring.
Qed.

Lemma last_nonneg (l : list Z) :
  Forall (fun v => 0 <= v) l -> 0 <= List.last l 0.
Proof.
  induction 1 as [| v l Hv Hl IH]; simpl; [lia |].
  destruct l; [exact Hv | exact IH].
Qed.

Lemma removelast_nonneg (l : list Z) :
  Forall (fun v => 0 <= v) l -> Forall (fun v => 0 <= v) (removelast l).
Proof.
  induction 1 as [| v l Hv Hl IH]; simpl; [constructor |].
  destruct l; [constructor | constructor; [exact Hv | exact IH]].
Qed.

(** Where the padded product fits in [size_t], no distance wraps. *)
Lemma natural_layouts_exact (k : transform_kind) (n : list Z)
    (ds : list pointer) :
  n <> [] -> Forall (fun v => 0 <= v) n ->
  2 * (1 + List.last n 0 / 2) * product (removelast n) < size_t_modulus ->
  natural_layouts to_size_t k n ds = natural_layouts (fun d => d) k n ds.
Proof.
  intros Hne Hn Hfit.
  assert (Hsmall : forall placement,
            to_size_t (natural_distances k placement n).1
            = (natural_distances k placement n).1
            /\ to_size_t (natural_distances k placement n).2
               = (natural_distances k placement n).2).
  { intros placement. unfold natural_distances.
    rewrite (product_last n Hne).
    pose proof (last_nonneg n Hn) as H0.
    pose proof (product_nonneg _ (removelast_nonneg n Hn)) as Hr.
    pose proof (Z.div_mod (List.last n 0) 2 ltac:(lia)) as Hdiv.
    pose proof (Z.mod_pos_bound (List.last n 0) 2 ltac:(lia)) as Hmod.
    revert Hfit H0 Hr Hdiv Hmod.
    generalize (List.last n 0) (product (removelast n))
      (List.last n 0 / 2) (List.last n 0 mod 2).
    intros n0 r q m Hfit H0 Hr Hdiv Hmod.
    destruct k, placement; cbn [fst snd];
      split; apply to_size_t_small; nia. }
  unfold natural_layouts.
  destruct k;
    rewrite ?(proj1 (Hsmall rocfft_placement_inplace)),
      ?(proj2 (Hsmall rocfft_placement_inplace)),
      ?(proj1 (Hsmall rocfft_placement_notinplace)),
      ?(proj2 (Hsmall rocfft_placement_notinplace)); reflexivity.
Qed.

(** * Plan making, sizing, execution and release *)

(** ** Transform types *)

(** The complex type of the precision of [t]: the execution type that goes
    with the input and output types that [init(hipfftType)] stores. *)
Definition execution_type (t : hipfftIOType.t) : hipDataType :=
  match hipfftIOType.precision t with
  | rocfft_precision_half => HIP_C_16F
  | rocfft_precision_single => HIP_C_32F
  | rocfft_precision_double => HIP_C_64F
  end.

(** The two [init] functions agree: each of the six [hipfftType] values
    resolves, whatever the object held, to an input and an output type that
    [init(input, output, exec)] accepts with the complex execution type of
    their precision, and that it stores as they are; any other
    [hipfftType] value gives [HIPFFT_NOT_IMPLEMENTED] and leaves the object
    as it was. *)
Theorem init_type_agrees_with_init :
  forall (self self' : hipfftIOType.t) (type : hipfftType),
    let r := hipfftIOType.init_type self type in
    (type <> HIPFFT_TYPE_OTHER ->
     r.1 = HIPFFT_SUCCESS
     /\ hipfftIOType.init self' (hipfftIOType.inputType r.2)
          (hipfftIOType.outputType r.2) (execution_type r.2)
        = (HIPFFT_SUCCESS, r.2))
    /\ (type = HIPFFT_TYPE_OTHER -> r = (HIPFFT_NOT_IMPLEMENTED, self)).
Proof.
  intros self self' type r. subst r. split.
  - intros H. destruct type; try (contradiction H; reflexivity);
      split; reflexivity.
  - intros ->. reflexivity.
Qed.

Lemma init_type_agrees_with_init_witness :
  (hipfftIOType.init_type hipfftIOType.default HIPFFT_D2Z).1 = HIPFFT_SUCCESS
  /\ hipfftIOType.init hipfftIOType.default HIP_R_64F HIP_C_64F HIP_C_64F
     = (HIPFFT_SUCCESS, hipfftIOType.Build HIP_R_64F HIP_C_64F).
Proof.
  apply (init_type_agrees_with_init hipfftIOType.default hipfftIOType.default
           HIPFFT_D2Z).
  discriminate.
Defined.





(** ** Arguments that are refused *)

(** [hipfftMakePlan1d], [hipfftMakePlan2d] and [hipfftMakePlan3d] refuse a
    negative size (or batch) with [HIPFFT_INVALID_SIZE], whatever the
    transform type, and a transform type outside the six with
    [HIPFFT_NOT_IMPLEMENTED] when the sizes are not negative; in both cases
    nothing is sent to the backend and neither the plan nor the caller's
    work size is touched. *)
Theorem make_plan_nd_rejects :
  forall (rocfft : backend) (s : state) (nx ny nz batch : Z)
         (type : hipfftType) (workSize : pointer),
    (nx < 0 \/ batch < 0 ->
     hipfftMakePlan1d rocfft nx type batch workSize s
     = (HIPFFT_INVALID_SIZE, s))
    /\ (nx < 0 \/ ny < 0 ->
        hipfftMakePlan2d rocfft nx ny type workSize s
        = (HIPFFT_INVALID_SIZE, s))
    /\ (nx < 0 \/ ny < 0 \/ nz < 0 ->
        hipfftMakePlan3d rocfft nx ny nz type workSize s
        = (HIPFFT_INVALID_SIZE, s))
    /\ (type = HIPFFT_TYPE_OTHER -> 0 <= nx -> 0 <= ny -> 0 <= nz ->
        0 <= batch ->
        hipfftMakePlan1d rocfft nx type batch workSize s
        = (HIPFFT_NOT_IMPLEMENTED, s)
        /\ hipfftMakePlan2d rocfft nx ny type workSize s
           = (HIPFFT_NOT_IMPLEMENTED, s)
        /\ hipfftMakePlan3d rocfft nx ny nz type workSize s
           = (HIPFFT_NOT_IMPLEMENTED, s)).
Proof.
  intros rocfft s nx ny nz batch type workSize.
  unfold hipfftMakePlan1d, hipfftMakePlan2d, hipfftMakePlan3d.
  split; [| split; [| split]].
  - intros H.
    assert (E : (nx <? 0) || (batch <? 0) = true)
      by (apply orb_true_iff; rewrite !Z.ltb_lt; exact H).
    rewrite E. reflexivity.
  - intros H.
    assert (E : (nx <? 0) || (ny <? 0) = true)
      by (apply orb_true_iff; rewrite !Z.ltb_lt; exact H).
    rewrite E. reflexivity.
  - intros H.
    assert (E : (nx <? 0) || (ny <? 0) || (nz <? 0) = true)
      by (rewrite !orb_true_iff, !Z.ltb_lt; tauto).
    rewrite E. reflexivity.
  - intros -> Hx Hy Hz Hb. apply Z.ltb_ge in Hx, Hy, Hz, Hb.
    rewrite Hx, Hy, Hz, Hb. split; [| split]; reflexivity.
Qed.

Lemma make_plan_nd_rejects_witness :
  hipfftMakePlan3d accepting 16 16 (-1) HIPFFT_TYPE_OTHER nullptr fresh_state
  = (HIPFFT_INVALID_SIZE, fresh_state).
Proof.
  apply (make_plan_nd_rejects accepting fresh_state 16 16 (-1) 1
           HIPFFT_TYPE_OTHER nullptr).
  right. right. reflexivity.
Defined.

(** Some entry among the first [rank] ones is negative. *)
Definition has_negative (rank : Z) (a : option (list Z)) : Prop :=
  match a with
  | Some a => Exists (fun v => v < 0) (firstn (Z.to_nat rank) a)
  | None => False
  end.

Lemma any_negative_true (rank : Z) (a : list Z) :
  any_negative rank a = true
  <-> Exists (fun v => v < 0) (firstn (Z.to_nat rank) a).
Proof.
  unfold any_negative. rewrite existsb_exists, List.Exists_exists.
  split; intros (v & Hin & Hv); exists v; split; auto;
    apply Z.ltb_lt; exact Hv.
Qed.

Lemma any_negative_false_iff (rank : Z) (a : list Z) :
  any_negative rank a = false
  <-> ~ Exists (fun v => v < 0) (firstn (Z.to_nat rank) a).
Proof.
  rewrite <- any_negative_true. destruct (any_negative rank a); split;
    intros H; try reflexivity; try discriminate; try (intros E; discriminate).
  contradiction H. reflexivity.
Qed.

(** The argument checks of [hipfftMakePlanMany_internal] (lines 835-849),
    in their order:
    - one embedding without the other, a negative rank, stride or
      distance, or a negative length give [HIPFFT_INVALID_VALUE];
    - otherwise a negative entry in an embedding gives
      [HIPFFT_INVALID_SIZE];
    - otherwise a negative batch gives [HIPFFT_INVALID_SIZE].
    A refused call sends nothing to the backend and leaves the plan and
    the caller's work size as they were. *)
Theorem make_plan_many_rejects :
  forall (rocfft : backend) (s : state) (rank : Z) (n : list Z)
         (inembed : option (list Z)) (istride idist : Z)
         (onembed : option (list Z)) (ostride odist : Z)
         (type : hipfftIOType.t) (batch : Z) (workSize : pointer),
    let run := hipfftMakePlanMany_internal rocfft rank n inembed istride
                 idist onembed ostride odist type batch workSize s in
    let bad_value :=
      is_some inembed <> is_some onembed
      \/ rank < 0 \/ istride < 0 \/ idist < 0 \/ ostride < 0 \/ odist < 0
      \/ has_negative rank (Some n) in
    let bad_embedding :=
      has_negative rank inembed \/ has_negative rank onembed in
    (bad_value -> run = (HIPFFT_INVALID_VALUE, s))
    /\ (~ bad_value -> bad_embedding -> run = (HIPFFT_INVALID_SIZE, s))
    /\ (~ bad_value -> ~ bad_embedding -> batch < 0 ->
        run = (HIPFFT_INVALID_SIZE, s)).
Proof.
  intros rocfft s rank n inembed istride idist onembed ostride odist type
    batch workSize run bad_value bad_embedding.
  subst run bad_value bad_embedding. unfold hipfftMakePlanMany_internal.
  set (first_check :=
         (is_some inembed && negb (is_some onembed))
         || (negb (is_some inembed) && is_some onembed)
         || (rank <? 0) || (istride <? 0) || (idist <? 0)
         || (ostride <? 0) || (odist <? 0) || any_negative rank n).
  assert (Hfirst : first_check = true
                   <-> (is_some inembed <> is_some onembed
                        \/ rank < 0 \/ istride < 0 \/ idist < 0
                        \/ ostride < 0 \/ odist < 0
                        \/ has_negative rank (Some n))).
  { subst first_check. unfold has_negative.
    rewrite !orb_true_iff, !Z.ltb_lt, any_negative_true.
    destruct (is_some inembed), (is_some onembed); simpl;
      intuition congruence. }
  split; [| split].
  - intros H. apply Hfirst in H. rewrite H. reflexivity.
  - intros Hv He.
    destruct first_check; [contradiction Hv; apply Hfirst; reflexivity |].
    unfold body, bind, ret, return_.
    destruct inembed as [i |], onembed as [o |]; simpl in He.
    + destruct (any_negative rank i) eqn:Ei; [reflexivity |].
      destruct (any_negative rank o) eqn:Eo; [reflexivity |].
      apply any_negative_false_iff in Ei, Eo. tauto.
    + destruct (any_negative rank i) eqn:Ei; [reflexivity |].
      apply any_negative_false_iff in Ei. tauto.
    + destruct (any_negative rank o) eqn:Eo; [reflexivity |].
      apply any_negative_false_iff in Eo. tauto.
    + tauto.
  - intros Hv He Hb.
    destruct first_check; [contradiction Hv; apply Hfirst; reflexivity |].
    apply Z.ltb_lt in Hb.
    unfold body, bind, ret, return_.
    destruct inembed as [i |], onembed as [o |]; simpl in He;
      repeat match goal with
             | |- context [any_negative rank ?a] =>
                 let E := fresh "E" in
                 destruct (any_negative rank a) eqn:E;
                 [apply any_negative_true in E; tauto |]
             end;
      rewrite Hb; reflexivity.
Qed.

Lemma make_plan_many_rejects_witness :
  hipfftMakePlanMany_internal accepting 2 [16; 16] (Some [16; -4]) 1 256
    (Some [16; 16]) 1 256 (hipfftIOType.Build HIP_C_32F HIP_C_32F) (-1)
    nullptr fresh_state
  = (HIPFFT_INVALID_SIZE, fresh_state).
Proof.
  apply (proj1 (proj2 (make_plan_many_rejects accepting fresh_state 2
                         [16; 16] (Some [16; -4]) 1 256 (Some [16; 16]) 1 256
                         (hipfftIOType.Build HIP_C_32F HIP_C_32F) (-1)
                         nullptr))).
  - simpl. intros [H | [H | [H | [H | [H | [H | H]]]]]];
      try lia; try (contradiction H; reflexivity).
    repeat match goal with
           | H : Exists _ _ |- _ => inversion H; subst; clear H; try lia
           end.
  - left. unfold has_negative. simpl.
    apply Exists_cons_tl, Exists_cons_hd. lia.
Defined.

(** ** What a function body changes

    [changes Rp Rw P m]: from every state, the computation [m] takes the
    plan object to one related to it by [Rp] and the caller's work size to
    one related to it by [Rw], issues only backend calls in the class [P],
    and leaves the initialisation flag as it is.  Unlike [within], this
    says nothing of the result. *)

Record change (Rp : hipfftHandle_t -> hipfftHandle_t -> Prop)
    (Rw : Z -> Z -> Prop) (P : call -> Prop) (s s' : state) : Prop :=
  Build_change {
    change_plan : Rp (plan s) (plan s');
    change_workSize : Rw (workSize_out s) (workSize_out s');
    change_initialized : rocfft_initialized s' = rocfft_initialized s;
    change_trace :
      exists evs : list event,
        trace s' = trace s ++ evs /\ Forall (fun e => P e.1) evs
  }.

Definition any_size (v v' : Z) : Prop := True.

#[export] Instance any_size_preorder : PreOrder any_size.
Proof. split; intros ?; intros; exact I. Qed.

Definition any_call (c : call) : Prop := True.

Section Changes.

Variable rocfft : backend.
Variable Rp : hipfftHandle_t -> hipfftHandle_t -> Prop.
Context {Rp_preorder : PreOrder Rp}.
Variable Rw : Z -> Z -> Prop.
Context {Rw_preorder : PreOrder Rw}.
Variable P : call -> Prop.

#[export] Instance change_preorder : PreOrder (change Rp Rw P).
Proof.
  split.
  - intros s. split; try reflexivity. exists []. rewrite app_nil_r. auto.
  - intros s1 s2 s3 [Hp1 Hw1 Hi1 (evs1 & Ht1 & Hf1)]
      [Hp2 Hw2 Hi2 (evs2 & Ht2 & Hf2)].
    split.
    + etransitivity; eassumption.
    + etransitivity; eassumption.
    + congruence.
    + exists (evs1 ++ evs2). rewrite Ht2, Ht1, app_assoc.
      split; [reflexivity | apply Forall_app; auto].
Qed.

Definition changes {A : Type} (m : M A) : Prop :=
  forall s : state, change Rp Rw P s (m s).2.

Lemma changes_ret {A : Type} (a : A) : changes (ret a).
Proof. intros s. reflexivity. Qed.

Lemma changes_return {A : Type} (r : hipfftResult) : changes (@return_ A r).
Proof. intros s. reflexivity. Qed.

Lemma changes_get_plan : changes get_plan.
Proof. intros s. reflexivity. Qed.

Lemma changes_modify_plan (f : hipfftHandle_t -> hipfftHandle_t) :
  (forall p, Rp p (f p)) -> changes (modify_plan f).
Proof.
  intros Hf s. split; simpl; try reflexivity; [apply Hf |].
  exists []. rewrite app_nil_r. auto.
Qed.

Lemma changes_write_workSize (v : Z) :
  (forall w, Rw w v) -> changes (write_workSize v).
Proof.
  intros Hv s. split; simpl; try reflexivity; [apply Hv |].
  exists []. rewrite app_nil_r. auto.
Qed.

Lemma changes_call (c : call) : P c -> changes (backend_call rocfft c).
Proof.
  intros Hc s. split; simpl; try reflexivity.
  exists [(c, rocfft (trace s) c)]. auto.
Qed.

Lemma changes_bind {A C : Type} (m : M A) (k : A -> M C) :
  changes m -> (forall a, changes (k a)) -> changes (bind m k).
Proof.
  intros Hm Hk s. unfold bind. specialize (Hm s).
  destruct (m s) as [[r | a] s1]; simpl in *; [exact Hm |].
  etransitivity; [exact Hm | apply Hk].
Qed.

Lemma changes_for_each {A S : Type} (l : list A) (f : A -> S -> M S) :
  (forall a acc, changes (f a acc)) -> forall acc, changes (for_each l f acc).
Proof.
  intros Hf. induction l as [| a l IH]; intros acc; simpl.
  - apply changes_ret.
  - apply changes_bind; [apply Hf | exact IH].
Qed.

Lemma changes_invoke (f : state -> hipfftResult * state) :
  (forall s, change Rp Rw P s (f s).2) -> changes (invoke f).
Proof.
  intros Hf s. unfold invoke. specialize (Hf s).
  destruct (f s) as [r s1]. exact Hf.
Qed.

Lemma changes_body (m : M hipfftResult) (s : state) :
  changes m -> change Rp Rw P s (body m s).2.
Proof.
  intros Hm. specialize (Hm s). unfold body.
  destruct (m s) as [[r | r] s1]; exact Hm.
Qed.

End Changes.

Arguments changes Rp Rw P {A} m.

Lemma change_weaken
    (Rp Rp' : hipfftHandle_t -> hipfftHandle_t -> Prop)
    (Rw Rw' : Z -> Z -> Prop) (P P' : call -> Prop) (s s' : state) :
  (forall p q, Rp p q -> Rp' p q) ->
  (forall v w, Rw v w -> Rw' v w) ->
  (forall c, P c -> P' c) ->
  change Rp Rw P s s' -> change Rp' Rw' P' s s'.
Proof.
  intros HR HW HP [Hp Hw Hi (evs & Ht & Hf)].
  split; auto. exists evs. split; [exact Ht |].
  eapply Forall_impl; [exact Hf |]. simpl. auto.
Qed.

(** One step of a proof of [changes]; what a call, a store or an
    assignment has to satisfy is left to the caller. *)
Ltac change_step :=
  lazymatch goal with
  | |- PreOrder _ => typeclasses eauto
  | |- forall _, changes _ _ _ _ => intros ?
  | |- forall _ _, changes _ _ _ _ => intros ? ?
  | |- changes _ _ _ (bind _ _) => apply changes_bind
  | |- changes _ _ _ (ret _) => apply changes_ret
  | |- changes _ _ _ (return_ _) => apply changes_return
  | |- changes _ _ _ get_plan => apply changes_get_plan
  | |- changes _ _ _ (modify_plan _) => apply changes_modify_plan
  | |- changes _ _ _ (write_workSize _) => apply changes_write_workSize
  | |- changes _ _ _ (backend_call _ _) => apply changes_call
  | |- changes _ _ _ (for_each _ _ _) => apply changes_for_each
  | |- changes _ _ _ (if ?b then _ else _) => destruct b eqn:?
  | |- changes _ _ _ (let '(_, _) := ?x in _) => destruct x
  | |- changes _ _ _ (match ?x with Some _ => _ | None => _ end) =>
      destruct x
  end.

(** Every member of the plan other than the work buffer, its size and its
    ownership flag is the same. *)
Definition same_but_work_buffer (p p' : hipfftHandle_t) : Prop :=
  set_workBuffer 0 (set_workBufferSize 0 (set_workBufferNeedsFree false p'))
  = set_workBuffer 0 (set_workBufferSize 0 (set_workBufferNeedsFree false p)).

#[export] Instance same_but_work_buffer_preorder :
  PreOrder same_but_work_buffer.
Proof.
  split.
  - intros p. reflexivity.
  - intros p q r H1 H2. unfold same_but_work_buffer in *. congruence.
Qed.

Ltac change_side :=
  lazymatch goal with
  | |- forall _ : hipfftHandle_t, any_plan _ _ => intros ?; exact I
  | |- forall _ : Z, any_size _ _ => intros ?; exact I
  | |- forall _ : hipfftHandle_t, _ = _ => intros ?; reflexivity
  | |- forall _ : hipfftHandle_t, same_but_slots _ _ =>
      intros ?; reflexivity
  | |- forall _ : hipfftHandle_t, same_but_work_buffer _ _ =>
      intros ?; reflexivity
  | |- any_call _ => exact I
  | |- @eq bool _ _ => reflexivity
  | |- _ <> _ => discriminate
  end.

Ltac change_through :=
  repeat first [progress unfold when, ROC_FFT_CHECK_INVALID_VALUE,
                  store_workSize, description_create, ensure_description
               | change_step
               | change_side].

(** ** Library set-up *)

(** Lines 360-372 as a state change: the first call issues [rocfft_setup],
    whose status is not looked at, and sets the flag. *)
Definition first_setup (rocfft : backend) (s : state) : list event :=
  if rocfft_initialized s then []
  else [(rocfft_setup, rocfft (trace s) rocfft_setup)].

Lemma initializer_run (rocfft : backend) (s : state) :
  rocfft_initializer rocfft s
  = (inr tt, Build_state (plan s) true (workSize_out s)
                         (trace s ++ first_setup rocfft s)).
Proof.
  unfold rocfft_initializer, first_setup.
  destruct s as [p ini ws tr]. simpl. destruct ini; [| reflexivity].
  rewrite app_nil_r. reflexivity.
Qed.

(** Everything that follows the set-up in [hipfftMakePlan_internal]. *)
Definition after_setup (rocfft : backend) (dim : Z) (lengths : list Z)
    (iotype : hipfftIOType.t) (nt : Z)
    (desc : option hipfft_plan_description_t) (workSize : pointer)
    (re_calc : bool) : M hipfftResult :=
  ds <- make_descriptions rocfft dim lengths desc re_calc ;;
  after_descriptions rocfft iotype dim lengths nt workSize ds.

Lemma make_plan_internal_after_setup (rocfft : backend) (dim : Z)
    (lengths : list Z) (iotype : hipfftIOType.t) (nt : Z)
    (desc : option hipfft_plan_description_t) (workSize : pointer)
    (re_calc : bool) (s : state) :
  hipfftMakePlan_internal rocfft dim lengths iotype nt desc workSize re_calc s
  = body (after_setup rocfft dim lengths iotype nt desc workSize re_calc)
         (Build_state (plan s) true (workSize_out s)
                      (trace s ++ first_setup rocfft s)).
Proof.
  rewrite make_plan_internal_after. unfold body, after_setup.
  unfold bind at 1. rewrite initializer_run. reflexivity.
Qed.

(** Unfold [hipfftMakePlan_internal] after the set-up down to the backend
    calls, the assignments and the stores. *)
Ltac unfold_make_plan :=
  unfold after_setup, after_descriptions, make_descriptions,
    set_recalculated_layouts, set_given_layouts, set_data_layout,
    apply_scale_factor, create_plans, create_plans_of_type,
    ROC_FFT_CHECK_PLAN_CREATE, finish_plan, compute_work_buffer_size,
    max_work_buffer_size, allocate_work_buffer;
  repeat match goal with
         | |- context [stride_loop ?a ?b ?c ?d ?e ?f] =>
             let x := fresh "loop" in
             set (x := stride_loop a b c d e f)
         end.

Lemma after_setup_no_setup (rocfft : backend) (dim : Z) (lengths : list Z)
    (iotype : hipfftIOType.t) (nt : Z)
    (desc : option hipfft_plan_description_t) (workSize : pointer)
    (re_calc : bool) :
  changes any_plan any_size (fun c => c <> rocfft_setup)
    (after_setup rocfft dim lengths iotype nt desc workSize re_calc).
Proof. unfold_make_plan. change_through. Qed.

(** [rocfft_setup] is issued once: a call of [hipfftMakePlan_internal]
    issues it, before any other backend call, exactly when no earlier call
    has, goes on whatever the backend answers to it, and leaves the flag
    set; none of its other backend calls is a [rocfft_setup]. *)
Theorem rocfft_setup_once :
  forall (rocfft : backend) (s : state) (dim : Z) (lengths : list Z)
         (iotype : hipfftIOType.t) (nt : Z)
         (desc : option hipfft_plan_description_t) (workSize : pointer)
         (re_calc : bool),
    let run := hipfftMakePlan_internal rocfft dim lengths iotype nt desc
                 workSize re_calc s in
    rocfft_initialized run.2 = true
    /\ exists evs : list event,
         trace run.2
         = trace s
           ++ (if rocfft_initialized s then []
               else [(rocfft_setup, rocfft (trace s) rocfft_setup)])
           ++ evs
         /\ Forall (fun e => e.1 <> rocfft_setup) evs.
Proof.
  intros rocfft s dim lengths iotype nt desc workSize re_calc run.
  subst run. rewrite make_plan_internal_after_setup.
  destruct (changes_body _ _ _
              (after_setup rocfft dim lengths iotype nt desc workSize re_calc)
              (Build_state (plan s) true (workSize_out s)
                           (trace s ++ first_setup rocfft s))
              (after_setup_no_setup rocfft dim lengths iotype nt desc
                                    workSize re_calc))
    as [_ _ Hi (evs & Ht & Hf)].
  split; [exact Hi |]. exists evs.
  split; [| exact Hf]. rewrite Ht. simpl. rewrite <- app_assoc. reflexivity.
Qed.

(** ** The phases of [hipfftMakePlan_internal] *)

(** The backend calls of each phase. *)
Definition is_layout_phase_call (c : call) : bool :=
  match c with
  | rocfft_plan_description_create
  | rocfft_plan_description_set_data_layout _ _ _ _ _ _ _ _ _ => true
  | _ => false
  end.

Definition is_scale_phase_call (c : call) : bool :=
  match c with
  | rocfft_plan_description_create
  | rocfft_plan_description_set_scale_factor _ _ => true
  | _ => false
  end.

Definition is_creation_phase_call (c : call) : bool :=
  match c with
  | rocfft_plan_create _ _ _ _ _ _ _
  | rocfft_plan_destroy _ => true
  | _ => false
  end.

Definition is_work_size_query (c : call) : bool :=
  match c with rocfft_plan_get_work_buffer_size _ => true | _ => false end.

Definition is_allocation_call (c : call) : bool :=
  match c with
  | hipFree _
  | hipMalloc _
  | rocfft_execution_info_set_work_buffer _ _ _ => true
  | _ => false
  end.

Definition is_description_destroy (c : call) : bool :=
  match c with rocfft_plan_description_destroy _ => true | _ => false end.

Definition is_finish_phase_call (c : call) : bool :=
  is_work_size_query c || is_allocation_call c || is_description_destroy c.

(** [hipfftMakePlan_internal] stage by stage, with the states between the
    stages. *)
Lemma make_plan_internal_stages (rocfft : backend) (dim : Z)
    (lengths : list Z) (iotype : hipfftIOType.t) (nt : Z)
    (desc : option hipfft_plan_description_t) (workSize : pointer)
    (re_calc : bool) (s : state) :
  hipfftMakePlan_internal rocfft dim lengths iotype nt desc workSize re_calc s
  = match make_descriptions rocfft dim lengths desc re_calc
            (Build_state (plan s) true (workSize_out s)
                         (trace s ++ first_setup rocfft s)) with
    | (inl r, s1) => (r, s1)
    | (inr ds0, s1) =>
        match apply_scale_factor rocfft ds0 s1 with
        | (inl r, s2) => (r, s2)
        | (inr ds, s2) =>
            let R := attempts rocfft iotype dim lengths nt ds (wanted iotype)
                              (0, s2) in
            if R.1 =? 0 then (HIPFFT_PARSE_ERROR, R.2)
            else body (finish_plan rocfft iotype workSize ds)
                      (with_plan (set_type iotype (plan R.2)) R.2)
        end
    end.
Proof.
  rewrite make_plan_internal_phases. unfold prepare.
  unfold bind at 1. rewrite initializer_run. unfold bind at 1.
  destruct (make_descriptions _ _ _ _ _ _) as [[r | ds0] s1]; reflexivity.
Qed.

Lemma make_descriptions_changes (rocfft : backend) (dim : Z)
    (lengths : list Z) (desc : option hipfft_plan_description_t)
    (re_calc : bool) :
  changes eq eq (fun c => is_layout_phase_call c = true)
    (make_descriptions rocfft dim lengths desc re_calc).
Proof. unfold_make_plan. change_through. Qed.

Lemma apply_scale_factor_changes (rocfft : backend) (ds : descriptions) :
  changes eq eq (fun c => is_scale_phase_call c = true)
    (apply_scale_factor rocfft ds).
Proof.
  unfold apply_scale_factor. destruct ds as [[[ipf opf] ipi] opi].
  change_through.
Qed.

Lemma apply_scale_factor_unit (rocfft : backend) (ds : descriptions)
    (s : state) :
  PrimFloat.eqb (scale_factor (plan s)) 1 = true ->
  apply_scale_factor rocfft ds s = (inr ds, s).
Proof.
  intros H. unfold apply_scale_factor, bind, get_plan. simpl.
  rewrite H. reflexivity.
Qed.

#[export] Instance same_but_slots_preorder : PreOrder same_but_slots.
Proof.
  split.
  - intros p. reflexivity.
  - intros p q r H1 H2. unfold same_but_slots in *. congruence.
Qed.

Lemma attempts_changes (rocfft : backend) (iotype : hipfftIOType.t) (dim : Z)
    (lengths : list Z) (nt : Z) (ds : descriptions)
    (ws : list (rocfft_result_placement * rocfft_transform_type)) :
  forall (cnt : Z) (s : state),
    change same_but_slots eq (fun c => is_creation_phase_call c = true) s
      (attempts rocfft iotype dim lengths nt ds ws (cnt, s)).2.
Proof.
  induction ws as [| w ws IH]; intros cnt s.
  - simpl. reflexivity.
  - unfold attempts. simpl fold_left.
    fold (attempts rocfft iotype dim lengths nt ds ws).
    set (acc := attempt rocfft (slot_of w.1 w.2)
                        (creation_call iotype dim lengths nt ds w) (cnt, s)).
    assert (Hacc : acc = (acc.1, acc.2)) by (destruct acc; reflexivity).
    rewrite Hacc. etransitivity; [| apply IH].
    subst acc. unfold attempt. cbn [fst snd].
    split; cbn [plan workSize_out rocfft_initialized trace record with_plan];
      try reflexivity.
    + apply same_but_slots_set_slot. reflexivity.
    + eexists. split; [reflexivity |].
      constructor; [reflexivity |].
      destruct (ok _); repeat constructor.
Qed.

Lemma finish_plan_changes (rocfft : backend) (iotype : hipfftIOType.t)
    (workSize : pointer) (ds : descriptions) :
  changes same_but_work_buffer any_size
    (fun c => is_finish_phase_call c = true)
    (finish_plan rocfft iotype workSize ds).
Proof. unfold_make_plan. change_through. Qed.

(** ** Observations on the calls of a run *)

(** The plan creations among some backend calls, with all their
    arguments. *)
Definition plan_creations (evs : list event) : list call :=
  List.filter is_plan_create (map fst evs).

(** The scale factors set among some backend calls: description and
    factor. *)
Definition scale_setting (e : event) : option (pointer * float) :=
  match e with
  | (rocfft_plan_description_set_scale_factor d f, _) => Some (d, f)
  | _ => None
  end.

Definition scale_settings (evs : list event) : list (pointer * float) :=
  omap scale_setting evs.

Lemma plan_creations_app (evs evs' : list event) :
  plan_creations (evs ++ evs') = plan_creations evs ++ plan_creations evs'.
Proof. unfold plan_creations. rewrite map_app. apply List.filter_app. Qed.

Lemma scale_settings_app (evs evs' : list event) :
  scale_settings (evs ++ evs') = scale_settings evs ++ scale_settings evs'.
Proof. apply omap_app. Qed.

Lemma plan_creations_none (evs : list event) :
  Forall (fun e => is_plan_create e.1 = false) evs -> plan_creations evs = [].
Proof.
  unfold plan_creations.
  induction 1 as [| e evs He _ IH]; [reflexivity |].
  simpl. rewrite He. exact IH.
Qed.

Lemma scale_settings_none (evs : list event) :
  Forall (fun e => scale_setting e = None) evs -> scale_settings evs = [].
Proof.
  unfold scale_settings.
  induction 1 as [| e evs He _ IH]; [reflexivity |].
  simpl. rewrite He. exact IH.
Qed.

(** A fact about the calls of a class holds of the calls of a run in the
    class. *)
Lemma Forall_class {Q : event -> Prop} (f : call -> bool) (evs : list event) :
  (forall c a, f c = true -> Q (c, a)) ->
  Forall (fun e => f e.1 = true) evs -> Forall Q evs.
Proof.
  intros H Hf. eapply Forall_impl; [exact Hf |].
  intros [c a] Hc. apply H. exact Hc.
Qed.

Ltac by_class := intros c a; destruct c; cbv -[to_size_t]; congruence.

(** The creation loop asks for one plan per wanted pair, in order, with
    the precision of the transform type, the dimension, the lengths and
    the batch of the call, and the description of the slot. *)
Lemma attempts_creations (rocfft : backend) (iotype : hipfftIOType.t)
    (dim : Z) (lengths : list Z) (nt : Z) (ds : descriptions)
    (ws : list (rocfft_result_placement * rocfft_transform_type)) :
  forall (cnt : Z) (s : state),
    exists evs : list event,
      trace (attempts rocfft iotype dim lengths nt ds ws (cnt, s)).2
      = trace s ++ evs
      /\ plan_creations evs
         = map (creation_call iotype dim lengths nt ds) ws.
Proof.
  induction ws as [| w ws IH]; intros cnt s.
  - exists []. simpl. rewrite app_nil_r. auto.
  - unfold attempts. simpl fold_left.
    fold (attempts rocfft iotype dim lengths nt ds ws).
    set (acc := attempt rocfft (slot_of w.1 w.2)
                        (creation_call iotype dim lengths nt ds w) (cnt, s)).
    assert (Hacc : acc = (acc.1, acc.2)) by (destruct acc; reflexivity).
    rewrite Hacc. destruct (IH acc.1 acc.2) as (evs & Ht & Hc).
    unfold attempts in Ht. rewrite Ht. subst acc. unfold attempt.
    cbn [fst snd record with_plan trace].
    eexists. rewrite <- app_assoc. split; [reflexivity |].
    rewrite plan_creations_app, Hc.
    destruct (ok _); reflexivity.
Qed.

(** A scale factor other than 1.0 is handed to the four descriptions,
    those that do not exist yet being created for it. *)
Lemma apply_scale_factor_scaled (rocfft : backend) (ds : descriptions)
    (s : state) :
  PrimFloat.eqb (scale_factor (plan s)) 1 = false ->
  exists (ds' : descriptions) (evs : list event),
    apply_scale_factor rocfft ds s = (inr ds', record evs s)
    /\ scale_settings evs
       = map (fun sl => (description_of sl ds', scale_factor (plan s)))
             [slot_ip_forward; slot_op_forward;
              slot_ip_inverse; slot_op_inverse]
    /\ forall sl, is_null (description_of sl ds) = false ->
                  description_of sl ds' = description_of sl ds.
Proof.
  intros H. unfold apply_scale_factor, ensure_description, description_create.
  destruct ds as [[[ipf opf] ipi] opi].
  unfold bind at 1. unfold get_plan at 1. cbn [fst snd plan].
  rewrite H. cbn [negb].
  destruct (is_null ipf) eqn:E1, (is_null opf) eqn:E2,
    (is_null ipi) eqn:E3, (is_null opi) eqn:E4;
    run; cbn [plan trace rocfft_initialized workSize_out];
    rewrite <- ?app_assoc; cbn [app];
    (eexists; eexists; split; [reflexivity |]);
    (split; [reflexivity |]);
    intros [] Hsl; cbn [description_of] in *; congruence.
Qed.

Definition all_slots : list slot :=
  [slot_ip_forward; slot_op_forward; slot_ip_inverse; slot_op_inverse].

Definition no_descriptions : descriptions :=
  (nullptr, nullptr, nullptr, nullptr).

(** A run of [hipfftMakePlan_internal] up to the sizing of the work
    buffer.  [evs] are the backend calls up to there.  Either a layout
    setting is refused and the run ends with the plan untouched, or the
    plans are asked for with the four descriptions [ds] that the scale
    factor was handed to (if it is not 1.0), which are those of the
    layouts [ds0] where these exist; the run then ends in [s3] with
    [HIPFFT_PARSE_ERROR], or goes on from [s3] with the transform type
    stored. *)
Lemma make_plan_internal_anatomy (rocfft : backend) (s : state)
    (dim : Z) (lengths : list Z) (iotype : hipfftIOType.t) (nt : Z)
    (desc : option hipfft_plan_description_t) (workSize : pointer)
    (re_calc : bool) :
  let run := hipfftMakePlan_internal rocfft dim lengths iotype nt desc
               workSize re_calc s in
  let f := scale_factor (plan s) in
  exists evs : list event,
    Forall (fun e => is_finish_phase_call e.1 = false) evs
    /\ ((run.1 = HIPFFT_INVALID_VALUE /\ desc <> None
         /\ trace run.2 = trace s ++ evs
         /\ plan run.2 = plan s
         /\ workSize_out run.2 = workSize_out s
         /\ plan_creations evs = [] /\ scale_settings evs = [])
        \/ exists (ds0 ds : descriptions) (s3 : state),
             (desc = None -> ds0 = no_descriptions)
             /\ (PrimFloat.eqb f 1 = true ->
                 ds = ds0 /\ scale_settings evs = [])
             /\ (PrimFloat.eqb f 1 = false ->
                 scale_settings evs
                 = map (fun sl => (description_of sl ds, f)) all_slots
                 /\ forall sl, is_null (description_of sl ds0) = false ->
                               description_of sl ds = description_of sl ds0)
             /\ plan_creations evs
                = map (creation_call iotype dim lengths nt ds)
                      (wanted iotype)
             /\ trace s3 = trace s ++ evs
             /\ workSize_out s3 = workSize_out s
             /\ same_but_slots (plan s) (plan s3)
             /\ (forall placement t a,
                   In (placement, t, a) (creations evs) ->
                   get_slot (slot_of placement t) (plan s3) = slot_value a)
             /\ (run = (HIPFFT_PARSE_ERROR, s3)
                 \/ run = body (finish_plan rocfft iotype workSize ds)
                               (with_plan (set_type iotype (plan s3)) s3))).
Proof.
  intros run f. subst run. rewrite make_plan_internal_stages.
  set (s0 := Build_state _ _ _ _).
  assert (Hp0 : plan s0 = plan s) by reflexivity.
  assert (Hw0 : workSize_out s0 = workSize_out s) by reflexivity.
  assert (Ht0 : trace s0 = trace s ++ first_setup rocfft s) by reflexivity.
  assert (Hnone : desc = None ->
                  make_descriptions rocfft dim lengths desc re_calc s0
                  = (inr no_descriptions, s0))
    by (intros ->; reflexivity).
  clearbody s0.
  assert (Hc0 : plan_creations (first_setup rocfft s) = []
                /\ scale_settings (first_setup rocfft s) = []
                /\ Forall (fun e => is_finish_phase_call e.1 = false)
                          (first_setup rocfft s)).
  { unfold first_setup. destruct (rocfft_initialized s);
      repeat split; repeat constructor. }
  destruct Hc0 as (Hc0 & Hs0 & Hf0).
  destruct (make_descriptions_changes rocfft dim lengths desc re_calc s0)
    as [Hp1 Hw1 _ (evs1 & Ht1 & Hf1)].
  destruct (make_descriptions_frame rocfft dim lengths desc re_calc s0)
    as [_ (evs1' & _ & _ & Hb1)].
  assert (Hc1 : plan_creations evs1 = []).
  { apply plan_creations_none.
    eapply (Forall_class is_layout_phase_call); [by_class | exact Hf1]. }
  assert (Hs1 : scale_settings evs1 = []).
  { apply scale_settings_none.
    eapply (Forall_class is_layout_phase_call); [by_class | exact Hf1]. }
  assert (Hn1 : Forall (fun e => is_finish_phase_call e.1 = false) evs1).
  { eapply (Forall_class is_layout_phase_call); [by_class | exact Hf1]. }
  destruct (make_descriptions rocfft dim lengths desc re_calc s0)
    as [[r | ds0] s1]; cbn [fst snd] in *.
  { exists (first_setup rocfft s ++ evs1).
    split; [apply Forall_app; auto |]. left.
    rewrite Ht1, Ht0, <- app_assoc.
    rewrite plan_creations_app, scale_settings_app, Hc0, Hs0, Hc1, Hs1.
    destruct Hb1 as (c & a & _ & _ & _ & ->).
    split; [reflexivity |]. split.
    { intros H. specialize (Hnone H). discriminate Hnone. }
    repeat split; congruence. }
  assert (Hds0 : desc = None -> ds0 = no_descriptions).
  { intros H. specialize (Hnone H). congruence. }
  clear Hnone Hb1.
  assert (Hscale :
            exists (ds : descriptions) (evs2 : list event) (s2 : state),
              apply_scale_factor rocfft ds0 s1 = (inr ds, s2)
              /\ trace s2 = trace s1 ++ evs2
              /\ plan s2 = plan s1
              /\ workSize_out s2 = workSize_out s1
              /\ Forall (fun e => is_scale_phase_call e.1 = true) evs2
              /\ (PrimFloat.eqb f 1 = true ->
                  ds = ds0 /\ scale_settings evs2 = [])
              /\ (PrimFloat.eqb f 1 = false ->
                  scale_settings evs2
                  = map (fun sl => (description_of sl ds, f)) all_slots
                  /\ forall sl, is_null (description_of sl ds0) = false ->
                                description_of sl ds = description_of sl ds0)).
  { subst f. rewrite <- Hp0, Hp1.
    destruct (PrimFloat.eqb (scale_factor (plan s1)) 1) eqn:E.
    - exists ds0, [], s1. rewrite (apply_scale_factor_unit _ _ _ E).
      rewrite app_nil_r.
      split; [reflexivity |]. repeat (split; [reflexivity |]).
      split; [constructor |]. split; [auto | discriminate].
    - destruct (apply_scale_factor_scaled rocfft ds0 s1 E)
        as (ds & evs2 & Hrun & Hs & Hk).
      exists ds, evs2, (record evs2 s1).
      destruct (apply_scale_factor_changes rocfft ds0 s1)
        as [_ _ _ (evs2' & Ht2 & Hf2)].
      rewrite Hrun in Ht2. simpl in Ht2. apply app_inv_head in Ht2.
      subst evs2'.
      split; [exact Hrun |]. repeat (split; [reflexivity |]).
      split; [exact Hf2 |]. split; [discriminate | auto]. }
  destruct Hscale
    as (ds & evs2 & s2 & Hrun2 & Ht2 & Hp2 & Hw2 & Hf2 & Hone & Hnot).
  assert (Hc2 : plan_creations evs2 = []).
  { apply plan_creations_none.
    eapply (Forall_class is_scale_phase_call); [by_class | exact Hf2]. }
  assert (Hn2 : Forall (fun e => is_finish_phase_call e.1 = false) evs2).
  { eapply (Forall_class is_scale_phase_call); [by_class | exact Hf2]. }
  rewrite Hrun2.
  destruct (attempts_changes rocfft iotype dim lengths nt ds (wanted iotype)
              0 s2) as [Hp3 Hw3 _ (evs3 & Ht3 & Hf3)].
  destruct (attempts_creations rocfft iotype dim lengths nt ds
              (wanted iotype) 0 s2) as (evs3' & Ht3' & Hc3).
  rewrite Ht3 in Ht3'. apply app_inv_head in Ht3'. subst evs3'.
  destruct (attempts_spec rocfft iotype dim lengths nt ds (wanted iotype)
              0 s2) as (evs3' & Ht3' & _ & Hwant & Hi3 & _).
  cbv zeta in Ht3', Hi3. rewrite Ht3 in Ht3'. apply app_inv_head in Ht3'.
  subst evs3'.
  assert (Hcr : creations (first_setup rocfft s ++ evs1 ++ evs2 ++ evs3)
                = creations evs3).
  { rewrite !creations_app.
    rewrite (creations_none (first_setup rocfft s)), (creations_none evs1),
      (creations_none evs2); [reflexivity | | |].
    - eapply (Forall_class is_scale_phase_call); [by_class | exact Hf2].
    - eapply (Forall_class is_layout_phase_call); [by_class | exact Hf1].
    - unfold first_setup. destruct (rocfft_initialized s);
        repeat constructor. }
  assert (Hs3 : scale_settings evs3 = []).
  { apply scale_settings_none.
    eapply (Forall_class is_creation_phase_call); [by_class | exact Hf3]. }
  assert (Hn3 : Forall (fun e => is_finish_phase_call e.1 = false) evs3).
  { eapply (Forall_class is_creation_phase_call); [by_class | exact Hf3]. }
  cbv zeta.
  set (R := attempts rocfft iotype dim lengths nt ds (wanted iotype) (0, s2))
    in *.
  exists (first_setup rocfft s ++ evs1 ++ evs2 ++ evs3).
  split; [repeat (apply Forall_app; split); assumption |].
  right. exists ds0, ds, R.2.
  rewrite !plan_creations_app, !scale_settings_app.
  rewrite Hc0, Hs0, Hc1, Hs1, Hc2, Hc3, Hs3, !app_nil_r. cbn [app].
  split; [exact Hds0 |]. split; [exact Hone |]. split; [exact Hnot |].
  split; [reflexivity |].
  split; [rewrite Ht3, Ht2, Ht1, Ht0, <- !app_assoc; reflexivity |].
  split; [congruence |].
  split; [rewrite <- Hp0, Hp1, <- Hp2; exact Hp3 |].
  split.
  { intros placement t a Hin. rewrite Hcr in Hin. rewrite Hi3.
    apply (install_lookup (creations evs3) (plan s2)
             ltac:(rewrite <- (map_map fst (fun w => slot_of w.1 w.2)), Hwant;
                   apply wanted_slots_nodup)
             (placement, t, a) Hin). }
  destruct (R.1 =? 0); [left | right]; reflexivity.
Qed.

(** The descriptions of a whole run. *)
Lemma make_plan_internal_descriptions (rocfft : backend) (s : state)
    (dim : Z) (lengths : list Z) (iotype : hipfftIOType.t) (nt : Z)
    (desc : option hipfft_plan_description_t) (workSize : pointer)
    (re_calc : bool) :
  let run := hipfftMakePlan_internal rocfft dim lengths iotype nt desc
               workSize re_calc s in
  let f := scale_factor (plan s) in
  exists evs : list event,
    trace run.2 = trace s ++ evs
    /\ ((run.1 = HIPFFT_INVALID_VALUE /\ desc <> None
         /\ plan_creations evs = [] /\ scale_settings evs = [])
        \/ exists ds0 ds : descriptions,
             (desc = None -> ds0 = no_descriptions)
             /\ (PrimFloat.eqb f 1 = true ->
                 ds = ds0 /\ scale_settings evs = [])
             /\ (PrimFloat.eqb f 1 = false ->
                 scale_settings evs
                 = map (fun sl => (description_of sl ds, f)) all_slots
                 /\ forall sl, is_null (description_of sl ds0) = false ->
                               description_of sl ds = description_of sl ds0)
             /\ plan_creations evs
                = map (creation_call iotype dim lengths nt ds)
                      (wanted iotype)).
Proof.
  intros run f.
  destruct (make_plan_internal_anatomy rocfft s dim lengths iotype nt desc
              workSize re_calc) as (evs & _ & H).
  fold run in H. fold f in H.
  destruct H as [(Hr & Hd & Ht & _ & _ & Hc & Hs)
                | (ds0 & ds & s3 & Hds0 & Hone & Hnot & Hc & Ht & _ & _ & _
                   & H)].
  { exists evs. split; [exact Ht |]. left. auto. }
  destruct H as [-> | ->].
  { exists evs. split; [exact Ht |]. right. exists ds0, ds. auto. }
  destruct (changes_body _ _ _ _
              (with_plan (set_type iotype (plan s3)) s3)
              (finish_plan_changes rocfft iotype workSize ds))
    as [_ _ _ (evs4 & Ht4 & Hf4)].
  assert (Hc4 : plan_creations evs4 = []).
  { apply plan_creations_none.
    eapply (Forall_class is_finish_phase_call); [by_class | exact Hf4]. }
  assert (Hs4 : scale_settings evs4 = []).
  { apply scale_settings_none.
    eapply (Forall_class is_finish_phase_call); [by_class | exact Hf4]. }
  exists (evs ++ evs4). rewrite Ht4. cbn [trace with_plan].
  rewrite Ht, <- app_assoc. split; [reflexivity |].
  right. exists ds0, ds.
  rewrite plan_creations_app, scale_settings_app, Hc4, Hs4, !app_nil_r.
  split; [exact Hds0 |]. split; [| split; [exact Hnot | exact Hc]].
  intros E. destruct (Hone E) as [-> ->]. auto.
Qed.

(** ** The calls of a run, stage by stage *)

(** The backend calls of a run of [ROC_FFT_CHECK_PLAN_CREATE] over the
    plan creations [cs]: each creation in turn, a refused one followed at
    once by the destruction of what it stored. *)
Fixpoint attempted (cs : list call) (evs : list event) : Prop :=
  match cs with
  | [] => evs = []
  | c :: cs' =>
      exists (a b : response) (evs' : list event),
        evs = ((c, a) :: if ok a then []
                         else [(rocfft_plan_destroy (out a), b)]) ++ evs'
        /\ attempted cs' evs'
  end.

Lemma attempted_creations (cs : list call) :
  Forall (fun c => is_plan_create c = true) cs ->
  forall evs : list event, attempted cs evs -> plan_creations evs = cs.
Proof.
  induction 1 as [| c cs Hc _ IH]; intros evs H.
  - simpl in H. subst evs. reflexivity.
  - destruct H as (a & b & evs' & -> & H').
    rewrite plan_creations_app, (IH _ H').
    unfold plan_creations. destruct (ok a); cbn [map fst List.filter];
      rewrite Hc; reflexivity.
Qed.

Lemma attempted_not_empty (c : call) (cs : list call) (evs : list event) :
  attempted (c :: cs) evs -> evs <> [].
Proof.
  intros (a & b & evs' & -> & _). discriminate.
Qed.

Lemma attempts_attempted (rocfft : backend) (iotype : hipfftIOType.t)
    (dim : Z) (lengths : list Z) (nt : Z) (ds : descriptions)
    (ws : list (rocfft_result_placement * rocfft_transform_type)) :
  forall (cnt : Z) (s : state),
    exists evs : list event,
      trace (attempts rocfft iotype dim lengths nt ds ws (cnt, s)).2
      = trace s ++ evs
      /\ attempted (map (creation_call iotype dim lengths nt ds) ws) evs.
Proof.
  induction ws as [| w ws IH]; intros cnt s.
  - exists []. simpl. rewrite app_nil_r. auto.
  - unfold attempts. simpl fold_left.
    fold (attempts rocfft iotype dim lengths nt ds ws).
    set (c := creation_call iotype dim lengths nt ds w).
    set (acc := attempt rocfft (slot_of w.1 w.2) c (cnt, s)).
    assert (Hacc : acc = (acc.1, acc.2)) by (destruct acc; reflexivity).
    rewrite Hacc. destruct (IH acc.1 acc.2) as (evs & Ht & Ha).
    unfold attempts in Ht. rewrite Ht. subst acc. unfold attempt.
    cbn [fst snd record with_plan trace].
    eexists. rewrite <- app_assoc. split; [reflexivity |].
    cbn [map attempted]. fold c.
    exists (rocfft (trace s) c),
           (rocfft (trace s ++ [(c, rocfft (trace s) c)])
                   (rocfft_plan_destroy (out (rocfft (trace s) c)))),
           evs.
    split; [reflexivity | exact Ha].
Qed.

(** The stages of [hipfftMakePlan_internal] and the backend calls of each:
    the descriptions and their layouts ([evs1], the calls of
    [make_descriptions]), the scale factor ([evs2]), the plan creations
    ([evs3]) and the work buffer with the end of the descriptions
    ([evs4]).  A run that leaves [make_descriptions] early ends there
    with the plan untouched; otherwise the plans are asked for with the
    descriptions [ds] that the scale factor was handed to, which are
    those of the layouts where these exist. *)
Lemma make_plan_internal_sequence (rocfft : backend) (s : state)
    (dim : Z) (lengths : list Z) (iotype : hipfftIOType.t) (nt : Z)
    (desc : option hipfft_plan_description_t) (workSize : pointer)
    (re_calc : bool) :
  let run := hipfftMakePlan_internal rocfft dim lengths iotype nt desc
               workSize re_calc s in
  let f := scale_factor (plan s) in
  let s0 := Build_state (plan s) true (workSize_out s)
                        (trace s ++ first_setup rocfft s) in
  let made := make_descriptions rocfft dim lengths desc re_calc s0 in
  exists evs1 evs2 evs3 evs4 : list event,
    trace made.2 = trace s0 ++ evs1
    /\ trace run.2
       = trace s ++ first_setup rocfft s ++ evs1 ++ evs2 ++ evs3 ++ evs4
    /\ Forall (fun e => is_layout_phase_call e.1 = true) evs1
    /\ Forall (fun e => is_scale_phase_call e.1 = true) evs2
    /\ Forall (fun e => is_creation_phase_call e.1 = true) evs3
    /\ Forall (fun e => is_finish_phase_call e.1 = true) evs4
    /\ match made.1 with
       | inl r =>
           run.1 = r /\ plan run.2 = plan s
           /\ evs2 = [] /\ evs3 = [] /\ evs4 = []
       | inr ds0 =>
           exists ds : descriptions,
             (PrimFloat.eqb f 1 = true -> ds = ds0 /\ evs2 = [])
             /\ (PrimFloat.eqb f 1 = false ->
                 scale_settings evs2
                 = map (fun sl => (description_of sl ds, f)) all_slots
                 /\ forall sl, is_null (description_of sl ds0) = false ->
                               description_of sl ds = description_of sl ds0)
             /\ attempted (map (creation_call iotype dim lengths nt ds)
                               (wanted iotype)) evs3
       end.
Proof.
  intros run f s0 made.
  assert (Hrun : run
                 = match made with
                   | (inl r, s1) => (r, s1)
                   | (inr ds0, s1) =>
                       match apply_scale_factor rocfft ds0 s1 with
                       | (inl r, s2) => (r, s2)
                       | (inr ds, s2) =>
                           let R := attempts rocfft iotype dim lengths nt ds
                                      (wanted iotype) (0, s2) in
                           if R.1 =? 0 then (HIPFFT_PARSE_ERROR, R.2)
                           else body (finish_plan rocfft iotype workSize ds)
                                     (with_plan (set_type iotype (plan R.2))
                                                R.2)
                       end
                   end) by apply make_plan_internal_stages.
  clearbody run.
  destruct (make_descriptions_changes rocfft dim lengths desc re_calc s0)
    as [Hp1 _ _ (evs1 & Ht1 & Hf1)].
  fold made in Hp1, Ht1. clearbody made.
  assert (Hp0 : plan s0 = plan s) by reflexivity.
  assert (Ht0 : trace s0 = trace s ++ first_setup rocfft s) by reflexivity.
  destruct made as [[r | ds0] s1]; cbn [fst snd] in *.
  { exists evs1, [], [], []. subst run. cbn [fst snd].
    rewrite Ht1, Ht0, !app_nil_r, <- app_assoc.
    repeat (split; [first [reflexivity | assumption | constructor] |]).
    split; [congruence |]. auto. }
  destruct (apply_scale_factor_changes rocfft ds0 s1)
    as [Hp2 _ _ (evs2 & Ht2 & Hf2)].
  assert (Hds : exists ds s2,
             apply_scale_factor rocfft ds0 s1 = (inr ds, s2)
             /\ (PrimFloat.eqb f 1 = true -> ds = ds0 /\ evs2 = [])
             /\ (PrimFloat.eqb f 1 = false ->
                 scale_settings evs2
                 = map (fun sl => (description_of sl ds, f)) all_slots
                 /\ forall sl, is_null (description_of sl ds0) = false ->
                               description_of sl ds = description_of sl ds0)).
  { assert (Hf : scale_factor (plan s1) = f) by (subst f; congruence).
    destruct (PrimFloat.eqb f 1) eqn:E.
    - rewrite <- Hf in E.
      rewrite (apply_scale_factor_unit rocfft ds0 s1 E) in Ht2 |- *.
      cbn [snd] in Ht2.
      rewrite <- (app_nil_r (trace s1)) in Ht2 at 1.
      apply app_inv_head in Ht2. subst evs2.
      exists ds0, s1. split; [reflexivity |].
      split; [auto | discriminate].
    - rewrite <- Hf in E.
      destruct (apply_scale_factor_scaled rocfft ds0 s1 E)
        as (ds' & evs2' & Erun & Hset & Hkeep).
      rewrite Erun in Ht2. cbn [snd record trace] in Ht2.
      apply app_inv_head in Ht2. subst evs2'.
      exists ds', (record evs2 s1). split; [exact Erun |].
      split; [discriminate |]. intros _. rewrite <- Hf.
      split; [exact Hset | exact Hkeep]. }
  destruct Hds as (ds & s2 & Escale & Hone & Hnot).
  rewrite Escale in Hrun, Hp2, Ht2. cbn [snd] in Hp2, Ht2.
  destruct (attempts_changes rocfft iotype dim lengths nt ds (wanted iotype)
              0 s2) as [Hp3 _ _ (evs3 & Ht3 & Hf3)].
  destruct (attempts_attempted rocfft iotype dim lengths nt ds
              (wanted iotype) 0 s2) as (evs3' & Ht3' & Hatt).
  rewrite Ht3 in Ht3'. apply app_inv_head in Ht3'. subst evs3'.
  cbv zeta in Hrun.
  set (R := attempts rocfft iotype dim lengths nt ds (wanted iotype) (0, s2))
    in *.
  destruct (R.1 =? 0).
  { exists evs1, evs2, evs3, []. subst run. cbn [fst snd].
    rewrite Ht3, Ht2, Ht1, Ht0, !app_nil_r, <- !app_assoc.
    repeat (split; [first [reflexivity | assumption | constructor] |]).
    exists ds. auto. }
  destruct (changes_body _ _ _ _
              (with_plan (set_type iotype (plan R.2)) R.2)
              (finish_plan_changes rocfft iotype workSize ds))
    as [_ _ _ (evs4 & Ht4 & Hf4)].
  rewrite <- Hrun in Ht4.
  exists evs1, evs2, evs3, evs4.
  rewrite Ht4. cbn [trace with_plan]. rewrite Ht3, Ht2, Ht1, Ht0.
  rewrite <- !app_assoc.
  repeat (split; [first [reflexivity | assumption] |]).
  exists ds. auto.
Qed.

Lemma creation_calls_create (iotype : hipfftIOType.t) (dim : Z)
    (lengths : list Z) (nt : Z) (ds : descriptions)
    (ws : list (rocfft_result_placement * rocfft_transform_type)) :
  Forall (fun c => is_plan_create c = true)
         (map (creation_call iotype dim lengths nt ds) ws).
Proof.
  apply List.Forall_forall. intros c Hin.
  apply List.in_map_iff in Hin as (w & <- & _). reflexivity.
Qed.

(** The backend calls of [hipfftMakePlan_internal] come in this order:
    the library set-up (if it is still to be done); the creation of the
    descriptions and the setting of their layouts; the scale factors, with
    the descriptions created for them; the creation of the plans, each
    refused one followed by its destruction; and last the sizing and the
    allocation of the work buffer and the destruction of the descriptions.
    The plan object is untouched until the first plan creation.  A run
    that does not reach the creations has set no scale factor and gives
    [HIPFFT_INVALID_VALUE].  A scale factor of 1.0 leaves the scale stage
    empty, any other is set on the four descriptions that the plans are
    then asked for with.  The creation stage, when the run reaches it, is exactly one creation per
    wanted pair, in order, each with the description of its slot, and
    after a refused creation, and only then, the destruction of what that
    creation stored. *)
Theorem make_plan_call_order :
  forall (rocfft : backend) (s : state) (dim : Z) (lengths : list Z)
         (iotype : hipfftIOType.t) (nt : Z)
         (desc : option hipfft_plan_description_t) (workSize : pointer)
         (re_calc : bool),
    let run := hipfftMakePlan_internal rocfft dim lengths iotype nt desc
                 workSize re_calc s in
    exists layout_evs scale_evs creation_evs finish_evs : list event,
      trace run.2
      = trace s ++ first_setup rocfft s ++ layout_evs ++ scale_evs
        ++ creation_evs ++ finish_evs
      /\ Forall (fun e => is_layout_phase_call e.1 = true) layout_evs
      /\ Forall (fun e => is_scale_phase_call e.1 = true) scale_evs
      /\ Forall (fun e => is_creation_phase_call e.1 = true) creation_evs
      /\ Forall (fun e => is_finish_phase_call e.1 = true) finish_evs
      /\ (creation_evs = [] -> plan run.2 = plan s /\ finish_evs = [])
      /\ (creation_evs = [] /\ scale_evs = []
          /\ run.1 = HIPFFT_INVALID_VALUE
          \/ exists ds : descriptions,
               attempted (map (creation_call iotype dim lengths nt ds)
                              (wanted iotype)) creation_evs
               /\ (PrimFloat.eqb (scale_factor (plan s)) 1 = true ->
                   scale_evs = [])
               /\ (PrimFloat.eqb (scale_factor (plan s)) 1 = false ->
                   scale_settings scale_evs
                   = map (fun sl => (description_of sl ds,
                                     scale_factor (plan s))) all_slots)).
Proof.
  intros rocfft s dim lengths iotype nt desc workSize re_calc run.
  pose proof (make_plan_internal_sequence rocfft s dim lengths iotype nt desc
                workSize re_calc) as H.
  cbv zeta in H. fold run in H.
  destruct H as (evs1 & evs2 & evs3 & evs4 & _ & Ht & Hf1 & Hf2 & Hf3 & Hf4
                 & H).
  destruct (make_descriptions_frame rocfft dim lengths desc re_calc
              (Build_state (plan s) true (workSize_out s)
                           (trace s ++ first_setup rocfft s)))
    as [_ (evs1' & _ & _ & Hb1)].
  exists evs1, evs2, evs3, evs4.
  repeat (split; [assumption |]).
  destruct (make_descriptions rocfft dim lengths desc re_calc _).1
    as [r | ds0].
  - destruct H as (Hr & Hp & -> & -> & ->).
    destruct Hb1 as (c & a & _ & _ & _ & ->).
    split; [auto |]. left. auto.
  - destruct H as (ds & Hone & Hnot & Hatt). split.
    + intros ->. destruct (wanted iotype) as [| w ws] eqn:E.
      * contradiction (wanted_not_empty iotype).
      * cbn [map] in Hatt. exfalso.
        apply (attempted_not_empty _ _ _ Hatt). reflexivity.
    + right. exists ds. split; [exact Hatt |].
      split; [apply Hone | apply Hnot].
Qed.

(** ** The scale factor *)

(** A scale factor of 1.0 is never handed to the backend.  Any other scale
    factor of the plan is handed to four descriptions, and these are the
    descriptions that the plans are then asked for with, each slot with
    its own; when a layout setting is refused before that, no scale factor
    is set and no plan is asked for.  Every scale factor is set before
    the first plan is asked for: the calls of the run split into a
    first part without any plan creation and a second part without any
    scale factor. *)
Theorem scale_factor_handed_over :
  forall (rocfft : backend) (s : state) (dim : Z) (lengths : list Z)
         (iotype : hipfftIOType.t) (nt : Z)
         (desc : option hipfft_plan_description_t) (workSize : pointer)
         (re_calc : bool),
    let run := hipfftMakePlan_internal rocfft dim lengths iotype nt desc
                 workSize re_calc s in
    let f := scale_factor (plan s) in
    exists evs : list event,
      trace run.2 = trace s ++ evs
      /\ (PrimFloat.eqb f 1 = true -> scale_settings evs = [])
      /\ (plan_creations evs = [] -> scale_settings evs = [])
      /\ (PrimFloat.eqb f 1 = false -> plan_creations evs <> [] ->
          exists ds : descriptions,
            scale_settings evs
            = map (fun sl => (description_of sl ds, f)) all_slots
            /\ plan_creations evs
               = map (creation_call iotype dim lengths nt ds)
                     (wanted iotype))
      /\ exists before after : list event,
           evs = before ++ after
           /\ plan_creations before = []
           /\ scale_settings after = []
           /\ scale_settings before = scale_settings evs
           /\ plan_creations after = plan_creations evs.
Proof.
  intros rocfft s dim lengths iotype nt desc workSize re_calc run f.
  pose proof (make_plan_internal_sequence rocfft s dim lengths iotype nt desc
                workSize re_calc) as H.
  cbv zeta in H. fold run in H. fold f in H.
  destruct H as (evs1 & evs2 & evs3 & evs4 & _ & Ht & Hf1 & Hf2 & Hf3 & Hf4
                 & H).
  assert (H0 : plan_creations (first_setup rocfft s) = []
               /\ scale_settings (first_setup rocfft s) = []).
  { unfold first_setup. destruct (rocfft_initialized s); split; reflexivity. }
  destruct H0 as [Hc0 Hs0].
  assert (Hc1 : plan_creations evs1 = []).
  { apply plan_creations_none.
    eapply (Forall_class is_layout_phase_call); [by_class | exact Hf1]. }
  assert (Hs1 : scale_settings evs1 = []).
  { apply scale_settings_none.
    eapply (Forall_class is_layout_phase_call); [by_class | exact Hf1]. }
  assert (Hc2 : plan_creations evs2 = []).
  { apply plan_creations_none.
    eapply (Forall_class is_scale_phase_call); [by_class | exact Hf2]. }
  assert (Hs3 : scale_settings evs3 = []).
  { apply scale_settings_none.
    eapply (Forall_class is_creation_phase_call); [by_class | exact Hf3]. }
  assert (Hc4 : plan_creations evs4 = []).
  { apply plan_creations_none.
    eapply (Forall_class is_finish_phase_call); [by_class | exact Hf4]. }
  assert (Hs4 : scale_settings evs4 = []).
  { apply scale_settings_none.
    eapply (Forall_class is_finish_phase_call); [by_class | exact Hf4]. }
  assert (Hs : scale_settings
                 (first_setup rocfft s ++ evs1 ++ evs2 ++ evs3 ++ evs4)
               = scale_settings evs2).
  { rewrite !scale_settings_app, Hs0, Hs1, Hs3, Hs4, !app_nil_r.
    reflexivity. }
  assert (Hc : plan_creations
                 (first_setup rocfft s ++ evs1 ++ evs2 ++ evs3 ++ evs4)
               = plan_creations evs3).
  { rewrite !plan_creations_app, Hc0, Hc1, Hc2, Hc4, !app_nil_r.
    reflexivity. }
  exists (first_setup rocfft s ++ evs1 ++ evs2 ++ evs3 ++ evs4).
  split; [exact Ht |]. rewrite Hs, Hc.
  assert (Hsplit : exists before after : list event,
             first_setup rocfft s ++ evs1 ++ evs2 ++ evs3 ++ evs4
             = before ++ after
             /\ plan_creations before = []
             /\ scale_settings after = []
             /\ scale_settings before = scale_settings evs2
             /\ plan_creations after = plan_creations evs3).
  { exists (first_setup rocfft s ++ evs1 ++ evs2), (evs3 ++ evs4).
    rewrite <- !app_assoc.
    rewrite !plan_creations_app, !scale_settings_app.
    rewrite Hc0, Hc1, Hc2, Hs0, Hs1, Hs3, Hs4, Hc4, !app_nil_r.
    auto. }
  destruct (make_descriptions rocfft dim lengths desc re_calc _).1
    as [r | ds0].
  - destruct H as (_ & _ & -> & -> & ->).
    split; [auto |]. split; [auto |].
    split; [intros _ Hn; contradiction |]. exact Hsplit.
  - destruct H as (ds & Hone & Hnot & Hatt).
    apply attempted_creations in Hatt; [| apply creation_calls_create].
    split; [intros E; destruct (Hone E) as [_ ->]; reflexivity |].
    split.
    { intros E. rewrite Hatt in E. apply map_eq_nil in E.
      contradiction (wanted_not_empty iotype). }
    split; [| exact Hsplit].
    intros E _. exists ds. split; [apply Hnot; exact E | exact Hatt].
Qed.

(** A plan object with the scale factor 2.0. *)
Definition scaled_plan : state :=
  after [hipfftCreate accepting; hipfftExtPlanScaleFactor 2%float] fresh_state.

Lemma scale_factor_handed_over_witness :
  exists (evs : list event) (ds : descriptions),
    trace (hipfftMakePlan_internal accepting 1 [8]
             (hipfftIOType.Build HIP_R_32F HIP_C_32F) 1 None nullptr false
             scaled_plan).2
    = trace scaled_plan ++ evs
    /\ scale_settings evs
       = map (fun sl => (description_of sl ds, 2%float)) all_slots.
Proof.
  destruct (scale_factor_handed_over accepting scaled_plan 1 [8]
              (hipfftIOType.Build HIP_R_32F HIP_C_32F) 1 None nullptr false)
    as (evs & Ht & _ & _ & H & _).
  destruct H as (ds & Hs & _).
  - reflexivity.
  - vm_compute in Ht. injection Ht as <-. discriminate.
  - exists evs, ds. split; [exact Ht | exact Hs].
Defined.

(** ** The layouts and the plans of a run *)

(** The calls of [hipfftMakePlan_internal] up to the end of the layouts
    ([evs1], the calls of [make_descriptions]) and after them ([rest]).
    A refused layout setting is the last call of the run, which then
    gives [HIPFFT_INVALID_VALUE]; otherwise one plan is asked for per
    wanted pair, each with the description of its slot: the one that
    [make_descriptions] gave for the slot, unless that one is null and a
    scale factor is to be set. *)
Lemma make_plan_internal_layouts (rocfft : backend) (s : state)
    (dim : Z) (lengths : list Z) (iotype : hipfftIOType.t) (nt : Z)
    (desc : option hipfft_plan_description_t) (workSize : pointer)
    (re_calc : bool) :
  let run := hipfftMakePlan_internal rocfft dim lengths iotype nt desc
               workSize re_calc s in
  let f := scale_factor (plan s) in
  let s0 := Build_state (plan s) true (workSize_out s)
                        (trace s ++ first_setup rocfft s) in
  let made := make_descriptions rocfft dim lengths desc re_calc s0 in
  exists evs1 rest : list event,
    trace made.2 = trace s0 ++ evs1
    /\ trace run.2 = trace s ++ first_setup rocfft s ++ evs1 ++ rest
    /\ Forall (fun e => is_data_layout e.1 = false) rest
    /\ match made.1 with
       | inl _ =>
           rest = [] /\ run.1 = HIPFFT_INVALID_VALUE
           /\ stopped is_data_layout (first_setup rocfft s ++ evs1)
           /\ plan_creations (first_setup rocfft s ++ evs1) = []
       | inr ds0 =>
           accepted is_data_layout (first_setup rocfft s ++ evs1 ++ rest)
           /\ exists ds : descriptions,
                plan_creations (first_setup rocfft s ++ evs1 ++ rest)
                = map (creation_call iotype dim lengths nt ds)
                      (wanted iotype)
                /\ forall sl,
                     PrimFloat.eqb f 1 = true
                     \/ is_null (description_of sl ds0) = false ->
                     description_of sl ds = description_of sl ds0
       end.
Proof.
  intros run f s0 made.
  pose proof (make_plan_internal_sequence rocfft s dim lengths iotype nt desc
                workSize re_calc) as H.
  cbv zeta in H. fold run in H. fold f in H. fold s0 in H. fold made in H.
  destruct H as (evs1 & evs2 & evs3 & evs4 & Htm & Ht & Hf1 & Hf2 & Hf3 & Hf4
                 & H).
  destruct (make_descriptions_checked rocfft dim lengths desc re_calc s0)
    as (evs1' & Htm' & Hchk).
  fold made in Htm', Hchk.
  rewrite Htm in Htm'. apply app_inv_head in Htm'. subst evs1'.
  destruct (make_descriptions_frame rocfft dim lengths desc re_calc s0)
    as [_ (evs1' & _ & _ & Hb1)].
  fold made in Hb1.
  assert (Hi : Forall (fun e => is_data_layout e.1 = false)
                      (first_setup rocfft s)).
  { unfold first_setup. destruct (rocfft_initialized s); repeat constructor. }
  assert (Hc0 : plan_creations (first_setup rocfft s) = []).
  { unfold first_setup. destruct (rocfft_initialized s); reflexivity. }
  assert (Hc1 : plan_creations evs1 = []).
  { apply plan_creations_none.
    eapply (Forall_class is_layout_phase_call); [by_class | exact Hf1]. }
  assert (Hc2 : plan_creations evs2 = []).
  { apply plan_creations_none.
    eapply (Forall_class is_scale_phase_call); [by_class | exact Hf2]. }
  assert (Hc4 : plan_creations evs4 = []).
  { apply plan_creations_none.
    eapply (Forall_class is_finish_phase_call); [by_class | exact Hf4]. }
  assert (Hrest : Forall (fun e => is_data_layout e.1 = false)
                         (evs2 ++ evs3 ++ evs4)).
  { repeat (apply Forall_app; split).
    - eapply (Forall_class is_scale_phase_call); [by_class | exact Hf2].
    - eapply (Forall_class is_creation_phase_call); [by_class | exact Hf3].
    - eapply (Forall_class is_finish_phase_call); [by_class | exact Hf4]. }
  exists evs1, (evs2 ++ evs3 ++ evs4).
  split; [exact Htm |]. split; [exact Ht |]. split; [exact Hrest |].
  destruct made.1 as [r | ds0].
  - destruct H as (Hr & _ & -> & -> & ->).
    destruct Hb1 as (c & a & _ & _ & _ & ->).
    split; [reflexivity |]. split; [exact Hr |].
    split; [apply stopped_app; [apply accepted_none; exact Hi | exact Hchk] |].
    rewrite plan_creations_app, Hc0, Hc1. reflexivity.
  - destruct H as (ds & Hone & Hnot & Hatt).
    apply attempted_creations in Hatt; [| apply creation_calls_create].
    split.
    { apply accepted_app; [apply accepted_none; exact Hi |].
      apply accepted_app; [exact Hchk | apply accepted_none; exact Hrest]. }
    exists ds.
    rewrite !plan_creations_app, Hc0, Hc1, Hc2, Hc4, app_nil_r.
    split; [exact Hatt |].
    intros sl [E | E].
    + destruct (Hone E) as [-> _]. reflexivity.
    + destruct (PrimFloat.eqb f 1) eqn:E1.
      * destruct (Hone eq_refl) as [-> _]. reflexivity.
      * apply (proj2 (Hnot eq_refl)). exact E.
Qed.

(** The place of the description of a slot among the four that
    [make_descriptions] creates (lines 379-384): [ip_forward_desc],
    [op_forward_desc], [ip_inverse_desc], [op_inverse_desc], in this
    order. *)
Definition slot_index (sl : slot) : nat :=
  match sl with
  | slot_ip_forward => 0
  | slot_op_forward => 1
  | slot_ip_inverse => 2
  | slot_op_inverse => 3
  end.

(** The layout setting of the claim for one wanted pair of a placement
    and a transform type: on the description of the slot of the pair,
    the distances of the claim for the placement of the pair.  [ds] lists
    the descriptions in the order of their creation. *)
Definition natural_setting (distance : Z -> Z) (k : transform_kind)
    (n : list Z) (ds : list pointer)
    (w : rocfft_result_placement * rocfft_transform_type)
  : pointer * Z * Z :=
  (nth (slot_index (slot_of w.1 w.2)) ds nullptr,
   distance (natural_distances k w.1 n).1,
   distance (natural_distances k w.1 n).2).

(** The natural layouts are one setting per wanted pair, in the order of
    the creation loop. *)
Lemma natural_layouts_wanted (distance : Z -> Z) (type : hipfftIOType.t)
    (n : list Z) (ds : list pointer) :
  natural_layouts distance (kind_of type) n ds
  = map (natural_setting distance (kind_of type) n ds) (wanted type).
Proof.
  unfold kind_of, wanted, hipfftIOType.transform_types.
  destruct (hipfftIOType.is_real_to_complex type);
    [| destruct (hipfftIOType.is_complex_to_real type)]; reflexivity.
Qed.

(** C3 (as amended): for every make-plan-many call with a rank from 1 to
    3, one non-negative length per dimension, no embedding, and arguments
    that pass the checks, the backend is told layouts, at least one, in
    the order of the natural layouts, whose distances are the products of
    the claim reduced modulo 2^64: all of them when all layout settings
    are accepted, and whenever the call returns [HIPFFT_SUCCESS].  The
    distances are the products themselves where the padded product is
    below 2^64.  The layouts are one per wanted pair of a placement and
    a transform type, in the order of the creation loop: the in-place
    distances of the claim on the description of the in-place slot of the
    direction, the out-of-place distances on that of the out-of-place
    slot.  A refused layout setting is the last backend call of the run,
    which gives [HIPFFT_INVALID_VALUE] without asking for any plan.  When
    no layout setting is refused, one plan is asked for per wanted pair,
    in the same order, with the placement and the transform type of the
    pair, and with the description that was given the layout of the
    pair, unless a scale factor other than 1.0 is to be set and the
    backend gave a null description for the slot. *)
Theorem make_plan_many_natural_distances (rocfft : backend) (s : state)
    (rank : Z) (n : list Z) (istride idist ostride odist : Z)
    (type : hipfftIOType.t) (batch : Z) (workSize : pointer) :
  1 <= rank <= 3 -> length n = Z.to_nat rank ->
  Forall (fun v => 0 <= v < 2 ^ 63) n ->
  0 <= istride -> 0 <= idist -> 0 <= ostride -> 0 <= odist -> 0 <= batch ->
  let run := hipfftMakePlanMany_internal rocfft rank n None istride idist
               None ostride odist type batch workSize s in
  exists evs : list event,
    let expected distance :=
      natural_layouts distance (kind_of type) n (created_descriptions evs) in
    trace run.2 = trace s ++ evs
    /\ layouts evs <> []
    /\ layouts evs `prefix_of` expected to_size_t
    /\ (Forall (fun e => is_data_layout e.1 = true -> ok e.2 = true) evs ->
        layouts evs = expected to_size_t)
    /\ (run.1 = HIPFFT_SUCCESS -> layouts evs = expected to_size_t)
    /\ (2 * (1 + List.last n 0 / 2) * product (removelast n) < size_t_modulus ->
        expected to_size_t = expected (fun d => d))
    /\ (forall distance,
          expected distance
          = map (natural_setting distance (kind_of type) n
                   (created_descriptions evs))
                (wanted type))
    /\ (stopped is_data_layout evs
        /\ run.1 = HIPFFT_INVALID_VALUE
        /\ plan_creations evs = []
        \/ accepted is_data_layout evs
           /\ exists ds : descriptions,
                plan_creations evs
                = map (creation_call type rank (reversed rank n)
                         (to_size_t batch) ds)
                      (wanted type)
                /\ forall sl : slot,
                     PrimFloat.eqb (scale_factor (plan s)) 1 = true
                     \/ nth (slot_index sl) (created_descriptions evs) nullptr
                        <> nullptr ->
                     description_of sl ds
                     = nth (slot_index sl) (created_descriptions evs)
                           nullptr).
Proof.
  intros Hrank Hlen Hn Hi1 Hi2 Ho1 Ho2 Hb run.
  assert (Hn0 : Forall (fun v => 0 <= v) n).
  { eapply Forall_impl; [exact Hn |]. simpl. intros; lia. }
  assert (Hne : n <> []).
  { intros ->. simpl in Hlen. lia. }
  set (desc := natural_description type rank (reversed rank n) idist odist).
  assert (Hrun : run
                 = hipfftMakePlan_internal rocfft rank (reversed rank n) type
                     (to_size_t batch) (Some desc) workSize true s).
  { subst run. apply make_plan_many_natural; auto; lia. }
  clearbody run. subst run.
  pose proof (make_plan_internal_layouts rocfft s rank (reversed rank n) type
                (to_size_t batch) (Some desc) workSize true) as H.
  cbv zeta in H.
  destruct H as (evs1 & rest & Htm & Ht & Hrest & H).
  pose proof (make_descriptions_natural rocfft
                (Build_state (plan s) true (workSize_out s)
                             (trace s ++ first_setup rocfft s))
                type rank n idist odist Hrank Hlen Hn) as Hmk.
  cbv zeta in Hmk. fold desc in Hmk.
  destruct Hmk as (evs_m & d0 & d1 & d2 & d3 & Htm' & Hcm & Hnem & Hpre
                   & Hfull & Hds).
  rewrite Htm in Htm'. apply app_inv_head in Htm'. subst evs_m.
  assert (Hfi : Forall (fun e : event => e.1 = rocfft_setup)
                       (first_setup rocfft s)).
  { unfold first_setup. destruct (rocfft_initialized s); repeat constructor. }
  destruct (setup_events _ Hfi) as [_ Hci].
  assert (Hlay : forall distance,
             layouts (first_setup rocfft s ++ evs1 ++ rest) = layouts evs1
             /\ natural_layouts distance (kind_of type) n
                  (created_descriptions (first_setup rocfft s ++ evs1 ++ rest))
                = natural_layouts distance (kind_of type) n [d0; d1; d2; d3]).
  { intros distance. apply natural_layouts_created; assumption. }
  assert (Hnth : forall sl,
             nth (slot_index sl)
                 (created_descriptions (first_setup rocfft s ++ evs1 ++ rest))
                 nullptr
             = description_of sl (d0, d1, d2, d3)).
  { intros sl. rewrite !created_descriptions_app, Hci, Hcm.
    destruct sl; reflexivity. }
  exists (first_setup rocfft s ++ evs1 ++ rest). cbv zeta.
  rewrite (proj1 (Hlay to_size_t)), (proj2 (Hlay to_size_t)).
  split; [exact Ht |]. split; [exact Hnem |]. split; [exact Hpre |].
  assert (Hexact :
            2 * (1 + List.last n 0 / 2) * product (removelast n)
            < size_t_modulus ->
            natural_layouts to_size_t (kind_of type) n [d0; d1; d2; d3]
            = natural_layouts (fun d => d) (kind_of type) n
                (created_descriptions (first_setup rocfft s ++ evs1 ++ rest))).
  { intros Hfit. rewrite (proj2 (Hlay (fun d => d))).
    apply natural_layouts_exact; assumption. }
  assert (Hwanted : forall distance,
             natural_layouts distance (kind_of type) n
               (created_descriptions (first_setup rocfft s ++ evs1 ++ rest))
             = map (natural_setting distance (kind_of type) n
                      (created_descriptions
                         (first_setup rocfft s ++ evs1 ++ rest)))
                   (wanted type))
    by (intros distance; apply natural_layouts_wanted).
  destruct (make_descriptions rocfft rank (reversed rank n) (Some desc) true
              _).1 as [r | ds0].
  - destruct H as (-> & Hr & Hstop & Hnone).
    rewrite app_nil_r in *.
    split.
    { intros Hall. contradiction (stopped_not_accepted _ _ Hstop). }
    split; [rewrite Hr; discriminate |].
    split; [exact Hexact |]. split; [exact Hwanted |].
    left. auto.
  - destruct H as (Hacc & ds & Hc & Hlink).
    rewrite (Hds ds0 eq_refl) in Hlink.
    split; [intros _; apply Hfull; eauto |].
    split; [intros _; apply Hfull; eauto |].
    split; [exact Hexact |]. split; [exact Hwanted |].
    right. split; [exact Hacc |]. exists ds. split; [exact Hc |].
    intros sl Hsl. rewrite Hnth. apply Hlink.
    destruct Hsl as [E | E]; [left; exact E | right].
    rewrite Hnth in E. unfold is_null. apply Z.eqb_neq. exact E.
Qed.

Lemma make_plan_many_natural_distances_witness :
  exists (evs : list event) (ds : descriptions),
    trace (hipfftMakePlanMany_internal accepting 2 [4; 8] None 1 0 None 1 0
             (hipfftIOType.Build HIP_R_32F HIP_C_32F) 1 nullptr
             (after [hipfftCreate accepting] fresh_state)).2
    = trace (after [hipfftCreate accepting] fresh_state) ++ evs
    /\ layouts evs
       = natural_layouts (fun d => d) real_to_complex [4; 8]
           (created_descriptions evs)
    /\ plan_creations evs
       = [rocfft_plan_create rocfft_placement_inplace
            rocfft_transform_type_real_forward rocfft_precision_single
            2 [8; 4] 1 (description_of slot_ip_forward ds);
          rocfft_plan_create rocfft_placement_notinplace
            rocfft_transform_type_real_forward rocfft_precision_single
            2 [8; 4] 1 (description_of slot_op_forward ds)]
    /\ description_of slot_ip_forward ds
       = nth 0 (created_descriptions evs) nullptr
    /\ description_of slot_op_forward ds
       = nth 1 (created_descriptions evs) nullptr.
Proof.
  destruct (make_plan_many_natural_distances accepting
              (after [hipfftCreate accepting] fresh_state) 2 [4; 8] 1 0 1 0
              (hipfftIOType.Build HIP_R_32F HIP_C_32F) 1 nullptr
              ltac:(lia) eq_refl ltac:(repeat constructor; lia)
              ltac:(lia) ltac:(lia) ltac:(lia) ltac:(lia) ltac:(lia))
    as (evs & Ht & _ & _ & _ & Hs & Hfit & _ & Hlink).
  destruct Hlink as [(_ & Hr & _) | (_ & ds & Hc & Hd)];
    [vm_compute in Hr; discriminate Hr |].
  exists evs, ds. split; [exact Ht |]. split.
  { change real_to_complex
      with (kind_of (hipfftIOType.Build HIP_R_32F HIP_C_32F)).
    rewrite <- Hfit by (vm_compute; reflexivity).
    apply Hs. vm_compute. reflexivity. }
  split; [exact Hc |].
  split; [apply (Hd slot_ip_forward) | apply (Hd slot_op_forward)];
    left; vm_compute; reflexivity.
Defined.

(** A two-dimensional complex-to-complex plan of 2^32 by 2^32 points,
    made through [hipfftMakePlanMany64] with no embedding. *)
Definition wrapping_plan : hipfftResult * state :=
  hipfftMakePlanMany64 accepting 2 [2 ^ 32; 2 ^ 32] None 1 0 None 1 0
    HIPFFT_C2C 1 nullptr (after [hipfftCreate accepting] fresh_state).

(** C3, counterexample to the claim as stated.  For 2^32 by 2^32 points
    the product of the lengths is 2^64, which [size_t] does not hold: the
    four layouts are set with distances 0, and the plan is made. *)
Lemma make_plan_many_distance_wraps :
  wrapping_plan.1 = HIPFFT_SUCCESS
  /\ layouts (trace wrapping_plan.2)
     = [(1002, 0, 0); (1003, 0, 0); (1004, 0, 0); (1005, 0, 0)]
  /\ natural_layouts (fun d => d) complex_to_complex [2 ^ 32; 2 ^ 32]
       (created_descriptions (trace wrapping_plan.2))
     = [(1002, 2 ^ 64, 2 ^ 64); (1003, 2 ^ 64, 2 ^ 64);
        (1004, 2 ^ 64, 2 ^ 64); (1005, 2 ^ 64, 2 ^ 64)]
  /\ layouts (trace wrapping_plan.2)
     <> natural_layouts (fun d => d) complex_to_complex [2 ^ 32; 2 ^ 32]
          (created_descriptions (trace wrapping_plan.2)).
Proof. vm_compute. repeat split. discriminate. Qed.

(** ** The plans that the simple entry points ask for *)

Lemma int_to_size_t (v : Z) : 0 <= v < 2 ^ 31 -> to_size_t v = v.
Proof. intros H. apply to_size_t_small. unfold size_t_modulus. lia. Qed.

(** With sizes that are not negative and a transform type among the six,
    the three entry points come to [hipfftMakePlan_internal] with the
    sizes in the order of the backend, fastest dimension first. *)
Lemma make_plan_nd_internal (rocfft : backend) (s : state)
    (nx ny nz batch : Z) (type : hipfftType) (iotype : hipfftIOType.t)
    (workSize : pointer) :
  0 <= nx < 2 ^ 31 -> 0 <= ny < 2 ^ 31 -> 0 <= nz < 2 ^ 31 ->
  0 <= batch < 2 ^ 31 ->
  hipfftIOType.init_type hipfftIOType.default type
  = (HIPFFT_SUCCESS, iotype) ->
  hipfftMakePlan1d rocfft nx type batch workSize s
  = hipfftMakePlan_internal rocfft 1 [nx] iotype batch None workSize false s
  /\ hipfftMakePlan2d rocfft nx ny type workSize s
     = hipfftMakePlan_internal rocfft 2 [ny; nx] iotype 1 None workSize
                               false s
  /\ hipfftMakePlan3d rocfft nx ny nz type workSize s
     = hipfftMakePlan_internal rocfft 3 [nz; ny; nx] iotype 1 None workSize
                               false s.
Proof.
  intros Hx Hy Hz Hb Hinit.
  unfold hipfftMakePlan1d, hipfftMakePlan2d, hipfftMakePlan3d, init_iotype.
  rewrite Hinit, !int_to_size_t by assumption.
  assert (Ex : (nx <? 0) = false) by (apply Z.ltb_ge; lia).
  assert (Ey : (ny <? 0) = false) by (apply Z.ltb_ge; lia).
  assert (Ez : (nz <? 0) = false) by (apply Z.ltb_ge; lia).
  assert (Eb : (batch <? 0) = false) by (apply Z.ltb_ge; lia).
  rewrite Ex, Ey, Ez, Eb. cbn [orb].
  run. cbn [hipfftResult_eqb]. run.
  split; [| split];
    match goal with
    | |- context [hipfftMakePlan_internal ?r ?d ?l ?t ?n ?de ?w ?re ?s] =>
        destruct (hipfftMakePlan_internal r d l t n de w re s)
    end; reflexivity.
Qed.

(** On a plan whose scale factor is 1.0, [hipfftMakePlan1d],
    [hipfftMakePlan2d] and [hipfftMakePlan3d] ask the backend for one plan
    per placement and direction of the transform type, whatever the
    backend answers: each with the precision of the type, the sizes in the
    order [nz], [ny], [nx] (the last argument of the call is the fastest
    dimension), a batch of 1 for two and three dimensions, and no
    description. *)
Theorem make_plan_nd_creations :
  forall (rocfft : backend) (s : state) (nx ny nz batch : Z)
         (type : hipfftType) (iotype : hipfftIOType.t) (workSize : pointer),
    0 <= nx < 2 ^ 31 -> 0 <= ny < 2 ^ 31 -> 0 <= nz < 2 ^ 31 ->
    0 <= batch < 2 ^ 31 ->
    hipfftIOType.init_type hipfftIOType.default type
    = (HIPFFT_SUCCESS, iotype) ->
    PrimFloat.eqb (scale_factor (plan s)) 1 = true ->
    let asked (run : hipfftResult * state) (dim : Z) (lengths : list Z)
              (number_of_transforms : Z) :=
      exists evs : list event,
        trace run.2 = trace s ++ evs
        /\ plan_creations evs
           = map (fun w => rocfft_plan_create w.1 w.2
                             (hipfftIOType.precision iotype) dim lengths
                             number_of_transforms nullptr)
                 (wanted iotype) in
    asked (hipfftMakePlan1d rocfft nx type batch workSize s) 1 [nx] batch
    /\ asked (hipfftMakePlan2d rocfft nx ny type workSize s) 2 [ny; nx] 1
    /\ asked (hipfftMakePlan3d rocfft nx ny nz type workSize s)
             3 [nz; ny; nx] 1.
Proof.
  intros rocfft s nx ny nz batch type iotype workSize Hx Hy Hz Hb Hinit Hf
    asked.
  destruct (make_plan_nd_internal rocfft s nx ny nz batch type iotype workSize
              Hx Hy Hz Hb Hinit) as (E1 & E2 & E3).
  assert (H : forall dim lengths nt,
             firstn (Z.to_nat dim) lengths = lengths ->
             asked (hipfftMakePlan_internal rocfft dim lengths iotype nt None
                                            workSize false s)
                   dim lengths nt).
  { intros dim lengths nt Hl. subst asked. cbv beta.
    destruct (make_plan_internal_descriptions rocfft s dim lengths iotype nt
                None workSize false) as (evs & Ht & H).
    exists evs. split; [exact Ht |].
    destruct H as [(_ & Hd & _) | (ds0 & ds & Hds0 & Hone & _ & Hc)];
      [contradiction Hd; reflexivity |].
    destruct (Hone Hf) as [-> _]. rewrite (Hds0 eq_refl) in Hc. unfold no_descriptions in Hc.
    rewrite Hc. apply map_ext. intros [placement t].
    unfold creation_call. rewrite Hl.
    destruct placement, (hipfftIOType.is_forward t) eqn:E;
      simpl; rewrite ?E; reflexivity. }
  rewrite E1, E2, E3.
  split; [| split]; apply H; reflexivity.
Qed.

Lemma make_plan_nd_creations_witness :
  exists evs : list event,
    trace (hipfftMakePlan3d accepting 4 8 16 HIPFFT_R2C nullptr
             (after [hipfftCreate accepting] fresh_state)).2
    = trace (after [hipfftCreate accepting] fresh_state) ++ evs
    /\ plan_creations evs
       = [rocfft_plan_create rocfft_placement_inplace
            rocfft_transform_type_real_forward rocfft_precision_single
            3 [16; 8; 4] 1 nullptr;
          rocfft_plan_create rocfft_placement_notinplace
            rocfft_transform_type_real_forward rocfft_precision_single
            3 [16; 8; 4] 1 nullptr].
Proof.
  apply (make_plan_nd_creations accepting
           (after [hipfftCreate accepting] fresh_state) 4 8 16 1 HIPFFT_R2C
           (hipfftIOType.Build HIP_R_32F HIP_C_32F) nullptr);
    first [lia | reflexivity].
Defined.

(** ** Sizing the work buffer *)

(** The sizes that the backend reported for plans, among some backend
    calls. *)
Definition reported_size (e : event) : option Z :=
  match e with
  | (rocfft_plan_get_work_buffer_size _, a) => Some (to_size_t (out a))
  | _ => None
  end.

Definition reported_sizes (evs : list event) : list Z :=
  omap reported_size evs.

Lemma reported_sizes_app (evs evs' : list event) :
  reported_sizes (evs ++ evs') = reported_sizes evs ++ reported_sizes evs'.
Proof. apply omap_app. Qed.

Lemma reported_sizes_none (evs : list event) :
  Forall (fun e => reported_size e = None) evs -> reported_sizes evs = [].
Proof.
  unfold reported_sizes.
  induction 1 as [| e evs He _ IH]; [reflexivity |].
  simpl. rewrite He. exact IH.
Qed.

Lemma record_nil (s : state) : record [] s = s.
Proof. destruct s. unfold record. simpl. rewrite app_nil_r. reflexivity. Qed.

Lemma record_app (evs evs' : list event) (s : state) :
  record evs' (record evs s) = record (evs ++ evs') s.
Proof. unfold record. simpl. rewrite app_assoc. reflexivity. Qed.

(** A computation that carries the running maximum of the reported sizes:
    it only asks for sizes, changes nothing else, and leaves early only
    with [HIPFFT_INVALID_VALUE]. *)
Definition sizing (m : Z -> M Z) : Prop :=
  forall (w : Z) (s : state),
    exists evs : list event,
      (m w s).2 = record evs s
      /\ Forall (fun e => is_work_size_query e.1 = true) evs
      /\ match (m w s).1 with
         | inr w' => w' = fold_left Z.max (reported_sizes evs) w
         | inl r => r = HIPFFT_INVALID_VALUE
         end.

Lemma sizing_ret : sizing ret.
Proof.
  intros w s. exists []. rewrite record_nil. repeat split. constructor.
Qed.

Lemma sizing_bind (f g : Z -> M Z) :
  sizing f -> sizing g -> sizing (fun w => bind (f w) g).
Proof.
  intros Hf Hg w s. unfold bind.
  destruct (Hf w s) as (evs1 & Hs1 & Hq1 & Hv1).
  destruct (f w s) as [[r | w1] s1]; cbn [fst snd] in *.
  - exists evs1. auto.
  - subst s1. destruct (Hg w1 (record evs1 s)) as (evs2 & Hs2 & Hq2 & Hv2).
    exists (evs1 ++ evs2). rewrite Hs2, record_app.
    split; [reflexivity |]. split; [apply Forall_app; auto |].
    destruct (g w1 (record evs1 s)).1; [exact Hv2 |].
    rewrite reported_sizes_app, fold_left_app, <- Hv1. exact Hv2.
Qed.

Lemma sizing_max (rocfft : backend) (sl : slot) :
  sizing (max_work_buffer_size rocfft sl).
Proof.
  intros w s.
  unfold max_work_buffer_size, ROC_FFT_CHECK_INVALID_VALUE, backend_call,
    bind, get_plan, ret, return_.
  cbn [fst snd plan].
  destruct (is_null (get_slot sl (plan s))).
  - exists []. rewrite record_nil. repeat split. constructor.
  - cbn [fst snd]. eexists [(_, _)].
    destruct (ok (rocfft (trace s) _)); cbn [fst snd];
      (split; [reflexivity |]); (split; [repeat constructor |]);
      reflexivity.
Qed.

Lemma compute_work_buffer_size_run (rocfft : backend)
    (iotype : hipfftIOType.t) (s : state) :
  exists evs : list event,
    (compute_work_buffer_size rocfft iotype s).2 = record evs s
    /\ Forall (fun e => is_work_size_query e.1 = true) evs
    /\ match (compute_work_buffer_size rocfft iotype s).1 with
       | inr w => w = fold_left Z.max (reported_sizes evs) 0
       | inl r => r = HIPFFT_INVALID_VALUE
       end.
Proof.
  assert (H : sizing
                (fun w =>
                   bind ((if negb (hipfftIOType.is_complex_to_real iotype)
                          then fun w =>
                                 bind (max_work_buffer_size rocfft
                                         slot_ip_forward w)
                                      (max_work_buffer_size rocfft
                                         slot_op_forward)
                          else ret) w)
                        (if negb (hipfftIOType.is_real_to_complex iotype)
                         then fun w =>
                                bind (max_work_buffer_size rocfft
                                        slot_ip_inverse w)
                                     (max_work_buffer_size rocfft
                                        slot_op_inverse)
                         else ret))).
  { apply sizing_bind;
      [destruct (negb (hipfftIOType.is_complex_to_real iotype))
      | destruct (negb (hipfftIOType.is_real_to_complex iotype))];
      first [apply sizing_ret | apply sizing_bind; apply sizing_max]. }
  specialize (H 0 s). unfold compute_work_buffer_size.
  destruct (negb (hipfftIOType.is_complex_to_real iotype)),
    (negb (hipfftIOType.is_real_to_complex iotype)); exact H.
Qed.

(** Every member of the plan other than the work buffer and its ownership
    flag is the same. *)
Definition same_but_buffer (p p' : hipfftHandle_t) : Prop :=
  set_workBuffer 0 (set_workBufferNeedsFree false p')
  = set_workBuffer 0 (set_workBufferNeedsFree false p).

#[export] Instance same_but_buffer_preorder : PreOrder same_but_buffer.
Proof.
  split.
  - intros p. reflexivity.
  - intros p q r H1 H2. unfold same_but_buffer in *. congruence.
Qed.

Lemma allocate_work_buffer_changes (rocfft : backend) (w : Z) :
  changes same_but_buffer eq (fun c => is_allocation_call c = true)
    (allocate_work_buffer rocfft w).
Proof.
  unfold allocate_work_buffer.
  repeat first [progress unfold when, ROC_FFT_CHECK_INVALID_VALUE
               | change_step
               | change_side
               | intros ?; reflexivity].
Qed.

Lemma allocate_work_buffer_failure (rocfft : backend) (w : Z) (s : state)
    (r : hipfftResult) :
  (allocate_work_buffer rocfft w s).1 = inl r -> r <> HIPFFT_SUCCESS.
Proof.
  unfold allocate_work_buffer. run.
  destruct ((0 <? w) && autoAllocate (plan s)); [| discriminate].
  destruct (negb (is_null (workBuffer (plan s)))
            && workBufferNeedsFree (plan s)); run.
  - destruct (ok (rocfft (trace s) _)); run; [| congruence].
    destruct (ok (rocfft _ (hipMalloc w))); run; [| congruence].
    destruct (ok (rocfft _ _)); run; congruence.
  - destruct (ok (rocfft _ (hipMalloc w))); run; [| congruence].
    destruct (ok (rocfft _ _)); run; congruence.
Qed.

(** Lines 716-726: the stores of the size and the destruction of the
    descriptions. *)
Definition finish_tail (rocfft : backend) (workSize : pointer)
    (ds : descriptions) (w : Z) : M hipfftResult :=
  store_workSize workSize w ;;
  modify_plan (set_workBufferSize w) ;;
  backend_call rocfft
    (rocfft_plan_description_destroy (description_of slot_ip_forward ds)) ;;
  backend_call rocfft
    (rocfft_plan_description_destroy (description_of slot_op_forward ds)) ;;
  backend_call rocfft
    (rocfft_plan_description_destroy (description_of slot_ip_inverse ds)) ;;
  backend_call rocfft
    (rocfft_plan_description_destroy (description_of slot_op_inverse ds)) ;;
  ret HIPFFT_SUCCESS.

(** The descriptions destroyed among some backend calls. *)
Definition destroyed_description (e : event) : option pointer :=
  match e with
  | (rocfft_plan_description_destroy d, _) => Some d
  | _ => None
  end.

Definition destroyed_descriptions (evs : list event) : list pointer :=
  omap destroyed_description evs.

Lemma finish_tail_run (rocfft : backend) (workSize : pointer)
    (ds : descriptions) (w : Z) (s : state) :
  exists evs : list event,
    finish_tail rocfft workSize ds w s
    = (inr HIPFFT_SUCCESS,
       record evs
         (Build_state (set_workBufferSize w (plan s)) (rocfft_initialized s)
                      (if is_null workSize then workSize_out s else w)
                      (trace s)))
    /\ Forall (fun e => is_description_destroy e.1 = true) evs
    /\ destroyed_descriptions evs = map (fun sl => description_of sl ds)
                                        all_slots.
Proof.
  unfold finish_tail, store_workSize, when, write_workSize.
  destruct (is_null workSize); cbn [negb]; run;
    rewrite <- !app_assoc; cbn [app];
    (eexists; split; [reflexivity |]);
    (split; [repeat constructor | reflexivity]).
Qed.

Lemma finish_plan_tail (rocfft : backend) (iotype : hipfftIOType.t)
    (workSize : pointer) (ds : descriptions) :
  finish_plan rocfft iotype workSize ds
  = (w <- compute_work_buffer_size rocfft iotype ;;
     allocate_work_buffer rocfft w ;;
     finish_tail rocfft workSize ds w).
Proof. reflexivity. Qed.

(** The end of [hipfftMakePlan_internal]: the size that is stored, in the
    plan and through [workSize], is the largest size that the backend
    reported; nothing is stored when a call is refused before. *)
Lemma finish_plan_run (rocfft : backend) (iotype : hipfftIOType.t)
    (workSize : pointer) (ds : descriptions) (s : state) :
  let run := finish_plan rocfft iotype workSize ds s in
  exists evs : list event,
    trace run.2 = trace s ++ evs
    /\ Forall (fun e => is_finish_phase_call e.1 = true) evs
    /\ match run.1 with
       | inr r =>
           r = HIPFFT_SUCCESS
           /\ workBufferSize (plan run.2)
              = fold_left Z.max (reported_sizes evs) 0
           /\ workSize_out run.2
              = (if is_null workSize then workSize_out s
                 else fold_left Z.max (reported_sizes evs) 0)
           /\ destroyed_descriptions evs
              = map (fun sl => description_of sl ds) all_slots
       | inl r =>
           r <> HIPFFT_SUCCESS
           /\ workBufferSize (plan run.2) = workBufferSize (plan s)
           /\ workSize_out run.2 = workSize_out s
           /\ destroyed_descriptions evs = []
       end.
Proof.
  intros run.
  assert (Hrun :
            run
            = match compute_work_buffer_size rocfft iotype s with
              | (inl r, s1) => (inl r, s1)
              | (inr w, s1) =>
                  match allocate_work_buffer rocfft w s1 with
                  | (inl r, s2) => (inl r, s2)
                  | (inr _, s2) => finish_tail rocfft workSize ds w s2
                  end
              end) by reflexivity.
  clearbody run.
  destruct (compute_work_buffer_size_run rocfft iotype s)
    as (evs1 & Hs1 & Hq1 & Hv1).
  assert (Hd1 : destroyed_descriptions evs1 = []).
  { clear -Hq1. induction Hq1 as [| [c a] evs Hc _ IH]; [reflexivity |].
    destruct c; try discriminate Hc. exact IH. }
  assert (Hf1 : Forall (fun e => is_finish_phase_call e.1 = true) evs1).
  { eapply (Forall_class is_work_size_query); [by_class | exact Hq1]. }
  destruct (compute_work_buffer_size rocfft iotype s) as [[r | w] s1];
    cbn [fst snd] in *; subst s1.
  { exists evs1. subst r run. cbn [fst snd].
    split; [reflexivity |]. split; [exact Hf1 |].
    split; [discriminate |]. split; [reflexivity |].
    split; [reflexivity | exact Hd1]. }
  destruct (allocate_work_buffer_changes rocfft w (record evs1 s))
    as [Hp2 Hw2 _ (evs2 & Ht2 & Hq2)].
  pose proof (allocate_work_buffer_failure rocfft w (record evs1 s)) as Hr2.
  assert (Hn2 : reported_sizes evs2 = [] /\ destroyed_descriptions evs2 = []).
  { clear -Hq2. induction Hq2 as [| [c a] evs Hc _ [IH1 IH2]];
      [split; reflexivity |].
    destruct c; try discriminate Hc; split; assumption. }
  destruct Hn2 as [Hn2 Hd2].
  assert (Hf2 : Forall (fun e => is_finish_phase_call e.1 = true) evs2).
  { eapply (Forall_class is_allocation_call); [by_class | exact Hq2]. }
  assert (Hsize : forall p q, same_but_buffer p q ->
                              workBufferSize q = workBufferSize p).
  { intros p q H. apply (f_equal workBufferSize) in H. exact H. }
  destruct (allocate_work_buffer rocfft w (record evs1 s)) as [[r | []] s2];
    cbn [fst snd record plan workSize_out trace] in *.
  { exists (evs1 ++ evs2). subst run. cbn [fst snd]. rewrite Ht2, app_assoc.
    split; [reflexivity |]. split; [apply Forall_app; auto |].
    split; [apply Hr2; reflexivity |].
    split; [apply Hsize; exact Hp2 |]. split; [congruence |].
    unfold destroyed_descriptions in *. rewrite omap_app, Hd1, Hd2.
    reflexivity. }
  destruct (finish_tail_run rocfft workSize ds w s2)
    as (evs3 & Hrun3 & Hq3 & Hd3).
  assert (Hn3 : reported_sizes evs3 = []).
  { clear -Hq3. induction Hq3 as [| [c a] evs Hc _ IH]; [reflexivity |].
    destruct c; try discriminate Hc. exact IH. }
  assert (Hf3 : Forall (fun e => is_finish_phase_call e.1 = true) evs3).
  { eapply (Forall_class is_description_destroy); [by_class | exact Hq3]. }
  rewrite Hrun3 in Hrun. subst run.
  cbn [fst snd record plan workSize_out trace].
  exists (evs1 ++ evs2 ++ evs3). rewrite Ht2, <- !app_assoc.
  split; [reflexivity |]. split; [repeat (apply Forall_app; split); auto |].
  rewrite !reported_sizes_app, Hn2, Hn3, !app_nil_r, <- Hv1.
  split; [reflexivity |]. split; [reflexivity |].
  split; [rewrite <- Hw2; reflexivity |].
  unfold destroyed_descriptions in *. rewrite !omap_app, Hd1, Hd2. exact Hd3.
Qed.

Lemma same_but_slots_workBufferSize (p q : hipfftHandle_t) :
  same_but_slots p q -> workBufferSize q = workBufferSize p.
Proof. intros H. apply (f_equal workBufferSize) in H. exact H. Qed.

(** A fact about every call, where it holds of the calls outside the last
    phase. *)
Ltac by_calls H :=
  eapply Forall_impl; [exact H |];
  let c := fresh "c" in
  let a := fresh "a" in
  intros [c a]; destruct c; cbv -[to_size_t]; congruence.

(** The size of the work buffer is the largest size that the backend
    reports for a plan of the call (0 if it reports none).  A call of
    [hipfftMakePlan_internal] that returns [HIPFFT_SUCCESS] has stored it
    in the plan, where [hipfftGetSize] reads it, and through a [workSize]
    that is not null; a call that returns anything else has stored
    nothing, neither in the plan nor through [workSize]. *)
Theorem work_size_stored :
  forall (rocfft : backend) (s : state) (dim : Z) (lengths : list Z)
         (iotype : hipfftIOType.t) (nt : Z)
         (desc : option hipfft_plan_description_t) (workSize : pointer)
         (re_calc : bool),
    let run := hipfftMakePlan_internal rocfft dim lengths iotype nt desc
                 workSize re_calc s in
    exists evs : list event,
      trace run.2 = trace s ++ evs
      /\ (run.1 = HIPFFT_SUCCESS ->
          let size := fold_left Z.max (reported_sizes evs) 0 in
          workBufferSize (plan run.2) = size
          /\ workSize_out run.2
             = (if is_null workSize then workSize_out s else size)
          /\ (hipfftGetSize run.2).1 = HIPFFT_SUCCESS
          /\ workSize_out (hipfftGetSize run.2).2 = size)
      /\ (run.1 <> HIPFFT_SUCCESS ->
          workBufferSize (plan run.2) = workBufferSize (plan s)
          /\ workSize_out run.2 = workSize_out s).
Proof.
  intros rocfft s dim lengths iotype nt desc workSize re_calc run.
  destruct (make_plan_internal_anatomy rocfft s dim lengths iotype nt desc
              workSize re_calc) as (evs & Hn & H).
  fold run in H.
  assert (Hr0 : reported_sizes evs = []).
  { apply reported_sizes_none. by_calls Hn. }
  destruct H as [(Hr & _ & Ht & Hp & Hw & _)
                | (ds0 & ds & s3 & _ & _ & _ & _ & Ht & Hw & Hp & _ & H)].
  { exists evs. split; [exact Ht |]. split.
    - intros E. rewrite Hr in E. discriminate E.
    - intros _. rewrite Hp. auto. }
  destruct H as [H | H].
  { exists evs. rewrite H. cbn [fst snd]. split; [exact Ht |]. split.
    - intros E. discriminate E.
    - intros _. split; [apply same_but_slots_workBufferSize; exact Hp |].
      exact Hw. }
  set (s3' := with_plan (set_type iotype (plan s3)) s3) in *.
  destruct (finish_plan_run rocfft iotype workSize ds s3')
    as (evs4 & Ht4 & _ & Hv).
  assert (Hbody : run.1 = match (finish_plan rocfft iotype workSize ds s3').1
                          with inl r => r | inr r => r end
                  /\ run.2 = (finish_plan rocfft iotype workSize ds s3').2).
  { rewrite H. unfold body.
    destruct (finish_plan rocfft iotype workSize ds s3') as [[r | r] s4];
      split; reflexivity. }
  destruct Hbody as [Hb1 Hb2]. rewrite Hb1, Hb2.
  exists (evs ++ evs4). rewrite Ht4. subst s3'. cbn [with_plan trace].
  rewrite Ht, <- app_assoc. split; [reflexivity |].
  rewrite reported_sizes_app, Hr0. cbn [app].
  destruct (finish_plan rocfft iotype workSize ds _).1 as [r | r].
  - destruct Hv as (Hr & Hsize & Hout & _).
    cbn [with_plan plan workSize_out] in Hsize, Hout. split.
    + intros E. contradiction.
    + intros _. rewrite Hsize, Hout. split; [| exact Hw].
      rewrite <- (same_but_slots_workBufferSize _ _ Hp). reflexivity.
  - destruct Hv as (-> & Hsize & Hout & _).
    cbn [with_plan plan workSize_out] in Hsize, Hout. split.
    + intros _. cbv zeta. rewrite Hsize, Hout, Hw.
      split; [reflexivity |]. split; [reflexivity |].
      split; [reflexivity |]. unfold hipfftGetSize. run. exact Hsize.
    + intros E. contradiction E. reflexivity.
Qed.



(** What [body] makes of a run. *)
Lemma body_run (m : M hipfftResult) (s : state) :
  (body m s).1 = match (m s).1 with inl r => r | inr r => r end
  /\ (body m s).2 = (m s).2.
Proof. unfold body. destruct (m s) as [[r | r] s']; split; reflexivity. Qed.


(** ** Automatic allocation *)

Lemma allocate_work_buffer_off (rocfft : backend) (w : Z) (s : state) :
  autoAllocate (plan s) = false ->
  allocate_work_buffer rocfft w s = (inr tt, s).
Proof.
  intros H. unfold allocate_work_buffer, bind, get_plan, when.
  cbn [fst snd]. rewrite H, andb_false_r. reflexivity.
Qed.

(** Every member of the plan other than the transform type, the four
    slots and the size of the work buffer is the same. *)
Definition keeps_work_area (p p' : hipfftHandle_t) : Prop :=
  workBuffer p' = workBuffer p
  /\ workBufferNeedsFree p' = workBufferNeedsFree p
  /\ autoAllocate p' = autoAllocate p
  /\ info p' = info p.

Lemma same_but_slots_work_area (p q : hipfftHandle_t) :
  same_but_slots p q -> keeps_work_area p q.
Proof.
  intros H. repeat split.
  - apply (f_equal workBuffer) in H. exact H.
  - apply (f_equal workBufferNeedsFree) in H. exact H.
  - apply (f_equal autoAllocate) in H. exact H.
  - apply (f_equal info) in H. exact H.
Qed.

Lemma finish_plan_off (rocfft : backend) (iotype : hipfftIOType.t)
    (workSize : pointer) (ds : descriptions) (s : state) :
  autoAllocate (plan s) = false ->
  let run := finish_plan rocfft iotype workSize ds s in
  exists evs : list event,
    trace run.2 = trace s ++ evs
    /\ Forall (fun e => is_allocation_call e.1 = false) evs
    /\ keeps_work_area (plan s) (plan run.2).
Proof.
  intros Hoff run.
  assert (Hrun :
            run
            = match compute_work_buffer_size rocfft iotype s with
              | (inl r, s1) => (inl r, s1)
              | (inr w, s1) =>
                  match allocate_work_buffer rocfft w s1 with
                  | (inl r, s2) => (inl r, s2)
                  | (inr _, s2) => finish_tail rocfft workSize ds w s2
                  end
              end) by reflexivity.
  clearbody run.
  destruct (compute_work_buffer_size_run rocfft iotype s)
    as (evs1 & Hs1 & Hq1 & _).
  assert (Hf1 : Forall (fun e => is_allocation_call e.1 = false) evs1).
  { eapply (Forall_class is_work_size_query); [by_class | exact Hq1]. }
  destruct (compute_work_buffer_size rocfft iotype s) as [[r | w] s1];
    cbn [fst snd] in *; subst s1.
  { exists evs1. subst run. repeat split; auto. }
  rewrite allocate_work_buffer_off in Hrun by exact Hoff.
  destruct (finish_tail_run rocfft workSize ds w (record evs1 s))
    as (evs3 & Hrun3 & Hq3 & _).
  assert (Hf3 : Forall (fun e => is_allocation_call e.1 = false) evs3).
  { eapply (Forall_class is_description_destroy); [by_class | exact Hq3]. }
  rewrite Hrun3 in Hrun. subst run.
  exists (evs1 ++ evs3). cbn [fst snd record trace plan].
  rewrite <- app_assoc. split; [reflexivity |].
  split; [apply Forall_app; auto |]. repeat split.
Qed.

(** With automatic allocation switched off ([hipfftSetAutoAllocation]
    with 0), [hipfftMakePlan_internal] allocates, frees and binds no work
    buffer, whatever size the backend reports: the work buffer of the
    plan, its ownership flag and the execution info are as before, and
    binding a buffer is left to [hipfftSetWorkArea]. *)
Theorem no_automatic_allocation :
  forall (rocfft : backend) (s0 : state) (dim : Z) (lengths : list Z)
         (iotype : hipfftIOType.t) (nt : Z)
         (desc : option hipfft_plan_description_t) (workSize : pointer)
         (re_calc : bool),
    let s := (hipfftSetAutoAllocation handle_plan 0 s0).2 in
    let run := hipfftMakePlan_internal rocfft dim lengths iotype nt desc
                 workSize re_calc s in
    autoAllocate (plan s) = false
    /\ exists evs : list event,
         trace run.2 = trace s0 ++ evs
         /\ Forall (fun e => is_allocation_call e.1 = false) evs
         /\ workBuffer (plan run.2) = workBuffer (plan s0)
         /\ workBufferNeedsFree (plan run.2) = workBufferNeedsFree (plan s0)
         /\ autoAllocate (plan run.2) = false.
Proof.
  intros rocfft s0 dim lengths iotype nt desc workSize re_calc s run.
  assert (Hoff : autoAllocate (plan s) = false) by reflexivity.
  assert (Hs : trace s = trace s0
               /\ workBuffer (plan s) = workBuffer (plan s0)
               /\ workBufferNeedsFree (plan s)
                  = workBufferNeedsFree (plan s0)) by (repeat split).
  destruct Hs as (Hts & Hbs & Hns). split; [exact Hoff |].
  rewrite <- Hts, <- Hbs, <- Hns. clearbody s.
  destruct (make_plan_internal_anatomy rocfft s dim lengths iotype nt desc
              workSize re_calc) as (evs & Hn & H).
  fold run in H.
  assert (Ha0 : Forall (fun e => is_allocation_call e.1 = false) evs)
    by (by_calls Hn).
  destruct H as [(_ & _ & Ht & Hp & _)
                | (ds0 & ds & s3 & _ & _ & _ & _ & Ht & _ & Hp & _ & H)].
  { exists evs. rewrite Hp. auto. }
  apply same_but_slots_work_area in Hp. destruct Hp as (Hb & Hf & Ha & _).
  destruct H as [H | H].
  { exists evs. rewrite H. cbn [fst snd]. rewrite Hb, Hf, Ha. auto. }
  set (s3' := with_plan (set_type iotype (plan s3)) s3) in *.
  assert (Hoff' : autoAllocate (plan s3') = false)
    by (subst s3'; simpl; congruence).
  destruct (finish_plan_off rocfft iotype workSize ds s3' Hoff')
    as (evs4 & Ht4 & Hf4 & Hb4 & Hn4 & Ha4 & _).
  destruct (body_run (finish_plan rocfft iotype workSize ds) s3')
    as [_ Hb2].
  rewrite <- H in Hb2. rewrite Hb2.
  exists (evs ++ evs4). rewrite Ht4, Hb4, Hn4, Ha4. subst s3'.
  cbn [with_plan trace plan]. rewrite Ht, <- app_assoc.
  split; [reflexivity |]. split; [apply Forall_app; auto |].
  cbn. rewrite Hb, Hf, Ha. auto.
Qed.

(** ** Executing a plan *)

Lemma exec_outcome (rocfft : backend) (rplan rinfo idata odata : pointer)
    (s : state) :
  hipfftExec rocfft rplan rinfo idata odata s
  = if is_null rplan || is_null idata || is_null odata
    then (HIPFFT_EXEC_FAILED, s)
    else
      let c := rocfft_execute rplan idata odata rinfo in
      (if ok (rocfft (trace s) c) then HIPFFT_SUCCESS
       else HIPFFT_EXEC_FAILED,
       record [(c, rocfft (trace s) c)] s).
Proof.
  unfold hipfftExec. run.
  destruct (is_null rplan); [reflexivity |].
  destruct (is_null idata); [reflexivity |].
  destruct (is_null odata); reflexivity.
Qed.

(** The execute entry points of hipfft.h come to one backend call.
    [hipfftExecC2C] with the slot of the direction and of the placement
    (in place when the two buffers are the same) empty, or with a null
    buffer, returns [HIPFFT_EXEC_FAILED] and does nothing; otherwise it
    issues one [rocfft_execute] on the plan of that slot with the two
    buffers and the execution info of the plan object, and returns
    [HIPFFT_SUCCESS] or [HIPFFT_EXEC_FAILED] as the backend accepts or
    refuses it.  The plan object is never changed.  None of the typed
    entry points looks at the transform type of the plan:
    [hipfftExecR2C] and [hipfftExecD2Z] are [hipfftExecC2C] forward,
    [hipfftExecC2R] and [hipfftExecZ2D] are [hipfftExecC2C] backward, and
    [hipfftExecZ2Z] is [hipfftExecC2C]. *)
Theorem exec_is_one_backend_call :
  forall (rocfft : backend) (s : state) (idata odata : pointer)
         (direction : Z),
    let run := hipfftExecC2C rocfft idata odata direction s in
    let rplan := get_exec_plan (plan s) (idata =? odata) direction in
    let c := rocfft_execute rplan idata odata (info (plan s)) in
    (is_null rplan || is_null idata || is_null odata = true ->
     run = (HIPFFT_EXEC_FAILED, s))
    /\ (is_null rplan || is_null idata || is_null odata = false ->
        run = (if ok (rocfft (trace s) c) then HIPFFT_SUCCESS
               else HIPFFT_EXEC_FAILED,
               record [(c, rocfft (trace s) c)] s))
    /\ plan run.2 = plan s
    /\ hipfftExecR2C rocfft idata odata s
       = hipfftExecC2C rocfft idata odata HIPFFT_FORWARD s
    /\ hipfftExecD2Z rocfft idata odata s
       = hipfftExecC2C rocfft idata odata HIPFFT_FORWARD s
    /\ hipfftExecC2R rocfft idata odata s
       = hipfftExecC2C rocfft idata odata HIPFFT_BACKWARD s
    /\ hipfftExecZ2D rocfft idata odata s
       = hipfftExecC2C rocfft idata odata HIPFFT_BACKWARD s
    /\ hipfftExecZ2Z rocfft idata odata direction s = run.
Proof.
  intros rocfft s idata odata direction run rplan c.
  assert (Hrun : run = hipfftExec rocfft rplan (info (plan s)) idata odata s).
  { subst run rplan. rewrite exec_c2c_cases. unfold get_exec_plan.
    destruct (direction =? HIPFFT_FORWARD) eqn:Ef.
    - rewrite exec_forward_is_exec. unfold get_exec_plan. reflexivity.
    - destruct (direction =? HIPFFT_BACKWARD) eqn:Eb.
      + rewrite exec_backward_is_exec. unfold get_exec_plan. reflexivity.
      + symmetry. apply exec_null_plan. }
  rewrite exec_outcome in Hrun. fold c in Hrun.
  split; [intros E; rewrite E in Hrun; exact Hrun |].
  split; [intros E; rewrite E in Hrun; exact Hrun |].
  split; [rewrite Hrun; destruct (_ || _); reflexivity |].
  assert (Hf : hipfftExecC2C rocfft idata odata HIPFFT_FORWARD s
               = hipfftExecForward rocfft idata odata s)
    by (rewrite exec_c2c_cases; reflexivity).
  assert (Hb : hipfftExecC2C rocfft idata odata HIPFFT_BACKWARD s
               = hipfftExecBackward rocfft idata odata s)
    by (rewrite exec_c2c_cases; reflexivity).
  rewrite Hf, Hb.
  split; [reflexivity |]. split; [reflexivity |].
  split; [reflexivity |]. split; [reflexivity |].
  apply exec_z2z_is_c2c.
Qed.

Lemma exec_is_one_backend_call_witness :
  hipfftExecC2C accepting 4096 4096 HIPFFT_BACKWARD c2r_plan
  = (HIPFFT_SUCCESS,
     record [(rocfft_execute 1002 4096 4096 1000,
              {| ok := true; out := 1012 |})] c2r_plan).
Proof.
  destruct (exec_is_one_backend_call accepting c2r_plan 4096 4096
              HIPFFT_BACKWARD) as (_ & H & _).
  exact (H eq_refl).
Defined.

(** ** A plan object that no plan was made on *)

(** [hipfftCreate] issues one backend call, the creation of the execution
    info.  When the backend refuses it the result is
    [HIPFFT_INVALID_VALUE] and the caller's handle is as before.  When the
    backend accepts it the handle designates a new plan object with that
    execution info, the scale factor 1.0, automatic allocation on, no work
    buffer, no callbacks and four empty slots: until a plan is made on
    it, every execute entry point fails on it without a backend call,
    those of hipfft.h with [HIPFFT_EXEC_FAILED] and [hipfftXtExec] with
    [HIPFFT_INTERNAL_ERROR], and [hipfftGetSize] reports the size 0. *)
Theorem create_gives_empty_plan :
  forall (rocfft : backend) (s : state) (idata odata : pointer)
         (direction : Z),
    let a := rocfft (trace s) rocfft_execution_info_create in
    let run := hipfftCreate rocfft s in
    trace run.2 = trace s ++ [(rocfft_execution_info_create, a)]
    /\ (ok a = false ->
        run.1 = HIPFFT_INVALID_VALUE /\ plan run.2 = plan s)
    /\ (ok a = true ->
        run.1 = HIPFFT_SUCCESS
        /\ plan run.2 = set_info (out a) new_hipfftHandle_t
        /\ hipfftExecC2C rocfft idata odata direction run.2
           = (HIPFFT_EXEC_FAILED, run.2)
        /\ hipfftXtExec rocfft idata odata direction run.2
           = (HIPFFT_INTERNAL_ERROR, run.2)
        /\ workSize_out (hipfftGetSize run.2).2 = 0).
Proof.
  intros rocfft s idata odata direction a run.
  subst run. unfold hipfftCreate. run. fold a.
  destruct (ok a); run.
  - split; [reflexivity |]. split; [discriminate |]. intros _.
    split; [reflexivity |]. split; [reflexivity |].
    split; [| split; [| reflexivity]].
    + rewrite exec_c2c_cases, exec_forward_is_exec, exec_backward_is_exec.
      unfold get_exec_plan.
      destruct (direction =? HIPFFT_FORWARD), (direction =? HIPFFT_BACKWARD),
        (idata =? odata); reflexivity.
    + unfold hipfftXtExec, hipfftXtExec_plan_ptr. run.
      cbn [type ip_forward op_forward ip_inverse op_inverse set_info
           new_hipfftHandle_t]. cbn.
      destruct (direction =? HIPFFT_FORWARD), (direction =? HIPFFT_BACKWARD),
        (idata =? odata); reflexivity.
  - split; [reflexivity |]. split; [auto |]. discriminate.
Qed.

Lemma create_gives_empty_plan_witness :
  hipfftExecC2C accepting 4096 8192 HIPFFT_FORWARD
    (hipfftCreate accepting fresh_state).2
  = (HIPFFT_EXEC_FAILED, (hipfftCreate accepting fresh_state).2).
Proof.
  destruct (create_gives_empty_plan accepting fresh_state 4096 8192
              HIPFFT_FORWARD) as (_ & _ & H).
  destruct (H eq_refl) as (_ & _ & E & _). exact E.
Defined.

(** ** Destroying a plan *)

Definition is_hipFree (c : call) : bool :=
  match c with hipFree _ => true | _ => false end.

(** The backend calls that release what a plan object holds: the plans of
    the slots that are not empty, the work buffer if the plan owns it, and
    the execution info. *)
Definition slot_release (sl : slot) (p : hipfftHandle_t) : list call :=
  if is_null (get_slot sl p) then []
  else [rocfft_plan_destroy (get_slot sl p)].

Definition buffer_release (p : hipfftHandle_t) : list call :=
  if workBufferNeedsFree p then [hipFree (workBuffer p)] else [].

Definition destroy_calls (p : hipfftHandle_t) : list call :=
  slot_release slot_ip_forward p ++ slot_release slot_op_forward p
  ++ slot_release slot_ip_inverse p ++ slot_release slot_op_inverse p
  ++ buffer_release p ++ [rocfft_execution_info_destroy (info p)].

(** A computation that issues the calls [cs], in order, up to the first
    refused one other than [hipFree], at which it leaves with
    [HIPFFT_INVALID_VALUE]; it changes nothing but the trace. *)
Definition releases_at (rocfft : backend) (cs : list call) (m : M unit)
    (s : state) : Prop :=
  exists evs : list event,
    (m s).2 = record evs s
    /\ match (m s).1 with
       | inr _ =>
           map fst evs = cs
           /\ Forall (fun e => is_hipFree e.1 = false -> ok e.2 = true) evs
       | inl r =>
           r = HIPFFT_INVALID_VALUE
           /\ map fst evs `prefix_of` cs
           /\ exists evs' c a,
                evs = evs' ++ [(c, a)] /\ ok a = false
                /\ is_hipFree c = false
       end.

Lemma releases_bind (rocfft : backend) (cs1 cs2 : list call)
    (m1 m2 : M unit) (s : state) :
  releases_at rocfft cs1 m1 s ->
  (forall evs, releases_at rocfft cs2 m2 (record evs s)) ->
  releases_at rocfft (cs1 ++ cs2) (m1 ;; m2) s.
Proof.
  intros (evs1 & Hs1 & H1) H2. unfold releases_at, bind.
  destruct (m1 s) as [[r | []] s1]; cbn [fst snd] in *; subst s1.
  - exists evs1. split; [reflexivity |].
    destruct H1 as (-> & Hp & Hl). split; [reflexivity |].
    split; [| exact Hl]. apply prefix_app_r. exact Hp.
  - destruct H1 as [Hc1 Hok1]. subst cs1.
    destruct (H2 evs1) as (evs2 & Hs2 & H2').
    exists (evs1 ++ evs2). rewrite Hs2, record_app. split; [reflexivity |].
    destruct (m2 (record evs1 s)).1 as [r | []].
    + destruct H2' as (-> & Hp & evs' & c & a & -> & Hok & Hfree).
      split; [reflexivity |]. split.
      * rewrite List.map_app. apply prefix_app. exact Hp.
      * exists (evs1 ++ evs'), c, a. rewrite app_assoc. auto.
    + destruct H2' as [Hc2 Hok2]. subst cs2. split.
      * apply List.map_app.
      * apply Forall_app. auto.
Qed.

Lemma releases_slot (rocfft : backend) (sl : slot) (s : state) :
  releases_at rocfft (slot_release sl (plan s)) (destroy_slot rocfft sl) s.
Proof.
  unfold releases_at, destroy_slot, slot_release, when,
    ROC_FFT_CHECK_INVALID_VALUE, backend_call, bind, get_plan, ret, return_.
  cbn [fst snd plan].
  destruct (is_null (get_slot sl (plan s))); cbn [negb fst snd].
  - exists []. rewrite record_nil. repeat split. constructor.
  - set (c := rocfft_plan_destroy (get_slot sl (plan s))).
    exists [(c, rocfft (trace s) c)].
    destruct (ok (rocfft (trace s) c)) eqn:E; cbn [fst snd].
    + split; [reflexivity |]. split; [reflexivity |].
      constructor; [auto | constructor].
    + split; [reflexivity |]. split; [reflexivity |].
      split; [reflexivity |]. exists [], c, (rocfft (trace s) c). auto.
Qed.

Lemma releases_buffer (rocfft : backend) (p : hipfftHandle_t) (s : state) :
  releases_at rocfft (buffer_release p)
    (when (workBufferNeedsFree p)
       (backend_call rocfft (hipFree (workBuffer p)) ;; ret tt)) s.
Proof.
  unfold releases_at, buffer_release, when, backend_call, bind, ret.
  destruct (workBufferNeedsFree p); cbn [fst snd].
  - eexists [(_, _)]. split; [reflexivity |]. split; [reflexivity |].
    constructor; [| constructor]. discriminate.
  - exists []. rewrite record_nil. repeat split. constructor.
Qed.

Lemma releases_info (rocfft : backend) (i : pointer) (s : state) :
  releases_at rocfft [rocfft_execution_info_destroy i]
    (ROC_FFT_CHECK_INVALID_VALUE rocfft (rocfft_execution_info_destroy i) ;;
     ret tt) s.
Proof.
  unfold releases_at, ROC_FFT_CHECK_INVALID_VALUE, backend_call, bind, ret,
    return_.
  cbn [fst snd].
  set (c := rocfft_execution_info_destroy i).
  exists [(c, rocfft (trace s) c)].
  destruct (ok (rocfft (trace s) c)) eqn:E; cbn [fst snd].
  - split; [reflexivity |]. split; [reflexivity |].
    constructor; [auto | constructor].
  - split; [reflexivity |]. split; [reflexivity |].
    split; [reflexivity |]. exists [], c, (rocfft (trace s) c). auto.
Qed.

(** The body of [hipfftDestroy] on a handle that is not null. *)
Definition destroy_body (rocfft : backend) : M unit :=
  destroy_slot rocfft slot_ip_forward ;;
  destroy_slot rocfft slot_op_forward ;;
  destroy_slot rocfft slot_ip_inverse ;;
  destroy_slot rocfft slot_op_inverse ;;
  p <- get_plan ;;
  when (workBufferNeedsFree p)
    (backend_call rocfft (hipFree (workBuffer p)) ;; ret tt) ;;
  ROC_FFT_CHECK_INVALID_VALUE rocfft
    (rocfft_execution_info_destroy (info p)) ;;
  ret tt.

Lemma destroy_body_releases (rocfft : backend) (s : state) :
  releases_at rocfft (destroy_calls (plan s)) (destroy_body rocfft) s.
Proof.
  unfold destroy_body, destroy_calls.
  apply releases_bind; [apply releases_slot |]. intros evs1.
  apply releases_bind; [apply (releases_slot _ _ (record evs1 s)) |].
  intros evs2.
  apply releases_bind;
    [apply (releases_slot _ _ (record evs2 (record evs1 s))) |].
  intros evs3.
  apply releases_bind;
    [apply (releases_slot _ _
              (record evs3 (record evs2 (record evs1 s)))) |].
  intros evs4.
  set (s4 := record evs4 _).
  change (releases_at rocfft
            (buffer_release (plan s4)
             ++ [rocfft_execution_info_destroy (info (plan s4))])
            (when (workBufferNeedsFree (plan s4))
               (backend_call rocfft (hipFree (workBuffer (plan s4))) ;;
                ret tt) ;;
             ROC_FFT_CHECK_INVALID_VALUE rocfft
               (rocfft_execution_info_destroy (info (plan s4))) ;;
             ret tt)
            s4).
  apply releases_bind; [apply releases_buffer |].
  intros evs5. apply releases_info.
Qed.

Lemma destroy_plan_body (rocfft : backend) (s : state) :
  hipfftDestroy rocfft handle_plan s
  = match destroy_body rocfft s with
    | (inl r, s') => (r, s')
    | (inr _, s') => (HIPFFT_SUCCESS, s')
    end.
Proof.
  unfold hipfftDestroy, destroy_body, body. unfold bind at 1.
  match goal with
  | |- context [match ?m s with _ => _ end] => destruct (m s) as [[r | []] s']
  end; reflexivity.
Qed.

(** [hipfftDestroy] on a null handle does nothing and succeeds.  On a
    plan object it issues the release calls of the object in order: the
    destruction of the plan of each slot that is not empty, the freeing
    of the work buffer if the object owns it, and the destruction of the
    execution info.  It stops at the first refused call other than the
    freeing, with [HIPFFT_INVALID_VALUE], leaving what follows
    unreleased; a refused freeing is passed over.  It returns
    [HIPFFT_SUCCESS] exactly when it has issued all the calls and none
    but the freeing was refused.  The members of the object are not
    reset. *)
Theorem destroy_releases :
  forall (rocfft : backend) (s : state),
    hipfftDestroy rocfft handle_null s = (HIPFFT_SUCCESS, s)
    /\ let run := hipfftDestroy rocfft handle_plan s in
       exists evs : list event,
         run.2 = record evs s
         /\ map fst evs `prefix_of` destroy_calls (plan s)
         /\ (run.1 = HIPFFT_SUCCESS
             <-> map fst evs = destroy_calls (plan s)
                 /\ Forall (fun e => is_hipFree e.1 = false -> ok e.2 = true)
                           evs)
         /\ (run.1 <> HIPFFT_SUCCESS ->
             run.1 = HIPFFT_INVALID_VALUE
             /\ exists evs' c a,
                  evs = evs' ++ [(c, a)] /\ ok a = false
                  /\ is_hipFree c = false).
Proof.
  intros rocfft s. split; [reflexivity |]. intros run.
  assert (Hrun : run = match destroy_body rocfft s with
                       | (inl r, s') => (r, s')
                       | (inr _, s') => (HIPFFT_SUCCESS, s')
                       end) by apply destroy_plan_body.
  clearbody run.
  destruct (destroy_body_releases rocfft s) as (evs & Hs & H).
  destruct (destroy_body rocfft s) as [[r | []] s']; cbn [fst snd] in *;
    subst s' run; cbn [fst snd]; exists evs; (split; [reflexivity |]).
  - destruct H as (-> & Hp & evs' & c & a & -> & Hok & Hfree).
    split; [exact Hp |]. split.
    + split; [discriminate |]. intros [_ Hall].
      apply Forall_app in Hall. destruct Hall as [_ Hall].
      inversion Hall as [| ? ? Hc _]; subst. simpl in Hc.
      rewrite (Hc Hfree) in Hok. discriminate Hok.
    + intros _. split; [reflexivity |]. exists evs', c, a. auto.
  - destruct H as [Hc Hall]. split; [rewrite Hc; reflexivity |]. split.
    + split; auto.
    + intros E. contradiction E. reflexivity.
Qed.

(** ** The entry points that create their own plan object *)

(** [HIP_FFT_CHECK_AND_RETURN(f(...))] with a call of a function of this
    file for its argument.  The macro (lines 47-54) names its argument
    twice, [auto code = ret; if(code != HIPFFT_SUCCESS) { return ret; }]:
    when the call does not succeed it is made a second time, and the
    enclosing function returns what the second call returns. *)
Definition HIP_FFT_CHECK_AND_RETURN_call
    (f : state -> hipfftResult * state) : M unit :=
  fun s =>
    let '(code, s1) := f s in
    if hipfftResult_eqb code HIPFFT_SUCCESS then (inr tt, s1)
    else let '(r, s2) := f s1 in (inl r, s2).

(** A function whose handle is a local variable: the calls on the handle
    act on the object it designates; at the return the state follows the
    caller's plan object again. *)
Definition with_local_handle (f : state -> hipfftResult * state)
  : state -> hipfftResult * state :=
  fun s => let '(r, s') := f s in (r, with_plan (plan s) s').

(** [hipfftHandle handle = nullptr;
     HIP_FFT_CHECK_AND_RETURN(hipfftCreate(&handle));
     *plan = handle;]
    (lines 286-288 and their four copies).  The caller's handle is set
    only when the first [hipfftCreate] succeeds. *)
Definition create_handle (rocfft : backend) : M unit :=
  fun s =>
    let '(code, s1) := hipfftCreate rocfft s in
    if hipfftResult_eqb code HIPFFT_SUCCESS then (inr tt, s1)
    else let '(r, s2) := with_local_handle (hipfftCreate rocfft) s1 in
         (inl r, s2).

(** [hipfftPlan1d], lines 284-291. *)
Definition hipfftPlan1d (rocfft : backend) (nx : Z) (type : hipfftType)
    (batch : Z) : state -> hipfftResult * state :=
  body (
    create_handle rocfft ;;
    invoke (hipfftMakePlan1d rocfft nx type batch nullptr)).

(** [hipfftPlan2d], lines 293-300. *)
Definition hipfftPlan2d (rocfft : backend) (nx ny : Z) (type : hipfftType)
  : state -> hipfftResult * state :=
  body (
    create_handle rocfft ;;
    invoke (hipfftMakePlan2d rocfft nx ny type nullptr)).

(** [hipfftPlan3d], lines 302-309. *)
Definition hipfftPlan3d (rocfft : backend) (nx ny nz : Z) (type : hipfftType)
  : state -> hipfftResult * state :=
  body (
    create_handle rocfft ;;
    invoke (hipfftMakePlan3d rocfft nx ny nz type nullptr)).

(** [hipfftPlanMany], lines 311-329. *)
Definition hipfftPlanMany (rocfft : backend) (rank : Z) (n : list Z)
    (inembed : option (list Z)) (istride idist : Z)
    (onembed : option (list Z)) (ostride odist : Z)
    (type : hipfftType) (batch : Z) : state -> hipfftResult * state :=
  body (
    create_handle rocfft ;;
    invoke (hipfftMakePlanMany rocfft rank n inembed istride idist
              onembed ostride odist type batch nullptr)).

(** [hipfftPlanMany64], lines 331-349. *)
Definition hipfftPlanMany64 (rocfft : backend) (rank : Z) (n : list Z)
    (inembed : option (list Z)) (istride idist : Z)
    (onembed : option (list Z)) (ostride odist : Z)
    (type : hipfftType) (batch : Z) : state -> hipfftResult * state :=
  body (
    create_handle rocfft ;;
    invoke (hipfftMakePlanMany64 rocfft rank n inembed istride idist
              onembed ostride odist type batch nullptr)).

(** The common shape of [hipfftGetSize1d], [hipfftGetSize2d],
    [hipfftGetSize3d] (lines 1016-1021 and their copies) and of the end of
    [hipfftXtGetSizeMany] (lines 1470-1476): a plan object of their own is
    created, the plan is made on it, and it is destroyed. *)
Definition measure (rocfft : backend)
    (make : state -> hipfftResult * state) : M hipfftResult :=
  HIP_FFT_CHECK_AND_RETURN_call (hipfftCreate rocfft) ;;
  HIP_FFT_CHECK_AND_RETURN_call make ;;
  HIP_FFT_CHECK_AND_RETURN_call (hipfftDestroy rocfft handle_plan) ;;
  ret HIPFFT_SUCCESS.

(** [hipfftGetSize1d], lines 1007-1022.  The argument [plan] is not
    used. *)
Definition hipfftGetSize1d (rocfft : backend) (h : hipfftHandle)
    (nx : Z) (type : hipfftType) (batch : Z) (workSize : pointer)
  : state -> hipfftResult * state :=
  with_local_handle (body (
    (if (nx <? 0) || (batch <? 0)
     then return_ HIPFFT_INVALID_SIZE else ret tt) ;;
    measure rocfft (hipfftMakePlan1d rocfft nx type batch workSize))).

(** [hipfftGetSize2d], lines 1024-1037. *)
Definition hipfftGetSize2d (rocfft : backend) (h : hipfftHandle)
    (nx ny : Z) (type : hipfftType) (workSize : pointer)
  : state -> hipfftResult * state :=
  with_local_handle (body (
    (if (nx <? 0) || (ny <? 0)
     then return_ HIPFFT_INVALID_SIZE else ret tt) ;;
    measure rocfft (hipfftMakePlan2d rocfft nx ny type workSize))).

(** [hipfftGetSize3d], lines 1039-1053. *)
Definition hipfftGetSize3d (rocfft : backend) (h : hipfftHandle)
    (nx ny nz : Z) (type : hipfftType) (workSize : pointer)
  : state -> hipfftResult * state :=
  with_local_handle (body (
    (if (nx <? 0) || (ny <? 0) || (nz <? 0)
     then return_ HIPFFT_INVALID_SIZE else ret tt) ;;
    measure rocfft (hipfftMakePlan3d rocfft nx ny nz type workSize))).

(** The common shape of [hipfftGetSizeMany] and [hipfftGetSizeMany64]
    (lines 1069-1075 and 1091-1097): the plan is made on a plan object of
    their own with a null [workSize], the size is read from the object
    and stored through the argument [workSize], and the object is
    destroyed.  The argument is not tested against null: the store is
    [*workSize = p->workBufferSize], which C++ leaves undefined for a
    null [workSize]; it stands here as the store to the caller's work
    size.  When the first [hipfftPlanMany] returns [HIPFFT_SUCCESS] from
    its second [hipfftCreate], [p] is not set and the read of
    [p->workBufferSize] is undefined as well; it stands here as a read
    of the plan object of the state. *)
Definition measure_many (rocfft : backend)
    (plan_many : state -> hipfftResult * state) : M hipfftResult :=
  HIP_FFT_CHECK_AND_RETURN_call plan_many ;;
  p <- get_plan ;;
  write_workSize (workBufferSize p) ;;
  HIP_FFT_CHECK_AND_RETURN_call (hipfftDestroy rocfft handle_plan) ;;
  ret HIPFFT_SUCCESS.

(** [hipfftGetSizeMany], lines 1055-1076. *)
Definition hipfftGetSizeMany (rocfft : backend) (h : hipfftHandle)
    (rank : Z) (n : list Z)
    (inembed : option (list Z)) (istride idist : Z)
    (onembed : option (list Z)) (ostride odist : Z)
    (type : hipfftType) (batch : Z) (workSize : pointer)
  : state -> hipfftResult * state :=
  with_local_handle (body (
    measure_many rocfft
      (hipfftPlanMany rocfft rank n inembed istride idist
                      onembed ostride odist type batch))).

(** [hipfftGetSizeMany64], lines 1078-1098. *)
Definition hipfftGetSizeMany64 (rocfft : backend) (h : hipfftHandle)
    (rank : Z) (n : list Z)
    (inembed : option (list Z)) (istride idist : Z)
    (onembed : option (list Z)) (ostride odist : Z)
    (type : hipfftType) (batch : Z) (workSize : pointer)
  : state -> hipfftResult * state :=
  with_local_handle (body (
    measure_many rocfft
      (hipfftPlanMany64 rocfft rank n inembed istride idist
                        onembed ostride odist type batch))).

(** [hipfftXtGetSizeMany], lines 1452-1477. *)
Definition hipfftXtGetSizeMany (rocfft : backend) (h : hipfftHandle)
    (rank : Z) (n : list Z)
    (inembed : option (list Z)) (istride idist : Z)
    (inputtype : hipDataType)
    (onembed : option (list Z)) (ostride odist : Z)
    (outputtype : hipDataType)
    (batch : Z) (workSize : pointer) (executiontype : hipDataType)
  : state -> hipfftResult * state :=
  with_local_handle (body (
    let '(r, iotype) :=
      hipfftIOType.init hipfftIOType.default
                        inputtype outputtype executiontype in
    HIP_FFT_CHECK_AND_RETURN r ;;
    measure rocfft
      (hipfftMakePlanMany_internal rocfft rank n inembed istride idist
         onembed ostride odist iotype batch workSize))).

(** [hipfftEstimate1d], [hipfftEstimate2d], [hipfftEstimate3d] and
    [hipfftEstimateMany], lines 968-1005. *)
Definition hipfftEstimate1d (rocfft : backend) (nx : Z) (type : hipfftType)
    (batch : Z) (workSize : pointer) : state -> hipfftResult * state :=
  hipfftGetSize1d rocfft handle_null nx type batch workSize.

Definition hipfftEstimate2d (rocfft : backend) (nx ny : Z)
    (type : hipfftType) (workSize : pointer)
  : state -> hipfftResult * state :=
  hipfftGetSize2d rocfft handle_null nx ny type workSize.

Definition hipfftEstimate3d (rocfft : backend) (nx ny nz : Z)
    (type : hipfftType) (workSize : pointer)
  : state -> hipfftResult * state :=
  hipfftGetSize3d rocfft handle_null nx ny nz type workSize.

Definition hipfftEstimateMany (rocfft : backend) (rank : Z) (n : list Z)
    (inembed : option (list Z)) (istride idist : Z)
    (onembed : option (list Z)) (ostride odist : Z)
    (type : hipfftType) (batch : Z) (workSize : pointer)
  : state -> hipfftResult * state :=
  hipfftGetSizeMany rocfft handle_null rank n inembed istride idist
                    onembed ostride odist type batch workSize.

Lemma create_outcome (rocfft : backend) (s : state) :
  hipfftCreate rocfft s
  = let a := rocfft (trace s) rocfft_execution_info_create in
    (if ok a then HIPFFT_SUCCESS else HIPFFT_INVALID_VALUE,
     record [(rocfft_execution_info_create, a)]
       (if ok a then with_plan (set_info (out a) new_hipfftHandle_t) s
        else s)).
Proof.
  unfold hipfftCreate. run. cbv zeta.
  destruct (ok (rocfft (trace s) rocfft_execution_info_create)); reflexivity.
Qed.

(** The start of the five [hipfftPlan...] entry points. *)
Lemma create_handle_outcome (rocfft : backend) (s : state) :
  let c := rocfft_execution_info_create in
  let a1 := rocfft (trace s) c in
  let a2 := rocfft (trace s ++ [(c, a1)]) c in
  create_handle rocfft s
  = if ok a1 then (inr tt, (hipfftCreate rocfft s).2)
    else (inl (if ok a2 then HIPFFT_SUCCESS else HIPFFT_INVALID_VALUE),
          record [(c, a1); (c, a2)] s).
Proof.
  cbv zeta. unfold create_handle, with_local_handle.
  rewrite create_outcome. cbv zeta.
  set (c := rocfft_execution_info_create).
  set (a1 := rocfft (trace s) c).
  destruct (ok a1).
  - reflexivity.
  - cbn [hipfftResult_eqb]. rewrite create_outcome. cbv zeta.
    cbn [record trace plan with_plan]. fold c.
    set (a2 := rocfft (trace s ++ [(c, a1)]) c).
    destruct (ok a2); unfold record, with_plan; simpl;
      rewrite <- app_assoc; reflexivity.
Qed.

Lemma plan_outcome (rocfft : backend)
    (make : state -> hipfftResult * state) (s : state) :
  let c := rocfft_execution_info_create in
  let a1 := rocfft (trace s) c in
  let a2 := rocfft (trace s ++ [(c, a1)]) c in
  body (create_handle rocfft ;; invoke make) s
  = if ok a1 then make (hipfftCreate rocfft s).2
    else (if ok a2 then HIPFFT_SUCCESS else HIPFFT_INVALID_VALUE,
          record [(c, a1); (c, a2)] s).
Proof.
  cbv zeta. unfold body, bind, invoke. rewrite create_handle_outcome.
  cbv zeta.
  destruct (ok (rocfft (trace s) rocfft_execution_info_create)).
  - destruct (make _); reflexivity.
  - reflexivity.
Qed.

(** [hipfftPlan1d], [hipfftPlan2d], [hipfftPlan3d], [hipfftPlanMany] and
    [hipfftPlanMany64] ask for an execution info first.  When the backend
    gives it, they are the matching [hipfftMakePlan...] with a null
    [workSize] on the new plan object, which the caller's handle then
    designates whatever the result (a plan object that the plan could
    not be made on is not destroyed).  When the backend refuses it, they
    ask a second time, since [HIP_FFT_CHECK_AND_RETURN] names its argument
    twice, and return what the second [hipfftCreate] returns:
    [HIPFFT_SUCCESS] if the second request is accepted, although no plan
    is made and the caller's handle is left as it was. *)
Theorem plan_entry_points :
  forall (rocfft : backend) (s : state) (nx ny nz batch rank : Z)
         (n : list Z) (inembed : option (list Z)) (istride idist : Z)
         (onembed : option (list Z)) (ostride odist : Z)
         (type : hipfftType),
    let c := rocfft_execution_info_create in
    let a1 := rocfft (trace s) c in
    let a2 := rocfft (trace s ++ [(c, a1)]) c in
    let outcome (run : hipfftResult * state)
                (make : state -> hipfftResult * state) :=
      run = if ok a1 then make (hipfftCreate rocfft s).2
            else (if ok a2 then HIPFFT_SUCCESS else HIPFFT_INVALID_VALUE,
                  record [(c, a1); (c, a2)] s) in
    outcome (hipfftPlan1d rocfft nx type batch s)
            (hipfftMakePlan1d rocfft nx type batch nullptr)
    /\ outcome (hipfftPlan2d rocfft nx ny type s)
               (hipfftMakePlan2d rocfft nx ny type nullptr)
    /\ outcome (hipfftPlan3d rocfft nx ny nz type s)
               (hipfftMakePlan3d rocfft nx ny nz type nullptr)
    /\ outcome (hipfftPlanMany rocfft rank n inembed istride idist
                               onembed ostride odist type batch s)
               (hipfftMakePlanMany rocfft rank n inembed istride idist
                                   onembed ostride odist type batch nullptr)
    /\ outcome (hipfftPlanMany64 rocfft rank n inembed istride idist
                                 onembed ostride odist type batch s)
               (hipfftMakePlanMany64 rocfft rank n inembed istride idist
                                     onembed ostride odist type batch
                                     nullptr).
Proof.
  intros. subst outcome. cbv beta.
  repeat split; apply plan_outcome.
Qed.

(** A backend that refuses the first request of all and accepts every
    later one. *)
Definition refusing_first : backend :=
  fun history c =>
    match history with
    | [] => {| ok := false; out := 0 |}
    | _ => accepting history c
    end.

Lemma plan_entry_points_witness :
  hipfftPlan1d refusing_first 8 HIPFFT_C2C 1 fresh_state
  = (HIPFFT_SUCCESS,
     record [(rocfft_execution_info_create, {| ok := false; out := 0 |});
             (rocfft_execution_info_create, {| ok := true; out := 1001 |})]
            fresh_state).
Proof.
  destruct (plan_entry_points refusing_first fresh_state 8 0 0 1 0 [] None
              0 0 None 0 0 HIPFFT_C2C) as [H _].
  exact H.
Defined.

(** ** What a made plan holds *)

Ltac malloc_event H :=
  cbn [In] in H;
  repeat (destruct H as [H | H]; [try discriminate H |]);
  [injection H as <- <- | destruct H].

(** A work buffer that [allocate_work_buffer] got from the runtime is the
    work buffer of the plan, and the plan owns it. *)
Lemma allocate_work_buffer_owned (rocfft : backend) (w : Z) (s : state) :
  let run := allocate_work_buffer rocfft w s in
  exists evs : list event,
    trace run.2 = trace s ++ evs
    /\ (run.1 = inr tt ->
        forall w' a, In (hipMalloc w', a) evs -> ok a = true ->
                     workBuffer (plan run.2) = out a
                     /\ workBufferNeedsFree (plan run.2) = true).
Proof.
  unfold allocate_work_buffer. run.
  destruct ((0 <? w) && autoAllocate (plan s)).
  2: { exists []. rewrite app_nil_r. split; [reflexivity |].
       intros _ w' a []. }
  destruct (negb (is_null (workBuffer (plan s)))
            && workBufferNeedsFree (plan s)); run.
  - destruct (ok (rocfft (trace s) _)); run.
    2: { eexists. split; [reflexivity |]. discriminate. }
    destruct (ok (rocfft _ (hipMalloc w))); run.
    2: { eexists. rewrite <- app_assoc. split; [reflexivity |]. discriminate. }
    destruct (ok (rocfft _ _)); run;
      (eexists; rewrite <- !app_assoc; cbn [app];
       split; [reflexivity |]); [| discriminate].
    intros _ w' a H _. malloc_event H. split; reflexivity.
  - destruct (ok (rocfft _ (hipMalloc w))); run.
    2: { eexists. split; [reflexivity |]. discriminate. }
    destruct (ok (rocfft _ _)); run;
      (eexists; rewrite <- !app_assoc; cbn [app];
       split; [reflexivity |]); [| discriminate].
    intros _ w' a H _. malloc_event H. split; reflexivity.
Qed.

Lemma same_but_work_buffer_keeps (p q : hipfftHandle_t) :
  same_but_work_buffer p q ->
  info q = info p /\ forall sl, get_slot sl q = get_slot sl p.
Proof.
  intros H. split.
  - apply (f_equal info) in H. exact H.
  - intros []; [apply (f_equal ip_forward) in H | apply (f_equal op_forward) in H
               | apply (f_equal ip_inverse) in H
               | apply (f_equal op_inverse) in H]; exact H.
Qed.

Lemma finish_plan_owned (rocfft : backend) (iotype : hipfftIOType.t)
    (workSize : pointer) (ds : descriptions) (s : state) :
  let run := finish_plan rocfft iotype workSize ds s in
  exists evs : list event,
    trace run.2 = trace s ++ evs
    /\ forall r, run.1 = inr r ->
       forall w a, In (hipMalloc w, a) evs -> ok a = true ->
                   workBuffer (plan run.2) = out a
                   /\ workBufferNeedsFree (plan run.2) = true.
Proof.
  intros run.
  assert (Hrun :
            run
            = match compute_work_buffer_size rocfft iotype s with
              | (inl r, s1) => (inl r, s1)
              | (inr w, s1) =>
                  match allocate_work_buffer rocfft w s1 with
                  | (inl r, s2) => (inl r, s2)
                  | (inr _, s2) => finish_tail rocfft workSize ds w s2
                  end
              end) by reflexivity.
  clearbody run.
  destruct (compute_work_buffer_size_run rocfft iotype s)
    as (evs1 & Hs1 & Hq1 & _).
  assert (Hm1 : forall w a, ~ In (hipMalloc w, a) evs1).
  { intros w a Hin. rewrite List.Forall_forall in Hq1.
    specialize (Hq1 _ Hin). discriminate Hq1. }
  destruct (compute_work_buffer_size rocfft iotype s) as [[r | w] s1];
    cbn [fst snd] in *; subst s1.
  { exists evs1. subst run. split; [reflexivity |]. discriminate. }
  destruct (allocate_work_buffer_owned rocfft w (record evs1 s))
    as (evs2 & Ht2 & Ho2).
  destruct (allocate_work_buffer rocfft w (record evs1 s)) as [[r | []] s2];
    cbn [fst snd record trace] in *.
  { exists (evs1 ++ evs2). subst run. cbn [fst snd].
    rewrite Ht2, app_assoc. split; [reflexivity |]. discriminate. }
  destruct (finish_tail_run rocfft workSize ds w s2)
    as (evs3 & Hrun3 & Hq3 & _).
  assert (Hm3 : forall w a, ~ In (hipMalloc w, a) evs3).
  { intros w' a Hin. rewrite List.Forall_forall in Hq3.
    specialize (Hq3 _ Hin). discriminate Hq3. }
  rewrite Hrun3 in Hrun. subst run. cbn [fst snd record trace plan].
  exists (evs1 ++ evs2 ++ evs3). rewrite Ht2, <- !app_assoc.
  split; [reflexivity |].
  intros r _ w' a Hin Hok. rewrite !in_app_iff in Hin.
  destruct Hin as [Hin | [Hin | Hin]];
    [contradiction (Hm1 _ _ Hin) | | contradiction (Hm3 _ _ Hin)].
  exact (Ho2 eq_refl w' a Hin Hok).
Qed.

(** What a plan object holds after a successful
    [hipfftMakePlan_internal]: in each slot of the direction set the plan
    that the backend made for it, or nothing where the backend refused;
    the work buffer that the call got from the runtime, if it got one,
    which the object then owns; and the execution info it had. *)
Lemma made_plan_holds (rocfft : backend) (s : state)
    (dim : Z) (lengths : list Z) (iotype : hipfftIOType.t) (nt : Z)
    (desc : option hipfft_plan_description_t) (workSize : pointer)
    (re_calc : bool) :
  let run := hipfftMakePlan_internal rocfft dim lengths iotype nt desc
               workSize re_calc s in
  run.1 = HIPFFT_SUCCESS ->
  exists evs : list event,
    trace run.2 = trace s ++ evs
    /\ (forall placement t a,
          In (placement, t, a) (creations evs) ->
          get_slot (slot_of placement t) (plan run.2) = slot_value a)
    /\ (forall w a, In (hipMalloc w, a) evs -> ok a = true ->
                    workBuffer (plan run.2) = out a
                    /\ workBufferNeedsFree (plan run.2) = true)
    /\ info (plan run.2) = info (plan s)
    /\ workBufferSize (plan run.2) = fold_left Z.max (reported_sizes evs) 0
    /\ workSize_out run.2
       = (if is_null workSize then workSize_out s
          else fold_left Z.max (reported_sizes evs) 0).
Proof.
  intros run Hok.
  destruct (make_plan_internal_anatomy rocfft s dim lengths iotype nt desc
              workSize re_calc) as (evs & Hn & H).
  fold run in H.
  assert (Hr0 : reported_sizes evs = []).
  { apply reported_sizes_none. by_calls Hn. }
  destruct H as [(Hr & _) | (ds0 & ds & s3 & _ & _ & _ & _ & Ht & Hw & Hp & Hsl
                             & H)].
  { rewrite Hr in Hok. discriminate Hok. }
  destruct H as [H | H]; [rewrite H in Hok; discriminate Hok |].
  set (s3' := with_plan (set_type iotype (plan s3)) s3) in *.
  destruct (body_run (finish_plan rocfft iotype workSize ds) s3')
    as [Hb1 Hb2].
  rewrite <- H in Hb1, Hb2.
  destruct (changes_body _ _ _ _ s3'
              (finish_plan_changes rocfft iotype workSize ds))
    as [Hp4 _ _ (evs4 & Ht4 & Hf4)].
  rewrite <- H in Hp4, Ht4.
  destruct (finish_plan_owned rocfft iotype workSize ds s3')
    as (evs4' & Ht4' & Ho4).
  rewrite <- Hb2, Ht4 in Ht4'. apply app_inv_head in Ht4'. subst evs4'.
  destruct (same_but_work_buffer_keeps _ _ Hp4) as [Hi4 Hs4].
  assert (Hc4 : creations evs4 = []).
  { apply creations_none.
    eapply (Forall_class is_finish_phase_call); [by_class | exact Hf4]. }
  assert (Hm0 : forall w a, ~ In (hipMalloc w, a) evs).
  { intros w a Hin. rewrite List.Forall_forall in Hn.
    specialize (Hn _ Hin). discriminate Hn. }
  exists (evs ++ evs4). rewrite Ht4. subst s3'. cbn [with_plan trace].
  rewrite Ht, <- app_assoc. split; [reflexivity |].
  split; [| split; [| split]].
  - intros placement t a Hin. rewrite creations_app, Hc4, app_nil_r in Hin.
    rewrite Hs4. cbn [with_plan plan].
    rewrite <- (Hsl placement t a Hin). destruct (slot_of placement t);
      reflexivity.
  - intros w a Hin Hoka. apply in_app_iff in Hin.
    destruct Hin as [Hin | Hin]; [contradiction (Hm0 _ _ Hin) |].
    destruct (finish_plan rocfft iotype workSize ds _).1 as [r | r] eqn:E.
    + destruct (finish_plan_run rocfft iotype workSize ds
                  (with_plan (set_type iotype (plan s3)) s3))
        as (evs5 & _ & _ & Hv).
      rewrite E in Hv. destruct Hv as [Hne _].
      contradiction Hne. transitivity run.1; [symmetry; exact Hb1 | exact Hok].
    + rewrite Hb2. exact (Ho4 r eq_refl w a Hin Hoka).
  - rewrite Hi4. cbn [with_plan plan].
    apply same_but_slots_work_area in Hp. destruct Hp as (_ & _ & _ & Hi).
    exact Hi.
  - rewrite reported_sizes_app, Hr0. cbn [app].
    destruct (finish_plan_run rocfft iotype workSize ds
                (with_plan (set_type iotype (plan s3)) s3))
      as (evs5 & Ht5 & _ & Hv).
    rewrite <- Hb2, Ht4 in Ht5. apply app_inv_head in Ht5. subst evs5.
    destruct (finish_plan rocfft iotype workSize ds _).1 as [r | r].
    + destruct Hv as [Hne _]. contradiction Hne.
      transitivity run.1; [symmetry; exact Hb1 | exact Hok].
    + destruct Hv as (_ & Hsize & Hout & _).
      cbn [with_plan plan workSize_out] in Hsize, Hout.
      rewrite <- Hb2 in Hsize, Hout. rewrite Hsize, Hout, Hw.
      split; reflexivity.
Qed.

Lemma destroy_calls_in (p : hipfftHandle_t) :
  (forall sl, is_null (get_slot sl p) = false ->
              In (rocfft_plan_destroy (get_slot sl p)) (destroy_calls p))
  /\ (workBufferNeedsFree p = true ->
      In (hipFree (workBuffer p)) (destroy_calls p))
  /\ In (rocfft_execution_info_destroy (info p)) (destroy_calls p).
Proof.
  unfold destroy_calls, slot_release, buffer_release. split; [| split].
  - intros sl H. rewrite !in_app_iff.
    destruct sl; cbn [get_slot] in *; rewrite H; simpl; tauto.
  - intros H. rewrite H, !in_app_iff. simpl. tauto.
  - rewrite !in_app_iff. simpl. tauto.
Qed.

(** A successful [hipfftDestroy] has issued all the release calls of the
    object. *)
Lemma destroy_success (rocfft : backend) (s : state) :
  let run := hipfftDestroy rocfft handle_plan s in
  exists evs : list event,
    run.2 = record evs s
    /\ (run.1 = HIPFFT_SUCCESS -> map fst evs = destroy_calls (plan s)).
Proof.
  intros run. subst run. rewrite destroy_plan_body.
  destruct (destroy_body_releases rocfft s) as (evs & Hs & H).
  destruct (destroy_body rocfft s) as [[r | []] s']; cbn [fst snd] in *;
    subst s'; exists evs; (split; [reflexivity |]).
  - destruct H as (-> & _). discriminate.
  - destruct H as [H _]. auto.
Qed.

(** A function that, when it succeeds, has made a plan through
    [hipfftMakePlan_internal]. *)
Definition makes_a_plan (rocfft : backend) (workSize : pointer)
    (make : state -> hipfftResult * state) : Prop :=
  forall s : state,
    (make s).1 = HIPFFT_SUCCESS ->
    exists (dim : Z) (lengths : list Z) (iotype : hipfftIOType.t) (nt : Z)
           (desc : option hipfft_plan_description_t) (re_calc : bool),
      make s = hipfftMakePlan_internal rocfft dim lengths iotype nt desc
                                       workSize re_calc s.

Ltac made_internally :=
  run; cbn [hipfftResult_eqb hipfftIOType.init_type fst snd]; run;
  lazymatch goal with
  | |- _ = _ -> _ => idtac
  end;
  first
    [ discriminate
    | match goal with
  | |- context [hipfftMakePlan_internal ?r ?d ?l ?t ?n ?de ?w ?re ?s] =>
      intros _; exists d, l, t, n, de, re;
      destruct (hipfftMakePlan_internal r d l t n de w re s); reflexivity
      end ].

Lemma make_plan_1d_makes (rocfft : backend) (nx : Z) (type : hipfftType)
    (batch : Z) (workSize : pointer) :
  makes_a_plan rocfft workSize (hipfftMakePlan1d rocfft nx type batch workSize).
Proof.
  intros s. unfold hipfftMakePlan1d, init_iotype.
  destruct ((nx <? 0) || (batch <? 0)); [discriminate |].
  destruct type; made_internally.
Qed.

Lemma make_plan_2d_makes (rocfft : backend) (nx ny : Z) (type : hipfftType)
    (workSize : pointer) :
  makes_a_plan rocfft workSize (hipfftMakePlan2d rocfft nx ny type workSize).
Proof.
  intros s. unfold hipfftMakePlan2d, init_iotype.
  destruct ((nx <? 0) || (ny <? 0)); [discriminate |].
  destruct type; made_internally.
Qed.

Lemma make_plan_3d_makes (rocfft : backend) (nx ny nz : Z)
    (type : hipfftType) (workSize : pointer) :
  makes_a_plan rocfft workSize (hipfftMakePlan3d rocfft nx ny nz type workSize).
Proof.
  intros s. unfold hipfftMakePlan3d, init_iotype.
  destruct ((nx <? 0) || (ny <? 0) || (nz <? 0)); [discriminate |].
  destruct type; made_internally.
Qed.

Lemma make_plan_many_makes (rocfft : backend) (rank : Z) (n : list Z)
    (inembed : option (list Z)) (istride idist : Z)
    (onembed : option (list Z)) (ostride odist : Z)
    (type : hipfftIOType.t) (batch : Z) (workSize : pointer) :
  makes_a_plan rocfft workSize
    (hipfftMakePlanMany_internal rocfft rank n inembed istride idist
                                 onembed ostride odist type batch workSize).
Proof.
  intros s. unfold hipfftMakePlanMany_internal.
  destruct (_ || any_negative rank n); [discriminate |].
  destruct inembed as [i |];
    [destruct (any_negative rank i); [discriminate |] |];
    (destruct onembed as [o |];
     [destruct (any_negative rank o); [discriminate |] |]);
    (destruct (batch <? 0); [discriminate |]);
    (destruct (hipfftIOType.is_real_to_complex type);
     [| destruct (hipfftIOType.is_complex_to_real type)]);
    made_internally.
Qed.

Lemma body_invoke (f : state -> hipfftResult * state) (s : state) :
  body (invoke f) s = f s.
Proof. unfold body, invoke. destruct (f s). reflexivity. Qed.

Lemma body_init {A} (v : A) (k : A -> M hipfftResult) (s : state) :
  body (x <- (ret tt ;; ret v) ;; k x) s = body (k v) s.
Proof. reflexivity. Qed.

Lemma make_plan_many_typed_makes (rocfft : backend) (rank : Z) (n : list Z)
    (inembed : option (list Z)) (istride idist : Z)
    (onembed : option (list Z)) (ostride odist : Z)
    (type : hipfftType) (batch : Z) (workSize : pointer) :
  makes_a_plan rocfft workSize
    (hipfftMakePlanMany rocfft rank n inembed istride idist
                        onembed ostride odist type batch workSize)
  /\ makes_a_plan rocfft workSize
       (hipfftMakePlanMany64 rocfft rank n inembed istride idist
                             onembed ostride odist type batch workSize).
Proof.
  split; intros s; unfold hipfftMakePlanMany, hipfftMakePlanMany64,
    init_iotype;
    destruct type; cbn [hipfftIOType.init_type];
    unfold HIP_FFT_CHECK_AND_RETURN; cbn [hipfftResult_eqb];
    first [ rewrite body_init, body_invoke; apply make_plan_many_makes
          | discriminate ].
Qed.

(** ** Measuring leaves nothing behind *)

(** The calls [released] release what the calls [made] created on a plan
    object whose execution info is [i]: every plan that was created,
    every work buffer that was allocated, and the execution info. *)
Definition all_released (i : pointer) (made released : list event) : Prop :=
  (forall placement t a,
     In (placement, t, a) (creations made) -> ok a = true ->
     out a <> nullptr ->
     In (rocfft_plan_destroy (out a)) (map fst released))
  /\ (forall w a,
        In (hipMalloc w, a) made -> ok a = true ->
        In (hipFree (out a)) (map fst released))
  /\ In (rocfft_execution_info_destroy i) (map fst released).

(** [HIP_FFT_CHECK_AND_RETURN(hipfftDestroy(p))] at the end of a function
    that then returns [HIPFFT_SUCCESS]. *)
Definition destroy_checked (rocfft : backend) (s : state)
  : hipfftResult * state :=
  let d := hipfftDestroy rocfft handle_plan s in
  if hipfftResult_eqb d.1 HIPFFT_SUCCESS then (HIPFFT_SUCCESS, d.2)
  else hipfftDestroy rocfft handle_plan d.2.

Lemma destroy_checked_releases (rocfft : backend) (m : state) (i : pointer)
    (evs : list event) :
  (forall placement t a,
     In (placement, t, a) (creations evs) ->
     get_slot (slot_of placement t) (plan m) = slot_value a) ->
  (forall w a, In (hipMalloc w, a) evs -> ok a = true ->
               workBuffer (plan m) = out a
               /\ workBufferNeedsFree (plan m) = true) ->
  info (plan m) = i ->
  (destroy_checked rocfft m).1 = HIPFFT_SUCCESS ->
  exists released : list event,
    (destroy_checked rocfft m).2 = record released m
    /\ all_released i evs released.
Proof.
  intros Hsl Hbuf Hi Hr.
  destruct (destroy_calls_in (plan m)) as (Hd1 & Hd2 & Hd3).
  assert (Hall : forall released,
             (forall c, In c (destroy_calls (plan m)) ->
                        In c (map fst released)) ->
             all_released i evs released).
  { intros released E. split; [| split].
    - intros placement t a Hin Hoka Hne. apply E.
      specialize (Hsl _ _ _ Hin). unfold slot_value in Hsl.
      rewrite Hoka in Hsl. rewrite <- Hsl. apply Hd1. rewrite Hsl.
      apply Z.eqb_neq. exact Hne.
    - intros w a Hin Hoka. apply E.
      destruct (Hbuf _ _ Hin Hoka) as [<- Hown]. apply Hd2. exact Hown.
    - apply E. rewrite Hi in Hd3. exact Hd3. }
  destruct (destroy_success rocfft m) as (evs1 & Hs1 & Hdone1).
  unfold destroy_checked in *. cbv zeta in *.
  destruct (hipfftResult_eqb (hipfftDestroy rocfft handle_plan m).1
              HIPFFT_SUCCESS) eqn:E1.
  - exists evs1. cbn [snd]. split; [exact Hs1 |].
    apply Hall. intros c Hin. rewrite Hdone1; [exact Hin |].
    destruct ((hipfftDestroy rocfft handle_plan m).1);
      first [reflexivity | discriminate E1].
  - destruct (destroy_success rocfft (hipfftDestroy rocfft handle_plan m).2)
      as (evs2 & Hs2 & Hdone2).
    exists (evs1 ++ evs2). rewrite Hs2, Hs1.
    split; [apply record_app |].
    apply Hall. intros c Hin. rewrite List.map_app, in_app_iff. right.
    change (In c (map fst evs2)).
    rewrite Hdone2; [| exact Hr].
    rewrite Hs1. exact Hin.
Qed.

Lemma measure_outcome (rocfft : backend)
    (make : state -> hipfftResult * state) (s : state) :
  (hipfftCreate rocfft s).1 = HIPFFT_SUCCESS ->
  (make (hipfftCreate rocfft s).2).1 = HIPFFT_SUCCESS ->
  body (measure rocfft make) s
  = destroy_checked rocfft (make (hipfftCreate rocfft s).2).2.
Proof.
  intros Hc Hm.
  unfold measure, body, bind, HIP_FFT_CHECK_AND_RETURN_call, destroy_checked.
  destruct (hipfftCreate rocfft s) as [r1 s1]. cbn [fst snd] in *. subst r1.
  cbn [hipfftResult_eqb].
  destruct (make s1) as [r2 s2]. cbn [fst snd] in *. subst r2.
  cbn [hipfftResult_eqb]. cbv zeta.
  destruct (hipfftDestroy rocfft handle_plan s2) as [r3 s3]. cbn [fst snd].
  destruct (hipfftResult_eqb r3 HIPFFT_SUCCESS); [reflexivity |].
  destruct (hipfftDestroy rocfft handle_plan s3); reflexivity.
Qed.

Lemma measure_many_outcome (rocfft : backend)
    (make : state -> hipfftResult * state) (s : state) :
  (hipfftCreate rocfft s).1 = HIPFFT_SUCCESS ->
  (make (hipfftCreate rocfft s).2).1 = HIPFFT_SUCCESS ->
  body (measure_many rocfft (body (create_handle rocfft ;; invoke make))) s
  = let made := (make (hipfftCreate rocfft s).2).2 in
    destroy_checked rocfft
      (write_workSize (workBufferSize (plan made)) made).2.
Proof.
  intros Hc Hm.
  unfold measure_many, create_handle, invoke, body, bind,
    HIP_FFT_CHECK_AND_RETURN_call, destroy_checked, get_plan.
  destruct (hipfftCreate rocfft s) as [r1 s1]. cbn [fst snd] in *. subst r1.
  cbn [hipfftResult_eqb].
  destruct (make s1) as [r2 s2]. cbn [fst snd] in *. subst r2.
  cbn [hipfftResult_eqb]. cbv zeta.
  set (s3 := (write_workSize (workBufferSize (plan s2)) s2).2).
  change (write_workSize (workBufferSize (plan s2)) s2) with (inr tt : hipfftResult + unit, s3).
  cbv iota beta.
  destruct (hipfftDestroy rocfft handle_plan s3) as [r3 s4]. cbn [fst snd].
  destruct (hipfftResult_eqb r3 HIPFFT_SUCCESS); [reflexivity |].
  destruct (hipfftDestroy rocfft handle_plan s4); reflexivity.
Qed.

(** What a measurement that started at [s] and created its own plan
    object leaves, [made] being the state in which its plan was made:
    the caller's plan object, no plan, work buffer or execution info of
    its own, and, if it stores a size, the largest size that the backend
    reported for a plan.  The backend calls [evs] are all those that made
    the plan, from the creation of the execution info to [made], and
    [released] are all those of the run after [made]. *)
Definition measurement (rocfft : backend) (s : state) (stores : bool)
    (made : state) (run : hipfftResult * state) : Prop :=
  let a0 := rocfft (trace s) rocfft_execution_info_create in
  plan run.2 = plan s
  /\ exists evs released : list event,
       trace made = trace s ++ (rocfft_execution_info_create, a0) :: evs
       /\ trace run.2 = trace made ++ released
       /\ all_released (out a0) evs released
       /\ workSize_out run.2
          = (if stores then fold_left Z.max (reported_sizes evs) 0
             else workSize_out s).

(** The state after a measurement, when the plan object is created and
    the plan is made at the first attempt and the destruction succeeds;
    [always] tells that the size is read from the plan object and stored
    whatever [workSize] is. *)
Lemma measured_state (rocfft : backend) (workSize : pointer)
    (make : state -> hipfftResult * state) (s : state) (always : bool) :
  makes_a_plan rocfft workSize make ->
  let made := make (hipfftCreate rocfft s).2 in
  let m := if always
           then (write_workSize (workBufferSize (plan made.2)) made.2).2
           else made.2 in
  let run := destroy_checked rocfft m in
  (hipfftCreate rocfft s).1 = HIPFFT_SUCCESS ->
  made.1 = HIPFFT_SUCCESS ->
  run.1 = HIPFFT_SUCCESS ->
  measurement rocfft s (always || negb (is_null workSize)) made.2
    (run.1, with_plan (plan s) run.2).
Proof.
  intros Hmake made m run Hc Hm Hr.
  (* the plan object *)
  assert (Hcreate := create_outcome rocfft s). cbv zeta in Hcreate.
  set (a0 := rocfft (trace s) rocfft_execution_info_create) in *.
  assert (Hok0 : ok a0 = true).
  { rewrite Hcreate in Hc. cbn [fst] in Hc.
    destruct (ok a0); [reflexivity | discriminate Hc]. }
  rewrite Hok0 in Hcreate.
  (* the plan made on it *)
  destruct (Hmake _ Hm)
    as (dim & lengths & iotype & nt & desc & re_calc & Emade).
  fold made in Emade.
  destruct (made_plan_holds rocfft (hipfftCreate rocfft s).2 dim lengths
              iotype nt desc workSize re_calc)
    as (evs & Ht & Hsl & Hbuf & Hi & Hsize & Hout).
  { rewrite <- Emade. exact Hm. }
  rewrite <- Emade in Ht, Hsl, Hbuf, Hi, Hsize, Hout.
  fold made in Ht, Hsl, Hbuf, Hi, Hsize, Hout.
  rewrite Hcreate in Ht, Hi, Hout.
  cbn [snd record with_plan trace plan workSize_out] in Ht, Hi, Hout.
  rewrite <- app_assoc in Ht. cbn [app] in Ht.
  (* the state that is destroyed *)
  assert (Hpm : plan m = plan made.2 /\ trace m = trace made.2).
  { subst m. destruct always; split; reflexivity. }
  destruct Hpm as [Hpm Htm].
  assert (Hwm : workSize_out m
                = if always || negb (is_null workSize)
                  then fold_left Z.max (reported_sizes evs) 0
                  else workSize_out s).
  { subst m. destruct always; cbn [orb].
    - unfold write_workSize. cbn [snd workSize_out]. exact Hsize.
    - rewrite Hout. destruct (is_null workSize); reflexivity. }
  clearbody m.
  destruct (destroy_checked_releases rocfft m (out a0) evs)
    as (released & Hs & Hall).
  { intros placement t a Hin. rewrite Hpm. exact (Hsl _ _ _ Hin). }
  { intros w a Hin Hoka. rewrite Hpm. exact (Hbuf _ _ Hin Hoka). }
  { rewrite Hpm. exact Hi. }
  { exact Hr. }
  fold run in Hs. clearbody run.
  split; [reflexivity |].
  exists evs, released. cbn [snd with_plan trace workSize_out].
  rewrite Hs. unfold record. cbn [trace workSize_out].
  rewrite Htm.
  split; [exact Ht |]. split; [reflexivity |].
  split; [exact Hall | exact Hwm].
Qed.

Lemma measured (rocfft : backend) (workSize : pointer)
    (make : state -> hipfftResult * state) (pre : M unit) (s : state) :
  makes_a_plan rocfft workSize make ->
  (pre s).2 = s ->
  let run := with_local_handle (body (pre ;; measure rocfft make)) s in
  (hipfftCreate rocfft s).1 = HIPFFT_SUCCESS ->
  (make (hipfftCreate rocfft s).2).1 = HIPFFT_SUCCESS ->
  run.1 = HIPFFT_SUCCESS ->
  (pre s).1 = inr tt ->
  measurement rocfft s (negb (is_null workSize))
    (make (hipfftCreate rocfft s).2).2 run.
Proof.
  intros Hmake Hpre run Hc Hm Hr Hp.
  assert (Hrun : run = with_local_handle (body (measure rocfft make)) s).
  { subst run. unfold with_local_handle, body, bind.
    destruct (pre s) as [[r | []] s']; cbn [fst snd] in *;
      [discriminate Hp | subst s'; reflexivity]. }
  clearbody run. subst run.
  unfold with_local_handle in *.
  rewrite (measure_outcome rocfft make s Hc Hm) in *.
  assert (H := measured_state rocfft workSize make s false Hmake Hc Hm).
  cbv zeta in H. cbn [orb] in H.
  destruct (destroy_checked rocfft (make (hipfftCreate rocfft s).2).2)
    as [r s'].
  exact (H Hr).
Qed.

Lemma measured_many (rocfft : backend)
    (make : state -> hipfftResult * state) (s : state) :
  makes_a_plan rocfft nullptr make ->
  let run := with_local_handle
               (body (measure_many rocfft
                        (body (create_handle rocfft ;; invoke make)))) s in
  (hipfftCreate rocfft s).1 = HIPFFT_SUCCESS ->
  (make (hipfftCreate rocfft s).2).1 = HIPFFT_SUCCESS ->
  run.1 = HIPFFT_SUCCESS ->
  measurement rocfft s true (make (hipfftCreate rocfft s).2).2 run.
Proof.
  intros Hmake run Hc Hm Hr. subst run.
  unfold with_local_handle in *.
  rewrite (measure_many_outcome rocfft make s Hc Hm) in *.
  assert (H := measured_state rocfft nullptr make s true Hmake Hc Hm).
  cbv zeta in *. cbn [orb] in H.
  destruct (destroy_checked rocfft _) as [r s'].
  exact (H Hr).
Qed.

(** Measuring leaves nothing behind.  When [hipfftGetSize1d],
    [hipfftGetSize2d], [hipfftGetSize3d] or [hipfftXtGetSizeMany] returns
    [HIPFFT_SUCCESS], and its plan object was created and its plan was
    made at the first attempt, the caller's plan object is as before and
    the backend calls of the run are: the creation of an execution info,
    the calls that make the plan, and calls that destroy every plan that
    was created, free every work buffer that was allocated and destroy
    the execution info.  Through a [workSize] that is not null the run
    has stored the largest work buffer size that the backend reported. *)
Theorem measuring_leaves_nothing (rocfft : backend) (s : state)
    (h : hipfftHandle) (workSize : pointer) :
  (hipfftCreate rocfft s).1 = HIPFFT_SUCCESS ->
  let own := (hipfftCreate rocfft s).2 in
  let stores := negb (is_null workSize) in
  (forall nx type batch,
     (hipfftMakePlan1d rocfft nx type batch workSize own).1
     = HIPFFT_SUCCESS ->
     let run := hipfftGetSize1d rocfft h nx type batch workSize s in
     run.1 = HIPFFT_SUCCESS ->
     measurement rocfft s stores
       (hipfftMakePlan1d rocfft nx type batch workSize own).2 run)
  /\ (forall nx ny type,
        (hipfftMakePlan2d rocfft nx ny type workSize own).1
        = HIPFFT_SUCCESS ->
        let run := hipfftGetSize2d rocfft h nx ny type workSize s in
        run.1 = HIPFFT_SUCCESS ->
        measurement rocfft s stores
          (hipfftMakePlan2d rocfft nx ny type workSize own).2 run)
  /\ (forall nx ny nz type,
        (hipfftMakePlan3d rocfft nx ny nz type workSize own).1
        = HIPFFT_SUCCESS ->
        let run := hipfftGetSize3d rocfft h nx ny nz type workSize s in
        run.1 = HIPFFT_SUCCESS ->
        measurement rocfft s stores
          (hipfftMakePlan3d rocfft nx ny nz type workSize own).2 run)
  /\ (forall rank n inembed istride idist inputtype onembed ostride odist
             outputtype batch executiontype,
        (hipfftMakePlanMany_internal rocfft rank n inembed istride idist
           onembed ostride odist
           (hipfftIOType.init hipfftIOType.default
              inputtype outputtype executiontype).2
           batch workSize own).1
        = HIPFFT_SUCCESS ->
        let run := hipfftXtGetSizeMany rocfft h rank n inembed istride idist
                     inputtype onembed ostride odist outputtype batch
                     workSize executiontype s in
        run.1 = HIPFFT_SUCCESS ->
        measurement rocfft s stores
          (hipfftMakePlanMany_internal rocfft rank n inembed istride idist
             onembed ostride odist
             (hipfftIOType.init hipfftIOType.default
                inputtype outputtype executiontype).2
             batch workSize own).2
          run).
Proof.
  intros Hc own stores. split; [| split; [| split]].
  - intros nx type batch Hm run Hr. subst run. unfold hipfftGetSize1d in *.
    apply measured; try assumption.
    + apply make_plan_1d_makes.
    + destruct ((nx <? 0) || (batch <? 0)); reflexivity.
    + destruct ((nx <? 0) || (batch <? 0)); [discriminate Hr | reflexivity].
  - intros nx ny type Hm run Hr. subst run. unfold hipfftGetSize2d in *.
    apply measured; try assumption.
    + apply make_plan_2d_makes.
    + destruct ((nx <? 0) || (ny <? 0)); reflexivity.
    + destruct ((nx <? 0) || (ny <? 0)); [discriminate Hr | reflexivity].
  - intros nx ny nz type Hm run Hr. subst run. unfold hipfftGetSize3d in *.
    apply measured; try assumption.
    + apply make_plan_3d_makes.
    + destruct ((nx <? 0) || (ny <? 0) || (nz <? 0)); reflexivity.
    + destruct ((nx <? 0) || (ny <? 0) || (nz <? 0));
        [discriminate Hr | reflexivity].
  - intros rank n inembed istride idist inputtype onembed ostride odist
           outputtype batch executiontype Hm run Hr.
    subst run. unfold hipfftXtGetSizeMany in *.
    destruct (hipfftIOType.init hipfftIOType.default inputtype outputtype
                executiontype) as [r iotype].
    cbn [snd] in Hm.
    apply measured; try assumption.
    + apply make_plan_many_makes.
    + unfold HIP_FFT_CHECK_AND_RETURN.
      destruct (hipfftResult_eqb r HIPFFT_SUCCESS); reflexivity.
    + unfold HIP_FFT_CHECK_AND_RETURN in *.
      destruct (hipfftResult_eqb r HIPFFT_SUCCESS) eqn:E; [reflexivity |].
      unfold with_local_handle, body, bind, return_ in Hr. cbn in Hr.
      subst r. discriminate E.
Qed.

Lemma measuring_leaves_nothing_witness :
  measurement accepting fresh_state true
    (hipfftMakePlan2d accepting 8 8 HIPFFT_C2C 1
       (hipfftCreate accepting fresh_state).2).2
    (hipfftGetSize2d accepting handle_null 8 8 HIPFFT_C2C 1 fresh_state).
Proof.
  destruct (measuring_leaves_nothing accepting fresh_state handle_null 1)
    as (_ & H & _).
  - vm_compute. reflexivity.
  - apply (H 8 8 HIPFFT_C2C); vm_compute; reflexivity.
Defined.

(** [hipfftGetSizeMany] and [hipfftGetSizeMany64] (and so
    [hipfftEstimateMany]) make a plan on a plan object of their own with
    a null [workSize] and read the size from the object.  When they
    return [HIPFFT_SUCCESS], and the plan object was created and the plan
    was made at the first attempt, they have stored the largest work
    buffer size that the backend reported for a plan, the caller's plan
    object is as before, and every plan, work buffer and execution info
    that the run created has been released.  The size is stored through
    [workSize] without a test, so [workSize] is not null. *)
Theorem get_size_many_measures (rocfft : backend) (s : state)
    (h : hipfftHandle) (rank : Z) (n : list Z)
    (inembed : option (list Z)) (istride idist : Z)
    (onembed : option (list Z)) (ostride odist : Z)
    (type : hipfftType) (batch : Z) (workSize : pointer) :
  is_null workSize = false ->
  (hipfftCreate rocfft s).1 = HIPFFT_SUCCESS ->
  let own := (hipfftCreate rocfft s).2 in
  ((hipfftMakePlanMany rocfft rank n inembed istride idist
      onembed ostride odist type batch nullptr own).1 = HIPFFT_SUCCESS ->
   let run := hipfftGetSizeMany rocfft h rank n inembed istride idist
                onembed ostride odist type batch workSize s in
   run.1 = HIPFFT_SUCCESS ->
   measurement rocfft s true
     (hipfftMakePlanMany rocfft rank n inembed istride idist
        onembed ostride odist type batch nullptr own).2 run)
  /\ ((hipfftMakePlanMany64 rocfft rank n inembed istride idist
         onembed ostride odist type batch nullptr own).1 = HIPFFT_SUCCESS ->
      let run := hipfftGetSizeMany64 rocfft h rank n inembed istride idist
                   onembed ostride odist type batch workSize s in
      run.1 = HIPFFT_SUCCESS ->
      measurement rocfft s true
        (hipfftMakePlanMany64 rocfft rank n inembed istride idist
           onembed ostride odist type batch nullptr own).2 run).
Proof.
  intros _ Hc own.
  destruct (make_plan_many_typed_makes rocfft rank n inembed istride idist
              onembed ostride odist type batch nullptr) as [H32 H64].
  split; intros Hm run Hr; subst run;
    unfold hipfftGetSizeMany, hipfftGetSizeMany64, hipfftPlanMany,
      hipfftPlanMany64 in *;
    apply measured_many; assumption.
Qed.

Lemma get_size_many_measures_witness :
  measurement accepting fresh_state true
    (hipfftMakePlanMany accepting 2 [8; 16] None 1 0 None 1 0
       HIPFFT_R2C 4 nullptr (hipfftCreate accepting fresh_state).2).2
    (hipfftGetSizeMany accepting handle_null 2 [8; 16] None 1 0 None 1 0
       HIPFFT_R2C 4 1 fresh_state).
Proof.
  destruct (get_size_many_measures accepting fresh_state handle_null
              2 [8; 16] None 1 0 None 1 0 HIPFFT_R2C 4 1) as [H _].
  - reflexivity.
  - vm_compute. reflexivity.
  - apply H; vm_compute; reflexivity.
Defined.

(** ** The typed and the explicit entry point *)

(** [hipfftMakePlanMany64] with one of the six transform types is
    [hipfftXtMakePlanMany] with the input and output types that the
    type stands for and the complex execution type of their precision:
    the two calls return the same result and leave the same state,
    backend calls included. *)
Theorem xt_make_plan_many_as_typed :
  forall (rocfft : backend) (s : state) (rank : Z) (n : list Z)
         (inembed : option (list Z)) (istride idist : Z)
         (onembed : option (list Z)) (ostride odist : Z)
         (type : hipfftType) (batch : Z) (workSize : pointer),
    type <> HIPFFT_TYPE_OTHER ->
    let t := (hipfftIOType.init_type hipfftIOType.default type).2 in
    hipfftXtMakePlanMany rocfft rank n inembed istride idist
      (hipfftIOType.inputType t) onembed ostride odist
      (hipfftIOType.outputType t) batch workSize (execution_type t) s
    = hipfftMakePlanMany64 rocfft rank n inembed istride idist
        onembed ostride odist type batch workSize s.
Proof.
  intros rocfft s rank n inembed istride idist onembed ostride odist type
         batch workSize H.
  destruct type; try (contradiction H; reflexivity); reflexivity.
Qed.

Lemma xt_make_plan_many_as_typed_witness :
  hipfftXtMakePlanMany accepting 2 [8; 16] None 1 0 HIP_R_64F None 1 0
    HIP_C_64F 4 nullptr HIP_C_64F
    (after [hipfftCreate accepting] fresh_state)
  = hipfftMakePlanMany64 accepting 2 [8; 16] None 1 0 None 1 0
      HIPFFT_D2Z 4 nullptr (after [hipfftCreate accepting] fresh_state).
Proof.
  apply (xt_make_plan_many_as_typed accepting
           (after [hipfftCreate accepting] fresh_state) 2 [8; 16] None 1 0
           None 1 0 HIPFFT_D2Z 4 nullptr).
  discriminate.
Defined.

(** ** Clearing a callback *)

Lemma with_side_callback_twice (sd : callback_side)
    (c d c' d' : pointer) (b b' : Z) (p : hipfftHandle_t) :
  with_side_callback sd c' d' b' (with_side_callback sd c d b p)
  = with_side_callback sd c' d' b' p.
Proof. destruct sd; reflexivity. Qed.

Lemma with_side_callback_same (sd : callback_side) (p : hipfftHandle_t) :
  with_side_callback sd (side_callback sd p).1.1 (side_callback sd p).1.2
    (side_callback sd p).2 p = p.
Proof. destruct sd, p; reflexivity. Qed.

(** [hipfftXtClearCallback] undoes [hipfftXtSetCallback].  On a plan
    whose side of the callback type holds no callback, a callback that is
    set and then cleared with the same type, both with success, leaves
    the plan object as it was before the two calls; the clearing has
    handed the two bindings of that plan object to the backend again. *)
Theorem clear_callback_round_trip :
  forall (rocfft : backend) (s s1 s2 : state)
         (callbacks callbackData : pointer) (cbtype : hipfftXtCallbackType)
         (sd : callback_side) (role : data_role) (prec : rocfft_precision),
    callback_kind cbtype = Some (sd, role, prec) ->
    callback_matches (type (plan s)) cbtype = true ->
    side_callback sd (plan s) = (nullptr, nullptr, 0) ->
    hipfftXtSetCallback rocfft handle_plan callbacks cbtype callbackData s
    = (HIPFFT_SUCCESS, s1) ->
    hipfftXtClearCallback rocfft handle_plan cbtype s1
    = (HIPFFT_SUCCESS, s2) ->
    plan s2 = plan s
    /\ exists r1 r2 : response,
         trace s2
         = trace s1 ++ [(load_registration (plan s), r1);
                        (store_registration (plan s), r2)].
Proof.
  intros rocfft s s1 s2 callbacks callbackData cbtype sd role prec
         Hk Hm Hempty Hset Hclear.
  rewrite (set_callback_matching _ _ _ _ _ _ _ _ Hk Hm) in Hset.
  apply set_callback_success_gives in Hset.
  destruct Hset as [Hp1 _]. cbn [with_plan plan] in Hp1.
  unfold hipfftXtClearCallback in Hclear.
  assert (Hm1 : callback_matches (type (plan s1)) cbtype = true).
  { rewrite Hp1. destruct sd; exact Hm. }
  rewrite (set_callback_matching _ _ _ _ _ _ _ _ Hk Hm1) in Hclear.
  apply set_callback_success_gives in Hclear.
  destruct Hclear as [Hp2 (r1 & r2 & _ & _ & Ht2)].
  cbn [with_plan plan trace] in Hp2, Ht2.
  assert (Hback : with_side_callback sd nullptr nullptr 0 (plan s1) = plan s).
  { rewrite Hp1, with_side_callback_twice.
    rewrite <- (with_side_callback_same sd (plan s)) at 2.
    rewrite Hempty. reflexivity. }
  rewrite Hback in Hp2, Ht2. split; [exact Hp2 |].
  exists r1, r2. exact Ht2.
Qed.

Lemma clear_callback_round_trip_witness :
  plan (hipfftXtClearCallback accepting handle_plan HIPFFT_CB_LD_COMPLEX
          callback_set_state).2
  = plan fresh_state.
Proof.
  apply (clear_callback_round_trip accepting fresh_state callback_set_state
           (hipfftXtClearCallback accepting handle_plan HIPFFT_CB_LD_COMPLEX
              callback_set_state).2
           4096 8192 HIPFFT_CB_LD_COMPLEX
           load_side complex_data rocfft_precision_single);
    reflexivity.
Defined.

(** A callback whose registration the backend refuses stays in the plan
    object.  When [hipfftXtSetCallback] with a type that matches the plan
    does not return [HIPFFT_SUCCESS], it returns [HIPFFT_INVALID_VALUE],
    the backend has refused the load binding or the store binding, and
    the plan object nevertheless holds the new callback on the side of
    the type, with the shared-memory size of that side reset to 0. *)
Theorem set_callback_refused_keeps :
  forall (rocfft : backend) (s : state)
         (callbacks callbackData : pointer) (cbtype : hipfftXtCallbackType)
         (sd : callback_side) (role : data_role) (prec : rocfft_precision),
    callback_kind cbtype = Some (sd, role, prec) ->
    callback_matches (type (plan s)) cbtype = true ->
    let run := hipfftXtSetCallback rocfft handle_plan callbacks cbtype
                 callbackData s in
    run.1 <> HIPFFT_SUCCESS ->
    run.1 = HIPFFT_INVALID_VALUE
    /\ plan run.2 = with_side_callback sd callbacks callbackData 0 (plan s)
    /\ side_callback sd (plan run.2) = (callbacks, callbackData, 0)
    /\ exists (evs : list event) (c : call) (r : response),
         trace run.2 = trace s ++ evs ++ [(c, r)]
         /\ ok r = false
         /\ (c = load_registration (plan run.2) /\ evs = []
             \/ c = store_registration (plan run.2)
                /\ exists r1, ok r1 = true
                   /\ evs = [(load_registration (plan run.2), r1)]).
Proof.
  intros rocfft s callbacks callbackData cbtype sd role prec Hk Hm run Hr.
  subst run. rewrite (set_callback_matching _ _ _ _ _ _ _ _ Hk Hm) in *.
  unfold registration_outcome in *. cbn [with_plan plan trace] in *.
  set (p := with_side_callback sd callbacks callbackData 0 (plan s)) in *.
  destruct (ok (rocfft (trace s) (load_registration p))) eqn:E1.
  - destruct (ok (rocfft (trace s ++ _) (store_registration p))) eqn:E2;
      cbn [fst snd] in *; [contradiction Hr; reflexivity |].
    split; [reflexivity |]. split; [reflexivity |].
    split; [subst p; destruct sd; reflexivity |].
    exists [(load_registration p, rocfft (trace s) (load_registration p))],
      (store_registration p),
      (rocfft (trace s ++ [(load_registration p,
                            rocfft (trace s) (load_registration p))])
              (store_registration p)).
    split; [reflexivity |]. split; [exact E2 |]. right.
    split; [reflexivity |]. eexists. split; [exact E1 | reflexivity].
  - cbn [fst snd]. split; [reflexivity |]. split; [reflexivity |].
    split; [subst p; destruct sd; reflexivity |].
    exists [], (load_registration p), (rocfft (trace s) (load_registration p)).
    unfold record. cbn [trace plan app].
    split; [reflexivity |]. split; [exact E1 |]. left. auto.
Qed.

Lemma set_callback_refused_keeps_witness :
  side_callback load_side
    (plan (hipfftXtSetCallback no_load_callback handle_plan 4096
             HIPFFT_CB_LD_COMPLEX 8192 fresh_state).2)
  = (4096, 8192, 0).
Proof.
  apply (set_callback_refused_keeps no_load_callback fresh_state 4096 8192
           HIPFFT_CB_LD_COMPLEX load_side complex_data
           rocfft_precision_single);
    [reflexivity | reflexivity | vm_compute; discriminate].
Defined.

(** ** Automatic allocation, when it is on *)

(** The calls on the work buffer among some backend calls. *)
Definition allocation_events (evs : list event) : list event :=
  List.filter (fun e => is_allocation_call e.1) evs.

Lemma allocation_events_app (evs evs' : list event) :
  allocation_events (evs ++ evs')
  = allocation_events evs ++ allocation_events evs'.
Proof. apply List.filter_app. Qed.

Lemma allocation_events_none (evs : list event) :
  Forall (fun e => is_allocation_call e.1 = false) evs ->
  allocation_events evs = [].
Proof.
  induction 1 as [| e evs He _ IH]; [reflexivity |].
  unfold allocation_events in *. simpl. rewrite He. exact IH.
Qed.

Lemma allocation_events_all (evs : list event) :
  Forall (fun e => is_allocation_call e.1 = true) evs ->
  allocation_events evs = evs.
Proof.
  induction 1 as [| e evs He _ IH]; [reflexivity |].
  unfold allocation_events in *. simpl. rewrite He, IH. reflexivity.
Qed.

(** The calls [evs] give the plan a work buffer of [w] bytes of its own:
    the buffer that the plan [p] owned, if any, is freed, a buffer of
    [w] bytes is allocated and bound to the execution info, every call
    is accepted, and the plan [q] holds the new buffer and owns it. *)
Definition allocation_of (p : hipfftHandle_t) (w : Z) (evs : list event)
    (q : hipfftHandle_t) : Prop :=
  exists (frees : list event) (a b : response),
    evs = frees ++ [(hipMalloc w, a);
                    (rocfft_execution_info_set_work_buffer
                       (info p) (out a) w, b)]
    /\ ok a = true /\ ok b = true
    /\ (if negb (is_null (workBuffer p)) && workBufferNeedsFree p
        then exists r, ok r = true /\ frees = [(hipFree (workBuffer p), r)]
        else frees = [])
    /\ workBuffer q = out a
    /\ workBufferNeedsFree q = true.

Lemma allocate_work_buffer_zero (rocfft : backend) (w : Z) (s : state) :
  (0 <? w) = false -> allocate_work_buffer rocfft w s = (inr tt, s).
Proof.
  intros H. unfold allocate_work_buffer, bind, get_plan, when.
  cbn [fst snd]. rewrite H. reflexivity.
Qed.

Lemma allocate_work_buffer_on (rocfft : backend) (w : Z) (s : state) :
  autoAllocate (plan s) = true ->
  (0 <? w) = true ->
  let run := allocate_work_buffer rocfft w s in
  run.1 = inr tt ->
  exists evs : list event,
    trace run.2 = trace s ++ evs
    /\ allocation_of (plan s) w evs (plan run.2).
Proof.
  intros Hon Hw. unfold allocate_work_buffer. run. rewrite Hon, Hw.
  cbn [andb]. unfold allocation_of.
  destruct (negb (is_null (workBuffer (plan s)))
            && workBufferNeedsFree (plan s)); run.
  - destruct (ok (rocfft (trace s) _)) eqn:E0; run; [| discriminate].
    destruct (ok (rocfft _ (hipMalloc w))) eqn:E1; run; [| discriminate].
    destruct (ok (rocfft _ (rocfft_execution_info_set_work_buffer _ _ _)))
      eqn:E2; run; [| discriminate].
    rewrite <- !app_assoc in E2. cbn [app] in E2.
    intros _. rewrite <- !app_assoc. cbn [app].
    eexists. split; [reflexivity |].
    eexists [_]; eexists; eexists. cbn [app].
    split; [reflexivity |]. split; [exact E1 |]. split; [exact E2 |].
    split; [eexists; split; [exact E0 | reflexivity] |].
    split; reflexivity.
  - destruct (ok (rocfft _ (hipMalloc w))) eqn:E1; run; [| discriminate].
    destruct (ok (rocfft _ (rocfft_execution_info_set_work_buffer _ _ _)))
      eqn:E2; run; [| discriminate].
    simpl in E2.
    intros _. rewrite <- !app_assoc. cbn [app].
    eexists. split; [reflexivity |].
    exists []; eexists; eexists. cbn [app].
    split; [reflexivity |]. split; [exact E1 |]. split; [exact E2 |].
    split; [reflexivity |]. split; reflexivity.
Qed.

Lemma finish_plan_on (rocfft : backend) (iotype : hipfftIOType.t)
    (workSize : pointer) (ds : descriptions) (s : state) :
  autoAllocate (plan s) = true ->
  let run := finish_plan rocfft iotype workSize ds s in
  forall r, run.1 = inr r ->
  exists evs : list event,
    trace run.2 = trace s ++ evs
    /\ let size := fold_left Z.max (reported_sizes evs) 0 in
       if 0 <? size
       then allocation_of (plan s) size (allocation_events evs) (plan run.2)
       else allocation_events evs = []
            /\ workBuffer (plan run.2) = workBuffer (plan s)
            /\ workBufferNeedsFree (plan run.2)
               = workBufferNeedsFree (plan s).
Proof.
  intros Hon run r Hr.
  assert (Hrun :
            run
            = match compute_work_buffer_size rocfft iotype s with
              | (inl r, s1) => (inl r, s1)
              | (inr w, s1) =>
                  match allocate_work_buffer rocfft w s1 with
                  | (inl r, s2) => (inl r, s2)
                  | (inr _, s2) => finish_tail rocfft workSize ds w s2
                  end
              end) by reflexivity.
  clearbody run.
  destruct (compute_work_buffer_size_run rocfft iotype s)
    as (evs1 & Hs1 & Hq1 & Hv1).
  assert (Ha1 : allocation_events evs1 = []).
  { apply allocation_events_none.
    eapply (Forall_class is_work_size_query); [by_class | exact Hq1]. }
  destruct (compute_work_buffer_size rocfft iotype s) as [[r1 | w] s1];
    cbn [fst snd] in *; subst s1.
  { subst run. discriminate Hr. }
  destruct (allocate_work_buffer_changes rocfft w (record evs1 s))
    as [_ _ _ (evs2 & Ht2 & Hq2)].
  assert (Hn2 : reported_sizes evs2 = []).
  { clear -Hq2. induction Hq2 as [| [c a] evs Hc _ IH]; [reflexivity |].
    destruct c; try discriminate Hc; assumption. }
  assert (Ha2 : allocation_events evs2 = evs2)
    by (apply allocation_events_all; exact Hq2).
  assert (Hon1 : autoAllocate (plan (record evs1 s)) = true) by exact Hon.
  pose proof (allocate_work_buffer_on rocfft w (record evs1 s) Hon1) as Hal.
  pose proof (allocate_work_buffer_zero rocfft w (record evs1 s)) as Hz.
  cbv zeta in Hal.
  destruct (allocate_work_buffer rocfft w (record evs1 s)) as [[r2 | []] s2]
    eqn:E2; cbn [fst snd record plan trace] in *.
  { subst run. discriminate Hr. }
  destruct (finish_tail_run rocfft workSize ds w s2)
    as (evs3 & Hrun3 & Hq3 & _).
  assert (Hn3 : reported_sizes evs3 = []).
  { clear -Hq3. induction Hq3 as [| [c a] evs Hc _ IH]; [reflexivity |].
    destruct c; try discriminate Hc. exact IH. }
  assert (Ha3 : allocation_events evs3 = []).
  { apply allocation_events_none.
    eapply (Forall_class is_description_destroy); [by_class | exact Hq3]. }
  rewrite Hrun3 in Hrun. subst run.
  cbn [fst snd record plan trace].
  exists (evs1 ++ evs2 ++ evs3). rewrite Ht2, <- !app_assoc.
  split; [reflexivity |]. cbv zeta.
  rewrite !reported_sizes_app, Hn2, Hn3, !app_nil_r, <- Hv1.
  rewrite !allocation_events_app, Ha1, Ha2, Ha3, app_nil_r. cbn [app].
  destruct (0 <? w) eqn:Ew.
  - destruct (Hal eq_refl eq_refl) as (evs2' & Ht2' & H).
    rewrite Ht2 in Ht2'. apply app_inv_head in Ht2'. subst evs2'.
    destruct H as (frees & a & b & He & Hoa & Hob & Hf & Hb & Hn).
    exists frees, a, b.
    split; [exact He |]. split; [exact Hoa |]. split; [exact Hob |].
    split; [exact Hf |]. split; [exact Hb | exact Hn].
  - specialize (Hz eq_refl). injection Hz as ->.
    cbn [record trace] in Ht2.
    rewrite <- (app_nil_r (trace s ++ evs1)) in Ht2 at 1.
    apply app_inv_head in Ht2. subst evs2.
    split; [reflexivity |]. split; reflexivity.
Qed.

(** With automatic allocation on, as it is on a new plan object, a
    successful [hipfftMakePlan_internal] gives the plan a work buffer of
    its own of the largest size that the backend reported: when that size
    is positive, the calls on the work buffer are the release of the
    buffer that the plan owned before, if it owned one, one allocation of
    that size and the binding of the new buffer, with that size, to the
    execution info of the plan, and the plan holds and owns the new
    buffer.  When the size is 0 there is no call on the work buffer, and
    the buffer and its ownership stay as they were. *)
Theorem work_buffer_allocated :
  forall (rocfft : backend) (s : state) (dim : Z) (lengths : list Z)
         (iotype : hipfftIOType.t) (nt : Z)
         (desc : option hipfft_plan_description_t) (workSize : pointer)
         (re_calc : bool),
    let run := hipfftMakePlan_internal rocfft dim lengths iotype nt desc
                 workSize re_calc s in
    autoAllocate (plan s) = true ->
    run.1 = HIPFFT_SUCCESS ->
    exists evs : list event,
      trace run.2 = trace s ++ evs
      /\ let size := fold_left Z.max (reported_sizes evs) 0 in
         workBufferSize (plan run.2) = size
         /\ if 0 <? size
            then allocation_of (plan s) size (allocation_events evs)
                               (plan run.2)
            else allocation_events evs = []
                 /\ workBuffer (plan run.2) = workBuffer (plan s)
                 /\ workBufferNeedsFree (plan run.2)
                    = workBufferNeedsFree (plan s).
Proof.
  intros rocfft s dim lengths iotype nt desc workSize re_calc run Hon Hok.
  destruct (made_plan_holds rocfft s dim lengths iotype nt desc workSize
              re_calc Hok) as (evs' & Ht' & _ & _ & _ & Hsize & _).
  fold run in Ht', Hsize.
  destruct (make_plan_internal_anatomy rocfft s dim lengths iotype nt desc
              workSize re_calc) as (evs & Hn & H).
  fold run in H.
  assert (Hr0 : reported_sizes evs = []).
  { apply reported_sizes_none. by_calls Hn. }
  assert (Ha0 : allocation_events evs = []).
  { apply allocation_events_none. by_calls Hn. }
  destruct H as [(Hr & _) | (ds0 & ds & s3 & _ & _ & _ & _ & Ht & _ & Hp & _
                             & H)].
  { rewrite Hr in Hok. discriminate Hok. }
  destruct H as [H | H]; [rewrite H in Hok; discriminate Hok |].
  apply same_but_slots_work_area in Hp. destruct Hp as (Hb & Hf & Ha & Hi).
  set (s3' := with_plan (set_type iotype (plan s3)) s3) in *.
  destruct (body_run (finish_plan rocfft iotype workSize ds) s3')
    as [Hb1 Hb2].
  rewrite <- H in Hb1, Hb2.
  assert (Hon' : autoAllocate (plan s3') = true)
    by (subst s3'; simpl; congruence).
  pose proof (finish_plan_on rocfft iotype workSize ds s3' Hon') as Hfin.
  cbv zeta in Hfin.
  destruct (finish_plan rocfft iotype workSize ds s3').1 as [r | r] eqn:E.
  { destruct (finish_plan_run rocfft iotype workSize ds s3')
      as (evs5 & _ & _ & Hv).
    rewrite E in Hv. destruct Hv as [Hne _].
    contradiction Hne. transitivity run.1; [symmetry; exact Hb1 | exact Hok]. }
  destruct (Hfin r eq_refl) as (evs4 & Ht4 & Hall).
  rewrite <- Hb2 in Ht4, Hall.
  assert (Et : evs' = evs ++ evs4).
  { rewrite Ht' in Ht4. subst s3'. cbn [with_plan trace] in Ht4.
    rewrite Ht, <- app_assoc in Ht4.
    apply app_inv_head in Ht4. exact Ht4. }
  subst evs'.
  exists (evs ++ evs4). split; [exact Ht' |]. cbv zeta.
  split; [exact Hsize |].
  rewrite reported_sizes_app, Hr0, allocation_events_app, Ha0. cbn [app].
  assert (Hsame : workBuffer (plan s3') = workBuffer (plan s)
                  /\ workBufferNeedsFree (plan s3')
                     = workBufferNeedsFree (plan s)
                  /\ info (plan s3') = info (plan s)).
  { subst s3'. cbn [with_plan plan]. simpl. auto. }
  destruct Hsame as (Hb' & Hf' & Hi').
  unfold allocation_of in *. rewrite Hb', Hf', Hi' in Hall. exact Hall.
Qed.

Lemma work_buffer_allocated_witness :
  allocation_of (plan (after [hipfftCreate accepting] fresh_state)) 4096
    [(hipMalloc 4096, {| ok := true; out := 1006 |});
     (rocfft_execution_info_set_work_buffer 1000 1006 4096,
      {| ok := true; out := 1007 |})]
    (plan (hipfftMakePlan_internal accepting 1 [8]
             (hipfftIOType.Build HIP_R_32F HIP_C_32F) 1 None nullptr false
             (after [hipfftCreate accepting] fresh_state)).2).
Proof.
  destruct (work_buffer_allocated accepting
              (after [hipfftCreate accepting] fresh_state) 1 [8]
              (hipfftIOType.Build HIP_R_32F HIP_C_32F) 1 None nullptr false)
    as (evs & Ht & _ & H).
  - reflexivity.
  - vm_compute. reflexivity.
  - vm_compute in Ht. injection Ht as <-. exact H.
Defined.

(** ** The advanced data layout *)

(** The layout settings among some backend calls, in order. *)
Definition layout_calls (evs : list event) : list call :=
  List.filter is_data_layout (map fst evs).

Lemma layout_calls_app (evs evs' : list event) :
  layout_calls (evs ++ evs') = layout_calls evs ++ layout_calls evs'.
Proof. unfold layout_calls. rewrite List.map_app. apply List.filter_app. Qed.

Lemma layout_calls_none (evs : list event) :
  Forall (fun e => is_data_layout e.1 = false) evs -> layout_calls evs = [].
Proof.
  induction 1 as [| e evs He _ IH]; [reflexivity |].
  unfold layout_calls in *. simpl. rewrite He. exact IH.
Qed.

(** The setting that [set_data_layout] makes on the description [d]. *)
Definition given_layout (desc : hipfft_plan_description_t) (dim : Z)
    (i_strides o_strides : list Z) (d : pointer) : call :=
  rocfft_plan_description_set_data_layout
    d (inArrayType desc) (outArrayType desc)
    dim (firstn (Z.to_nat dim) i_strides) (inDist desc)
    dim (firstn (Z.to_nat dim) o_strides) (outDist desc).

Lemma set_data_layout_call (rocfft : backend) (d : pointer)
    (desc : hipfft_plan_description_t) (dim : Z) (i_strides o_strides : list Z)
    (s : state) :
  let c := given_layout desc dim i_strides o_strides d in
  set_data_layout rocfft d desc dim i_strides o_strides s
  = (if ok (rocfft (trace s) c) then inr tt else inl HIPFFT_INVALID_VALUE,
     record [(c, rocfft (trace s) c)] s).
Proof.
  unfold set_data_layout, given_layout. run. simpl.
  destruct (ok _); reflexivity.
Qed.

Lemma layout_calls_created (e : event) (d : pointer) :
  created_description e = Some d -> layout_calls [e] = [].
Proof. destruct e as [[] a]; simpl; intros H; try discriminate H; reflexivity. Qed.

(** Lines 379-384 and 561-607: four descriptions are created and the
    caller's layout is set on each, up to the first setting that the
    backend refuses. *)
Lemma make_descriptions_given (rocfft : backend) (s0 : state) (dim : Z)
    (lengths : list Z) (desc : hipfft_plan_description_t) :
  let run := make_descriptions rocfft dim lengths (Some desc) false s0 in
  exists (evs : list event) (d0 d1 d2 d3 : pointer),
    let expected :=
      map (given_layout desc dim (firstn 3 (inStrides desc))
             (firstn 3 (outStrides desc))) [d0; d1; d2; d3] in
    trace run.2 = trace s0 ++ evs
    /\ created_descriptions evs = [d0; d1; d2; d3]
    /\ layout_calls evs `prefix_of` expected
    /\ ((exists x, run.1 = inr x) -> layout_calls evs = expected).
Proof.
  intros run.
  assert (Hrun : run
                 = make_descriptions rocfft dim lengths (Some desc) false s0)
    by reflexivity.
  clearbody run. unfold make_descriptions in Hrun.
  destruct (description_create_run rocfft s0) as (e0 & _ & Hc0 & E0).
  unfold bind at 1 in Hrun. rewrite E0 in Hrun. set (s1 := record [e0] s0) in *.
  destruct (description_create_run rocfft s1) as (e1 & _ & Hc1 & E1).
  unfold bind at 1 in Hrun. rewrite E1 in Hrun. set (s2 := record [e1] s1) in *.
  destruct (description_create_run rocfft s2) as (e2 & _ & Hc2 & E2).
  unfold bind at 1 in Hrun. rewrite E2 in Hrun. set (s3 := record [e2] s2) in *.
  destruct (description_create_run rocfft s3) as (e3 & _ & Hc3 & E3).
  unfold bind at 1 in Hrun. rewrite E3 in Hrun. set (s4 := record [e3] s3) in *.
  cbv zeta in Hrun. unfold set_given_layouts in Hrun.
  set (g := given_layout desc dim (firstn 3 (inStrides desc))
              (firstn 3 (outStrides desc))).
  assert (Ht4 : trace s4 = trace s0 ++ [e0; e1; e2; e3]).
  { unfold s4, s3, s2, s1, record. cbn [trace]. rewrite <- !app_assoc.
    reflexivity. }
  assert (Hcr : forall l, Forall (fun e => is_data_layout e.1 = true) l ->
                created_descriptions ([e0; e1; e2; e3] ++ l)
                = [out e0.2; out e1.2; out e2.2; out e3.2]
                /\ layout_calls ([e0; e1; e2; e3] ++ l) = map fst l).
  { intros l Hl.
    change ([e0; e1; e2; e3] ++ l) with ([e0] ++ [e1] ++ [e2] ++ [e3] ++ l).
    rewrite !created_descriptions_app, !layout_calls_app.
    rewrite (created_single e0 _ Hc0), (created_single e1 _ Hc1),
      (created_single e2 _ Hc2), (created_single e3 _ Hc3).
    rewrite (layout_calls_created e0 _ Hc0), (layout_calls_created e1 _ Hc1),
      (layout_calls_created e2 _ Hc2), (layout_calls_created e3 _ Hc3).
    cbn [app].
    assert (H : created_descriptions l = [] /\ layout_calls l = map fst l).
    { clear -Hl. induction Hl as [| [c a] l Hc _ [IH1 IH2]];
        [split; reflexivity |].
      destruct c; try discriminate Hc. split; [exact IH1 |].
      unfold layout_calls in *. cbn [map fst List.filter is_data_layout].
      rewrite IH2. reflexivity. }
    destruct H as [-> ->]. split; reflexivity. }
  clearbody s4. clear E0 E1 E2 E3 s1 s2 s3.
  assert (Hstep : forall l d s,
             trace s = trace s0 ++ [e0; e1; e2; e3] ++ l ->
             trace (record [(g d, rocfft (trace s) (g d))] s)
             = trace s0 ++ [e0; e1; e2; e3]
               ++ l ++ [(g d, rocfft (trace s) (g d))]).
  { intros l d s H. unfold record. cbn [trace]. rewrite H, <- !app_assoc.
    reflexivity. }
  unfold bind in Hrun.
  rewrite (set_data_layout_call rocfft (out e0.2)) in Hrun. fold g in Hrun.
  cbv zeta in Hrun.
  pose proof (Hstep [] (out e0.2) s4 Ht4) as Ht5.
  set (a0 := rocfft (trace s4) (g (out e0.2))) in *.
  set (s5 := record [(g (out e0.2), a0)] s4) in *. clearbody s5.
  exists ([e0; e1; e2; e3] ++ (drop (length (trace s0) + 4) (trace run.2))),
    (out e0.2), (out e1.2), (out e2.2), (out e3.2).
  assert (Hdrop : forall t l, t = trace s0 ++ [e0; e1; e2; e3] ++ l ->
                  drop (length (trace s0) + 4) t = l).
  { intros t l ->.
    rewrite app_assoc, drop_app_length'; [reflexivity |].
    rewrite length_app. reflexivity. }
  destruct (ok a0).
  2: { cbv beta iota in Hrun. subst run. cbn [fst snd].
       rewrite (Hdrop _ _ Ht5).
       match type of Ht5 with
       | _ = _ ++ _ ++ ?l =>
           destruct (Hcr l) as [-> ->]; [repeat constructor |]
       end.
       cbv zeta. split; [exact Ht5 |]. split; [reflexivity |].
       split; [eexists; reflexivity |]. intros [x Hx]. discriminate Hx. }
  cbv beta iota in Hrun.
  rewrite (set_data_layout_call rocfft (out e1.2)) in Hrun. fold g in Hrun.
  cbv zeta in Hrun.
  pose proof (Hstep _ (out e1.2) s5 Ht5) as Ht6.
  set (a1 := rocfft (trace s5) (g (out e1.2))) in *.
  set (s6 := record [(g (out e1.2), a1)] s5) in *. clearbody s6.
  destruct (ok a1).
  2: { cbv beta iota in Hrun. subst run. cbn [fst snd].
       rewrite (Hdrop _ _ Ht6).
       match type of Ht6 with
       | _ = _ ++ _ ++ ?l =>
           destruct (Hcr l) as [-> ->]; [repeat constructor |]
       end.
       cbv zeta. split; [exact Ht6 |]. split; [reflexivity |].
       split; [eexists; reflexivity |]. intros [x Hx]. discriminate Hx. }
  cbv beta iota in Hrun.
  rewrite (set_data_layout_call rocfft (out e2.2)) in Hrun. fold g in Hrun.
  cbv zeta in Hrun.
  pose proof (Hstep _ (out e2.2) s6 Ht6) as Ht7.
  set (a2 := rocfft (trace s6) (g (out e2.2))) in *.
  set (s7 := record [(g (out e2.2), a2)] s6) in *. clearbody s7.
  destruct (ok a2).
  2: { cbv beta iota in Hrun. subst run. cbn [fst snd].
       rewrite (Hdrop _ _ Ht7).
       match type of Ht7 with
       | _ = _ ++ _ ++ ?l =>
           destruct (Hcr l) as [-> ->]; [repeat constructor |]
       end.
       cbv zeta. split; [exact Ht7 |]. split; [reflexivity |].
       split; [eexists; reflexivity |]. intros [x Hx]. discriminate Hx. }
  cbv beta iota in Hrun.
  rewrite (set_data_layout_call rocfft (out e3.2)) in Hrun. fold g in Hrun.
  cbv zeta in Hrun.
  pose proof (Hstep _ (out e3.2) s7 Ht7) as Ht8.
  set (a3 := rocfft (trace s7) (g (out e3.2))) in *.
  set (s8 := record [(g (out e3.2), a3)] s7) in *. clearbody s8.
  assert (H8 : trace run.2 = trace s8).
  { subst run. destruct (ok a3); reflexivity. }
  rewrite (Hdrop _ _ (eq_trans H8 Ht8)).
  match type of Ht8 with
  | _ = _ ++ _ ++ ?l => destruct (Hcr l) as [-> ->]; [repeat constructor |]
  end.
  cbv zeta. split; [exact (eq_trans H8 Ht8) |]. split; [reflexivity |].
  split; [eexists; rewrite app_nil_r; reflexivity |]. intros _. reflexivity.
Qed.

(** The strides of an embedding, fastest dimension first: the stride of
    the fastest dimension is the one given, and each other stride is the
    one before it times the embedding length of the dimension before it,
    in [size_t] arithmetic.  [embed] lists the lengths as the caller
    gives them, slowest dimension first; its first element is not
    read. *)
Fixpoint strides_along (stride : Z) (lens : list Z) : list Z :=
  match lens with
  | [] => []
  | l :: rest => stride :: strides_along (size_mul (to_size_t l) stride) rest
  end.

Definition embedded_strides (stride : Z) (embed : list Z) : list Z :=
  strides_along (to_size_t stride) (rev embed).

(** The array types of lines 857-873. *)
Definition array_types (type : hipfftIOType.t)
  : rocfft_array_type * rocfft_array_type :=
  if hipfftIOType.is_real_to_complex type then
    (rocfft_array_type_real, rocfft_array_type_hermitian_interleaved)
  else if hipfftIOType.is_complex_to_real type then
    (rocfft_array_type_hermitian_interleaved, rocfft_array_type_real)
  else
    (rocfft_array_type_complex_interleaved,
     rocfft_array_type_complex_interleaved).

(** The layout of an embedded transform, as it is set on the description
    [d]. *)
Definition embedded_layout (type : hipfftIOType.t) (rank : Z)
    (inembed : list Z) (istride idist : Z)
    (onembed : list Z) (ostride odist : Z) (d : pointer) : call :=
  rocfft_plan_description_set_data_layout
    d (array_types type).1 (array_types type).2
    rank (embedded_strides istride inembed) (to_size_t idist)
    rank (embedded_strides ostride onembed) (to_size_t odist).

(** The description that [hipfftMakePlanMany_internal] builds when both
    embeddings are given (lines 857-920). *)
Definition embedded_description (type : hipfftIOType.t) (rank : Z)
    (n inembed : list Z) (istride idist : Z)
    (onembed : list Z) (ostride odist : Z) : hipfft_plan_description_t :=
  {| inArrayType := (array_types type).1;
     outArrayType := (array_types type).2;
     inStrides :=
       copy_first rank
         (strides_from rank (reversed rank inembed)
            (<[0%nat := to_size_t istride]>
               (strides_from rank (reversed rank n) [1; 1; 1])))
         [0; 0; 0];
     outStrides :=
       copy_first rank
         (strides_from rank (reversed rank onembed)
            (<[0%nat := to_size_t ostride]>
               (strides_from rank (reversed rank n) [1; 1; 1])))
         [0; 0; 0];
     inDist := to_size_t idist;
     outDist := to_size_t odist |}.

Lemma embedded_strides_computed (rank : Z) (n embed : list Z) (stride : Z) :
  1 <= rank <= 3 ->
  length n = Z.to_nat rank -> length embed = Z.to_nat rank ->
  firstn (Z.to_nat rank)
    (firstn 3
       (copy_first rank
          (strides_from rank (reversed rank embed)
             (<[0%nat := to_size_t stride]>
                (strides_from rank (reversed rank n) [1; 1; 1])))
          [0; 0; 0]))
  = embedded_strides stride embed.
Proof.
  intros Hrank Hn He.
  assert (H : rank = 1 \/ rank = 2 \/ rank = 3) by lia.
  destruct H as [-> | [-> | ->]];
    repeat (destruct n as [| ? n]; try discriminate Hn);
    repeat (destruct embed as [| ? embed]; try discriminate He);
    reflexivity.
Qed.

Lemma any_negative_some (rank : Z) (a : list Z) :
  length a = Z.to_nat rank ->
  any_negative rank a = true -> ~ Forall (fun v => 0 <= v) a.
Proof.
  intros Hlen H Hall. rewrite (any_negative_false rank a Hall) in H.
  discriminate H.
Qed.

Lemma any_negative_all (rank : Z) (a : list Z) :
  length a = Z.to_nat rank ->
  any_negative rank a = false -> Forall (fun v => 0 <= v) a.
Proof.
  intros Hlen. unfold any_negative. rewrite <- Hlen, firstn_all.
  clear Hlen. induction a as [| v a IH]; [constructor |].
  simpl. intros H. apply orb_false_elim in H as [Hv Ha].
  constructor; [apply Z.ltb_ge; exact Hv | apply IH; exact Ha].
Qed.

(** What the checks of lines 835-855 ask of the arguments of a call with
    both embeddings and one length and one embedding size per
    dimension. *)
Definition nonnegative_arguments (n inembed : list Z) (istride idist : Z)
    (onembed : list Z) (ostride odist batch : Z) : Prop :=
  0 <= istride /\ 0 <= idist /\ 0 <= ostride /\ 0 <= odist /\ 0 <= batch
  /\ Forall (fun v => 0 <= v) n
  /\ Forall (fun v => 0 <= v) inembed
  /\ Forall (fun v => 0 <= v) onembed.

Lemma make_plan_many_embedded_checked (rocfft : backend) (s : state)
    (rank : Z) (n inembed : list Z) (istride idist : Z) (onembed : list Z)
    (ostride odist : Z) (type : hipfftIOType.t) (batch : Z)
    (workSize : pointer) :
  0 <= rank ->
  length n = Z.to_nat rank ->
  length inembed = Z.to_nat rank ->
  length onembed = Z.to_nat rank ->
  let run := hipfftMakePlanMany_internal rocfft rank n (Some inembed)
               istride idist (Some onembed) ostride odist type batch
               workSize s in
  nonnegative_arguments n inembed istride idist onembed ostride odist batch
  /\ run = hipfftMakePlan_internal rocfft rank (reversed rank n) type
             (to_size_t batch)
             (Some (embedded_description type rank n inembed istride idist
                      onembed ostride odist))
             workSize false s
  \/ ~ nonnegative_arguments n inembed istride idist onembed ostride odist
         batch
     /\ run.2 = s
     /\ (run.1 = HIPFFT_INVALID_VALUE \/ run.1 = HIPFFT_INVALID_SIZE).
Proof.
  intros Hrank Hn Hi Ho.
  unfold hipfftMakePlanMany_internal. cbn [is_some negb andb orb].
  apply Z.ltb_ge in Hrank. rewrite Hrank. cbn [orb].
  destruct (istride <? 0) eqn:E1;
    [right; split; [intros (H & _); apply Z.ltb_lt in E1; lia
                   | split; [reflexivity | left; reflexivity]] |].
  destruct (idist <? 0) eqn:E2;
    [right; split; [intros (_ & H & _); apply Z.ltb_lt in E2; lia
                   | split; [reflexivity | left; reflexivity]] |].
  destruct (ostride <? 0) eqn:E3;
    [right; split; [intros (_ & _ & H & _); apply Z.ltb_lt in E3; lia
                   | split; [reflexivity | left; reflexivity]] |].
  destruct (odist <? 0) eqn:E4;
    [right; split; [intros (_ & _ & _ & H & _); apply Z.ltb_lt in E4; lia
                   | split; [reflexivity | left; reflexivity]] |].
  cbn [orb].
  destruct (any_negative rank n) eqn:E5;
    [right; split; [intros (_ & _ & _ & _ & _ & H & _);
                    exact (any_negative_some rank n Hn E5 H)
                   | split; [reflexivity | left; reflexivity]] |].
  destruct (any_negative rank inembed) eqn:E6;
    [right; split; [intros (_ & _ & _ & _ & _ & _ & H & _);
                    exact (any_negative_some rank inembed Hi E6 H)
                   | split; [reflexivity | right; reflexivity]] |].
  destruct (any_negative rank onembed) eqn:E7;
    [right; split; [intros (_ & _ & _ & _ & _ & _ & _ & H);
                    exact (any_negative_some rank onembed Ho E7 H)
                   | split; [reflexivity | right; reflexivity]] |].
  destruct (batch <? 0) eqn:E8;
    [right; split; [intros (_ & _ & _ & _ & H & _); apply Z.ltb_lt in E8; lia
                   | split; [reflexivity | right; reflexivity]] |].
  left. split.
  { apply Z.ltb_ge in E1, E2, E3, E4, E8.
    repeat (split; [assumption |]).
    split; [exact (any_negative_all rank n Hn E5) |].
    split; [exact (any_negative_all rank inembed Hi E6) |].
    exact (any_negative_all rank onembed Ho E7). }
  unfold embedded_description, array_types.
  destruct (hipfftIOType.is_real_to_complex type);
    [| destruct (hipfftIOType.is_complex_to_real type)];
    unfold body, bind, ret, invoke;
    destruct (hipfftMakePlan_internal _ _ _ _ _ _ _ _ s); reflexivity.
Qed.

(** The advanced data layout.  A make-plan-many call with a rank from 1
    to 3 and both embeddings hands the caller's layout to the backend as
    it is, the same for the four descriptions, in-place and out-of-place,
    forward and inverse: the strides of the two embeddings, the two
    distances, and the array types of the transform.  The settings are
    made on the first four descriptions created, in order, up to the
    first one that the backend refuses; a call that returns
    [HIPFFT_SUCCESS] has made all four.  The lengths [n] and the first
    element of each embedding have no part in the layout.  With a
    negative stride, distance, batch, length or embedding size nothing
    is asked of the backend.  Otherwise a refused layout setting is the
    last backend call of the run, with every layout setting before it
    accepted, and the call gives [HIPFFT_INVALID_VALUE]; and when no
    layout setting is refused all four are made. *)
Theorem make_plan_many_embedded_layout (rocfft : backend) (s : state)
    (rank : Z) (n inembed : list Z) (istride idist : Z) (onembed : list Z)
    (ostride odist : Z) (type : hipfftIOType.t) (batch : Z)
    (workSize : pointer) :
  1 <= rank <= 3 ->
  length n = Z.to_nat rank ->
  length inembed = Z.to_nat rank ->
  length onembed = Z.to_nat rank ->
  let run := hipfftMakePlanMany_internal rocfft rank n (Some inembed)
               istride idist (Some onembed) ostride odist type batch
               workSize s in
  exists evs : list event,
    let expected :=
      map (embedded_layout type rank inembed istride idist
             onembed ostride odist)
          (firstn 4 (created_descriptions evs)) in
    trace run.2 = trace s ++ evs
    /\ layout_calls evs `prefix_of` expected
    /\ (run.1 = HIPFFT_SUCCESS ->
        layout_calls evs = expected /\ length expected = 4%nat)
    /\ (~ nonnegative_arguments n inembed istride idist onembed ostride
          odist batch ->
        evs = []
        /\ (run.1 = HIPFFT_INVALID_VALUE \/ run.1 = HIPFFT_INVALID_SIZE))
    /\ (nonnegative_arguments n inembed istride idist onembed ostride odist
          batch ->
        stopped is_data_layout evs /\ run.1 = HIPFFT_INVALID_VALUE
        \/ accepted is_data_layout evs
           /\ layout_calls evs = expected /\ length expected = 4%nat).
Proof.
  intros Hrank Hn Hi Ho run.
  destruct (make_plan_many_embedded_checked rocfft s rank n inembed istride
              idist onembed ostride odist type batch workSize
              ltac:(lia) Hn Hi Ho) as [[Hv Hrun] | (Hv & Hs & Hr)];
    fold run in Hrun || fold run in Hs, Hr.
  2: { exists []. cbv zeta. rewrite Hs, app_nil_r.
       split; [reflexivity |]. split; [exists []; reflexivity |].
       split; [intros H; destruct Hr as [Hr | Hr]; rewrite Hr in H;
               discriminate H |].
       split; [auto |]. intros H. contradiction. }
  clearbody run. subst run.
  set (desc := embedded_description type rank n inembed istride idist
                 onembed ostride odist) in *.
  assert (Hg : forall d,
             given_layout desc rank (firstn 3 (inStrides desc))
               (firstn 3 (outStrides desc)) d
             = embedded_layout type rank inembed istride idist
                 onembed ostride odist d).
  { intros d. unfold given_layout, embedded_layout, desc.
    cbn [inStrides outStrides inArrayType outArrayType inDist outDist
         embedded_description].
    rewrite !embedded_strides_computed by assumption. reflexivity. }
  pose proof (make_plan_internal_layouts rocfft s rank (reversed rank n) type
                (to_size_t batch) (Some desc) workSize false) as H.
  cbv zeta in H.
  destruct H as (evs1 & rest & Htm & Ht & Hrest & H).
  pose proof (make_descriptions_given rocfft
                (Build_state (plan s) true (workSize_out s)
                             (trace s ++ first_setup rocfft s))
                rank (reversed rank n) desc) as Hmk.
  cbv zeta in Hmk.
  destruct Hmk as (evs_m & d0 & d1 & d2 & d3 & Htm' & Hcm & Hpre & Hfull).
  rewrite Htm in Htm'. apply app_inv_head in Htm'. subst evs_m.
  cbn [map] in Hpre, Hfull. rewrite !Hg in Hpre, Hfull.
  assert (Hfi : Forall (fun e : event => e.1 = rocfft_setup)
                       (first_setup rocfft s)).
  { unfold first_setup. destruct (rocfft_initialized s); repeat constructor. }
  destruct (setup_events _ Hfi) as [_ Hic].
  assert (Hli : layout_calls (first_setup rocfft s) = []).
  { unfold first_setup. destruct (rocfft_initialized s); reflexivity. }
  assert (Hl : layout_calls (first_setup rocfft s ++ evs1 ++ rest)
               = layout_calls evs1).
  { rewrite !layout_calls_app, Hli, (layout_calls_none rest Hrest),
      app_nil_r. reflexivity. }
  assert (Hc : firstn 4 (created_descriptions
                           (first_setup rocfft s ++ evs1 ++ rest))
               = [d0; d1; d2; d3]).
  { rewrite !created_descriptions_app, Hic, Hcm. reflexivity. }
  exists (first_setup rocfft s ++ evs1 ++ rest). cbv zeta.
  rewrite Hl, Hc. cbn [map].
  split; [exact Ht |]. split; [exact Hpre |].
  destruct (make_descriptions rocfft rank (reversed rank n) (Some desc) false
              _).1 as [r | ds0].
  - destruct H as (-> & Hr & Hstop & _).
    rewrite app_nil_r in *.
    split; [rewrite Hr; discriminate |].
    split; [intros H; contradiction |].
    intros _. left. auto.
  - destruct H as (Hacc & _).
    split; [intros _; split; [apply Hfull; eauto | reflexivity] |].
    split; [intros H; contradiction |].
    intros _. right. split; [exact Hacc |].
    split; [apply Hfull; eauto | reflexivity].
Qed.

Lemma make_plan_many_embedded_layout_witness :
  exists evs : list event,
    trace (hipfftMakePlanMany_internal accepting 3 [4; 8; 16]
             (Some [4; 10; 20]) 2 1000 (Some [4; 8; 16]) 1 512
             (hipfftIOType.Build HIP_C_32F HIP_C_32F) 1 nullptr
             (after [hipfftCreate accepting] fresh_state)).2
    = trace (after [hipfftCreate accepting] fresh_state) ++ evs
    /\ layout_calls evs
       = map (fun d =>
                rocfft_plan_description_set_data_layout d
                  rocfft_array_type_complex_interleaved
                  rocfft_array_type_complex_interleaved
                  3 [2; 40; 400] 1000 3 [1; 16; 128] 512)
             (firstn 4 (created_descriptions evs)).
Proof.
  destruct (make_plan_many_embedded_layout accepting
              (after [hipfftCreate accepting] fresh_state) 3 [4; 8; 16]
              [4; 10; 20] 2 1000 [4; 8; 16] 1 512
              (hipfftIOType.Build HIP_C_32F HIP_C_32F) 1 nullptr)
    as (evs & Ht & _ & H & _); try reflexivity; [lia |].
  exists evs. split; [exact Ht |].
  apply H. vm_compute. reflexivity.
Defined.

(** ** The library version *)

(** [hipfftLibraryPropertyType] (hipfft.h).  hipfft.cpp names three of its
    enumerators; [HIPFFT_PROPERTY_OTHER] stands for any other value: the
    last [else] of [hipfftGetProperty]. *)
Inductive hipfftLibraryPropertyType : Type :=
| HIPFFT_MAJOR_VERSION
| HIPFFT_MINOR_VERSION
| HIPFFT_PATCH_LEVEL
| HIPFFT_PROPERTY_OTHER.

(** [while(std::getline(iss, tmp_str, '.')) sections.push_back(tmp_str);]
    (lines 1254-1260) on the characters [s] that are left of the stream,
    [cur] being the characters of the current section read so far, last
    one first.  A section ends at a dot or at the end of the string; at
    the end of the string a section with no character is not pushed,
    since [getline] then fails. *)
Fixpoint getline_sections (cur s : list ascii) : list (list ascii) :=
  match s with
  | [] => match cur with [] => [] | _ => [rev cur] end
  | c :: s' =>
      if Ascii.eqb c "."%char then rev cur :: getline_sections [] s'
      else getline_sections (c :: cur) s'
  end.

(** [if(sections[i].size() == 1) result << "0" << sections[i];
     else result << sections[i];]. *)
Definition padded (section : list ascii) : list ascii :=
  if (length section =? 1)%nat then "0"%char :: section else section.

(** Lines 1262-1268: the first three sections, each padded. *)
Definition version_digits (sections : list (list ascii)) : list ascii :=
  concat (map padded (firstn 3 sections)).

(** [std::stoi] on a string, in base 10: white space is skipped, a sign
    is taken, then the digits that follow are read, and what comes after
    them is ignored.  [None] stands for the exception that [std::stoi]
    throws when there is no digit ([std::invalid_argument]) or when the
    number is not an [int] ([std::out_of_range]). *)
Definition is_space (c : ascii) : bool :=
  let n := N_of_ascii c in ((n =? 32) || ((9 <=? n) && (n <=? 13)))%N.

Definition digit_value (c : ascii) : option Z :=
  let n := Z.of_N (N_of_ascii c) in
  if (48 <=? n) && (n <=? 57) then Some (n - 48) else None.

Fixpoint skip_spaces (s : list ascii) : list ascii :=
  match s with
  | c :: s' => if is_space c then skip_spaces s' else s
  | [] => []
  end.

Fixpoint read_digits (acc : option Z) (s : list ascii) : option Z :=
  match s with
  | c :: s' =>
      match digit_value c with
      | Some d =>
          read_digits (Some (10 * match acc with Some a => a | None => 0 end
                             + d)) s'
      | None => acc
      end
  | [] => acc
  end.

Definition INT_MAX : Z := 2 ^ 31 - 1.
Definition INT_MIN : Z := - 2 ^ 31.

Definition stoi (s : list ascii) : option Z :=
  let s := skip_spaces s in
  let '(negative, s) :=
    match s with
    | c :: s' =>
        if Ascii.eqb c "-"%char then (true, s')
        else if Ascii.eqb c "+"%char then (false, s')
        else (false, s)
    | [] => (false, s)
    end in
  match read_digits None s with
  | Some v =>
      let v := if negative then - v else v in
      if (INT_MIN <=? v) && (v <=? INT_MAX) then Some v else None
  | None => None
  end.

(** [hipfftGetVersion], lines 1246-1272.  The call
    [rocfft_get_version_string(v, 256)] is not a call on a plan: its
    status ([status], true for [rocfft_status_success]) and the string it
    stores ([v], up to the terminating null character) are arguments
    here.  The result is [None] when an exception of [std::stoi] leaves
    the function; otherwise it is the value returned, with the value
    stored through [version], if one is. *)
Definition hipfftGetVersion (status : bool) (v : list ascii)
  : option (hipfftResult * option Z) :=
  if negb status then Some (HIPFFT_INVALID_VALUE, None)
  else
    let sections := getline_sections [] v in
    match stoi (version_digits sections) with
    | Some version => Some (HIPFFT_SUCCESS, Some version)
    | None => None
    end.

(** [hipfftGetProperty], lines 1274-1293.  The status of
    [hipfftGetVersion(&full)] is not looked at; when it has stored
    nothing, [full] is read uninitialised, which C++ leaves undefined:
    the result is [None] then, as for an exception.  The divisions are
    those of [int], which truncate. *)
Definition hipfftGetProperty (type : hipfftLibraryPropertyType)
    (status : bool) (v : list ascii) : option (hipfftResult * option Z) :=
  match hipfftGetVersion status v with
  | Some (_, Some full) =>
      let major := full ÷ 10000 in
      let minor := (full - major * 10000) ÷ 100 in
      let patch := full - major * 10000 - minor * 100 in
      match type with
      | HIPFFT_MAJOR_VERSION => Some (HIPFFT_SUCCESS, Some major)
      | HIPFFT_MINOR_VERSION => Some (HIPFFT_SUCCESS, Some minor)
      | HIPFFT_PATCH_LEVEL => Some (HIPFFT_SUCCESS, Some patch)
      | HIPFFT_PROPERTY_OTHER => Some (HIPFFT_INVALID_TYPE, None)
      end
  | Some (_, None) => None
  | None => None
  end.

(** The number that a string of decimal digits denotes. *)
Definition numeral (digits : list ascii) : Z :=
  fold_left
    (fun acc c => 10 * acc + match digit_value c with Some d => d | None => 0 end)
    digits 0.

Definition is_digit (c : ascii) : Prop := digit_value c <> None.

Lemma digit_not_dot (c : ascii) : is_digit c -> Ascii.eqb c "."%char = false.
Proof.
  unfold is_digit. intros H. destruct (Ascii.eqb_spec c "."%char) as [-> |];
    [contradiction H; reflexivity | reflexivity].
Qed.

Lemma getline_sections_digits (ds cur s : list ascii) :
  Forall is_digit ds ->
  getline_sections cur (ds ++ s) = getline_sections (rev ds ++ cur) s.
Proof.
  intros H. revert cur. induction H as [| c ds Hc _ IH]; intros cur.
  - reflexivity.
  - cbn [app getline_sections]. rewrite (digit_not_dot c Hc), IH.
    cbn [rev]. rewrite <- app_assoc. reflexivity.
Qed.

Lemma getline_sections_section (ds s : list ascii) :
  Forall is_digit ds ->
  getline_sections [] (ds ++ "."%char :: s) = ds :: getline_sections [] s.
Proof.
  intros H. rewrite (getline_sections_digits ds [] _ H), app_nil_r.
  cbn [getline_sections]. change (Ascii.eqb "." ".") with true. cbv iota.
  rewrite rev_involutive. reflexivity.
Qed.

(** The first three sections of a version string. *)
Lemma version_sections (major minor patch rest : list ascii) :
  Forall is_digit major -> Forall is_digit minor -> Forall is_digit patch ->
  patch <> [] ->
  rest = [] \/ (exists tweak, rest = "."%char :: tweak) ->
  firstn 3 (getline_sections []
              (major ++ "."%char :: minor ++ "."%char :: patch ++ rest))
  = [major; minor; patch].
Proof.
  intros HM Hm Hp Hne Hrest.
  rewrite (getline_sections_section major _ HM),
    (getline_sections_section minor _ Hm).
  destruct Hrest as [-> | [tweak ->]].
  - rewrite app_nil_r.
    rewrite <- (app_nil_r patch) at 1.
    rewrite (getline_sections_digits patch [] [] Hp), app_nil_r.
    cbn [getline_sections].
    destruct (rev patch) eqn:E.
    + apply (f_equal (@rev ascii)) in E. rewrite rev_involutive in E.
      contradiction.
    + rewrite <- E, rev_involutive. reflexivity.
  - rewrite (getline_sections_section patch _ Hp). reflexivity.
Qed.

Lemma digit_value_range (c : ascii) (d : Z) :
  digit_value c = Some d -> 0 <= d <= 9.
Proof.
  unfold digit_value.
  destruct ((48 <=? _) && (_ <=? 57)) eqn:E; [| discriminate].
  intros H. injection H as <-. apply andb_true_iff in E. lia.
Qed.

Lemma fold_numeral (ds : list ascii) (acc : Z) :
  fold_left
    (fun acc c =>
       10 * acc + match digit_value c with Some d => d | None => 0 end)
    ds acc
  = acc * 10 ^ Z.of_nat (length ds) + numeral ds.
Proof.
  unfold numeral. revert acc.
  induction ds as [| c ds IH]; intros acc.
  - simpl. lia.
  - cbn [fold_left length]. rewrite IH, (IH (10 * 0 + _)).
    rewrite Nat2Z.inj_succ, Z.pow_succ_r by lia. lia.
Qed.

Lemma numeral_app (a b : list ascii) :
  numeral (a ++ b) = numeral a * 10 ^ Z.of_nat (length b) + numeral b.
Proof.
  unfold numeral at 1. rewrite fold_left_app. fold (numeral a).
  apply fold_numeral.
Qed.

Lemma numeral_nonneg (ds : list ascii) : 0 <= numeral ds.
Proof.
  induction ds as [| c ds IH] using rev_ind; [reflexivity |].
  rewrite numeral_app. unfold numeral at 2. cbn [fold_left length].
  destruct (digit_value c) as [d |] eqn:E;
    [apply digit_value_range in E |]; lia.
Qed.

Lemma numeral_bound (ds : list ascii) :
  numeral ds < 10 ^ Z.of_nat (length ds).
Proof.
  induction ds as [| c ds IH] using rev_ind; [reflexivity |].
  rewrite numeral_app, length_app. unfold numeral at 2.
  cbn [fold_left length].
  rewrite Nat2Z.inj_add, Z.pow_add_r by lia.
  change (10 ^ Z.of_nat 1) with 10.
  destruct (digit_value c) as [d |] eqn:E;
    [apply digit_value_range in E |]; lia.
Qed.

Lemma numeral_padded (ds : list ascii) : numeral (padded ds) = numeral ds.
Proof.
  unfold padded. destruct (length ds =? 1)%nat; [| reflexivity].
  change ("0"%char :: ds) with (["0"%char] ++ ds).
  rewrite numeral_app. reflexivity.
Qed.

Lemma padded_digits (ds : list ascii) :
  Forall is_digit ds -> Forall is_digit (padded ds).
Proof.
  intros H. unfold padded. destruct (length ds =? 1)%nat; [| exact H].
  constructor; [discriminate | exact H].
Qed.

Lemma padded_length (ds : list ascii) :
  length ds = 1%nat \/ length ds = 2%nat -> length (padded ds) = 2%nat.
Proof.
  unfold padded. intros [H | H]; rewrite H; cbn [Nat.eqb length];
    rewrite ?H; reflexivity.
Qed.

Lemma read_digits_numeral (ds : list ascii) (acc : option Z) :
  Forall is_digit ds -> ds <> [] ->
  read_digits acc ds
  = Some (match acc with Some a => a | None => 0 end
          * 10 ^ Z.of_nat (length ds) + numeral ds).
Proof.
  intros H. revert acc. induction H as [| c ds Hc H IH]; intros acc Hne.
  - contradiction.
  - cbn [read_digits]. unfold is_digit in Hc.
    destruct (digit_value c) as [d |] eqn:E; [| contradiction].
    destruct ds as [| c' ds'].
    + cbn [read_digits length]. unfold numeral. cbn [fold_left].
      rewrite E. f_equal. change (10 ^ Z.of_nat 1) with 10. lia.
    + rewrite IH by discriminate.
      change (c :: c' :: ds') with ([c] ++ c' :: ds').
      rewrite numeral_app. unfold numeral at 2. cbn [fold_left].
      rewrite E. f_equal.
      change (length ([c] ++ c' :: ds')) with (S (length (c' :: ds'))).
      rewrite Nat2Z.inj_succ, Z.pow_succ_r by lia. lia.
Qed.

(** [std::stoi] reads a string of digits as the number it denotes. *)
Lemma stoi_numeral (ds : list ascii) :
  Forall is_digit ds -> ds <> [] -> numeral ds <= INT_MAX ->
  stoi ds = Some (numeral ds).
Proof.
  intros H Hne Hmax. unfold stoi.
  destruct ds as [| c ds]; [contradiction |].
  assert (Hc : is_digit c) by (inversion H; assumption).
  assert (Hs : is_space c = false /\ Ascii.eqb c "-"%char = false
               /\ Ascii.eqb c "+"%char = false).
  { unfold is_digit, digit_value in Hc.
    destruct ((48 <=? _) && (_ <=? 57)) eqn:E; [| contradiction].
    apply andb_true_iff in E. destruct E as [E1 E2].
    apply Z.leb_le in E1, E2. unfold is_space.
    split; [| split].
    - cbv zeta. destruct (N.eqb_spec (N_of_ascii c) 32) as [E | _];
        [rewrite E in E1; cbv in E1; contradiction E1; reflexivity |].
      destruct (N.leb_spec (N_of_ascii c) 13) as [E | _];
        [lia | rewrite andb_false_r; reflexivity].
    - destruct (Ascii.eqb_spec c "-"%char) as [-> |]; [| reflexivity].
      cbv in E1. contradiction E1. reflexivity.
    - destruct (Ascii.eqb_spec c "+"%char) as [-> |]; [| reflexivity].
      cbv in E1. contradiction E1. reflexivity. }
  destruct Hs as (Hs1 & Hs2 & Hs3).
  cbn [skip_spaces]. rewrite Hs1, Hs2, Hs3.
  rewrite (read_digits_numeral _ None H Hne).
  rewrite Z.mul_0_l, Z.add_0_l.
  pose proof (numeral_nonneg (c :: ds)) as H0.
  replace ((INT_MIN <=? numeral (c :: ds)) && (numeral (c :: ds) <=? INT_MAX))
    with true; [reflexivity |].
  symmetry. apply andb_true_iff. unfold INT_MIN in *.
  split; [apply Z.leb_le; lia | apply Z.leb_le; exact Hmax].
Qed.

(** The version as a number.  On a version string
    [major.minor.patch], with or without a fourth section, whose minor
    and patch numbers have one or two digits, [hipfftGetVersion] stores
    [major * 10000 + minor * 100 + patch], and [hipfftGetProperty] gives
    the three numbers back. *)
Theorem version_round_trip :
  forall (major minor patch rest : list ascii),
    Forall is_digit major -> Forall is_digit minor -> Forall is_digit patch ->
    major <> [] ->
    length minor = 1%nat \/ length minor = 2%nat ->
    length patch = 1%nat \/ length patch = 2%nat ->
    rest = [] \/ (exists tweak, rest = "."%char :: tweak) ->
    numeral major * 10000 + 9999 <= INT_MAX ->
    let v := major ++ "."%char :: minor ++ "."%char :: patch ++ rest in
    hipfftGetVersion true v
    = Some (HIPFFT_SUCCESS,
            Some (numeral major * 10000 + numeral minor * 100
                  + numeral patch))
    /\ hipfftGetProperty HIPFFT_MAJOR_VERSION true v
       = Some (HIPFFT_SUCCESS, Some (numeral major))
    /\ hipfftGetProperty HIPFFT_MINOR_VERSION true v
       = Some (HIPFFT_SUCCESS, Some (numeral minor))
    /\ hipfftGetProperty HIPFFT_PATCH_LEVEL true v
       = Some (HIPFFT_SUCCESS, Some (numeral patch)).
Proof.
  intros major minor patch rest HM Hm Hp HMne Hlm Hlp Hrest Hmax v.
  assert (Hpne : patch <> []).
  { intros ->. destruct Hlp as [H | H]; discriminate H. }
  pose proof (numeral_nonneg major) as HM0.
  pose proof (numeral_nonneg minor) as Hm0.
  pose proof (numeral_nonneg patch) as Hp0.
  assert (Hm100 : numeral minor < 100).
  { pose proof (numeral_bound minor) as H.
    destruct Hlm as [E | E]; rewrite E in H;
      change (10 ^ Z.of_nat 1) with 10 in H;
      change (10 ^ Z.of_nat 2) with 100 in H; lia. }
  assert (Hp100 : numeral patch < 100).
  { pose proof (numeral_bound patch) as H.
    destruct Hlp as [E | E]; rewrite E in H;
      change (10 ^ Z.of_nat 1) with 10 in H;
      change (10 ^ Z.of_nat 2) with 100 in H; lia. }
  assert (Hv : hipfftGetVersion true v
               = Some (HIPFFT_SUCCESS,
                       Some (numeral major * 10000 + numeral minor * 100
                             + numeral patch))).
  { unfold hipfftGetVersion, version_digits. cbn [negb]. cbv zeta.
    subst v. rewrite version_sections by assumption.
    cbn [map concat]. rewrite app_nil_r.
    assert (Hn : numeral (padded major ++ padded minor ++ padded patch)
                 = numeral major * 10000 + numeral minor * 100
                   + numeral patch).
    { rewrite !numeral_app, !numeral_padded, length_app,
        !padded_length by assumption.
      change (10 ^ Z.of_nat (2 + 2)) with 10000.
      change (10 ^ Z.of_nat 2) with 100. lia. }
    rewrite stoi_numeral.
    - rewrite Hn. reflexivity.
    - repeat (apply Forall_app; split); apply padded_digits; assumption.
    - intros E. apply app_eq_nil in E. destruct E as [E _].
      unfold padded in E. destruct (length major =? 1)%nat;
        [discriminate E | contradiction].
    - rewrite Hn. lia. }
  split; [exact Hv |].
  unfold hipfftGetProperty. rewrite Hv. cbv zeta.
  set (M := numeral major) in *. set (m := numeral minor) in *.
  set (p := numeral patch) in *.
  assert (E1 : (M * 10000 + m * 100 + p) ÷ 10000 = M).
  { rewrite Z.quot_div_nonneg by lia.
    symmetry. apply (Z.div_unique _ _ _ (m * 100 + p)); lia. }
  rewrite E1.
  assert (E2 : (M * 10000 + m * 100 + p - M * 10000) ÷ 100 = m).
  { rewrite Z.quot_div_nonneg by lia.
    symmetry. apply (Z.div_unique _ _ _ p); lia. }
  rewrite E2.
  split; [reflexivity |]. split; [reflexivity |].
  do 2 f_equal. f_equal. lia.
Qed.

Lemma version_round_trip_witness :
  hipfftGetVersion true
    ["1"; "."; "0"; "."; "3"; "4"; "."; "9"; "7"; "-"; "r"; "c"]%char
  = Some (HIPFFT_SUCCESS, Some 10034)
  /\ hipfftGetProperty HIPFFT_PATCH_LEVEL true
       ["1"; "."; "0"; "."; "3"; "4"; "."; "9"; "7"; "-"; "r"; "c"]%char
     = Some (HIPFFT_SUCCESS, Some 34).
Proof.
  destruct (version_round_trip ["1"]%char ["0"]%char ["3"; "4"]%char
              ["."; "9"; "7"; "-"; "r"; "c"]%char)
    as (H1 & _ & _ & H2).
  - repeat constructor; discriminate.
  - repeat constructor; discriminate.
  - repeat constructor; discriminate.
  - discriminate.
  - left. reflexivity.
  - right. reflexivity.
  - right. eexists. reflexivity.
  - vm_compute. discriminate.
  - split; [exact H1 | exact H2].
Defined.

(** ** A work area of the caller *)

Lemma allocate_work_buffer_no_free (rocfft : backend) (w : Z) (s : state) :
  workBufferNeedsFree (plan s) = false ->
  exists evs : list event,
    trace (allocate_work_buffer rocfft w s).2 = trace s ++ evs
    /\ Forall (fun e => is_hipFree e.1 = false) evs.
Proof.
  intros H. unfold allocate_work_buffer. run. rewrite H, andb_false_r.
  destruct ((0 <? w) && autoAllocate (plan s)); run.
  2: { exists []. rewrite app_nil_r. auto. }
  destruct (ok (rocfft _ (hipMalloc w))); run.
  2: { eexists. split; [reflexivity |]. repeat constructor. }
  destruct (ok (rocfft _ _)); run; rewrite <- !app_assoc; cbn [app];
    (eexists; split; [reflexivity |]); repeat constructor.
Qed.

Lemma finish_plan_no_free (rocfft : backend) (iotype : hipfftIOType.t)
    (workSize : pointer) (ds : descriptions) (s : state) :
  workBufferNeedsFree (plan s) = false ->
  let run := finish_plan rocfft iotype workSize ds s in
  exists evs : list event,
    trace run.2 = trace s ++ evs
    /\ Forall (fun e => is_hipFree e.1 = false) evs.
Proof.
  intros Hoff run.
  assert (Hrun :
            run
            = match compute_work_buffer_size rocfft iotype s with
              | (inl r, s1) => (inl r, s1)
              | (inr w, s1) =>
                  match allocate_work_buffer rocfft w s1 with
                  | (inl r, s2) => (inl r, s2)
                  | (inr _, s2) => finish_tail rocfft workSize ds w s2
                  end
              end) by reflexivity.
  clearbody run.
  destruct (compute_work_buffer_size_run rocfft iotype s)
    as (evs1 & Hs1 & Hq1 & _).
  assert (Hf1 : Forall (fun e => is_hipFree e.1 = false) evs1).
  { eapply (Forall_class is_work_size_query); [by_class | exact Hq1]. }
  destruct (compute_work_buffer_size rocfft iotype s) as [[r | w] s1];
    cbn [fst snd] in *; subst s1.
  { exists evs1. subst run. split; [reflexivity | exact Hf1]. }
  destruct (allocate_work_buffer_no_free rocfft w (record evs1 s) Hoff)
    as (evs2 & Ht2 & Hf2).
  destruct (allocate_work_buffer rocfft w (record evs1 s)) as [[r | []] s2];
    cbn [fst snd record trace] in *.
  { exists (evs1 ++ evs2). subst run. cbn [fst snd].
    rewrite Ht2, app_assoc. split; [reflexivity | apply Forall_app; auto]. }
  destruct (finish_tail_run rocfft workSize ds w s2)
    as (evs3 & Hrun3 & Hq3 & _).
  assert (Hf3 : Forall (fun e => is_hipFree e.1 = false) evs3).
  { eapply (Forall_class is_description_destroy); [by_class | exact Hq3]. }
  rewrite Hrun3 in Hrun. subst run.
  exists (evs1 ++ evs2 ++ evs3). cbn [fst snd record trace].
  rewrite Ht2, <- !app_assoc. split; [reflexivity |].
  repeat (apply Forall_app; split); assumption.
Qed.

(** The library never frees a work area of the caller.
    [hipfftSetWorkArea] leaves the plan object without a work buffer of
    its own, whatever it returns; from there, [hipfftDestroy] issues no
    [hipFree], and neither does [hipfftMakePlan_internal], which may
    allocate a new buffer: the buffer that [hipfftSetWorkArea] freed is
    not freed a second time, and the caller's area is not freed at
    all. *)
Theorem work_area_not_freed :
  forall (rocfft : backend) (s : state) (workArea : pointer)
         (dim : Z) (lengths : list Z) (iotype : hipfftIOType.t) (nt : Z)
         (desc : option hipfft_plan_description_t) (workSize : pointer)
         (re_calc : bool),
    let s1 := (hipfftSetWorkArea rocfft workArea s).2 in
    let destroyed := hipfftDestroy rocfft handle_plan s1 in
    let made := hipfftMakePlan_internal rocfft dim lengths iotype nt desc
                  workSize re_calc s1 in
    workBufferNeedsFree (plan s1) = false
    /\ (exists evs : list event,
          trace destroyed.2 = trace s1 ++ evs
          /\ Forall (fun e => is_hipFree e.1 = false) evs)
    /\ (exists evs : list event,
          trace made.2 = trace s1 ++ evs
          /\ Forall (fun e => is_hipFree e.1 = false) evs).
Proof.
  intros rocfft s workArea dim lengths iotype nt desc workSize re_calc
         s1 destroyed made.
  assert (Hoff : workBufferNeedsFree (plan s1) = false).
  { subst s1. rewrite set_work_area_outcome. cbv zeta.
    destruct (is_null workArea); reflexivity. }
  clearbody s1. split; [exact Hoff |]. split.
  - subst destroyed. rewrite destroy_plan_body.
    destruct (destroy_body_releases rocfft s1) as (evs & Hs & H).
    assert (Hno : Forall (fun c => is_hipFree c = false)
                         (destroy_calls (plan s1))).
    { unfold destroy_calls, slot_release, buffer_release. rewrite Hoff.
      repeat (apply Forall_app; split);
        repeat match goal with
               | |- context [if ?b then _ else _] => destruct b
               end; repeat constructor. }
    assert (Hpre : map fst evs `prefix_of` destroy_calls (plan s1)).
    { destruct (destroy_body rocfft s1).1 as [r | []].
      - destruct H as (_ & Hp & _). exact Hp.
      - destruct H as [-> _]. reflexivity. }
    exists evs. split.
    + destruct (destroy_body rocfft s1) as [[r | []] s'];
        cbn [fst snd] in *; subst s'; reflexivity.
    + destruct Hpre as [k Hk]. rewrite Hk in Hno.
      apply Forall_app in Hno. destruct Hno as [Hno _].
      clear -Hno. induction evs as [| e evs IH]; [constructor |].
      inversion Hno; subst. constructor; auto.
  - destruct (make_plan_internal_anatomy rocfft s1 dim lengths iotype nt desc
                workSize re_calc) as (evs & Hn & H).
    fold made in H.
    assert (Hf0 : Forall (fun e => is_hipFree e.1 = false) evs)
      by (by_calls Hn).
    destruct H as [(_ & _ & Ht & _)
                  | (ds0 & ds & s3 & _ & _ & _ & _ & Ht & _ & Hp & _ & H)].
    { exists evs. auto. }
    destruct H as [H | H].
    { exists evs. rewrite H. cbn [snd]. auto. }
    apply same_but_slots_work_area in Hp. destruct Hp as (_ & Hf & _).
    set (s3' := with_plan (set_type iotype (plan s3)) s3) in *.
    assert (Hoff' : workBufferNeedsFree (plan s3') = false)
      by (subst s3'; simpl; congruence).
    destruct (finish_plan_no_free rocfft iotype workSize ds s3' Hoff')
      as (evs4 & Ht4 & Hf4).
    destruct (body_run (finish_plan rocfft iotype workSize ds) s3')
      as [_ Hb2].
    rewrite <- H in Hb2. rewrite Hb2.
    exists (evs ++ evs4). rewrite Ht4. subst s3'.
    cbn [with_plan trace]. rewrite Ht, <- app_assoc.
    split; [reflexivity | apply Forall_app; auto].
Qed.
